(* ===== verification/_CoqProject ===== *)
-Q . S2P
Prelude.v
Text.v
Errors.v
Externals.v
Signatures.v
Attestation.v
Revocation.v
Challenge.v
Wire.v
Bus.v
Tables.v
Redis.v
Scripts.v
Usage.v
Hub.v
IO.v
Pool.v
Net.v
Config.v
Invariants.v
Limits.v
Presence.v
Rendezvous.v
Push.v
Auth.v
Startup.v
PairRoutes.v
DeviceRoutes.v
PushRoute.v
Bandwidth.v
Connection.v
Inbound.v
Outbound.v
Serve.v
Crossing.v
Session.v
Maintenance.v
Relay.v
Routing.v
Keyspace.v
Directory.v
Examples.v
ExampleRuns.v
