(* ===== verification/Prelude.v ===== *)
(** * HandLive relay: a verification development

    HandLive's relay connects a user's phone and computer across the internet: devices
    register under ids derived from their keys, pairs of devices are attested by
    both, and a WebSocket connection per device carries end-to-end encrypted frames to
    the paired device, across instances through Redis, with push notifications to
    wake sleeping devices.  The relay never reads the frames; what it must get right
    is who may say what to whom.  This library models the two crates under
    [src/crates/] ([relay-server] and [relay-push]) as executable definitions and
    proves that it does.

    ** How the code is modelled

    - Data keeps the code's shape: fixed-size byte arrays ([arr n]), machine integers
      as [Z] with their wrap-around written out ([i64_wrap], [u64_try_from]), strings
      as [string], tables and hash maps as [gmap], [Result] as [result].
    - An asynchronous handler is a program ([IO.prog]) of commands ([IO.cmd]): clocks,
      random bytes, SQL statements and transactions, Redis commands and scripts,
      publications, WebSocket writes, HTTP requests, the usage counters and the hub.
      [exec] gives each command its effect on the [World]; the [Input] of a command
      says what the wall clock shows and how much time passes, what the bus task and
      the instance's other tasks did to the hub since the last command ([i_hub]: messages
      dispatched, connections that come and go), and whether the request or its reply is
      lost, so every error path is an execution.  [runs p w a w'] relates a start to
      every possible end, [run] computes one; [runs_in K] are the executions whose
      inputs all satisfy [K], such as [no_fault], and [runs_with ins] the one under a
      given list of inputs.
    - A theorem stated for every [K] says what an execution owes to its inputs: a clock
      reading [now] with [seen K now] is one the relay made (a [K] that fixes the wall
      clock fixes [now]); what needs lost requests says [lossy K]; [meanwhile K] is what
      others do to the hub.
    - Concurrency is [IO.pool_step]: programs of any number of instances, each with its
      own memory (hub, usage counters, cached provider tokens), interleave between
      commands, as they do in PostgreSQL and Redis; the bus tasks act on each hub between
      the commands.  A Lua script, a [MULTI] block, a transaction and a locked section
      are one command each, as in the code.
    - The database ([Tables]) is three finite maps with the schema's constraints, each
      query a function; Redis ([Redis], [Scripts]) is a keyspace with deadlines.
    - Libraries and services are classes: SHA-256 and Ed25519 ([Crypto]), base64,
      [uuid], [serde_json], [jsonwebtoken], the server's time arithmetic ([Postgres]),
      the keyspace's primitive operations ([RedisServer]).  What the code relies on is
      a class of laws ([CryptoLaws], [RedisLaws], ...), and each has a concrete instance
      in a [Demo] module, so that every theorem is also run on concrete devices
      ([Examples], [ExampleRuns]).

    ** The files and the code they model

    - [Prelude]: bytes, machine words, results, lists; the hint database [relay].
      [Text]: [str] and its parsers.  [Externals]: the classes of the libraries.
    - [Errors] ([error.rs]), [Signatures] ([b64u.rs], [device_identity.rs],
      [signatures.rs]), [Attestation] ([attestation.rs]), [Revocation]
      ([revocation.rs]), [Challenge] ([challenge.rs]), [Wire] ([relay/wire.rs]),
      [Bus] ([relay/bus.rs]), [Net] and [Config] ([config.rs] of both crates): the pure
      parts.
    - [Tables] ([store/], [migrations/]), [Redis] and [Scripts] (the Lua of [limits.rs]
      and [relay/]), [Usage] ([usage.rs]), [Hub] ([relay/hub.rs]): the state and its
      operations.  [IO], [Pool]: commands, executions, interleavings.
    - [Limits] ([limits.rs]), [Presence] ([relay/presence.rs]), [Rendezvous]
      ([relay/rendezvous.rs]), [Push] (the crate [relay-push]), [Auth] ([jwt.rs],
      [routes/auth.rs], [auth_extractor.rs], [store/challenges.rs]), [PairRoutes],
      [DeviceRoutes], [PushRoute] ([routes/]), [Bandwidth] ([relay/bandwidth.rs], in
      binary64 arithmetic): the handlers.
    - [Connection], [Inbound], [Outbound], [Serve] ([relay/connection.rs],
      [relay/inbound.rs], [relay/outbound.rs], [routes/relay_ws.rs]): one WebSocket
      connection, its event loop turn by turn.  [Session]: its whole life.
    - [Maintenance] ([maintenance.rs], [usage.rs]): the background jobs.  [Startup]
      ([main.rs], [state.rs] and the constructors of the push clients): from the
      environment to the listening socket.
    - [Relay] and [Routing] ([routes/mod.rs], [lib.rs]): every task of an instance, and
      the way of a request to its handler.  [Crossing]: a frame end to end, through
      the bus and the queue of the peer's instance.  [Invariants]: what the
      rows of the database have verified.  [Directory]: the abstract specification.
      [Keyspace]: the type of the value each key of Redis holds.

    Every definition that models code names its lines in its comment
    ([file:first-last symbol]); [part] marks a range inside a function.

    ** What the theorems show

    - The whole relay.  Whatever runs on whatever instances in whatever order, the
      database stays certified ([relay_stays_certified]): ids derive from keys, both
      devices signed their pair, a member signed the revocation.  It refines an
      abstract directory ([relay_refines_directory]) of devices that join, are bound,
      revoked once and removed; so a revocation is final ([revocation_final]).  Redis
      keys keep the type of their family, so no command or script of a task is ever
      refused for its operand ([keyspace_typed]).
    - Who may speak.  A token needs a fresh signature over a pending challenge, used
      once in any interleaving ([token_requires_proof], [challenge_single_use]); pairs,
      revocations, removals and pushes do what the signed statements say
      ([pair_registered], [pair_revoked], [device_removed], [removal_told],
      [push_authorized], [registration_spec], [verify_revocations_spec]).
    - Frames.  A connection speaks only for its own device over its whole life
      ([connection_speaks_for_itself], [session_well_formed]); frames reach valid peers
      only, checked on both ends ([text_confined], [delivery_checks_peer],
      [is_peer_spec]), unchanged but for the sender's id ([binary_frame_crosses]), and
      arrive in order at a peer whose queue has room ([frame_arrives]).
      Above the bandwidth limit the relay stops reading and then sends the held frame,
      after the deliveries that wait or arrive meanwhile
      ([held_frame_blocks_reading], [held_frame_sent]).  Opening and closing announce
      the device and clean up after it ([open_spec], [finish_spec]); queues are bounded
      and subscriptions follow the registry ([hub_queue_bounded], [bus_subscriptions]).
    - Limits and formats.  Counters hold in any interleaving ([rate_limit_enforced]),
      the client address is the last untrusted hop ([client_ip_spec]), wakes are
      coalesced ([wakes_coalesced]), a body above its route's limit costs nothing
      ([oversize_refused]); formats round-trip ([attestation_parse_iff],
      [issued_token_verifies]).
    - Jobs and start.  A failed flush loses no count ([flush_keeps_counters]), one
      instance cleans up a day ([cleanup_runs_once]), a push ends
      ([sends_terminate]), and the relay listens only after its key files were read and
      checked, its stores answered and the migrations ran ([starts_in_order]).

    ** Bounds and fuel

    - The loop of a push send has fuel 3 ([Push.loop_fuel]): each pass but the last sets
      one of two flags, and [send_loop_fuel] proves that the fuel is never used up.
    - The walk over [X-Forwarded-For] and the parsers recurse over their input's length.
    - The event loop and the jobs take a list (or number) of turns: what the clients,
      timers and the scheduler offer is an input, and the theorems hold for all of them.

    ** Not modelled

    - The WebSocket handshake, TLS and HTTP parsing ([actix-web]); [Routing] takes the
      reading of a body and the parsing of JSON and query strings as parameters.
    - Inside the hub, two pairs of steps are taken as one: the bytes of a delivery leave
      the queue's counter with the delivery ([Hub.chan_recv]), and after a lost stream
      the reconnection, the renewed subscriptions and the broadcast are one event
      ([Hub.bus_step]).
    - Connection pools and reconnection of the database and Redis clients beyond lost
      requests and replies; [tokio]'s timers, which are inputs.
    - Logging, the access log, module wiring ([lib.rs], [mod.rs]) and the embedded
      migrations as files (their schema is in [Tables]).
    - Panics of library calls on values the code never passes (such as
      [Duration::from_secs_f64] of a negative number). *)

From Stdlib Require Export ZArith Lia.
From Stdlib Require Import Strings.Byte Ascii Eqdep_dec.
From stdpp Require Export base tactics list gmap strings.

#[export] Set Default Goal Selector "!".

(** ** Bytes and machine words *)

Abbreviation byte := Byte.byte.
Abbreviation bytes := (list Byte.byte).

Declare Scope relay_scope.
Delimit Scope relay_scope with relay.
Open Scope relay_scope.

#[export] Instance byte_eq_dec : EqDecision byte := Byte.byte_eq_dec.

#[export] Program Instance byte_countable : Countable byte := {|
  encode b := encode (Byte.to_N b);
  decode p := n ← decode p; Byte.of_N n
|}.
Next Obligation.
  intros b. cbn beta. rewrite decode_encode. simpl. apply Byte.of_to_N.
Qed.

Local Open Scope Z_scope.

(** What the parts of a program issue: the lemmas [issues_auto] applies. *)
Create HintDb relay.

(** The value of a byte, and the byte holding the low 8 bits of an integer. *)
Definition byteZ (b : byte) : Z := Z.of_N (Byte.to_N b).

Definition byte_of_Z (z : Z) : byte :=
  default Byte.x00 (Byte.of_N (Z.to_N (z mod 256))).

Lemma byteZ_range b : 0 <= byteZ b < 256.
Proof. unfold byteZ. pose proof (Byte.to_N_bounded b). lia. Qed.

Lemma byteZ_of_Z z : byteZ (byte_of_Z z) = z mod 256.
Proof.
  unfold byteZ, byte_of_Z.
  pose proof (Z.mod_pos_bound z 256 ltac:(lia)) as Hb.
  destruct (Byte.of_N (Z.to_N (z mod 256))) as [b|] eqn:E; simpl.
  - apply Byte.to_of_N in E. rewrite E. lia.
  - apply Byte.of_N_None_iff in E. lia.
Qed.

Lemma byteZ_inj b1 b2 : byteZ b1 = byteZ b2 → b1 = b2.
Proof.
  unfold byteZ. intros H. apply N2Z.inj in H.
  pose proof (Byte.of_to_N b1) as H1. pose proof (Byte.of_to_N b2) as H2.
  rewrite H in H1. congruence.
Qed.

Lemma byte_of_byteZ b : byte_of_Z (byteZ b) = b.
Proof.
  apply byteZ_inj. rewrite byteZ_of_Z. apply Z.mod_small, byteZ_range.
Qed.

Lemma byte_of_Z_mod z : byte_of_Z (z mod 256) = byte_of_Z z.
Proof. unfold byte_of_Z. by rewrite Z.mod_mod by lia. Qed.

(** Big-endian encodings: [to_be_bytes] / [from_be_bytes] of Rust's integers.
    [be_bytes n z] holds the low [8 * n] bits of [z]. *)
Fixpoint be_bytes (n : nat) (z : Z) : bytes :=
  match n with
  | O => []
  | S n' => byte_of_Z (z / 256 ^ Z.of_nat n') :: be_bytes n' z
  end.

Fixpoint be_Z (l : bytes) : Z :=
  match l with
  | [] => 0
  | b :: l' => byteZ b * 256 ^ Z.of_nat (length l') + be_Z l'
  end.

Lemma length_be_bytes n z : length (be_bytes n z) = n.
Proof. induction n; simpl; auto. Qed.

Lemma be_Z_range l : 0 <= be_Z l < 256 ^ Z.of_nat (length l).
Proof.
  induction l as [|b l IH]; simpl be_Z; [simpl; lia|].
  rewrite length_cons, Nat2Z.inj_succ, Z.pow_succ_r by lia.
  pose proof (byteZ_range b). nia.
Qed.

Lemma be_Z_be_bytes n z : be_Z (be_bytes n z) = z mod 256 ^ Z.of_nat n.
Proof.
  induction n as [|n IH]; simpl be_Z; [by rewrite Z.mod_1_r|].
  rewrite byteZ_of_Z, length_be_bytes, IH.
  rewrite Nat2Z.inj_succ, Z.pow_succ_r, Z.mul_comm by lia.
  rewrite (Z.mul_comm 256), Z.rem_mul_r by (try apply Z.pow_nonzero; lia).
  lia.
Qed.

Lemma be_bytes_mod n z : be_bytes n (z mod 256 ^ Z.of_nat n) = be_bytes n z.
Proof.
  enough (H : ∀ m, (n <= m)%nat →
            be_bytes n (z mod 256 ^ Z.of_nat m) = be_bytes n z) by (apply H; lia).
  induction n as [|n IH]; intros m Hm; [done|]. simpl. f_equal; [|apply IH; lia].
  rewrite <-byte_of_Z_mod, <-(byte_of_Z_mod (z / _)). f_equal.
  replace (Z.of_nat m) with (Z.of_nat n + (1 + (Z.of_nat m - Z.of_nat n - 1))) by lia.
  rewrite !Z.pow_add_r, Z.pow_1_r by lia.
  assert (0 < 256 ^ Z.of_nat n) by (apply Z.pow_pos_nonneg; lia).
  assert (0 < 256 ^ (Z.of_nat m - Z.of_nat n - 1)) by (apply Z.pow_pos_nonneg; lia).
  rewrite Z.rem_mul_r, Z.mul_comm, Z.div_add by nia.
  rewrite (Z.div_small (z mod _)) by (apply Z.mod_pos_bound; lia).
  rewrite Z.add_0_l, Z.rem_mul_r by nia.
  rewrite Z.mul_comm, Z.mod_add, Z.mod_mod by lia. done.
Qed.

Lemma be_bytes_be_Z l : be_bytes (length l) (be_Z l) = l.
Proof.
  induction l as [|b l IH]; [done|]. cbn [length be_bytes be_Z]. f_equal.
  - pose proof (be_Z_range l). pose proof (byteZ_range b).
    rewrite Z.add_comm, Z.div_add by lia.
    rewrite Z.div_small, Z.add_0_l by lia. apply byte_of_byteZ.
  - rewrite <-be_bytes_mod, Z.add_comm, Z.mod_add by (apply Z.pow_nonzero; lia).
    rewrite be_bytes_mod. exact IH.
Qed.

Lemma be_bytes_inj n z1 z2 :
  be_bytes n z1 = be_bytes n z2 → z1 mod 256 ^ Z.of_nat n = z2 mod 256 ^ Z.of_nat n.
Proof. intros H. by rewrite <-!be_Z_be_bytes, H. Qed.

(** Rust's [i64]: the type's range, and the wrap-around of an unchecked
    operation in a release build. *)
Definition i64_min : Z := - 2 ^ 63.
Definition i64_max : Z := 2 ^ 63 - 1.
Definition i64_ok (z : Z) : Prop := i64_min <= z <= i64_max.
Definition i64_wrap (z : Z) : Z := (z + 2 ^ 63) mod 2 ^ 64 - 2 ^ 63.
Definition u64_ok (z : Z) : Prop := 0 <= z < 2 ^ 64.

#[export] Instance i64_ok_dec z : Decision (i64_ok z) := _.
#[export] Instance u64_ok_dec z : Decision (u64_ok z) := _.

Lemma i64_wrap_ok z : i64_ok (i64_wrap z).
Proof.
  unfold i64_ok, i64_wrap, i64_min, i64_max.
  pose proof (Z.mod_pos_bound (z + 2 ^ 63) (2 ^ 64) ltac:(lia)). lia.
Qed.

Lemma i64_wrap_id z : i64_ok z → i64_wrap z = z.
Proof.
  unfold i64_ok, i64_wrap, i64_min, i64_max. intros H.
  rewrite Z.mod_small by lia. lia.
Qed.

Lemma i64_wrap_mod z : i64_wrap (z mod 2 ^ 64) = i64_wrap z.
Proof. unfold i64_wrap. by rewrite Z.add_mod_idemp_l by lia. Qed.

(** [i64::to_be_bytes] and [i64::from_be_bytes]. *)
Definition i64_to_be (z : Z) : bytes := be_bytes 8 z.
Definition i64_from_be (l : bytes) : Z := i64_wrap (be_Z l).

#[global] Arguments i64_to_be : simpl never.
#[global] Arguments i64_from_be : simpl never.
#[global] Arguments i64_wrap : simpl never.

Lemma i64_from_to_be z : i64_ok z → i64_from_be (i64_to_be z) = z.
Proof.
  intros H. unfold i64_from_be, i64_to_be. rewrite be_Z_be_bytes.
  change (256 ^ Z.of_nat 8) with (2 ^ 64). rewrite i64_wrap_mod. by apply i64_wrap_id.
Qed.

Lemma i64_to_from_be l : length l = 8%nat → i64_to_be (i64_from_be l) = l.
Proof.
  intros Hl. unfold i64_from_be, i64_to_be.
  rewrite <-be_bytes_mod. change (256 ^ Z.of_nat 8) with (2 ^ 64).
  pose proof (be_Z_range l) as Hr. rewrite Hl in Hr.
  change (256 ^ Z.of_nat 8) with (2 ^ 64) in Hr.
  replace (i64_wrap (be_Z l) mod 2 ^ 64) with (be_Z l).
  - rewrite <-Hl. apply be_bytes_be_Z.
  - unfold i64_wrap. rewrite <-Zminus_mod_idemp_l, Z.mod_mod by lia.
    rewrite Zminus_mod_idemp_l. rewrite Z.add_simpl_r. symmetry. by apply Z.mod_small.
Qed.
Lemma i64_to_be_inj z1 z2 : i64_ok z1 → i64_ok z2 → i64_to_be z1 = i64_to_be z2 → z1 = z2.
Proof.
  intros H1 H2 H. by rewrite <-(i64_from_to_be z1), H, i64_from_to_be.
Qed.

(** ** Fixed-size byte arrays: Rust's [[u8; N]] *)

Record arr (n : nat) : Type := Arr {
  arr_bytes : bytes;
  arr_len : Nat.eqb (length arr_bytes) n = true
}.
Arguments Arr {n} _ _.
Arguments arr_bytes {n} _.
Arguments arr_len {n} _.

Lemma arr_eq {n} (a b : arr n) : arr_bytes a = arr_bytes b → a = b.
Proof.
  destruct a as [la Ha], b as [lb Hb]; simpl. intros ->. f_equal.
  apply UIP_dec, Bool.bool_dec.
Qed.

Lemma length_arr {n} (a : arr n) : length (arr_bytes a) = n.
Proof. apply Nat.eqb_eq, arr_len. Qed.

(** [slice.try_into::<[u8; N]>()]: succeeds exactly on slices of length [n]. *)
Definition arr_of_test {n l} (b : bool) : Nat.eqb (length l) n = b → option (arr n) :=
  if b return Nat.eqb (length l) n = b → option (arr n)
  then λ E, Some (Arr l E) else λ _, None.
Definition arr_of (n : nat) (l : bytes) : option (arr n) :=
  arr_of_test (Nat.eqb (length l) n) eq_refl.

Lemma arr_of_spec n l :
  (∃ a, arr_of n l = Some a ∧ arr_bytes a = l ∧ length l = n) ∨
  (arr_of n l = None ∧ length l ≠ n).
Proof.
  enough (H : ∀ b (E : Nat.eqb (length l) n = b),
    (∃ a, arr_of_test b E = Some a ∧ arr_bytes a = l ∧ length l = n) ∨
    (arr_of_test b E = None ∧ length l ≠ n)) by apply H.
  intros [] E; simpl.
  - left. eexists. split_and!; [done|done|by apply Nat.eqb_eq].
  - right. split; [done|]. by apply Nat.eqb_neq.
Qed.

Lemma arr_of_Some n l a : arr_of n l = Some a ↔ arr_bytes a = l.
Proof.
  destruct (arr_of_spec n l) as [(b & Hb & Hl & _)|[Hn Hl]]; split.
  - congruence.
  - intros H. rewrite Hb. f_equal. apply arr_eq. congruence.
  - congruence.
  - intros H. destruct Hl. rewrite <-H. apply length_arr.
Qed.

Lemma arr_of_None n l : arr_of n l = None ↔ length l ≠ n.
Proof.
  destruct (arr_of_spec n l) as [(b & Hb & _ & Hl)|[Hn Hl]]; split; intros H; congruence.
Qed.

Lemma arr_of_bytes {n} (a : arr n) : arr_of n (arr_bytes a) = Some a.
Proof. by apply arr_of_Some. Qed.

#[export] Instance arr_eq_dec n : EqDecision (arr n).
Proof.
  refine (λ a b, cast_if (decide (arr_bytes a = arr_bytes b)));
    [by apply arr_eq | congruence].
Defined.

#[export] Program Instance arr_countable n : Countable (arr n) := {|
  encode a := encode (arr_bytes a);
  decode p := l ← decode p; arr_of n l
|}.
Next Obligation.
  intros n a. cbn beta. rewrite decode_encode. simpl. apply arr_of_bytes.
Qed.

(** [[0u8; N]]. *)
Lemma arr_zero_len n : Nat.eqb (length (replicate n Byte.x00)) n = true.
Proof. induction n; [reflexivity|assumption]. Defined.
Definition arr_zero (n : nat) : arr n := Arr (replicate n Byte.x00) (arr_zero_len n).

(** The array filled from the front of [l] (what [copy_from_slice] of a long
    enough slice leaves in a zeroed array). *)
Definition arr_fill (n : nat) (l : bytes) : arr n :=
  default (arr_zero n) (arr_of n (take n l)).

Lemma arr_fill_bytes n l : (n <= length l)%nat → arr_bytes (arr_fill n l) = take n l.
Proof.
  intros H. unfold arr_fill.
  destruct (arr_of_spec n (take n l)) as [(a & -> & Ha & _)|[_ Hl]]; [done|].
  destruct Hl. rewrite length_take. lia.
Qed.

(** [a[i] = b]; the source only writes inside the array. *)
Definition arr_upd {n} (i : nat) (b : byte) (a : arr n) : arr n :=
  default a (arr_of n (<[i:=b]> (arr_bytes a))).

Lemma arr_upd_bytes {n} i b (a : arr n) :
  arr_bytes (arr_upd i b a) = <[i:=b]> (arr_bytes a).
Proof.
  unfold arr_upd.
  destruct (arr_of_spec n (<[i:=b]> (arr_bytes a))) as [(c & -> & Hc & _)|[_ Hl]]; [done|].
  destruct Hl. rewrite length_insert. apply length_arr.
Qed.

(** [a[i]]. *)
Definition arr_get {n} (i : nat) (a : arr n) : Z := default 0 (byteZ <$> arr_bytes a !! i).

Lemma arr_get_upd_eq {n} i b (a : arr n) : (i < n)%nat → arr_get i (arr_upd i b a) = byteZ b.
Proof.
  intros H. unfold arr_get. rewrite arr_upd_bytes, list_lookup_insert_eq; [done|].
  by rewrite length_arr.
Qed.

Lemma arr_get_upd_ne {n} i j b (a : arr n) : i ≠ j → arr_get j (arr_upd i b a) = arr_get j a.
Proof. intros H. unfold arr_get. by rewrite arr_upd_bytes, list_lookup_insert_ne. Qed.

Lemma arr_get_range {n} i (a : arr n) : 0 <= arr_get i a < 256.
Proof.
  unfold arr_get. destruct (_ !! i) as [b|]; simpl; [apply byteZ_range|lia].
Qed.

(** A [Uuid] is its 16 bytes in network order ([as_bytes], [from_bytes]);
    [Uuid::from_slice] is [arr_of 16]. *)
Abbreviation Uuid := (arr 16).

(** ** Slices *)

(** [l[a..a+n]] for a range inside the slice. *)
Definition slice (a n : nat) (l : bytes) : bytes := take n (drop a l).

(** [l.get(a..a+n)]: [None] when the range leaves the slice. *)
Definition slice_opt (a n : nat) (l : bytes) : option bytes :=
  if Nat.leb (a + n) (length l) then Some (slice a n l) else None.

(** [l.get(a..)]. *)
Definition suffix_opt (a : nat) (l : bytes) : option bytes :=
  if Nat.leb a (length l) then Some (drop a l) else None.

Lemma slice_app_l a n (l1 l2 : bytes) :
  a = 0%nat → length l1 = n → slice a n (l1 ++ l2) = l1.
Proof. intros -> <-. unfold slice. by rewrite drop_0, take_app_length. Qed.

Lemma slice_app_r a a' n (l1 l2 : bytes) :
  a = (length l1 + a')%nat → slice a n (l1 ++ l2) = slice a' n l2.
Proof. intros ->. unfold slice. by rewrite drop_app_add. Qed.

Lemma slice_arr_skip {n} (a : arr n) l i k :
  (n <= i)%nat → slice i k (arr_bytes a ++ l) = slice (i - n) k l.
Proof. intros H. apply slice_app_r. rewrite length_arr. lia. Qed.

Lemma slice_arr_here {n} (a : arr n) l : slice 0 n (arr_bytes a ++ l) = arr_bytes a.
Proof. apply slice_app_l; [done|apply length_arr]. Qed.

Lemma drop_arr_skip {n} (a : arr n) l i :
  (n <= i)%nat → drop i (arr_bytes a ++ l) = drop (i - n) l.
Proof.
  intros H. rewrite drop_app, length_arr, drop_ge by (rewrite length_arr; lia). done.
Qed.

Lemma length_slice a n l : (a + n <= length l)%nat → length (slice a n l) = n.
Proof. intros H. unfold slice. rewrite length_take, length_drop. lia. Qed.

Lemma slice_full n l : length l = n → slice 0 n l = l.
Proof. intros <-. unfold slice. by rewrite drop_0, firstn_all. Qed.

Lemma slice_cons_drop a n (l : bytes) :
  drop a l = slice a n l ++ drop (a + n) l.
Proof. unfold slice. by rewrite <-drop_drop, take_drop. Qed.

(** Decidable equality on byte strings as a test. *)
Definition bytes_eqb (a b : bytes) : bool := bool_decide (a = b).

(** [slice.starts_with(prefix)]. *)
Definition starts_with (p l : bytes) : bool := bytes_eqb (take (length p) l) p.

Lemma starts_with_app p l : starts_with p (p ++ l) = true.
Proof. unfold starts_with, bytes_eqb. rewrite take_app_length. by apply bool_decide_eq_true. Qed.

Lemma starts_with_true p l : starts_with p l = true → l = p ++ drop (length p) l.
Proof.
  unfold starts_with, bytes_eqb. rewrite bool_decide_eq_true. intros H.
  rewrite <-H at 1. by rewrite take_drop.
Qed.

(** ** Results *)

Inductive result (E A : Type) : Type :=
| Ok (a : A)
| Err (e : E).
Arguments Ok {E A} _.
Arguments Err {E A} _.

#[export] Instance result_eq_dec {E A} `{EqDecision E, EqDecision A} : EqDecision (result E A).
Proof. solve_decision. Defined.

(** [r?] inside a function that returns a [result]. *)
Definition rbind {E A B} (r : result E A) (k : A → result E B) : result E B :=
  match r with Ok a => k a | Err e => Err e end.

Notation "'let?' x ':=' r 'in' k" := (rbind r (λ x, k))
  (at level 10, x pattern, r at level 100, k at level 200) : relay_scope.

(** [o.ok_or(e)], [r.map_err(f)], [r.ok()], [r.map(f)]. *)
Definition ok_or {E A} (o : option A) (e : E) : result E A :=
  match o with Some a => Ok a | None => Err e end.
Definition map_err {E F A} (f : E → F) (r : result E A) : result F A :=
  match r with Ok a => Ok a | Err e => Err (f e) end.
Definition rok {E A} (r : result E A) : option A :=
  match r with Ok a => Some a | Err _ => None end.
Definition rmap {E A B} (f : A → B) (r : result E A) : result E B :=
  match r with Ok a => Ok (f a) | Err e => Err e end.

(** [if b { return Err(e) }] before the rest of the function. *)
Definition guard {E} (b : bool) (e : E) : result E unit := if b then Err e else Ok tt.

Lemma rbind_Ok {E A B} (r : result E A) (k : A → result E B) b :
  rbind r k = Ok b ↔ ∃ a, r = Ok a ∧ k a = Ok b.
Proof.
  destruct r; simpl; split.
  - eauto.
  - by intros (a' & [= ->] & ?).
  - done.
  - by intros (a' & ? & ?).
Qed.

Lemma rbind_Err {E A B} (r : result E A) (k : A → result E B) e :
  rbind r k = Err e ↔ r = Err e ∨ ∃ a, r = Ok a ∧ k a = Err e.
Proof.
  destruct r; simpl; split.
  - eauto.
  - by intros [?|(a' & [= ->] & ?)].
  - intros [= ->]. by left.
  - by intros [[= ->]|(a' & ? & ?)].
Qed.

Lemma guard_Ok {E} b (e : E) u : guard b e = Ok u ↔ b = false.
Proof. destruct b, u; simpl; split; done. Qed.

Lemma guard_Err {E} b (e e' : E) : guard b e = Err e' ↔ b = true ∧ e = e'.
Proof. destruct b; simpl; split; intros H; naive_solver. Qed.

Lemma ok_or_Ok {E A} (o : option A) (e : E) a : ok_or o e = Ok a ↔ o = Some a.
Proof. destruct o; simpl; split; congruence. Qed.

Lemma ok_or_Err {E A} (o : option A) (e e' : E) : ok_or o e = Err e' ↔ o = None ∧ e = e'.
Proof. destruct o; simpl; naive_solver. Qed.

Lemma map_err_Ok {E F A} (f : E → F) (r : result E A) a : map_err f r = Ok a ↔ r = Ok a.
Proof. destruct r; simpl; split; congruence. Qed.

Lemma map_err_Err {E F A} (f : E → F) (r : result E A) e :
  map_err f r = Err e ↔ ∃ e', r = Err e' ∧ e = f e'.
Proof. destruct r; simpl; naive_solver. Qed.

Lemma rmap_Ok {E A B} (f : A → B) (r : result E A) b :
  rmap f r = Ok b ↔ ∃ a, r = Ok a ∧ b = f a.
Proof. destruct r; simpl; naive_solver. Qed.

(** Collecting an iterator of results, stopping at the first error. *)
Fixpoint rcollect {E A B} (f : A → result E B) (l : list A) : result E (list B) :=
  match l with
  | [] => Ok []
  | x :: l' => let? y := f x in let? ys := rcollect f l' in Ok (y :: ys)
  end.

Lemma rcollect_Ok {E A B} (f : A → result E B) l ys :
  rcollect f l = Ok ys ↔ Forall2 (λ x y, f x = Ok y) l ys.
Proof.
  revert ys. induction l as [|x l IH]; intros ys; cbn.
  - split; [by intros [= <-]|]. by inversion 1.
  - rewrite rbind_Ok. setoid_rewrite rbind_Ok. setoid_rewrite IH. split.
    + intros (y & ? & ys' & ? & [= <-]). by constructor.
    + inversion 1; subst. eauto 10.
Qed.

(** Inversion of the successful and failing runs of a [let?] chain. *)
Ltac result_step :=
  match goal with
  | H : rbind _ _ = Ok _ |- _ => apply rbind_Ok in H as (? & ? & H)
  | H : rbind _ _ = Err _ |- _ => apply rbind_Err in H as [H|(? & ? & H)]
  | H : guard _ _ = Ok _ |- _ => apply guard_Ok in H
  | H : guard _ _ = Err _ |- _ => apply guard_Err in H as [H ?]
  | H : ok_or _ _ = Ok _ |- _ => apply ok_or_Ok in H
  | H : ok_or _ _ = Err _ |- _ => apply ok_or_Err in H as [H ?]
  | H : map_err _ _ = Ok _ |- _ => apply map_err_Ok in H
  | H : map_err _ _ = Err _ |- _ => apply map_err_Err in H as (? & H & ?)
  | H : rmap _ _ = Ok _ |- _ => apply rmap_Ok in H as (? & H & ?)
  | H : Ok _ = Ok _ |- _ => injection H as H
  | H : Err _ = Err _ |- _ => injection H as H
  | H : Ok _ = Err _ |- _ => discriminate H
  | H : Err _ = Ok _ |- _ => discriminate H
  end.
Ltac result_inv := repeat (result_step; cbv beta in *; simplify_eq).

(** The same for the option monad. *)
Ltac option_inv :=
  repeat (match goal with
  | H : mbind _ _ = Some _ |- _ => apply bind_Some in H as (? & ? & H)
  | H : fmap _ _ = Some _ |- _ => apply fmap_Some in H as (? & H & ?)
  | H : arr_of _ _ = Some _ |- _ => apply arr_of_Some in H
  | H : Some _ = Some _ |- _ => injection H as H
  | H : None = Some _ |- _ => discriminate H
  end; cbv beta in *).

(** Reduce the [result] combinators and nothing else. *)
Ltac rsimpl := cbn [rbind ok_or guard map_err rmap orb andb negb].
