(* ===== verification/Text.v ===== *)
(** * Text: the Rust [str] operations the relay uses

    A Rust [String] is modelled by Rocq's [string], read as its UTF-8 bytes;
    [utf8_ok] is the invariant every Rust [str] satisfies.  [len], [is_empty],
    [chars().count()], [split], [rsplit], [split_once], [trim], the ASCII
    classes and the decimal printing and parsing of [i64] follow the standard
    library's documented behaviour. *)

From Stdlib Require Import Strings.Byte Ascii.
From stdpp Require Import pretty.
From S2P Require Import Prelude.

Local Open Scope Z_scope.

(** ** Bytes of a string *)

Definition str_bytes (s : string) : bytes := String.list_byte_of_string s.
Definition str_of (l : bytes) : string := String.string_of_list_byte l.

Lemma str_of_bytes s : str_of (str_bytes s) = s.
Proof. apply String.string_of_list_byte_of_string. Qed.
Lemma str_bytes_of l : str_bytes (str_of l) = l.
Proof. apply String.list_byte_of_string_of_list_byte. Qed.

Lemma str_bytes_inj s1 s2 : str_bytes s1 = str_bytes s2 → s1 = s2.
Proof. intros H. by rewrite <-(str_of_bytes s1), H, str_of_bytes. Qed.

Lemma str_bytes_cons c s : str_bytes (String c s) = byte_of_ascii c :: str_bytes s.
Proof. done. Qed.

Lemma str_bytes_app s1 s2 : str_bytes (s1 +:+ s2) = str_bytes s1 ++ str_bytes s2.
Proof.
  induction s1 as [|c s1 IH]; [done|].
  change (String c s1 +:+ s2) with (String c (s1 +:+ s2)).
  rewrite !str_bytes_cons, IH. done.
Qed.

(** [s.len()] counts bytes. *)
Definition str_len (s : string) : nat := length (str_bytes s).
Definition str_is_empty (s : string) : bool := Nat.eqb (str_len s) 0.

(** ** UTF-8 ([String::from_utf8], [str::from_utf8]) *)

Definition in_range (lo hi : Z) (b : byte) : bool := (lo <=? byteZ b) && (byteZ b <=? hi).
Definition utf8_cont : byte → bool := in_range 0x80 0xBF.

(** The lead bytes and second-byte ranges of the Unicode standard's table 3-7. *)
Definition utf8_second3 (b0 b1 : byte) : bool :=
  in_range (if byteZ b0 =? 0xE0 then 0xA0 else 0x80)
           (if byteZ b0 =? 0xED then 0x9F else 0xBF) b1.
Definition utf8_second4 (b0 b1 : byte) : bool :=
  in_range (if byteZ b0 =? 0xF0 then 0x90 else 0x80)
           (if byteZ b0 =? 0xF4 then 0x8F else 0xBF) b1.

Fixpoint utf8_valid (l : bytes) : bool :=
  match l with
  | [] => true
  | b0 :: r0 =>
    if byteZ b0 <? 0x80 then utf8_valid r0
    else if in_range 0xC2 0xDF b0 then
      match r0 with b1 :: r1 => utf8_cont b1 && utf8_valid r1 | _ => false end
    else if in_range 0xE0 0xEF b0 then
      match r0 with
      | b1 :: b2 :: r2 => utf8_second3 b0 b1 && utf8_cont b2 && utf8_valid r2
      | _ => false
      end
    else if in_range 0xF0 0xF4 b0 then
      match r0 with
      | b1 :: b2 :: b3 :: r3 =>
        utf8_second4 b0 b1 && utf8_cont b2 && utf8_cont b3 && utf8_valid r3
      | _ => false
      end
    else false
  end.

Definition utf8_ok (s : string) : bool := utf8_valid (str_bytes s).

(** [String::from_utf8(bytes).ok()]. *)
Definition from_utf8 (l : bytes) : option string :=
  if utf8_valid l then Some (str_of l) else None.

Lemma from_utf8_bytes s : utf8_ok s = true → from_utf8 (str_bytes s) = Some s.
Proof. intros H. unfold from_utf8, utf8_ok in *. by rewrite H, str_of_bytes. Qed.

Lemma from_utf8_Some l s : from_utf8 l = Some s → str_bytes s = l ∧ utf8_ok s = true.
Proof.
  unfold from_utf8, utf8_ok. destruct (utf8_valid l) eqn:E; [|done].
  intros [= <-]. by rewrite str_bytes_of.
Qed.

Lemma utf8_ascii_cons b l : byteZ b < 128 → utf8_valid (b :: l) = utf8_valid l.
Proof. intros H. simpl. by rewrite (proj2 (Z.ltb_lt _ _) H). Qed.

(** Concatenation ([format!], [push_str]) keeps text well-formed. *)
Lemma utf8_valid_app l1 l2 :
  utf8_valid l1 = true → utf8_valid l2 = true → utf8_valid (l1 ++ l2) = true.
Proof.
  intros H1 H2. remember (length l1) as n eqn:Hn.
  assert (length l1 <= n)%nat as Hle by lia. clear Hn. revert l1 Hle H1.
  induction n as [|n IH]; intros l1 Hle H1.
  { destruct l1; [done|simpl in Hle; lia]. }
  destruct l1 as [|b0 r0]; [done|]. cbn in *.
  repeat case_match; simplify_eq/=; try done;
    rewrite ?andb_true_iff in *; destruct_and?; split_and?; try done; apply IH; done || lia.
Qed.

Lemma utf8_ok_app s1 s2 :
  utf8_ok s1 = true → utf8_ok s2 = true → utf8_ok (s1 +:+ s2) = true.
Proof. unfold utf8_ok. rewrite str_bytes_app. apply utf8_valid_app. Qed.

(** [s.chars().count()]: the code points of well-formed text are its bytes
    that are not continuation bytes. *)
Definition char_count (s : string) : nat :=
  length (filter (λ b, utf8_cont b = false) (str_bytes s)).

Lemma char_count_le_len s : (char_count s <= str_len s)%nat.
Proof. unfold char_count, str_len. apply length_filter. Qed.

(** ** Splitting *)

(** [s.split(c)] for an ASCII character: the pieces, never empty as a list. *)
Fixpoint split_bytes (sep : byte) (l : bytes) : list bytes :=
  match l with
  | [] => [[]]
  | b :: l' =>
    if bool_decide (b = sep) then [] :: split_bytes sep l'
    else match split_bytes sep l' with
         | p :: ps => (b :: p) :: ps
         | [] => [[b]]
         end
  end.

Definition split_on (sep : byte) (s : string) : list string :=
  str_of <$> split_bytes sep (str_bytes s).

(** [s.rsplit(c)]: the same pieces from the right. *)
Definition rsplit_on (sep : byte) (s : string) : list string := reverse (split_on sep s).

Definition no_byte (sep : byte) (s : string) : Prop := sep ∉ str_bytes s.

Lemma split_bytes_single sep l : sep ∉ l → split_bytes sep l = [l].
Proof.
  induction l as [|b l IH]; intros H; [done|]. apply not_elem_of_cons in H as [Hb Hl].
  simpl. rewrite bool_decide_false by done. by rewrite IH.
Qed.

Lemma split_bytes_app sep l1 l2 :
  sep ∉ l1 → split_bytes sep (l1 ++ sep :: l2) = l1 :: split_bytes sep l2.
Proof.
  induction l1 as [|b l1 IH]; intros H; simpl.
  - by rewrite bool_decide_true.
  - apply not_elem_of_cons in H as [Hb Hl]. rewrite bool_decide_false by done.
    by rewrite IH.
Qed.

Lemma split_on_single sep s : no_byte sep s → split_on sep s = [s].
Proof.
  intros H. unfold split_on. rewrite split_bytes_single by done. simpl. by rewrite str_of_bytes.
Qed.

Lemma split_on_app sep s1 s2 :
  no_byte sep s1 →
  split_on sep (s1 +:+ str_of [sep] +:+ s2) = s1 :: split_on sep s2.
Proof.
  intros H. unfold split_on. rewrite !str_bytes_app, str_bytes_of.
  change ([sep] ++ str_bytes s2) with (sep :: str_bytes s2).
  rewrite split_bytes_app by done. simpl. by rewrite str_of_bytes.
Qed.

(** [s.split_once(c)]: around the first occurrence. *)
Fixpoint split_once_bytes (sep : byte) (l : bytes) : option (bytes * bytes) :=
  match l with
  | [] => None
  | b :: l' =>
    if bool_decide (b = sep) then Some ([], l')
    else '(p, q) ← split_once_bytes sep l'; Some (b :: p, q)
  end.
Definition split_once (sep : byte) (s : string) : option (string * string) :=
  '(p, q) ← split_once_bytes sep (str_bytes s); Some (str_of p, str_of q).

(** [s.rsplit_once(c)]: around the last occurrence. *)
Definition rsplit_once (sep : byte) (s : string) : option (string * string) :=
  '(q, p) ← split_once_bytes sep (reverse (str_bytes s));
  Some (str_of (reverse p), str_of (reverse q)).

(** ** Trimming ([str::trim] removes Unicode [White_Space]) *)

Definition whitespace : list bytes :=
  map (map byte_of_Z)
    [ [0x09]; [0x0A]; [0x0B]; [0x0C]; [0x0D]; [0x20]; [0xC2; 0x85]; [0xC2; 0xA0];
      [0xE1; 0x9A; 0x80]; [0xE2; 0x80; 0x80]; [0xE2; 0x80; 0x81]; [0xE2; 0x80; 0x82];
      [0xE2; 0x80; 0x83]; [0xE2; 0x80; 0x84]; [0xE2; 0x80; 0x85]; [0xE2; 0x80; 0x86];
      [0xE2; 0x80; 0x87]; [0xE2; 0x80; 0x88]; [0xE2; 0x80; 0x89]; [0xE2; 0x80; 0x8A];
      [0xE2; 0x80; 0xA8]; [0xE2; 0x80; 0xA9]; [0xE2; 0x80; 0xAF]; [0xE2; 0x81; 0x9F];
      [0xE3; 0x80; 0x80] ].

(** Drop the leading encodings of [ws]; [fuel] bounds the number of characters. *)
Fixpoint strip_front (fuel : nat) (ws : list bytes) (l : bytes) : bytes :=
  match fuel with
  | O => l
  | S fuel' =>
    match list_find (λ w, starts_with w l = true) ws with
    | Some (_, w) => strip_front fuel' ws (drop (length w) l)
    | None => l
    end
  end.

Definition trim_start (s : string) : string :=
  str_of (strip_front (str_len s) whitespace (str_bytes s)).
Definition trim_end (s : string) : string :=
  str_of (reverse (strip_front (str_len s) (reverse <$> whitespace) (reverse (str_bytes s)))).
Definition trim (s : string) : string := trim_end (trim_start s).

(** [trim_end_matches(c)] for an ASCII character. *)
Definition trim_end_matches (c : byte) (s : string) : string :=
  str_of (reverse (strip_front (str_len s) [[c]] (reverse (str_bytes s)))).

(** ** ASCII classes ([u8::is_ascii_graphic] and its kin) *)

Definition is_ascii_graphic : byte → bool := in_range 0x21 0x7E.
Definition is_ascii_digit : byte → bool := in_range 0x30 0x39.
Definition is_ascii_upper : byte → bool := in_range 0x41 0x5A.
Definition is_ascii_lower : byte → bool := in_range 0x61 0x7A.
Definition is_ascii_alphanumeric (b : byte) : bool :=
  is_ascii_digit b || is_ascii_upper b || is_ascii_lower b.
Definition is_ascii_hexdigit (b : byte) : bool :=
  is_ascii_digit b || in_range 0x41 0x46 b || in_range 0x61 0x66 b.

Definition ascii_lower (b : byte) : byte :=
  if is_ascii_upper b then byte_of_Z (byteZ b + 32) else b.

(** [s.to_ascii_lowercase()], [s.eq_ignore_ascii_case(t)], [s.bytes().all(p)]. *)
Definition to_ascii_lowercase (s : string) : string := str_of (ascii_lower <$> str_bytes s).
Definition eq_ignore_ascii_case (s t : string) : bool :=
  bytes_eqb (ascii_lower <$> str_bytes s) (ascii_lower <$> str_bytes t).
Definition all_bytes (p : byte → bool) (s : string) : bool := forallb p (str_bytes s).

Lemma ascii_lower_hexdigit b : is_ascii_hexdigit b = true → is_ascii_hexdigit (ascii_lower b) = true.
Proof. by destruct b. Qed.

Lemma ascii_lower_idem b : ascii_lower (ascii_lower b) = ascii_lower b.
Proof. by destruct b. Qed.

(** ** Decimal numbers *)

(** [format!("{n}")] of an integer. *)
Definition display_Z (z : Z) : string := pretty z.

Definition digit_of (c : ascii) : option Z :=
  let b := byte_of_ascii c in
  if is_ascii_digit b then Some (byteZ b - 0x30) else None.

Fixpoint parse_digits (acc : Z) (s : string) : option Z :=
  match s with
  | EmptyString => Some acc
  | String c s' => d ← digit_of c; parse_digits (acc * 10 + d) s'
  end.

Definition parse_nonempty (s : string) : option Z :=
  if str_is_empty s then None else parse_digits 0 s.

(** [s.parse::<i64>().ok()]: an optional sign, then at least one digit, then
    the range check. *)
Definition parse_i64 (s : string) : option Z :=
  let z := match s with
           | String "-" s' => Z.opp <$> parse_nonempty s'
           | String "+" s' => parse_nonempty s'
           | _ => parse_nonempty s
           end in
  z ≫= λ z, if bool_decide (i64_ok z) then Some z else None.

Lemma digit_of_pretty (d : N) : (d < 10)%N → digit_of (pretty_N_char d) = Some (Z.of_N d).
Proof.
  intros H.
  assert (d = 0 ∨ d = 1 ∨ d = 2 ∨ d = 3 ∨ d = 4 ∨ d = 5 ∨ d = 6 ∨ d = 7 ∨ d = 8 ∨ d = 9)%N
    as Hd by lia.
  repeat destruct Hd as [-> | Hd]; try reflexivity. by subst.
Qed.

Lemma parse_digits_pretty_go (x : N) s :
  parse_digits 0 (pretty_N_go x s) = parse_digits (Z.of_N x) s.
Proof.
  revert s. induction (N.lt_wf_0 x) as [x _ IH]. intros s.
  destruct (decide (x = 0)%N) as [->|Hx]; [done|].
  rewrite pretty_N_go_step by lia. rewrite IH by (apply N.div_lt; lia).
  simpl. rewrite digit_of_pretty by (apply N.mod_lt; lia). simpl. f_equal.
  rewrite N2Z.inj_div, N2Z.inj_mod. simpl. pose proof (Z.div_mod (Z.of_N x) 10). lia.
Qed.

Lemma parse_digits_pretty (x : N) : parse_digits 0 (pretty x) = Some (Z.of_N x).
Proof.
  unfold pretty, pretty_N. destruct (decide (x = 0)%N) as [->|H]; [done|].
  by rewrite parse_digits_pretty_go.
Qed.

Definition all_digits (s : string) : Prop :=
  Forall (λ b, is_ascii_digit b = true) (str_bytes s).

Lemma all_digits_pretty_go (x : N) s : all_digits s → all_digits (pretty_N_go x s).
Proof.
  revert s. induction (N.lt_wf_0 x) as [x _ IH]. intros s Hs.
  destruct (decide (x = 0)%N) as [->|Hx]; [done|].
  rewrite pretty_N_go_step by lia. apply IH; [apply N.div_lt; lia|].
  unfold all_digits. rewrite str_bytes_cons. constructor; [|done].
  assert (x `mod` 10 < 10)%N as Hd by (apply N.mod_lt; lia).
  pose proof (digit_of_pretty _ Hd) as H. unfold digit_of in H. by case_match.
Qed.

Lemma all_digits_pretty (x : N) : all_digits (pretty x).
Proof.
  unfold pretty, pretty_N. destruct (decide (x = 0)%N) as [->|H].
  - by repeat constructor.
  - apply all_digits_pretty_go. constructor.
Qed.

Lemma pretty_N_cons (x : N) :
  ∃ c s, pretty x = String c s ∧ is_ascii_digit (byte_of_ascii c) = true.
Proof.
  pose proof (all_digits_pretty x) as H. pose proof (parse_digits_pretty x) as Hp.
  destruct (pretty x) as [|c s] eqn:E.
  - simpl in Hp. injection Hp as Hp. assert (x = 0)%N as -> by lia. discriminate E.
  - exists c, s. split; [done|]. unfold all_digits in H. rewrite str_bytes_cons in H.
    by inversion H.
Qed.

Lemma parse_nonempty_pretty (x : N) : parse_nonempty (pretty x) = Some (Z.of_N x).
Proof.
  unfold parse_nonempty. destruct (pretty_N_cons x) as (c & s & E & _).
  replace (str_is_empty (pretty x)) with false by (by rewrite E).
  apply parse_digits_pretty.
Qed.

Lemma parse_i64_pretty_N (x : N) :
  parse_i64 (pretty x) =
    if bool_decide (i64_ok (Z.of_N x)) then Some (Z.of_N x) else None.
Proof.
  unfold parse_i64.
  destruct (pretty_N_cons x) as (c & s & E & Hc). rewrite E.
  assert (parse_nonempty (String c s) = Some (Z.of_N x)) as Hp
    by (rewrite <-E; apply parse_nonempty_pretty).
  destruct c as [[] [] [] [] [] [] [] []]; try discriminate Hc; rewrite Hp; done.
Qed.

(** Printing an [i64] and parsing it back. *)
Lemma parse_display_i64 z : i64_ok z → parse_i64 (display_Z z) = Some z.
Proof.
  intros Hz. unfold display_Z. destruct z as [|p|p].
  - by vm_compute.
  - change (pretty (Z.pos p)) with (pretty (N.pos p)).
    rewrite parse_i64_pretty_N. by rewrite bool_decide_true.
  - change (pretty (Z.neg p)) with (String "-" (pretty (N.pos p))).
    unfold parse_i64. rewrite parse_nonempty_pretty. simpl. by rewrite bool_decide_true.
Qed.

(** A printed integer holds only digits and a sign. *)
Lemma display_Z_no_byte sep z :
  is_ascii_digit sep = false → sep ≠ byte_of_ascii "-" → no_byte sep (display_Z z).
Proof.
  intros Hd Hm. assert (∀ x : N, no_byte sep (pretty x)) as Hx.
  { intros x Hin. pose proof (all_digits_pretty x) as Ha.
    unfold all_digits in Ha. rewrite Forall_forall in Ha. by rewrite (Ha _ Hin) in Hd. }
  unfold display_Z, no_byte. destruct z as [|p|p].
  - apply (Hx 0%N).
  - apply (Hx (N.pos p)).
  - change (pretty (Z.neg p)) with (String "-" (pretty (N.pos p))).
    rewrite str_bytes_cons, not_elem_of_cons. split; [done|]. apply Hx.
Qed.
