(* ===== verification/Errors.v ===== *)
(** * Errors: the relay's HTTP errors and responses ([error.rs])

    [ApiError] with its code, message and status, the error body, the
    [Retry-After] header and the mapping of the JSON extractor's errors. *)

From stdpp Require Import pretty.
From S2P Require Import Prelude Text.

Local Open Scope Z_scope.

(** ** JSON values ([serde_json::Value], built by [json!]) *)

Inductive Value : Type :=
| VNull
| VBool (b : bool)
| VNum (z : Z)
| VStr (s : string)
| VArr (l : list Value)
| VObj (fields : list (string * Value)).

(** [Option<T>] inside [json!]: [None] is [null]. *)
Definition v_opt {A} (f : A → Value) (o : option A) : Value :=
  match o with Some a => f a | None => VNull end.

(** ** Errors *)

(** [error.rs:13-42 ApiError] *)
Inductive ApiError : Type :=
| BadRequest
| ChallengeExpired
| SignatureInvalid
| TokenExpired
| NotPaired
| DeviceNotFound
| PairExists
| PushTokenMissing
| DeviceRevoked
| PayloadTooLarge
| RateLimited (retry_after_secs : Z)
| Internal
| PushProviderError.

#[export] Instance ApiError_eq_dec : EqDecision ApiError.
Proof. solve_decision. Defined.

(** [error.rs:45-61 ApiError::code] *)
Definition code (e : ApiError) : string :=
  match e with
  | BadRequest => "BAD_REQUEST"
  | ChallengeExpired => "CHALLENGE_EXPIRED"
  | SignatureInvalid => "SIGNATURE_INVALID"
  | TokenExpired => "TOKEN_EXPIRED"
  | NotPaired => "NOT_PAIRED"
  | DeviceNotFound => "DEVICE_NOT_FOUND"
  | PairExists => "PAIR_EXISTS"
  | PushTokenMissing => "PUSH_TOKEN_MISSING"
  | DeviceRevoked => "DEVICE_REVOKED"
  | PayloadTooLarge => "PAYLOAD_TOO_LARGE"
  | RateLimited _ => "RATE_LIMITED"
  | Internal => "INTERNAL"
  | PushProviderError => "PUSH_PROVIDER_ERROR"
  end.

(** [error.rs:63-79 ApiError::message] *)
Definition message (e : ApiError) : string :=
  match e with
  | BadRequest => "Malformed request body"
  | ChallengeExpired => "Challenge expired or already used"
  | SignatureInvalid => "Invalid signature or credentials"
  | TokenExpired => "Access token expired"
  | NotPaired => "Devices are not in the same valid pair"
  | DeviceNotFound => "Device not registered"
  | PairExists => "Pair already exists with different data"
  | PushTokenMissing => "Target device has no push token"
  | DeviceRevoked => "Device has been removed"
  | PayloadTooLarge => "Request body too large"
  | RateLimited _ => "Too many requests"
  | Internal => "Internal error"
  | PushProviderError => "Push provider error"
  end.

(** [error.rs:95-110 ApiError::status_code] *)
Definition status_code (e : ApiError) : Z :=
  match e with
  | BadRequest => 400
  | ChallengeExpired | SignatureInvalid | TokenExpired => 401
  | NotPaired => 403
  | DeviceNotFound => 404
  | PairExists | PushTokenMissing => 409
  | DeviceRevoked => 410
  | PayloadTooLarge => 413
  | RateLimited _ => 429
  | Internal => 500
  | PushProviderError => 502
  end.

(** [error.rs:81-85 ApiError::internal]: the cause is logged, never returned. *)
Definition internal {E} (_ : E) : ApiError := Internal.

(** ** Responses *)

Record HttpResponse : Type := mkResponse {
  r_status : Z;
  r_headers : list (string * string);
  r_body : option Value
}.

(** [HttpResponse::Xxx().json(v)] and [.finish()]. *)
Definition resp_json (status : Z) (v : Value) : HttpResponse := mkResponse status [] (Some v).
Definition resp_empty (status : Z) : HttpResponse := mkResponse status [] None.

(** [error.rs:112-118 ApiError::error_response] *)
Definition error_response (e : ApiError) : HttpResponse :=
  {| r_status := status_code e;
     r_headers :=
       match e with
       | RateLimited secs => [("retry-after", display_Z secs)]
       | _ => []
       end;
     r_body := Some (VObj [("error", VObj [("code", VStr (code e));
                                           ("message", VStr (message e))])]) |}.

(** What a client receives for the result of a handler. *)
Definition respond (r : result ApiError HttpResponse) : HttpResponse :=
  match r with Ok resp => resp | Err e => error_response e end.

(** The extractor errors of actix-web that [json_error_handler] tells apart. *)
Inductive JsonPayloadError : Type :=
| Overflow
| OverflowKnownLength
| OtherJsonError.

(** [error.rs:122-133 json_error_handler] *)
Definition json_error_handler (err : JsonPayloadError) : ApiError :=
  match err with
  | Overflow | OverflowKnownLength => PayloadTooLarge
  | OtherJsonError => BadRequest
  end.

(** The machine code identifies the error up to the retry delay. *)
Lemma code_inj e1 e2 :
  code e1 = code e2 →
  e1 = e2 ∨ ∃ s1 s2, e1 = RateLimited s1 ∧ e2 = RateLimited s2.
Proof. destruct e1, e2; simpl; try discriminate; eauto. Qed.

Lemma status_code_error e : 400 <= status_code e < 600.
Proof. destruct e; simpl; lia. Qed.
