(* ===== verification/Externals.v ===== *)
(** * Externals: the third-party code the relay relies on

    Cryptography, base64 and UUID text are crates outside the repository: each
    is a class of operations, and what the relay relies on is a second class
    of the documented laws.  [Demo] instances at the end of the file are
    concrete functions that satisfy the laws; witnesses are evaluated on them. *)

From Stdlib Require Import Strings.Byte Ascii.
From S2P Require Import Prelude Text.

Local Open Scope Z_scope.

(** [ring::digest] SHA-256, [ed25519_dalek] verification and [subtle]'s
    constant-time comparison. *)
Class Crypto : Type := {
  sha256 : bytes → arr 32;
  VerifyingKey : Type;
  vk_from_bytes : arr 32 → option VerifyingKey;
  verify_strict : VerifyingKey → bytes → arr 64 → bool;
  ct_eq : bytes → bytes → bool
}.

(** [subtle::ConstantTimeEq] decides equality. *)
Class CryptoLaws {C : Crypto} : Prop := {
  ct_eq_spec a b : ct_eq a b = true ↔ a = b
}.

(** The [base64] engines [URL_SAFE_NO_PAD] and [STANDARD]. *)
Class Base64 : Type := {
  b64u_encode : bytes → string;
  b64u_decode : string → option bytes;
  b64_std_decode : string → option bytes
}.

Definition b64u_char (b : byte) : bool :=
  is_ascii_alphanumeric b || bool_decide (byteZ b = 0x2D) || bool_decide (byteZ b = 0x5F).

(** RFC 4648 section 5: the text determines the bytes and back (the engine
    refuses padding and stray trailing bits), over the URL-safe alphabet. *)
Class Base64Laws {B64 : Base64} : Prop := {
  b64u_decode_encode l : b64u_decode (b64u_encode l) = Some l;
  b64u_encode_decode s l : b64u_decode s = Some l → b64u_encode l = s;
  b64u_alphabet l : all_bytes b64u_char (b64u_encode l) = true
}.

(** The [uuid] crate: the hyphenated form, parsing and the version and variant
    fields. *)
Class UuidOps : Type := {
  hyphenated : Uuid → string;
  uuid_parse : string → option Uuid;
  get_version_num : Uuid → Z;
  variant_rfc4122 : Uuid → bool
}.

Definition uuid_char (b : byte) : bool := is_ascii_hexdigit b || bool_decide (byteZ b = 0x2D).

Class UuidLaws {UO : UuidOps} : Prop := {
  uuid_parse_hyphenated u : uuid_parse (hyphenated u) = Some u;
  uuid_alphabet u : all_bytes uuid_char (hyphenated u) = true;
  version_is_nibble u : get_version_num u = arr_get 6 u / 16;
  variant_is_bits u : variant_rfc4122 u = (arr_get 8 u / 64 =? 2)
}.

Section Laws.
Context {B64 : Base64} {B64L : Base64Laws} {UO : UuidOps} {UL : UuidLaws}.

Lemma hyphenated_inj u v : hyphenated u = hyphenated v → u = v.
Proof.
  intros H. pose proof (uuid_parse_hyphenated u) as Hu.
  rewrite H, uuid_parse_hyphenated in Hu. congruence.
Qed.

Lemma b64u_encode_inj l m : b64u_encode l = b64u_encode m → l = m.
Proof.
  intros H. pose proof (b64u_decode_encode l) as Hl.
  rewrite H, b64u_decode_encode in Hl. congruence.
Qed.

Lemma all_bytes_no_byte p sep s : p sep = false → all_bytes p s = true → no_byte sep s.
Proof.
  unfold all_bytes, no_byte. rewrite forallb_forall. intros Hp Ha Hin.
  rewrite list_elem_of_In in Hin. apply Ha in Hin. congruence.
Qed.

Lemma hyphenated_no_byte sep u : uuid_char sep = false → no_byte sep (hyphenated u).
Proof. intros H. eapply all_bytes_no_byte; [done|apply uuid_alphabet]. Qed.

Lemma b64u_no_byte sep l : b64u_char sep = false → no_byte sep (b64u_encode l).
Proof. intros H. eapply all_bytes_no_byte; [done|apply b64u_alphabet]. Qed.
End Laws.

(** ** Concrete instances for witnesses *)

Module Demo.

(** Two hexadecimal digits per byte, a concrete text for bytes. *)
Definition hex_digit (z : Z) : byte :=
  byte_of_Z (if z <? 10 then 0x30 + z else 0x61 + (z - 10)).
Definition hex_value (b : byte) : option Z :=
  if is_ascii_digit b then Some (byteZ b - 0x30)
  else if in_range 0x61 0x66 b then Some (byteZ b - 0x61 + 10)
  else None.
Fixpoint hex_encode (l : bytes) : bytes :=
  match l with
  | [] => []
  | b :: l' => hex_digit (byteZ b / 16) :: hex_digit (byteZ b mod 16) :: hex_encode l'
  end.
Fixpoint hex_decode (l : bytes) : option bytes :=
  match l with
  | [] => Some []
  | h :: l :: r =>
    zh ← hex_value h; zl ← hex_value l; r ← hex_decode r;
    Some (byte_of_Z (zh * 16 + zl) :: r)
  | _ => None
  end.

Lemma hex_pair b :
  (zh ← hex_value (hex_digit (byteZ b / 16)); zl ← hex_value (hex_digit (byteZ b mod 16));
   Some (byte_of_Z (zh * 16 + zl))) = Some b.
Proof. by destruct b. Qed.

Lemma hex_decode_encode l : hex_decode (hex_encode l) = Some l.
Proof.
  induction l as [|b l IH]; [done|]. cbn [hex_encode hex_decode forallb]. rewrite IH.
  pose proof (hex_pair b) as Hp.
  destruct (hex_value (hex_digit (byteZ b / 16))); [simpl in *|discriminate].
  destruct (hex_value (hex_digit (byteZ b mod 16))); [simpl in *|discriminate].
  congruence.
Qed.

Lemma hex_back h l zh zl :
  hex_value h = Some zh → hex_value l = Some zl →
  hex_digit (byteZ (byte_of_Z (zh * 16 + zl)) / 16) = h ∧
  hex_digit (byteZ (byte_of_Z (zh * 16 + zl)) mod 16) = l.
Proof.
  assert (∀ b z, hex_value b = Some z → 0 <= z < 16 ∧ hex_digit z = b) as Hv.
  { intros b z. destruct b; cbv -[Z.le Z.lt]; intros [= <-]; (split; [lia|reflexivity]). }
  intros Hh Hl. apply Hv in Hh as [? <-], Hl as [? <-].
  rewrite byteZ_of_Z, Z.mod_small by lia.
  rewrite Z.add_comm, Z.div_add, Z.div_small by lia.
  by rewrite Z.mod_add, Z.mod_small by lia.
Qed.

Lemma hex_encode_decode l m : hex_decode l = Some m → hex_encode m = l.
Proof.
  remember (length l) as n eqn:Hn. revert l m Hn.
  induction (lt_wf n) as [n _ IH]. intros l m -> H.
  destruct l as [|a [|b r]]; cbn in H; [by injection H as <-|discriminate|].
  destruct (hex_value a) eqn:Ha; [simpl in H|discriminate].
  destruct (hex_value b) eqn:Hb; [simpl in H|discriminate].
  destruct (hex_decode r) as [r'|] eqn:Hr; [simpl in H|discriminate]. injection H as <-.
  cbn [hex_encode]. destruct (hex_back _ _ _ _ Ha Hb) as [-> ->].
  do 2 f_equal. eapply IH; [|done|exact Hr]. simpl. lia.
Qed.

Lemma hex_alphabet l : forallb is_ascii_hexdigit (hex_encode l) = true.
Proof.
  induction l as [|b l IH]; [done|]. cbn [hex_encode hex_decode forallb]. rewrite IH.
  by destruct b.
Qed.

#[export] Instance demo_base64 : Base64 := {|
  b64u_encode l := str_of (hex_encode l);
  b64u_decode s := hex_decode (str_bytes s);
  b64_std_decode s := hex_decode (str_bytes s)
|}.

#[export] Instance demo_base64_laws : Base64Laws.
Proof.
  split; simpl.
  - intros l. rewrite str_bytes_of. apply hex_decode_encode.
  - intros s l H. apply hex_encode_decode in H. rewrite H. apply str_of_bytes.
  - intros l. unfold all_bytes. rewrite str_bytes_of.
    pose proof (hex_alphabet l) as H. rewrite forallb_forall in *.
    intros b Hb. apply H in Hb. clear -Hb. by destruct b.
Qed.

#[export] Instance demo_uuid : UuidOps := {|
  hyphenated u := str_of (hex_encode (arr_bytes u));
  uuid_parse s := l ← hex_decode (str_bytes s); arr_of 16 l;
  get_version_num u := arr_get 6 u / 16;
  variant_rfc4122 u := arr_get 8 u / 64 =? 2
|}.

#[export] Instance demo_uuid_laws : UuidLaws.
Proof.
  split; simpl; try done.
  - intros u. rewrite str_bytes_of, hex_decode_encode. simpl. apply arr_of_bytes.
  - intros u. unfold all_bytes. rewrite str_bytes_of.
    pose proof (hex_alphabet (arr_bytes u)) as H. rewrite forallb_forall in *.
    intros b Hb. apply H in Hb. clear -Hb. unfold uuid_char. by rewrite Hb.
Qed.

(** A keyed checksum in place of SHA-256 and Ed25519: a signature is the
    64-byte digest of the key and the message. *)
Definition checksum (l : bytes) : Z :=
  foldl (λ acc b, (acc * 257 + byteZ b + 1) mod 4294967291) 7 l.
Definition digest (n : nat) (l : bytes) : bytes :=
  concat (replicate (n / 4) (be_bytes 4 (checksum l))).

#[export] Instance demo_crypto : Crypto := {|
  sha256 l := arr_fill 32 (digest 32 l);
  VerifyingKey := arr 32;
  vk_from_bytes k := Some k;
  verify_strict k msg sig := bytes_eqb (arr_bytes sig) (digest 64 (arr_bytes k ++ msg));
  ct_eq := bytes_eqb
|}.

#[export] Instance demo_crypto_laws : CryptoLaws.
Proof. split. intros a b. apply bool_decide_eq_true. Qed.

Definition demo_sign (k : arr 32) (msg : bytes) : arr 64 :=
  arr_fill 64 (digest 64 (arr_bytes k ++ msg)).

End Demo.
