(* ===== verification/Signatures.v ===== *)
(** * Signatures: device identity and the signed messages
    ([device_identity.rs], [b64u.rs], [signatures.rs])

    The self-certifying [device_id], the base64url field decoders and the
    three byte strings a device signs for the relay, with their
    verification. *)

From Stdlib Require Import Strings.Byte Ascii.
From S2P Require Import Prelude Text Errors Externals.

Local Open Scope Z_scope.

(** ** base64url fields ([b64u.rs]) *)

Section B64u.
Context {B64 : Base64}.

(** [b64u.rs:8-10 encode] *)
Definition encode (l : bytes) : string := b64u_encode l.

(** [b64u.rs:12-19 decode_fixed] *)
Definition decode_fixed (n : nat) (text : string) : option (arr n) :=
  l ← b64u_decode text; arr_of n l.

(** [b64u.rs:21-24 decode_field] *)
Definition decode_field (n : nat) (text : string) : result ApiError (arr n) :=
  ok_or (decode_fixed n text) BadRequest.

(** [b64u.rs:26-29 decode] *)
Definition decode (text : string) : option bytes := b64u_decode text.

Context {B64L : Base64Laws}.

Lemma decode_fixed_encode {n} (a : arr n) : decode_fixed n (encode (arr_bytes a)) = Some a.
Proof.
  unfold decode_fixed, encode. rewrite b64u_decode_encode. simpl. apply arr_of_bytes.
Qed.

(** The text of a fixed-size field is unique. *)
Lemma decode_fixed_canonical {n} s (a : arr n) :
  decode_fixed n s = Some a ↔ s = encode (arr_bytes a).
Proof.
  split; [|intros ->; apply decode_fixed_encode].
  unfold decode_fixed, encode. destruct (b64u_decode s) as [l|] eqn:E; [simpl|done].
  rewrite arr_of_Some. intros ->. symmetry. by apply b64u_encode_decode.
Qed.
End B64u.

(** ** Device identity ([device_identity.rs]) *)

Section Identity.
Context {C : Crypto}.

(** [device_identity.rs:9-17 device_id_from_public_key] *)
Definition device_id_from_public_key (ik_sig_pub : arr 32) : Uuid :=
  let hash := sha256 (arr_bytes ik_sig_pub) in
  let b := arr_fill 16 (take 16 (arr_bytes hash)) in
  let b := arr_upd 6 (byte_of_Z (Z.lor (Z.land (arr_get 6 b) 0x0f) 0x80)) b in
  arr_upd 8 (byte_of_Z (Z.lor (Z.land (arr_get 8 b) 0x3f) 0x80)) b.

(** [device_identity.rs:19-22 matches_public_key] *)
Definition matches_public_key (device_id : Uuid) (ik_sig_pub : arr 32) : bool :=
  bool_decide (device_id_from_public_key ik_sig_pub = device_id).

(** Outside the version and variant bits the id is the hash prefix. *)
Lemma device_id_hash_byte k i :
  (i < 16)%nat → i ≠ 6%nat → i ≠ 8%nat →
  arr_get i (device_id_from_public_key k) = arr_get i (sha256 (arr_bytes k)).
Proof.
  intros Hi H6 H8. unfold device_id_from_public_key.
  rewrite !arr_get_upd_ne by done. unfold arr_get.
  rewrite arr_fill_bytes by (rewrite length_take, length_arr; lia).
  rewrite take_take, lookup_take_lt by lia. done.
Qed.

Lemma or_0x80_nibble z : Z.lor (Z.land z 0x0f) 0x80 mod 256 / 16 = 8.
Proof.
  change 256 with (2 ^ 8). rewrite <-Z.land_ones by lia.
  change 16 with (2 ^ 4). rewrite <-Z.shiftr_div_pow2 by lia.
  rewrite Z.land_lor_distr_l, <-Z.land_assoc. change (Z.land 0x0f (Z.ones 8)) with (Z.ones 4).
  rewrite Z.shiftr_lor, Z.shiftr_land. change (Z.shiftr (Z.ones 4) 4) with 0.
  rewrite Z.land_0_r. reflexivity.
Qed.

Lemma or_0x80_variant z : Z.lor (Z.land z 0x3f) 0x80 mod 256 / 64 = 2.
Proof.
  change 256 with (2 ^ 8). rewrite <-Z.land_ones by lia.
  change 64 with (2 ^ 6). rewrite <-Z.shiftr_div_pow2 by lia.
  rewrite Z.land_lor_distr_l, <-Z.land_assoc. change (Z.land 0x3f (Z.ones 8)) with (Z.ones 6).
  rewrite Z.shiftr_lor, Z.shiftr_land. change (Z.shiftr (Z.ones 6) 6) with 0.
  rewrite Z.land_0_r. reflexivity.
Qed.

Lemma device_id_version_byte k : arr_get 6 (device_id_from_public_key k) / 16 = 8.
Proof.
  unfold device_id_from_public_key.
  rewrite arr_get_upd_ne, arr_get_upd_eq, byteZ_of_Z by lia. apply or_0x80_nibble.
Qed.

Lemma device_id_variant_byte k : arr_get 8 (device_id_from_public_key k) / 64 = 2.
Proof.
  unfold device_id_from_public_key.
  rewrite arr_get_upd_eq, byteZ_of_Z by lia. apply or_0x80_variant.
Qed.
End Identity.

#[global] Arguments device_id_from_public_key : simpl never.

(** ** Signed messages ([signatures.rs]) *)

(** [signatures.rs:16-16 REGISTER_LABEL] *)
Definition REGISTER_LABEL : bytes := str_bytes "HLREG1".
(** [signatures.rs:17-17 AUTH_LABEL] *)
Definition AUTH_LABEL : bytes := str_bytes "HLAUTH1".
(** [signatures.rs:18-18 REVOKE_LABEL] *)
Definition REVOKE_LABEL : bytes := str_bytes "HLREVOKE1".

(** [signatures.rs:20-33 registration_message] *)
Definition registration_message
    (device_id : Uuid) (ik_sig_pub : arr 32) (platform : string) (ts_ms : Z) : bytes :=
  REGISTER_LABEL ++ arr_bytes device_id ++ arr_bytes ik_sig_pub ++ str_bytes platform ++
  i64_to_be ts_ms.

(** [signatures.rs:35-41 auth_message] *)
Definition auth_message (challenge : arr 32) (device_id : Uuid) : bytes :=
  AUTH_LABEL ++ arr_bytes challenge ++ arr_bytes device_id.

(** [signatures.rs:43-50 revoke_message] *)
Definition revoke_message (pair_id by_ : Uuid) (revoked_at_ms : Z) : bytes :=
  REVOKE_LABEL ++ arr_bytes pair_id ++ arr_bytes by_ ++ be_bytes 8 revoked_at_ms.

Section Verify.
Context {C : Crypto}.

(** [signatures.rs:52-70 verify_device_signature] *)
Definition verify_device_signature
    (device_id : Uuid) (ik_sig_pub : arr 32) (msg : bytes) (sig : arr 64) :
    result ApiError unit :=
  let? _ := guard (negb (matches_public_key device_id ik_sig_pub)) SignatureInvalid in
  let? key := ok_or (vk_from_bytes ik_sig_pub) SignatureInvalid in
  guard (negb (verify_strict key msg sig)) SignatureInvalid.

(** What a verified signature establishes. *)
Definition signed_by (device_id : Uuid) (ik : arr 32) (msg : bytes) (sig : arr 64) : Prop :=
  device_id_from_public_key ik = device_id ∧
  ∃ vk, vk_from_bytes ik = Some vk ∧ verify_strict vk msg sig = true.

Lemma verify_device_signature_Ok id ik msg sig u :
  verify_device_signature id ik msg sig = Ok u ↔ signed_by id ik msg sig.
Proof.
  unfold verify_device_signature, signed_by, matches_public_key. destruct u. split.
  - intros H. result_inv. rewrite !negb_false_iff in *.
    rewrite bool_decide_eq_true in *. eauto.
  - intros (Hid & vk & Hk & Hv). rewrite bool_decide_true by done. simpl.
    by rewrite Hk; simpl; rewrite Hv.
Qed.

Lemma verify_device_signature_Err id ik msg sig e :
  verify_device_signature id ik msg sig = Err e → e = SignatureInvalid.
Proof. unfold verify_device_signature. intros H. by result_inv. Qed.
End Verify.

(** ** Separation of the signed messages *)

Lemma arr_bytes_inj_app {n} (a b : arr n) l m :
  arr_bytes a ++ l = arr_bytes b ++ m → a = b ∧ l = m.
Proof.
  intros H. apply app_inj_1 in H as [H ->]; [|by rewrite !length_arr].
  split; [by apply arr_eq|done].
Qed.

Lemma app_inv_suffix {A} (l1 l2 k1 k2 : list A) :
  length k1 = length k2 → l1 ++ k1 = l2 ++ k2 → l1 = l2 ∧ k1 = k2.
Proof. intros Hk H. by apply app_inj_2 in H. Qed.

Lemma registration_message_inj d1 k1 p1 t1 d2 k2 p2 t2 :
  i64_ok t1 → i64_ok t2 →
  registration_message d1 k1 p1 t1 = registration_message d2 k2 p2 t2 →
  d1 = d2 ∧ k1 = k2 ∧ p1 = p2 ∧ t1 = t2.
Proof.
  unfold registration_message. intros H1 H2 H. apply app_inv_head in H.
  apply arr_bytes_inj_app in H as [-> H]. apply arr_bytes_inj_app in H as [-> H].
  apply app_inv_suffix in H as [Hp Ht]; [|by unfold i64_to_be; rewrite !length_be_bytes].
  split_and!; try done; [by apply str_bytes_inj|by apply i64_to_be_inj].
Qed.

Lemma auth_message_inj c1 d1 c2 d2 :
  auth_message c1 d1 = auth_message c2 d2 → c1 = c2 ∧ d1 = d2.
Proof.
  unfold auth_message. intros H. apply app_inv_head in H.
  apply arr_bytes_inj_app in H as [-> H]. split; [done|by apply arr_eq].
Qed.

Lemma revoke_message_inj p1 b1 t1 p2 b2 t2 :
  u64_ok t1 → u64_ok t2 →
  revoke_message p1 b1 t1 = revoke_message p2 b2 t2 → p1 = p2 ∧ b1 = b2 ∧ t1 = t2.
Proof.
  unfold revoke_message, u64_ok. intros H1 H2 H. apply app_inv_head in H.
  apply arr_bytes_inj_app in H as [-> H]. apply arr_bytes_inj_app in H as [-> H].
  split_and!; try done. apply be_bytes_inj in H.
  change (256 ^ Z.of_nat 8) with (2 ^ 64) in H. by rewrite !Z.mod_small in H by lia.
Qed.
