(* ===== verification/Attestation.v ===== *)
(** * Attestation: the pair attestation ([attestation.rs])

    The canonical 127-byte form, its parser and the checks of a pair
    registration against the stored keys. *)

From Stdlib Require Import Strings.Byte Ascii.
From S2P Require Import Prelude Text Errors Externals Signatures.

Local Open Scope Z_scope.

(** [attestation.rs:14-14 ATTESTATION_LABEL] *)
Definition ATTESTATION_LABEL : bytes := str_bytes "HLPAIR1".
(** [attestation.rs:15-16 ATTESTATION_LEN] *)
Definition ATTESTATION_LEN : nat := 127.

(** [attestation.rs:18-27 Attestation] *)
Record Attestation : Type := mkAttestation {
  at_pair_id : Uuid;
  at_device_a : Uuid;
  at_device_b : Uuid;
  at_ik_sig_pub_a : arr 32;
  at_ik_sig_pub_b : arr 32;
  at_created_at_ms : Z
}.

#[export] Instance Attestation_eq_dec : EqDecision Attestation.
Proof. solve_decision. Defined.

(** [attestation.rs:30-41 Attestation::to_bytes] *)
Definition to_bytes (a : Attestation) : bytes :=
  ATTESTATION_LABEL ++ arr_bytes (at_pair_id a) ++ arr_bytes (at_device_a a) ++
  arr_bytes (at_device_b a) ++ arr_bytes (at_ik_sig_pub_a a) ++
  arr_bytes (at_ik_sig_pub_b a) ++ i64_to_be (at_created_at_ms a).

(** [attestation.rs:43-59 Attestation::parse] *)
Definition parse (l : bytes) : option Attestation :=
  if negb (Nat.eqb (length l) ATTESTATION_LEN) || negb (starts_with ATTESTATION_LABEL l)
  then None
  else
    let rest := drop (length ATTESTATION_LABEL) l in
    let uuid_at at_ := arr_of 16 (slice at_ 16 rest) in
    let key_at at_ := arr_of 32 (slice at_ 32 rest) in
    pair_id ← uuid_at 0%nat;
    device_a ← uuid_at 16%nat;
    device_b ← uuid_at 32%nat;
    ik_sig_pub_a ← key_at 48%nat;
    ik_sig_pub_b ← key_at 80%nat;
    ts ← arr_of 8 (slice 112 8 rest);
    Some (mkAttestation pair_id device_a device_b ik_sig_pub_a ik_sig_pub_b
            (i64_from_be (arr_bytes ts))).

#[global] Arguments to_bytes : simpl never.
#[global] Arguments parse : simpl never.

Definition attestation_ok (a : Attestation) : Prop := i64_ok (at_created_at_ms a).

Lemma length_to_bytes a : length (to_bytes a) = ATTESTATION_LEN.
Proof.
  unfold to_bytes, i64_to_be. by rewrite !length_app, !length_arr, length_be_bytes.
Qed.

Lemma parse_body p a b ka kb ts :
  length ts = 8%nat →
  let rest := arr_bytes p ++ arr_bytes a ++ arr_bytes b ++ arr_bytes ka ++ arr_bytes kb ++ ts in
  slice 0 16 rest = arr_bytes (n:=16) p ∧ slice 16 16 rest = arr_bytes (n:=16) a ∧
  slice 32 16 rest = arr_bytes (n:=16) b ∧ slice 48 32 rest = arr_bytes (n:=32) ka ∧
  slice 80 32 rest = arr_bytes (n:=32) kb ∧ slice 112 8 rest = ts.
Proof.
  intros Hts rest. subst rest.
  split_and!; rewrite ?slice_arr_skip by lia; simpl Nat.sub;
    rewrite ?slice_arr_here; try done.
  by apply slice_full.
Qed.

Lemma parse_to_bytes_wrap a :
  parse (to_bytes a) =
    Some (mkAttestation (at_pair_id a) (at_device_a a) (at_device_b a)
            (at_ik_sig_pub_a a) (at_ik_sig_pub_b a)
            (i64_from_be (i64_to_be (at_created_at_ms a)))).
Proof.
  unfold parse. rewrite length_to_bytes.
  unfold to_bytes at 1. rewrite starts_with_app. cbn [Nat.eqb negb orb ATTESTATION_LEN].
  unfold to_bytes. rewrite drop_app_length.
  destruct a as [p da db ka kb ts]. cbn [at_pair_id at_device_a at_device_b
    at_ik_sig_pub_a at_ik_sig_pub_b at_created_at_ms].
  destruct (parse_body p da db ka kb (i64_to_be ts) (length_be_bytes 8 ts))
    as (-> & -> & -> & -> & -> & ->).
  rewrite !arr_of_bytes. cbn [mbind option_bind].
  destruct (arr_of_spec 8 (i64_to_be ts)) as [(t & -> & Ht & _)|[_ Hn]].
  - cbn. by rewrite Ht.
  - by destruct Hn; apply length_be_bytes.
Qed.

Lemma split_body (rest : bytes) :
  length rest = 120%nat →
  rest = slice 0 16 rest ++ slice 16 16 rest ++ slice 32 16 rest ++ slice 48 32 rest ++
         slice 80 32 rest ++ slice 112 8 rest.
Proof.
  intros Hr. rewrite <-(drop_0 rest) at 1.
  rewrite (slice_cons_drop 0 16), (slice_cons_drop (0 + 16) 16),
    (slice_cons_drop (0 + 16 + 16) 16), (slice_cons_drop (0 + 16 + 16 + 16) 32),
    (slice_cons_drop (0 + 16 + 16 + 16 + 32) 32). simpl Nat.add.
  do 5 f_equal. unfold slice. rewrite take_ge; [done|]. rewrite length_drop. lia.
Qed.

Lemma to_bytes_parse l a : parse l = Some a → to_bytes a = l ∧ attestation_ok a.
Proof.
  unfold parse. destruct (negb _ || negb _) eqn:Hc; [done|].
  apply orb_false_iff in Hc as [Hl Hp].
  apply negb_false_iff, Nat.eqb_eq in Hl. apply negb_false_iff, starts_with_true in Hp.
  set (rest := drop (length ATTESTATION_LABEL) l) in *.
  assert (length rest = 120%nat) as Hr by (unfold rest; rewrite length_drop, Hl; done).
  cbv zeta. intros H.
  option_inv. subst a. split; [|apply i64_wrap_ok].
  unfold to_bytes. cbn [at_pair_id at_device_a at_device_b
    at_ik_sig_pub_a at_ik_sig_pub_b at_created_at_ms].
  repeat match goal with E : arr_bytes ?x = _ |- _ => rewrite E; clear E end.
  rewrite i64_to_from_be by (apply length_slice; lia).
  rewrite Hp at 1. f_equal. symmetry. by apply split_body.
Qed.

(** ** Pair claims *)

(** [attestation.rs:62-71 PairClaim] *)
Record PairClaim : Type := mkPairClaim {
  pc_pair_id : Uuid;
  pc_device_a : Uuid;
  pc_device_b : Uuid;
  pc_created_at_ms : Z;
  pc_attestation : bytes;
  pc_sig_a : arr 64;
  pc_sig_b : arr 64
}.

Section Claim.
Context {C : Crypto}.

(** [attestation.rs:73-108 verify_pair_claim] *)
Definition verify_pair_claim (claim : PairClaim) (stored_key_a stored_key_b : arr 32) :
    result ApiError unit :=
  let? parsed := ok_or (parse (pc_attestation claim)) BadRequest in
  let? _ := guard
    (bool_decide (at_pair_id parsed ≠ pc_pair_id claim)
     || bool_decide (at_device_a parsed ≠ pc_device_a claim)
     || bool_decide (at_device_b parsed ≠ pc_device_b claim)
     || bool_decide (at_created_at_ms parsed ≠ pc_created_at_ms claim)) BadRequest in
  let? _ := guard
    (bool_decide (at_ik_sig_pub_a parsed ≠ stored_key_a)
     || bool_decide (at_ik_sig_pub_b parsed ≠ stored_key_b)) SignatureInvalid in
  let? _ := verify_device_signature (pc_device_a claim) stored_key_a
              (pc_attestation claim) (pc_sig_a claim) in
  verify_device_signature (pc_device_b claim) stored_key_b
    (pc_attestation claim) (pc_sig_b claim).

(** The attestation both devices must have signed. *)
Definition claimed (claim : PairClaim) (ka kb : arr 32) : Attestation :=
  mkAttestation (pc_pair_id claim) (pc_device_a claim) (pc_device_b claim) ka kb
    (pc_created_at_ms claim).

Lemma verify_pair_claim_Ok claim ka kb u :
  verify_pair_claim claim ka kb = Ok u ↔
  i64_ok (pc_created_at_ms claim) ∧
  pc_attestation claim = to_bytes (claimed claim ka kb) ∧
  signed_by (pc_device_a claim) ka (pc_attestation claim) (pc_sig_a claim) ∧
  signed_by (pc_device_b claim) kb (pc_attestation claim) (pc_sig_b claim).
Proof.
  unfold verify_pair_claim, claimed. split.
  - intros H. result_inv.
    rewrite !orb_false_iff, !bool_decide_eq_false in *. destruct_and?.
    match goal with E : parse _ = Some ?a |- _ =>
      apply to_bytes_parse in E as [E Hok]; destruct a; simpl in * end.
    rewrite !verify_device_signature_Ok in *.
    repeat match goal with E : ¬ (_ ≠ _) |- _ => apply dec_stable in E end.
    unfold attestation_ok in Hok. simpl in Hok. subst.
    split_and!; [done|by symmetry|done|done].
  - intros (Hok & Ha & Hs1 & Hs2). rewrite Ha at 1.
    rewrite parse_to_bytes_wrap, i64_from_to_be by done. rsimpl.
    cbn [at_pair_id at_device_a at_device_b at_ik_sig_pub_a at_ik_sig_pub_b at_created_at_ms].
    rewrite !bool_decide_false by (intros Hn; by apply Hn). rsimpl.
    rewrite (proj2 (verify_device_signature_Ok _ _ _ _ tt) Hs1). rsimpl.
    destruct u. by apply verify_device_signature_Ok.
Qed.
End Claim.

(** ** Properties *)

(** Parsing the canonical bytes of an attestation returns it. *)
Theorem attestation_parse_to_bytes (a : Attestation) :
  attestation_ok a → parse (to_bytes a) = Some a.
Proof.
  intros H. rewrite parse_to_bytes_wrap. unfold attestation_ok in H.
  rewrite i64_from_to_be by done. by destruct a.
Qed.

(** C26. A byte string parses to an attestation exactly when it is that
    attestation's canonical form: there is one signed message per
    attestation. *)
Theorem attestation_parse_iff (l : bytes) (a : Attestation) :
  parse l = Some a ↔ l = to_bytes a ∧ attestation_ok a.
Proof.
  split.
  - intros H. apply to_bytes_parse in H as [? ?]. done.
  - intros [-> H]. rewrite parse_to_bytes_wrap. unfold attestation_ok in H.
    rewrite i64_from_to_be by done. by destruct a.
Qed.
