(* ===== verification/Revocation.v ===== *)
(** * Revocation: signed revocation statements ([revocation.rs])

    The check of one statement and the matching of a "delete all data" call's
    statements to the pairs the relay holds. *)

From S2P Require Import Prelude Text Errors Externals Signatures.

Local Open Scope Z_scope.

(** [revocation.rs:20-22 REVOKE_CLOCK_SKEW_MS] *)
Definition REVOKE_CLOCK_SKEW_MS : Z := 10 * 60 * 1000.

(** [revocation.rs:24-31 RevokeStatement] *)
Record RevokeStatement : Type := mkStatement {
  rs_pair_id : Uuid;
  rs_by : Uuid;
  rs_revoked_at : Z;
  rs_sig : arr 64
}.

#[export] Instance RevokeStatement_eq_dec : EqDecision RevokeStatement.
Proof. solve_decision. Defined.

(** [revocation.rs:33-41 RevokeRequest] *)
Record RevokeRequest : Type := mkRevokeRequest {
  rq_revoked_at : option Z;
  rq_sig : option string;
  rq_reason : option string
}.

(** [revocation.rs:43-49 Revocation] *)
Record Revocation : Type := mkRevocation {
  rv_pair_id : Uuid;
  rv_revoked_at : option Z;
  rv_sig : option string
}.

(** [revocation.rs:51-56 DeleteRequest] *)
Record DeleteRequest : Type := mkDeleteRequest { dr_revocations : list Revocation }.

(** [u64::try_from] of an [i64]. *)
Definition u64_try_from (z : Z) : option Z := if 0 <=? z then Some z else None.

(** [a.abs_diff(b)] of two [i64]s, an exact [u64]. *)
Definition abs_diff (a b : Z) : Z := Z.abs (a - b).

Section Statements.
Context {C : Crypto} {B64 : Base64}.

(** [revocation.rs:58-85 verify_statement] *)
Definition verify_statement (pair_id caller : Uuid) (caller_ik_sig_pub : arr 32)
    (revoked_at : option Z) (sig : option string) (now_ms : Z) :
    result ApiError RevokeStatement :=
  let? revoked_at := ok_or revoked_at BadRequest in
  let? text := ok_or sig BadRequest in
  let? sig := decode_field 64 text in
  let? unsigned := ok_or (u64_try_from revoked_at) BadRequest in
  let? _ := guard (abs_diff revoked_at now_ms >? Z.abs REVOKE_CLOCK_SKEW_MS) BadRequest in
  let msg := revoke_message pair_id caller unsigned in
  let? _ := map_err (λ _, BadRequest)
              (verify_device_signature caller caller_ik_sig_pub msg sig) in
  Ok (mkStatement pair_id caller revoked_at sig).

(** A statement the relay may store and forward: [by] signed it with the key
    that derives its id, at a time close to the relay's clock. *)
Definition genuine (ik : arr 32) (now : Z) (s : RevokeStatement) : Prop :=
  0 <= rs_revoked_at s ∧ Z.abs (rs_revoked_at s - now) <= REVOKE_CLOCK_SKEW_MS ∧
  signed_by (rs_by s) ik
    (revoke_message (rs_pair_id s) (rs_by s) (rs_revoked_at s)) (rs_sig s).

Lemma verify_statement_Ok pid caller ik rev sig now st :
  verify_statement pid caller ik rev sig now = Ok st ↔
  ∃ t, rev = Some (rs_revoked_at st) ∧ sig = Some t ∧ decode_fixed 64 t = Some (rs_sig st) ∧
       rs_pair_id st = pid ∧ rs_by st = caller ∧ genuine ik now st.
Proof.
  unfold verify_statement, genuine, abs_diff, u64_try_from, decode_field. split.
  - intros H. result_inv. case_match; simplify_eq.
    match goal with E : verify_device_signature _ _ _ _ = _ |- _ =>
      apply verify_device_signature_Ok in E end.
    cbn [rs_revoked_at rs_sig rs_pair_id rs_by].
    change (Z.abs REVOKE_CLOCK_SKEW_MS) with REVOKE_CLOCK_SKEW_MS in *.
    eexists. split_and!; try done; lia.
  - intros (t & -> & -> & Ht & <- & <- & H0 & H1 & Hs). rsimpl. rewrite Ht. rsimpl.
    rewrite (proj2 (Z.leb_le _ _) H0). rsimpl.
    change (Z.abs REVOKE_CLOCK_SKEW_MS) with REVOKE_CLOCK_SKEW_MS.
    destruct (Z.gtb_spec (Z.abs (rs_revoked_at st - now)) REVOKE_CLOCK_SKEW_MS) as [?|_];
      [lia|]. rsimpl.
    rewrite (proj2 (verify_device_signature_Ok _ _ _ _ tt) Hs). rsimpl. by destruct st.
Qed.

Lemma verify_statement_Err pid caller ik rev sig now e :
  verify_statement pid caller ik rev sig now = Err e → e = BadRequest.
Proof. unfold verify_statement, decode_field. intros H. by result_inv. Qed.

(** The loop that indexes the items by pair and refuses a repeated pair. *)
Fixpoint index_items (items : list Revocation) (by_pair : gmap Uuid Revocation) :
    result ApiError (gmap Uuid Revocation) :=
  match items with
  | [] => Ok by_pair
  | item :: items' =>
    match by_pair !! rv_pair_id item with
    | Some _ => Err BadRequest
    | None => index_items items' (<[rv_pair_id item := item]> by_pair)
    end
  end.

(** [revocation.rs:87-119 verify_revocations] *)
Definition verify_revocations (held : list (Uuid * Uuid)) (items : list Revocation)
    (caller : Uuid) (caller_ik_sig_pub : arr 32) (now_ms : Z) :
    result ApiError (list (RevokeStatement * Uuid)) :=
  let? by_pair := index_items items ∅ in
  rcollect (λ '(pair_id, peer),
    let? item := ok_or (by_pair !! pair_id) BadRequest in
    let? statement := verify_statement pair_id caller caller_ik_sig_pub
                        (rv_revoked_at item) (rv_sig item) now_ms in
    Ok (statement, peer)) held.

Lemma index_items_Ok items m m' :
  index_items items m = Ok m' ↔
  NoDup (rv_pair_id <$> items) ∧
  (∀ i, i ∈ items → m !! rv_pair_id i = None) ∧
  m' = list_to_map ((λ i, (rv_pair_id i, i)) <$> reverse items) ∪ m.
Proof.
  revert m. induction items as [|i items IH]; intros m; cbn [index_items].
  - rewrite fmap_nil, reverse_nil, fmap_nil, list_to_map_nil, (left_id_L ∅ (∪)).
    split; [intros [= ->]|intros (_ & _ & ->)]; [|done].
    split_and!; [constructor|by intros ? ?%not_elem_of_nil|done].
  - rewrite fmap_cons, NoDup_cons, reverse_cons, fmap_app, list_to_map_app.
    setoid_rewrite elem_of_cons.
    destruct (m !! rv_pair_id i) as [j|] eqn:E.
    { split; [done|]. intros (_ & Hn & _). rewrite Hn in E; [done|by left]. }
    rewrite IH. cbn [fmap list_fmap list_to_map foldr]. rewrite <-(assoc_L (∪)).
    rewrite insert_union_singleton_l, insert_empty. split.
    + intros (Hnd & Hm & ->). split_and!; try done.
      * intros (k & Hk & Hin)%list_elem_of_fmap. apply Hm in Hin.
        by rewrite <-Hk, lookup_union, lookup_singleton_eq, union_Some_l in Hin.
      * intros k [->|Hin]; [done|]. apply Hm in Hin.
        by apply lookup_union_None in Hin as [_ ?].
    + intros ((Hni & Hnd) & Hm & ->). split_and!; try done.
      intros k Hin. apply lookup_union_None. split; [|by apply Hm; right].
      apply lookup_singleton_None. intros Hk. apply Hni. apply list_elem_of_fmap. eauto.
Qed.

Lemma index_items_lookup items m :
  index_items items ∅ = Ok m →
  ∀ p i, m !! p = Some i ↔ i ∈ items ∧ rv_pair_id i = p.
Proof.
  intros H p i. apply index_items_Ok in H as (Hnd & _ & ->).
  rewrite (right_id_L ∅ (∪)), <-elem_of_list_to_map.
  - rewrite list_elem_of_fmap. setoid_rewrite elem_of_reverse. naive_solver.
  - rewrite <-list_fmap_compose. simpl.
    change (NoDup (rv_pair_id <$> reverse items)).
    by rewrite reverse_Permutation.
Qed.

(** ** Properties *)

(** The relay accepts a revocation statement exactly when the caller
    signed [HLREVOKE1] over this pair, itself and the time with the stored
    key its id derives from, and the time is within ten minutes of the
    relay's clock and not negative; the accepted statement is the one
    signed. *)
Theorem verify_statement_spec pid caller ik rev sig now st :
  verify_statement pid caller ik rev sig now = Ok st ↔
  ∃ t, rev = Some (rs_revoked_at st) ∧ sig = Some t ∧ decode_fixed 64 t = Some (rs_sig st) ∧
       rs_pair_id st = pid ∧ rs_by st = caller ∧ genuine ik now st.
Proof. apply verify_statement_Ok. Qed.

(** What [verify_revocations] promises for one held pair. *)
Definition covers (items : list Revocation) (caller : Uuid) (ik : arr 32) (now : Z)
    (h : Uuid * Uuid) (o : RevokeStatement * Uuid) : Prop :=
  o.2 = h.2 ∧
  ∃ item, item ∈ items ∧ rv_pair_id item = h.1 ∧
    verify_statement h.1 caller ik (rv_revoked_at item) (rv_sig item) now = Ok o.1.

(** An accepted call covers every pair. *)
Lemma verify_revocations_covers held items caller ik now out :
  verify_revocations held items caller ik now = Ok out →
  NoDup (rv_pair_id <$> items) ∧ Forall2 (covers items caller ik now) held out.
Proof.
  unfold verify_revocations. rewrite rbind_Ok. setoid_rewrite rcollect_Ok. intros (m & Hm & Hf).
  split; [by apply index_items_Ok in Hm as [? _]|].
  eapply Forall2_impl; [exact Hf|]. intros [p peer] [st peer'] H. result_inv.
  match goal with E : m !! _ = Some _ |- _ =>
    apply (index_items_lookup _ _ Hm) in E as [? ?] end.
  split; [done|]. simpl. eauto.
Qed.

(** C25. A "delete all data" call is accepted exactly when no pair is
    repeated among its statements and every pair the relay holds has a valid
    one; the result lists them in the order of the held pairs, each with its
    peer. *)
Theorem verify_revocations_spec held items caller ik now out :
  verify_revocations held items caller ik now = Ok out ↔
  NoDup (rv_pair_id <$> items) ∧ Forall2 (covers items caller ik now) held out.
Proof.
  split; [apply verify_revocations_covers|].
  unfold verify_revocations. rewrite rbind_Ok. setoid_rewrite rcollect_Ok.
  - intros (Hnd & Hf).
    destruct (index_items items ∅) as [m|e] eqn:Hm.
    + exists m. split; [done|]. eapply Forall2_impl; [exact Hf|].
      intros [p peer] [st peer'] (Hp & item & Hin & Hid & Hst). simpl in *. subst peer'.
      rewrite (proj2 (index_items_lookup _ _ Hm p item) (conj Hin Hid)). rsimpl.
      by rewrite Hst.
    + exfalso. pose proof (proj2 (index_items_Ok items ∅
        (list_to_map ((λ i, (rv_pair_id i, i)) <$> reverse items) ∪ ∅))) as H.
      rewrite Hm in H. discriminate H. split_and!; [done| |done].
      intros. apply lookup_empty.
Qed.
End Statements.
