(* ===== verification/Challenge.v ===== *)
(** * Challenge: pure rules of the auth challenge and of the fixed-window rate
    limits ([challenge.rs]) *)

From S2P Require Import Prelude Text Errors Externals Signatures.

Local Open Scope Z_scope.

(** [challenge.rs:13-14 CHALLENGE_TTL_SECS] *)
Definition CHALLENGE_TTL_SECS : Z := 60.

Section Accept.
Context {C : Crypto} {B64 : Base64}.

(** [challenge.rs:24-39 accept_presented] *)
Definition accept_presented (stored : option string) (presented_b64u : string) :
    result ApiError (arr 32) :=
  let? stored := ok_or stored ChallengeExpired in
  let? stored := ok_or (decode_fixed 32 stored) ChallengeExpired in
  let? presented := ok_or (decode_fixed 32 presented_b64u) ChallengeExpired in
  if ct_eq (arr_bytes stored) (arr_bytes presented) then Ok stored else Err ChallengeExpired.

Context {CL : CryptoLaws}.

Lemma accept_presented_Ok stored presented c :
  accept_presented stored presented = Ok c ↔
  ∃ s, stored = Some s ∧ decode_fixed 32 s = Some c ∧ decode_fixed 32 presented = Some c.
Proof.
  unfold accept_presented. split.
  - intros H. result_inv. case_match eqn:E; result_inv.
    apply ct_eq_spec, arr_eq in E. subst. eauto.
  - intros (s & -> & Hs & Hp). rsimpl. rewrite Hs. rsimpl. rewrite Hp. rsimpl.
    by rewrite (proj2 (ct_eq_spec _ _) eq_refl).
Qed.

Lemma accept_presented_Err stored presented e :
  accept_presented stored presented = Err e → e = ChallengeExpired.
Proof. unfold accept_presented. intros H. result_inv; try done. by case_match; result_inv. Qed.
End Accept.

(** [u64::div_ceil]. *)
Definition div_ceil (a b : Z) : Z := (a + b - 1) / b.

(** Seconds until the end of the window of [width] milliseconds holding
    [now_ms]: the [Retry-After] computation shared by both kinds of limits. *)
Definition window_retry (width now_ms : Z) : Z :=
  Z.max (div_ceil (width - now_ms mod width) 1000) 1.

(** [challenge.rs:41-52 rate_limit_decision] *)
Definition rate_limit_decision (count limit now_ms : Z) : result ApiError unit :=
  if count <=? limit then Ok tt
  else Err (RateLimited (window_retry 60000 now_ms)).

(** [challenge.rs:54-57 minute_window] *)
Definition minute_window (now_ms : Z) : Z := now_ms / 60000.

Lemma rate_limit_decision_Ok count limit now u :
  rate_limit_decision count limit now = Ok u ↔ count <= limit.
Proof.
  unfold rate_limit_decision. destruct u, (Z.leb_spec count limit); split; intros; done || lia.
Qed.

(** The delay is the least whole number of seconds after which the clock is in
    a later window. *)
Lemma window_retry_spec width now :
  0 < width → width mod 1000 = 0 →
  let s := window_retry width now in
  1 <= s <= width / 1000 ∧
  now / width < (now + 1000 * s) / width ∧
  (now + 1000 * (s - 1)) / width = now / width.
Proof.
  intros Hw Hm. cbv zeta. unfold window_retry, div_ceil.
  pose proof (Z.mod_pos_bound now width Hw) as Hb.
  pose proof (Z.div_mod now width ltac:(lia)) as Hd.
  pose proof (Z.div_mod width 1000 ltac:(lia)) as Hk. rewrite Hm in Hk.
  set (r := now mod width) in *. set (q := now / width) in *. set (k := width / 1000) in *.
  pose proof (Z.div_mod (width - r + 1000 - 1) 1000 ltac:(lia)) as Hc.
  pose proof (Z.mod_pos_bound (width - r + 1000 - 1) 1000 ltac:(lia)) as Hcb.
  set (s := (width - r + 1000 - 1) / 1000) in *.
  rewrite Z.max_l by lia. split_and!; [lia|lia| |].
  - apply Z.lt_le_trans with (q + 1); [lia|]. apply Z.div_le_lower_bound; lia.
  - symmetry. apply Z.div_unique_pos with (r := r + 1000 * (s - 1)); lia.
Qed.

(** ** Properties *)

(** The per-minute decision lets a call through exactly while the counter
    is within the limit; a refusal is 429 with the least [Retry-After] (1 to 60
    seconds) after which the next window has started. *)
Theorem rate_limit_decision_spec (count limit now : Z) :
  match rate_limit_decision count limit now with
  | Ok _ => count <= limit
  | Err e => limit < count ∧ ∃ s, e = RateLimited s ∧ status_code e = 429 ∧ 1 <= s <= 60 ∧
             minute_window now < minute_window (now + 1000 * s) ∧
             minute_window (now + 1000 * (s - 1)) = minute_window now
  end.
Proof.
  unfold rate_limit_decision. destruct (Z.leb_spec count limit); [done|].
  split; [done|]. eexists. split_and!; [done|done|..];
    destruct (window_retry_spec 60000 now ltac:(lia) eq_refl) as ([? ?] & ? & ?); done.
Qed.
