(* ===== verification/Wire.v ===== *)
(** * Wire: the relay wire formats ([relay/wire.rs])

    The text wrapper, the binary [HR] frame and the control messages. *)

From Stdlib Require Import Strings.Byte Ascii.
From S2P Require Import Prelude Text Errors Externals Signatures Revocation.

Local Open Scope Z_scope.

(** [relay/wire.rs:18-19 MAX_FRAME_BYTES] *)
Definition MAX_FRAME_BYTES : Z := 256 * 1024.
(** [relay/wire.rs:20-23 MAX_WS_MESSAGE_BYTES] *)
Definition MAX_WS_MESSAGE_BYTES : Z := 1024 * 1024.
(** [relay/wire.rs:25-25 HR_MAGIC] *)
Definition HR_MAGIC : bytes := [byte_of_Z 0x48; byte_of_Z 0x52].
(** [relay/wire.rs:26-26 HR_VERSION] *)
Definition HR_VERSION : byte := byte_of_Z 0x01.
(** [relay/wire.rs:27-27 HR_OP_FORWARD] *)
Definition HR_OP_FORWARD : byte := byte_of_Z 0x01.
(** [relay/wire.rs:28-28 HR_HEADER_LEN] *)
Definition HR_HEADER_LEN : nat := 20.

(** A [serde_json::RawValue] is the text of one JSON value. *)
Abbreviation RawValue := string.

(** [relay/wire.rs:30-41 Inbound] *)
Record Inbound : Type := mkInbound {
  in_op : option string;
  in_to : option Uuid;
  in_env : option RawValue;
  in_rv_id : option string
}.

(** [serde_json]: printing a [Value] and reading a device's text frame. *)
Class Json : Type := {
  json_text : Value → string;
  json_inbound : string → option Inbound
}.

Definition dq : string := String (Ascii.ascii_of_nat 34) EmptyString.

(** ** Binary frames *)

(** [relay/wire.rs:64-75 parse_hr] *)
Definition parse_hr (frame : bytes) : option Uuid :=
  if Nat.leb (length frame) HR_HEADER_LEN
     || negb (bytes_eqb (slice 0 2 frame) HR_MAGIC)
     || negb (bool_decide (frame !! 2%nat = Some HR_VERSION))
     || negb (bool_decide (frame !! 3%nat = Some HR_OP_FORWARD))
  then None
  else arr_of 16 (slice 4 (HR_HEADER_LEN - 4) frame).

(** [relay/wire.rs:77-82 rewrite_hr] *)
Definition rewrite_hr (frame : bytes) (source : Uuid) : bytes :=
  take 4 frame ++ arr_bytes source ++ drop HR_HEADER_LEN frame.

Definition hr_header : bytes := HR_MAGIC ++ [HR_VERSION; HR_OP_FORWARD].

Lemma parse_hr_Some frame d :
  parse_hr frame = Some d ↔
  ∃ payload, payload ≠ [] ∧ frame = hr_header ++ arr_bytes d ++ payload.
Proof.
  unfold parse_hr, HR_HEADER_LEN. split.
  - destruct (_ || _) eqn:E; [done|]. rewrite !orb_false_iff, !negb_false_iff in E.
    destruct E as [[[Hl Hm] Hv] Ho]. intros H. option_inv.
    apply Nat.leb_gt in Hl. apply bool_decide_eq_true in Hm, Hv, Ho.
    exists (drop 20 frame). split.
    + intros Hn. apply (f_equal length) in Hn. rewrite length_drop in Hn. simpl in Hn. lia.
    + destruct frame as [|b0 [|b1 [|b2 [|b3 rest]]]]; try discriminate Hv; try discriminate Ho.
      cbn in Hm, Hv, Ho. injection Hm as -> ->. injection Hv as ->. injection Ho as ->.
      rewrite H. unfold slice. cbn [drop app]. simpl.
      do 4 f_equal. symmetry. apply (take_drop 16 rest).
  - intros (p & Hp & ->). rewrite !length_app, length_arr.
    destruct (Nat.leb_spec (length hr_header + (16 + length p)) 20) as [Hl|_].
    { destruct p; [done|]. simpl in Hl. lia. }
    change (slice 0 2 (hr_header ++ arr_bytes d ++ p)) with HR_MAGIC.
    unfold bytes_eqb. rewrite !bool_decide_true by done. cbn [negb orb].
    apply arr_of_Some. rewrite (slice_app_r 4 0) by done.
    symmetry. apply slice_app_l; [done|apply length_arr].
Qed.

Lemma rewrite_hr_frame (d s : Uuid) payload :
  rewrite_hr (hr_header ++ arr_bytes d ++ payload) s = hr_header ++ arr_bytes s ++ payload.
Proof.
  unfold rewrite_hr, HR_HEADER_LEN.
  change (take 4 (hr_header ++ arr_bytes d ++ payload)) with hr_header.
  do 2 f_equal. change 20%nat with (length hr_header + 16)%nat.
  rewrite drop_app_add. rewrite drop_arr_skip by lia. by rewrite Nat.sub_diag, drop_0.
Qed.

(** ** Device ids and text frames *)

Section Text.
Context {UO : UuidOps} {J : Json}.

(** [relay/wire.rs:43-47 parse_inbound] *)
Definition parse_inbound (text : string) : option Inbound := json_inbound text.

(** [relay/wire.rs:49-52 is_device_id] *)
Definition is_device_id (id : Uuid) : bool :=
  (get_version_num id =? 8) && variant_rfc4122 id.

(** [relay/wire.rs:54-57 is_object] *)
Definition is_object (raw : RawValue) : bool :=
  starts_with (str_bytes "{") (str_bytes (trim_start raw)).

(** [relay/wire.rs:59-62 forwarded_text] *)
Definition forwarded_text (from : Uuid) (env : RawValue) : string :=
  "{" +:+ dq +:+ "from" +:+ dq +:+ ":" +:+ dq +:+ hyphenated from +:+ dq +:+ "," +:+
  dq +:+ "env" +:+ dq +:+ ":" +:+ env +:+ "}".

(** [relay/wire.rs:84-93 RelayError] *)
Inductive RelayError : Type :=
| RNotPaired
| RNotConnected
| RPayloadTooLarge
| RBadRequest.

(** [relay/wire.rs:96-103 RelayError::code] *)
Definition relay_code (e : RelayError) : string :=
  match e with
  | RNotPaired => "NOT_PAIRED"
  | RNotConnected => "NOT_CONNECTED"
  | RPayloadTooLarge => "PAYLOAD_TOO_LARGE"
  | RBadRequest => "BAD_REQUEST"
  end.

(** [relay/wire.rs:105-112 RelayError::message] *)
Definition relay_message (e : RelayError) : string :=
  match e with
  | RNotPaired => "Destination is not paired with this device"
  | RNotConnected => "Destination is not connected"
  | RPayloadTooLarge => "Frame exceeds 256 KiB"
  | RBadRequest => "Malformed frame"
  end.

(** [relay/wire.rs:115-122 error_message] *)
Definition error_message (err : RelayError) (to : option Uuid) : string :=
  json_text (VObj ([("op", VStr "error"); ("code", VStr (relay_code err));
                    ("message", VStr (relay_message err))] ++
                   match to with
                   | Some to => [("to", VStr (hyphenated to))]
                   | None => []
                   end)).

(** [relay/wire.rs:124-132 presence_message] *)
Definition presence_message (pair_id peer_device_id : Uuid) (online : bool) : string :=
  json_text (VObj [("op", VStr "presence"); ("pair_id", VStr (hyphenated pair_id));
                   ("peer_device_id", VStr (hyphenated peer_device_id));
                   ("online", VBool online)]).

Context {B64 : Base64}.

(** [relay/wire.rs:134-145 pair_revoked_message] *)
Definition pair_revoked_message (statement : RevokeStatement) : string :=
  json_text (VObj [("op", VStr "pair_revoked");
                   ("pair_id", VStr (hyphenated (rs_pair_id statement)));
                   ("by", VStr (hyphenated (rs_by statement)));
                   ("revoked_at", VNum (rs_revoked_at statement));
                   ("sig", VStr (encode (arr_bytes (rs_sig statement))))]).

(** [relay/wire.rs:147-149 rv_joined_message] *)
Definition rv_joined_message (rv_id : string) (peer_present : bool) : string :=
  json_text (VObj [("op", VStr "rv_joined"); ("rv_id", VStr rv_id);
                   ("peer_present", VBool peer_present)]).

(** [relay/wire.rs:151-158 rv_msg_message] *)
Definition rv_msg_message (rv_id : string) (env : RawValue) : string :=
  "{" +:+ dq +:+ "op" +:+ dq +:+ ":" +:+ dq +:+ "rv_msg" +:+ dq +:+ "," +:+
  dq +:+ "rv_id" +:+ dq +:+ ":" +:+ json_text (VStr rv_id) +:+ "," +:+
  dq +:+ "env" +:+ dq +:+ ":" +:+ env +:+ "}".

Context {UL : UuidLaws} {C : Crypto}.

Lemma is_device_id_derived k : is_device_id (device_id_from_public_key k) = true.
Proof.
  unfold is_device_id. rewrite version_is_nibble, variant_is_bits.
  by rewrite device_id_version_byte, device_id_variant_byte.
Qed.
End Text.

(** ** Properties *)

(** A binary frame is accepted exactly when it is [HR], version 1, op
    forward, a 16-byte device id and a non-empty HL frame, in that order. *)
Theorem parse_hr_spec (frame : bytes) (d : Uuid) :
  parse_hr frame = Some d ↔
  ∃ hl, hl ≠ [] ∧ frame = hr_header ++ arr_bytes d ++ hl.
Proof. apply parse_hr_Some. Qed.

(** Forwarding a binary frame swaps the destination for the source and
    nothing else: the result is a frame from the source with the same header,
    the same length and the HL frame intact. *)
Theorem rewrite_hr_forwards (frame : bytes) (d source : Uuid) :
  parse_hr frame = Some d →
  parse_hr (rewrite_hr frame source) = Some source ∧
  length (rewrite_hr frame source) = length frame ∧
  take 4 (rewrite_hr frame source) = take 4 frame ∧
  drop 20 (rewrite_hr frame source) = drop 20 frame.
Proof.
  rewrite parse_hr_Some. intros (hl & Hne & ->). rewrite rewrite_hr_frame.
  split_and!.
  - apply parse_hr_Some. eauto.
  - by rewrite !length_app, !length_arr.
  - done.
  - change 20%nat with (length hr_header + 16)%nat. rewrite !drop_app_add.
    by rewrite !drop_arr_skip by lia.
Qed.

(** The id derived from any public key is one the relay accepts as a
    device id: version 8, RFC 4122 variant. *)
Theorem derived_id_is_device_id {UO : UuidOps} {UL : UuidLaws} {C : Crypto} (k : arr 32) :
  is_device_id (device_id_from_public_key k) = true.
Proof. apply is_device_id_derived. Qed.
