(* ===== verification/Bus.v ===== *)
(** * Bus: messages between relay instances ([relay/bus.rs]) *)

From Stdlib Require Import Strings.Byte Ascii.
From S2P Require Import Prelude Text Errors Externals Signatures Revocation.

Local Open Scope Z_scope.

(** [relay/connection.rs:29-29 CLOSE_NORMAL] *)
Definition CLOSE_NORMAL : Z := 1000.
(** [relay/connection.rs:30-30 CLOSE_BAD_REQUEST] *)
Definition CLOSE_BAD_REQUEST : Z := 4400.
(** [relay/connection.rs:31-31 CLOSE_REPLACED] *)
Definition CLOSE_REPLACED : Z := 4409.
(** [relay/connection.rs:32-32 CLOSE_IDLE] *)
Definition CLOSE_IDLE : Z := 4411.
(** [relay/connection.rs:33-33 CLOSE_INTERNAL] *)
Definition CLOSE_INTERNAL : Z := 4500.

(** [relay/bus.rs:13-13 TAG_TEXT] *)
Definition TAG_TEXT : byte := byte_of_Z 1.
(** [relay/bus.rs:14-14 TAG_BINARY] *)
Definition TAG_BINARY : byte := byte_of_Z 2.
(** [relay/bus.rs:15-15 TAG_CONTROL] *)
Definition TAG_CONTROL : byte := byte_of_Z 3.
(** [relay/bus.rs:16-16 TAG_PAIR_REVOKED] *)
Definition TAG_PAIR_REVOKED : byte := byte_of_Z 4.
(** [relay/bus.rs:17-17 TAG_PAIRS_CHANGED] *)
Definition TAG_PAIRS_CHANGED : byte := byte_of_Z 5.
(** [relay/bus.rs:18-18 TAG_REPLACE] *)
Definition TAG_REPLACE : byte := byte_of_Z 6.
(** [relay/bus.rs:19-19 TAG_CLOSE] *)
Definition TAG_CLOSE : byte := byte_of_Z 7.
(** [relay/bus.rs:20-21 PAIR_REVOKED_LEN] *)
Definition PAIR_REVOKED_LEN : nat := 16 + 16 + 8 + 64.

Section Channel.
Context {UO : UuidOps}.

(** [relay/bus.rs:23-26 device_channel] *)
Definition device_channel (device_id : Uuid) : string := "dev:" +:+ hyphenated device_id.

(** [relay/bus.rs:28-32 channel_device]; [try_parse_ascii] reads the same
    grammar as [parse_str], from bytes. *)
Definition channel_device (channel : bytes) : option Uuid :=
  if starts_with (str_bytes "dev:") channel
  then uuid_parse (str_of (drop 4 channel)) else None.

Lemma channel_device_channel `{!UuidLaws} d :
  channel_device (str_bytes (device_channel d)) = Some d.
Proof.
  unfold channel_device, device_channel. rewrite str_bytes_app, starts_with_app.
  change 4%nat with (length (str_bytes "dev:")). rewrite drop_app_length, str_of_bytes.
  apply uuid_parse_hyphenated.
Qed.
End Channel.

(** [relay/bus.rs:34-53 BusMessage] *)
Inductive BusMessage : Type :=
| ForwardText (from : Uuid) (text : string)
| ForwardBinary (from : Uuid) (frame : bytes)
| Control (text : string)
| PairRevoked (statement : RevokeStatement)
| PairsChanged
| Replace (conn_id : Uuid)
| Close (code : Z).

#[export] Instance BusMessage_eq_dec : EqDecision BusMessage.
Proof. solve_decision. Defined.

(** The Rust types: text is UTF-8, [revoked_at] an [i64], [code] a [u16]. *)
Definition bus_ok (m : BusMessage) : Prop :=
  match m with
  | ForwardText _ text | Control text => utf8_ok text = true
  | PairRevoked s => i64_ok (rs_revoked_at s)
  | Close c => 0 <= c < 2 ^ 16
  | _ => True
  end.

#[export] Instance bus_ok_dec m : Decision (bus_ok m).
Proof. destruct m; apply _. Defined.

(** [relay/bus.rs:56-91 BusMessage::encode] *)
Definition bus_encode (m : BusMessage) : bytes :=
  match m with
  | ForwardText from text => TAG_TEXT :: arr_bytes from ++ str_bytes text
  | ForwardBinary from frame => TAG_BINARY :: arr_bytes from ++ frame
  | Control text => TAG_CONTROL :: str_bytes text
  | PairRevoked st =>
      TAG_PAIR_REVOKED :: arr_bytes (rs_pair_id st) ++ arr_bytes (rs_by st) ++
      i64_to_be (rs_revoked_at st) ++ arr_bytes (rs_sig st)
  | PairsChanged => [TAG_PAIRS_CHANGED]
  | Replace conn_id => TAG_REPLACE :: arr_bytes conn_id
  | Close c => TAG_CLOSE :: be_bytes 2 c
  end.

(** [relay/bus.rs:93-125 BusMessage::decode] *)
Definition bus_decode (l : bytes) : option BusMessage :=
  match l with
  | [] => None
  | tag :: rest =>
    let uuid_at at_ := s ← slice_opt at_ 16 rest; arr_of 16 s in
    if bool_decide (tag = TAG_TEXT) then
      from ← uuid_at 0%nat; r ← suffix_opt 16 rest; text ← from_utf8 r;
      Some (ForwardText from text)
    else if bool_decide (tag = TAG_BINARY) then
      from ← uuid_at 0%nat; r ← suffix_opt 16 rest; Some (ForwardBinary from r)
    else if bool_decide (tag = TAG_CONTROL) then
      text ← from_utf8 rest; Some (Control text)
    else if bool_decide (tag = TAG_PAIR_REVOKED) && Nat.eqb (length rest) PAIR_REVOKED_LEN then
      pair_id ← uuid_at 0%nat; by_ ← uuid_at 16%nat;
      ts ← arr_of 8 (slice 32 8 rest); sig ← arr_of 64 (drop 40 rest);
      Some (PairRevoked (mkStatement pair_id by_ (i64_from_be (arr_bytes ts)) sig))
    else if bool_decide (tag = TAG_PAIRS_CHANGED) && Nat.eqb (length rest) 0 then
      Some PairsChanged
    else if bool_decide (tag = TAG_REPLACE) && Nat.eqb (length rest) 16 then
      conn_id ← uuid_at 0%nat; Some (Replace conn_id)
    else if bool_decide (tag = TAG_CLOSE) && Nat.eqb (length rest) 2 then
      Some (Close (be_Z rest))
    else None
  end.

(** [relay/bus.rs:127-134 BusMessage::queued_len] *)
Definition queued_len (m : BusMessage) : Z :=
  match m with
  | ForwardText _ text | Control text => Z.of_nat (str_len text)
  | ForwardBinary _ frame => Z.of_nat (length frame)
  | _ => 0
  end.

Lemma slice_opt_Some a n l s :
  slice_opt a n l = Some s ↔ (a + n <= length l)%nat ∧ s = slice a n l.
Proof.
  unfold slice_opt. destruct (Nat.leb_spec (a + n) (length l)); split; intros ?;
    destruct_and?; simplify_eq; done || lia.
Qed.

Lemma suffix_opt_Some a l s :
  suffix_opt a l = Some s ↔ (a <= length l)%nat ∧ s = drop a l.
Proof.
  unfold suffix_opt. destruct (Nat.leb_spec a (length l)); split; intros ?;
    destruct_and?; simplify_eq; done || lia.
Qed.

Lemma slice_opt_arr {n} (a : arr n) l :
  (s ← slice_opt 0 n (arr_bytes a ++ l); arr_of n s) = Some a.
Proof.
  apply bind_Some. exists (arr_bytes a). split; [|apply arr_of_bytes].
  apply slice_opt_Some. rewrite length_app, length_arr. split; [lia|].
  symmetry. apply slice_app_l; [done|apply length_arr].
Qed.

Lemma suffix_opt_arr {n} (a : arr n) l : suffix_opt n (arr_bytes a ++ l) = Some l.
Proof.
  apply suffix_opt_Some. rewrite length_app, length_arr. split; [lia|].
  by rewrite drop_arr_skip, Nat.sub_diag, drop_0 by lia.
Qed.

Lemma be_Z_close c : 0 <= c < 2 ^ 16 → be_Z (be_bytes 2 c) = c.
Proof.
  intros H. rewrite be_Z_be_bytes. change (256 ^ Z.of_nat 2) with (2 ^ 16).
  by apply Z.mod_small.
Qed.

Lemma revoked_body (p b : Uuid) (t : arr 8) (s : arr 64) :
  let rest := arr_bytes p ++ arr_bytes b ++ arr_bytes t ++ arr_bytes s in
  slice 0 16 rest = arr_bytes p ∧ slice 16 16 rest = arr_bytes b ∧
  slice 32 8 rest = arr_bytes t ∧ drop 40 rest = arr_bytes s.
Proof.
  intros rest. subst rest.
  split_and!; rewrite ?slice_arr_skip, ?drop_arr_skip by lia; simpl Nat.sub;
    by rewrite ?slice_arr_here, ?drop_0.
Qed.

Lemma decode_pair_revoked st :
  i64_ok (rs_revoked_at st) → bus_decode (bus_encode (PairRevoked st)) = Some (PairRevoked st).
Proof.
  intros H. destruct st as [p b t s]. simpl in H.
  unfold bus_encode. cbn [rs_pair_id rs_by rs_revoked_at rs_sig].
  assert (∃ ts : arr 8, arr_bytes ts = i64_to_be t) as [ts Hts].
  { destruct (arr_of_spec 8 (i64_to_be t)) as [(ts & _ & Hts & _)|[_ Hn]]; [by exists ts|].
    by destruct Hn; apply length_be_bytes. }
  rewrite <-Hts. set (rest := arr_bytes p ++ arr_bytes b ++ arr_bytes ts ++ arr_bytes s).
  assert (length rest = PAIR_REVOKED_LEN) as Hl
    by (unfold rest; by rewrite !length_app, !length_arr).
  unfold bus_decode. rewrite Hl. cbv zeta.
  change (if bool_decide (TAG_PAIR_REVOKED = TAG_TEXT) then ?x else ?y) with y.
  change (if bool_decide (TAG_PAIR_REVOKED = TAG_BINARY) then ?x else ?y) with y.
  change (if bool_decide (TAG_PAIR_REVOKED = TAG_CONTROL) then ?x else ?y) with y.
  change (if _ && Nat.eqb PAIR_REVOKED_LEN PAIR_REVOKED_LEN then ?x else _) with x.
  unfold slice_opt. rewrite Hl. cbn [Nat.leb Nat.add PAIR_REVOKED_LEN].
  destruct (revoked_body p b ts s) as (E0 & E1 & E2 & E3). fold rest in E0, E1, E2, E3.
  rewrite E0, E1, E2, E3. cbn [mbind option_bind].
  rewrite !arr_of_bytes. cbn [mbind option_bind]. by rewrite ?Hts, i64_from_to_be.
Qed.

(** The codec's two directions. *)
Lemma bus_decode_encode m : bus_ok m → bus_decode (bus_encode m) = Some m.
Proof.
  destruct m as [from text|from frame|text|st| |conn_id|c]; intros H.
  - unfold bus_decode, bus_encode. cbv zeta. rewrite slice_opt_arr. cbn [mbind option_bind].
    rewrite suffix_opt_arr. cbn [mbind option_bind]. by rewrite from_utf8_bytes.
  - unfold bus_decode, bus_encode. cbv zeta. rewrite slice_opt_arr. cbn [mbind option_bind].
    by rewrite suffix_opt_arr.
  - unfold bus_decode, bus_encode. cbv zeta. by rewrite from_utf8_bytes.
  - by apply decode_pair_revoked.
  - done.
  - unfold bus_decode, bus_encode. cbv zeta. rewrite length_arr.
    rewrite <-(app_nil_r (arr_bytes conn_id)). by rewrite slice_opt_arr.
  - unfold bus_decode, bus_encode. cbv zeta. rewrite length_be_bytes. simpl in H.
    by rewrite be_Z_close.
Qed.

Ltac bus_case H :=
  match type of H with
  | (if ?b then _ else _) = Some _ => let E := fresh "E" in destruct b eqn:E
  end.

Lemma uuid_rest (u : Uuid) l n :
  arr_bytes u = slice 0 16 l → (0 + 16 <= length l)%nat → n = drop 16 l →
  arr_bytes u ++ n = l.
Proof. intros -> _ ->. unfold slice. by rewrite drop_0, take_drop. Qed.

Lemma split_revoked (l : bytes) :
  length l = PAIR_REVOKED_LEN →
  l = slice 0 16 l ++ slice 16 16 l ++ slice 32 8 l ++ drop 40 l.
Proof.
  intros Hl. rewrite <-(drop_0 l) at 1.
  by rewrite (slice_cons_drop 0 16), (slice_cons_drop (0 + 16) 16),
    (slice_cons_drop (0 + 16 + 16) 8).
Qed.

Lemma bus_encode_decode l m : bus_decode l = Some m → bus_encode m = l ∧ bus_ok m.
Proof.
  destruct l as [|tag rest]; [done|]. unfold bus_decode. cbv zeta. intros H.
  repeat (bus_case H; [
    rewrite ?andb_true_iff, ?bool_decide_eq_true, ?Nat.eqb_eq in E; destruct_and?; subst; option_inv; subst;
    repeat match goal with
    | E : slice_opt _ _ _ = Some _ |- _ => apply slice_opt_Some in E as [? E]
    | E : suffix_opt _ _ = Some _ |- _ => apply suffix_opt_Some in E as [? ->]
    | E : from_utf8 _ = Some _ |- _ => apply from_utf8_Some in E as [? ?]
    end; cbn [bus_encode bus_ok rs_pair_id rs_by rs_revoked_at rs_sig] | clear E ]);
  try done.
  - split; [f_equal; by apply uuid_rest|done].
  - split; [f_equal; by apply uuid_rest|done].
  - split; [by f_equal|done].
  - split; [f_equal|apply i64_wrap_ok].
    rewrite i64_to_from_be by apply length_arr.
    repeat match goal with E : arr_bytes _ = _ |- _ => rewrite E; clear E end.
    symmetry. by apply split_revoked.
  - by destruct rest.
  - split; [f_equal|done].
    match goal with E : arr_bytes x = _ |- _ => rewrite E end. by apply slice_full.
  - pose proof (be_Z_range rest) as Hr.
    match goal with E : length rest = 2%nat |- _ => rewrite E in Hr; rewrite <-E end.
    rewrite be_bytes_be_Z. done.
Qed.

(** ** Properties *)

(** Bus messages survive the channel: decoding an encoded message of the
    Rust type returns it. *)
Theorem bus_roundtrip (m : BusMessage) : bus_ok m → bus_decode (bus_encode m) = Some m.
Proof. apply bus_decode_encode. Qed.

(** The decoder accepts only canonical encodings: any accepted byte string
    is the encoding of the message it decodes to, whose text is valid UTF-8
    and whose integers are in range. *)
Theorem bus_decode_canonical (l : bytes) (m : BusMessage) :
  bus_decode l = Some m ↔ bus_encode m = l ∧ bus_ok m.
Proof.
  split; [apply bus_encode_decode|]. intros [<- H]. by apply bus_decode_encode.
Qed.
