(* ===== verification/Tables.v ===== *)
(** * Tables: the PostgreSQL schema and the queries of [store/]
    ([migrations/], [store/devices.rs], [store/pairs.rs], [store/usage.rs])

    The three tables are finite maps from their primary keys to rows; each
    query is the function its SQL text denotes, returning [None] where the
    statement fails (a violated constraint, an unrepresentable time).  The
    server's time arithmetic is the class [Postgres]. *)

From stdpp Require Import sorting.
From S2P Require Import Prelude Text Errors Externals Signatures Revocation.

Local Open Scope Z_scope.

(** The server's timestamps ([TIMESTAMPTZ], here integers in the server's unit)
    as the queries use them: [TIMESTAMPTZ 'epoch' + ms * INTERVAL '1
    millisecond'], [(extract(epoch FROM ts) * 1000)::bigint], [ts - INTERVAL 'n
    days'], and [current_date] (a day number) with its subtraction of days. *)
Class Postgres : Type := {
  ts_of_ms : Z → option Z;
  ms_of_ts : Z → Z;
  minus_days : Z → Z → Z;
  current_date : Z → Z
}.

(** Milliseconds written to the database read back unchanged (below [2 ^ 53],
    where the server's [float8] product is exact), and days go backwards. *)
Class PostgresLaws {P : Postgres} : Prop := {
  ms_of_ts_of_ms z t : Z.abs z <= 2 ^ 53 → ts_of_ms z = Some t → ms_of_ts t = z;
  minus_days_le t n : 0 <= n → minus_days t n <= t
}.

(** ** Schema ([migrations/]) *)

Record DeviceRow : Type := mkDeviceRow {
  d_ik_sig_pub : bytes;
  d_platform : string;
  d_app_version : string;
  d_push_provider : option string;
  d_push_token : option string;
  d_push_topic : option string;
  d_created_at : Z;
  d_last_seen_at : Z;
  d_revoked_at : option Z
}.

Record PairRow : Type := mkPairRow {
  p_device_a : Uuid;
  p_device_b : Uuid;
  p_attestation : bytes;
  p_sig_a : bytes;
  p_sig_b : bytes;
  p_created_at : Z;
  p_revoked_at : option Z;
  p_revoked_by : option Uuid;
  p_revoke_sig : option bytes
}.

Record UsageCounts : Type := mkUsageCounts {
  u_envelopes : Z;
  u_bytes : Z;
  u_pushes : Z
}.

Record Db : Type := mkDb {
  devices : gmap Uuid DeviceRow;
  pairs : gmap Uuid PairRow;
  usage_daily : gmap (Z * bytes) UsageCounts
}.

Definition empty_db : Db := mkDb ∅ ∅ ∅.

Definition set_devices (f : gmap Uuid DeviceRow → gmap Uuid DeviceRow) (db : Db) : Db :=
  mkDb (f (devices db)) (pairs db) (usage_daily db).
Definition set_pairs (f : gmap Uuid PairRow → gmap Uuid PairRow) (db : Db) : Db :=
  mkDb (devices db) (f (pairs db)) (usage_daily db).
Definition set_usage f (db : Db) : Db := mkDb (devices db) (pairs db) (f (usage_daily db)).

(** The [CHECK (platform IN ...)] and the provider check of the schema. *)
Definition PLATFORMS_CHECK : list string := ["android"; "macos"; "ios"; "ipados"].
Definition PROVIDERS_CHECK : list string := ["fcm"; "apns"; "apns_sandbox"].

(** A [TEXT] value: the server refuses a string that holds a zero byte. *)
Definition text_ok (s : string) : bool := all_bytes (λ b, negb (byteZ b =? 0)) s.

(** The peer of [me] in a pair: [CASE WHEN device_a = $1 THEN device_b ELSE device_a END]. *)
Definition peer_of (me : Uuid) (p : PairRow) : Uuid :=
  if bool_decide (p_device_a p = me) then p_device_b p else p_device_a p.
Definition is_member (me : Uuid) (p : PairRow) : bool :=
  bool_decide (p_device_a p = me) || bool_decide (p_device_b p = me).
Definition unrevoked (p : PairRow) : bool := bool_decide (p_revoked_at p = None).
Definition device_active (d : DeviceRow) : bool := bool_decide (d_revoked_at d = None).

(** ** [devices] *)

(** [store/devices.rs:7-12 DeviceKey] *)
Record DeviceKey : Type := mkDeviceKey { dk_ik_sig_pub : bytes; dk_revoked : bool }.

(** [store/devices.rs:14-25 UpsertOutcome] *)
Inductive UpsertOutcome : Type :=
| Created (created_at_ms : Z)
| Updated (created_at_ms : Z)
| Rejected.

(** [store/devices.rs:27-32 NewDevice] *)
Record NewDevice : Type := mkNewDevice {
  nd_device_id : Uuid;
  nd_ik_sig_pub : arr 32;
  nd_platform : string;
  nd_app_version : string
}.

Section Queries.
Context {P : Postgres}.

(** [store/devices.rs:34-63 upsert] *)
Definition upsert (now : Z) (device : NewDevice) (db : Db) : option UpsertOutcome * Db :=
  let id := nd_device_id device in
  let key := arr_bytes (nd_ik_sig_pub device) in
  if negb (text_ok (nd_platform device) && text_ok (nd_app_version device)) then (None, db) else
  if negb (bool_decide (nd_platform device ∈ PLATFORMS_CHECK)) then (None, db) else
  match devices db !! id with
  | None =>
    if bool_decide (map_Exists (λ _ r, d_ik_sig_pub r = key) (devices db)) then (None, db)
    else
      let row := mkDeviceRow key (nd_platform device) (nd_app_version device)
                   None None None now now None in
      (Some (Created (ms_of_ts now)), set_devices <[id := row]> db)
  | Some r =>
    if device_active r && bytes_eqb (d_ik_sig_pub r) key then
      let row := mkDeviceRow (d_ik_sig_pub r) (d_platform r) (nd_app_version device)
                   (d_push_provider r) (d_push_token r) (d_push_topic r)
                   (d_created_at r) now (d_revoked_at r) in
      (Some (Updated (ms_of_ts (d_created_at r))), set_devices <[id := row]> db)
    else (Some Rejected, db)
  end.

(** [store/devices.rs:65-80 find_key] *)
Definition find_key (device_id : Uuid) (db : Db) : option DeviceKey :=
  r ← devices db !! device_id;
  Some (mkDeviceKey (d_ik_sig_pub r) (negb (device_active r))).

(** [store/devices.rs:82-88 touch_last_seen] *)
Definition touch_last_seen (now : Z) (device_id : Uuid) (db : Db) : Db :=
  set_devices (alter (λ r, mkDeviceRow (d_ik_sig_pub r) (d_platform r) (d_app_version r)
    (d_push_provider r) (d_push_token r) (d_push_topic r) (d_created_at r) now
    (d_revoked_at r)) device_id) db.

(** [store/devices.rs:90-103 find_platform] *)
Definition find_platform (device_id : Uuid) (db : Db) : option (string * bool) :=
  r ← devices db !! device_id; Some (d_platform r, negb (device_active r)).

(** [store/devices.rs:105-125 set_push_token] *)
Definition set_push_token (now : Z) (device_id : Uuid) (provider token : string)
    (topic : option string) (db : Db) : option bool * Db :=
  if negb (text_ok provider && text_ok token && text_ok (default EmptyString topic))
  then (None, db) else
  match devices db !! device_id with
  | Some r =>
    if device_active r then
      if bool_decide (provider ∈ PROVIDERS_CHECK) then
        let row := mkDeviceRow (d_ik_sig_pub r) (d_platform r) (d_app_version r)
                     (Some provider) (Some token) topic (d_created_at r) now
                     (d_revoked_at r) in
        (Some true, set_devices <[device_id := row]> db)
      else (None, db)
    else (Some false, db)
  | None => (Some false, db)
  end.

(** [store/devices.rs:127-134 clear_push_token] *)
Definition clear_push_token (device_id : Uuid) (db : Db) : Db :=
  set_devices (alter (λ r, mkDeviceRow (d_ik_sig_pub r) (d_platform r) (d_app_version r)
    None None (d_push_topic r) (d_created_at r) (d_last_seen_at r)
    (d_revoked_at r)) device_id) db.

(** The unrevoked pairs of a device, locked by the transaction. *)
Definition held_pairs (device_id : Uuid) (db : Db) : list (Uuid * Uuid) :=
  (λ '(pid, p), (pid, peer_of device_id p)) <$>
    filter (λ '(_, p), is_member device_id p && unrevoked p = true) (map_to_list (pairs db)).

(** [DELETE FROM devices WHERE ...] with [ON DELETE CASCADE] of the pairs. *)
Definition delete_devices (gone : Uuid → bool) (db : Db) : Db :=
  mkDb (filter (λ kv, gone kv.1 = false) (devices db))
       (filter (λ kv, gone (p_device_a kv.2) || gone (p_device_b kv.2) = false) (pairs db))
       (usage_daily db).

(** [store/devices.rs:136-181 delete_with_peers] *)
Definition delete_with_peers {T E} (device_id : Uuid)
    (check : list (Uuid * Uuid) → result E T) (db : Db) : result E T * Db :=
  match check (held_pairs device_id db) with
  | Ok checked => (Ok checked, delete_devices (λ d, bool_decide (d = device_id)) db)
  | Err e => (Err e, db)
  end.

(** [store/devices.rs:183-190 PushTarget] *)
Record PushTarget : Type := mkPushTarget {
  pt_platform : string;
  pt_provider : option string;
  pt_token : option string;
  pt_topic : option string
}.

(** [store/devices.rs:192-223 push_target] *)
Definition push_target (pair_id from to : Uuid) (db : Db) : option PushTarget :=
  p ← pairs db !! pair_id;
  d ← devices db !! to;
  if unrevoked p
     && (bool_decide (p_device_a p = from ∧ p_device_b p = to)
         || bool_decide (p_device_b p = from ∧ p_device_a p = to))
     && device_active d
  then Some (mkPushTarget (d_platform d) (d_push_provider d) (d_push_token d) (d_push_topic d))
  else None.

(** ** [pairs] *)

(** [store/pairs.rs:12-17 MemberDevice] *)
Record MemberDevice : Type := mkMember { md_ik_sig_pub : bytes; md_platform : string }.

(** [store/pairs.rs:19-44 member_devices] *)
Definition member_devices (a b : Uuid) (db : Db) : gmap Uuid MemberDevice :=
  (λ r, mkMember (d_ik_sig_pub r) (d_platform r)) <$>
    filter (λ kv, (bool_decide (kv.1 = a) || bool_decide (kv.1 = b))
                  && device_active kv.2 = true) (devices db).

(** [store/pairs.rs:46-54 NewPair] *)
Record NewPair : Type := mkNewPair {
  np_pair_id : Uuid;
  np_device_a : Uuid;
  np_device_b : Uuid;
  np_attestation : bytes;
  np_sig_a : bytes;
  np_sig_b : bytes;
  np_created_at_ms : Z
}.

(** [store/pairs.rs:56-63 StoredPair] *)
Record StoredPair : Type := mkStoredPair {
  sp_device_a : Uuid;
  sp_device_b : Uuid;
  sp_attestation : bytes;
  sp_created_at_ms : Z
}.

(** [store/pairs.rs:71-90 insert, part]: the [INSERT ... ON CONFLICT DO NOTHING
    RETURNING], whether a row was inserted. *)
Definition insert_pair (pair : NewPair) (db : Db) : option bool * Db :=
  match ts_of_ms (np_created_at_ms pair) with
  | None => (None, db)
  | Some created =>
    if bool_decide (np_device_a pair = np_device_b pair) then (None, db)
    else if bool_decide (is_Some (pairs db !! np_pair_id pair)) then (Some false, db)
    else if bool_decide (is_Some (devices db !! np_device_a pair))
            && bool_decide (is_Some (devices db !! np_device_b pair)) then
      let row := mkPairRow (np_device_a pair) (np_device_b pair) (np_attestation pair)
                   (np_sig_a pair) (np_sig_b pair) created None None None in
      (Some true, set_pairs <[np_pair_id pair := row]> db)
    else (None, db)
  end.

(** [store/pairs.rs:91-105 insert, part]: the [SELECT] after a conflict; [None] is
    [RowNotFound]. *)
Definition stored_pair (pair_id : Uuid) (db : Db) : option StoredPair :=
  p ← pairs db !! pair_id;
  Some (mkStoredPair (p_device_a p) (p_device_b p) (p_attestation p)
          (ms_of_ts (p_created_at p))).

(** [store/pairs.rs:107-119 PairListing] *)
Record PairListing : Type := mkListing {
  pl_pair_id : Uuid;
  pl_peer_device_id : Uuid;
  pl_peer_platform : string;
  pl_created_at_ms : Z;
  pl_revoked_at_ms : option Z;
  pl_revoked_by : option Uuid;
  pl_revoke_sig : option bytes
}.

Definition newer (x y : Uuid * PairRow) : Prop := p_created_at y.2 <= p_created_at x.2.
#[local] Instance newer_dec x y : Decision (newer x y).
Proof. unfold newer. apply _. Defined.

(** [store/pairs.rs:121-157 list] *)
Definition list_pairs (device_id : Uuid) (include_revoked : bool) (db : Db) :
    list PairListing :=
  omap (λ '(pid, p),
    d ← devices db !! peer_of device_id p;
    Some (mkListing pid (peer_of device_id p) (d_platform d)
            (ms_of_ts (p_created_at p)) (ms_of_ts <$> p_revoked_at p)
            (p_revoked_by p) (p_revoke_sig p)))
    (merge_sort newer
      (filter (λ '(_, p), is_member device_id p && (include_revoked || unrevoked p) = true)
         (map_to_list (pairs db)))).

(** [store/pairs.rs:159-180 revoke] *)
Definition revoke (st : RevokeStatement) (db : Db) : option (option Uuid) * Db :=
  match pairs db !! rs_pair_id st with
  | Some p =>
    if is_member (rs_by st) p && unrevoked p then
      match ts_of_ms (rs_revoked_at st) with
      | Some t =>
        let row := mkPairRow (p_device_a p) (p_device_b p) (p_attestation p) (p_sig_a p)
                     (p_sig_b p) (p_created_at p) (Some t) (Some (rs_by st))
                     (Some (arr_bytes (rs_sig st))) in
        (Some (Some (peer_of (rs_by st) p)), set_pairs <[rs_pair_id st := row]> db)
      | None => (None, db)
      end
    else (Some None, db)
  | None => (Some None, db)
  end.

(** [store/pairs.rs:182-190 members] *)
Definition members (pair_id : Uuid) (db : Db) : option (Uuid * Uuid) :=
  p ← pairs db !! pair_id; Some (p_device_a p, p_device_b p).

(** [store/pairs.rs:192-212 active_peers] *)
Definition active_peers (device_id : Uuid) (db : Db) : list (Uuid * Uuid) :=
  omap (λ '(pid, p),
    d ← devices db !! peer_of device_id p;
    if is_member device_id p && unrevoked p && device_active d
    then Some (pid, peer_of device_id p) else None)
    (map_to_list (pairs db)).

(** [store/pairs.rs:214-245 recently_revoked]; a stored signature that is not
    64 bytes fails the whole lookup. *)
Definition recently_revoked (now : Z) (device_id : Uuid) (db : Db) :
    option (list RevokeStatement) :=
  rok (rcollect (λ '(pid, p),
    match p_revoked_at p, p_revoked_by p, p_revoke_sig p with
    | Some t, Some by_, Some sig =>
      let? s := ok_or (arr_of 64 sig) tt in Ok (mkStatement pid by_ (ms_of_ts t) s)
    | _, _, _ => Err tt
    end)
    (filter (λ '(_, p),
       is_member device_id p
       && match p_revoked_at p with Some t => minus_days now 30 <? t | None => false end
       && bool_decide (is_Some (p_revoked_by p)) && bool_decide (is_Some (p_revoke_sig p))
       = true) (map_to_list (pairs db)))).

(** ** [usage_daily] *)

(** [store/usage.rs:6-7 UsageRow] *)
Definition UsageRow : Type := bytes * UsageCounts.

Definition i32_max : Z := 2 ^ 31 - 1.
Definition counts_ok (c : UsageCounts) : bool :=
  bool_decide (i64_ok (u_envelopes c)) && bool_decide (i64_ok (u_bytes c))
  && (- i32_max - 1 <=? u_pushes c) && (u_pushes c <=? i32_max).

Definition add_counts (x y : UsageCounts) : UsageCounts :=
  mkUsageCounts (u_envelopes x + u_envelopes y) (u_bytes x + u_bytes y)
                (u_pushes x + u_pushes y).

Definition zero_counts : UsageCounts := mkUsageCounts 0 0 0.

Definition add_row (day : Z) (m : gmap (Z * bytes) UsageCounts) (row : UsageRow) :
    gmap (Z * bytes) UsageCounts :=
  <[(day, row.1) := add_counts (default zero_counts (m !! (day, row.1))) row.2]> m.

(** [store/usage.rs:9-34 add_batch]: one [INSERT ... ON CONFLICT DO UPDATE],
    which fails as a whole when a hash repeats or a counter overflows. *)
Definition add_batch (now : Z) (rows : list UsageRow) (db : Db) : option unit * Db :=
  match rows with
  | [] => (Some tt, db)
  | _ =>
    let day := current_date now in
    let m := foldl (add_row day) (usage_daily db) rows in
    if bool_decide (NoDup (fst <$> rows))
       && forallb (λ row : UsageRow, counts_ok (default zero_counts (m !! (day, row.1)))) rows
    then (Some tt, set_usage (λ _, m) db)
    else (None, db)
  end.

(** [store/usage.rs:36-43 delete_expired, part]: [DELETE FROM usage_daily WHERE day <
    current_date - INTERVAL '30 days'], with the number of rows deleted. *)
Definition delete_usage (now : Z) (db : Db) : Z * Db :=
  let keep := filter (λ kv, (kv.1.1 <? current_date now - 30) = false) (usage_daily db) in
  (Z.of_nat (size (usage_daily db)) - Z.of_nat (size keep), set_usage (λ _, keep) db).

(** [store/usage.rs:44-50 delete_expired, part]: [DELETE FROM devices WHERE
    last_seen_at < now() - INTERVAL '180 days']. *)
Definition delete_inactive (now : Z) (db : Db) : Z * Db :=
  let gone d := match devices db !! d with
                | Some r => d_last_seen_at r <? minus_days now 180
                | None => false
                end in
  let db' := delete_devices gone db in
  (Z.of_nat (size (devices db)) - Z.of_nat (size (devices db')), db').
End Queries.

(** ** A concrete server clock *)

(** Timestamps in milliseconds, days of 86400000 of them. *)
Module DemoPg.
#[export] Instance demo_pg : Postgres := {|
  ts_of_ms z := if bool_decide (Z.abs z <= 2 ^ 53) then Some z else None;
  ms_of_ts t := t;
  minus_days t n := t - n * 86400000;
  current_date t := t / 86400000
|}.

#[export] Instance demo_pg_laws : PostgresLaws.
Proof.
  split; simpl.
  - intros z t Hz. rewrite bool_decide_true by done. congruence.
  - intros. lia.
Qed.
End DemoPg.
