(* ===== verification/Redis.v ===== *)
(** * Redis: the commands the relay sends, and their documented behaviour

    Redis is a service outside the repository.  Its keyspace is an abstract
    type seen through [r_val s t k], the value the key [k] shows at server time
    [t] (milliseconds) when nothing more is written to [s]: a store denotes a
    timeline, so expiry needs no background step.  [RedisLaws] gives the
    timeline after each command.  A Lua script runs its commands at one time
    on one store.  [DemoRedis] is a keyspace of values with deadlines that
    satisfies the laws. *)

From S2P Require Import Prelude Text.

Local Open Scope Z_scope.

(** A value: a string (counters are decimal strings) or a set of strings. *)
Inductive rval : Type :=
| RStr (s : string)
| RSet (m : gset string).

#[export] Instance rval_eq_dec : EqDecision rval.
Proof. solve_decision. Defined.

(** The integer a string value stands for, as [INCR] reads it; a missing key
    counts as 0. *)
Definition counter_of (v : option rval) : option Z :=
  match v with
  | None => Some 0
  | Some (RStr s) => parse_i64 s
  | Some (RSet _) => None
  end.
(** The set a value stands for; a missing key is the empty set. *)
Definition set_of (v : option rval) : option (gset string) :=
  match v with
  | None => Some ∅
  | Some (RSet m) => Some m
  | Some (RStr _) => None
  end.

Class RedisServer : Type := {
  rstore : Type;
  r_val : rstore → Z → string → option rval;
  (** [SET k v EX ttl] at time [t]. *)
  r_setex : string → string → Z → Z → rstore → rstore;
  (** [DEL k]. *)
  r_del : string → Z → rstore → rstore;
  (** [EXPIRE k ttl]. *)
  r_expire : string → Z → Z → rstore → rstore;
  (** Replace the value of [k], keeping its deadline when it has one: the write
      of [INCR], [SADD] and [SREM]. *)
  r_write : string → rval → Z → rstore → rstore;
  (** [TTL k]. *)
  r_ttl : string → Z → rstore → Z;
  (** The order [SMEMBERS] lists a set in. *)
  r_order : gset string → list string
}.

(** The value a key shows at [t'] given that it shows [now] at [t] with the
    deadline of the timeline [before]. *)
Definition keep_deadline (had later : option rval) (v : rval) : option rval :=
  match had, later with
  | Some _, None => None
  | _, _ => Some v
  end.

Class RedisLaws {R : RedisServer} : Prop := {
  (** Without writes a value can only disappear. *)
  r_val_fade s t t' k : t <= t' → r_val s t' k = r_val s t k ∨ r_val s t' k = None;
  r_val_gone s t t' k : t <= t' → r_val s t k = None → r_val s t' k = None;
  r_val_setex s t t' k v ttl k' : t <= t' → 0 < ttl →
    r_val (r_setex k v ttl t s) t' k' =
      if bool_decide (k' = k)
      then if t' <? t + 1000 * ttl then Some (RStr v) else None
      else r_val s t' k';
  r_val_del s t t' k k' : t <= t' →
    r_val (r_del k t s) t' k' = if bool_decide (k' = k) then None else r_val s t' k';
  r_val_expire s t t' k ttl k' : t <= t' → 0 < ttl →
    r_val (r_expire k ttl t s) t' k' =
      if bool_decide (k' = k)
      then if t' <? t + 1000 * ttl then r_val s t k else None
      else r_val s t' k';
  r_val_write s t t' k v k' : t <= t' →
    r_val (r_write k v t s) t' k' =
      if bool_decide (k' = k) then keep_deadline (r_val s t k) (r_val s t' k) v
      else r_val s t' k';
  (** [TTL] is negative for a missing key and for a key without a deadline. *)
  r_ttl_persistent s t t' k : t <= t' → r_ttl k t s < 0 → r_val s t' k = r_val s t k;
  r_order_elements m x : x ∈ r_order m ↔ x ∈ m;
  r_order_nodup m : NoDup (r_order m)
}.

(** ** Commands *)

Section Commands.
Context {R : RedisServer}.

(** [GET]: an error on a set. *)
Definition r_get (k : string) (t : Z) (s : rstore) : option (option string) :=
  match r_val s t k with
  | None => Some None
  | Some (RStr v) => Some (Some v)
  | Some (RSet _) => None
  end.

(** [MGET]: a key that holds no string reads as nil. *)
Definition r_mget (ks : list string) (t : Z) (s : rstore) : list (option string) :=
  (λ k, match r_val s t k with Some (RStr v) => Some v | _ => None end) <$> ks.

(** [GETDEL]. *)
Definition r_getdel (k : string) (t : Z) (s : rstore) : option (option string) * rstore :=
  match r_get k t s with
  | Some (Some v) => (Some (Some v), r_del k t s)
  | o => (o, s)
  end.

(** [SET k v NX EX ttl]: whether it was set. *)
Definition r_setnx (k v : string) (ttl t : Z) (s : rstore) : bool * rstore :=
  match r_val s t k with
  | None => (true, r_setex k v ttl t s)
  | Some _ => (false, s)
  end.

(** [INCR]: the new value; an error on a non-integer or on overflow. *)
Definition r_incr (k : string) (t : Z) (s : rstore) : option Z * rstore :=
  match counter_of (r_val s t k) with
  | Some n =>
    if bool_decide (i64_ok (n + 1))
    then (Some (n + 1), r_write k (RStr (display_Z (n + 1))) t s)
    else (None, s)
  | None => (None, s)
  end.

(** [SADD], [SREM], [SCARD], [SMEMBERS]. *)
Definition r_sadd (k m : string) (t : Z) (s : rstore) : option Z * rstore :=
  match set_of (r_val s t k) with
  | Some ms =>
    if bool_decide (m ∈ ms) then (Some 0, s)
    else (Some 1, r_write k (RSet ({[m]} ∪ ms)) t s)
  | None => (None, s)
  end.

Definition r_srem (k m : string) (t : Z) (s : rstore) : option Z * rstore :=
  match set_of (r_val s t k) with
  | Some ms =>
    if bool_decide (m ∈ ms)
    then (Some 1, if bool_decide (ms ∖ {[m]} = ∅) then r_del k t s
                  else r_write k (RSet (ms ∖ {[m]})) t s)
    else (Some 0, s)
  | None => (None, s)
  end.

Definition r_scard (k : string) (t : Z) (s : rstore) : option Z :=
  ms ← set_of (r_val s t k); Some (Z.of_nat (size ms)).

Definition r_smembers (k : string) (t : Z) (s : rstore) : option (list string) :=
  ms ← set_of (r_val s t k); Some (r_order ms).
End Commands.

(** ** A concrete keyspace *)

Module DemoRedis.

(** A value and its deadline. *)
Abbreviation entry := (rval * option Z)%type.

Definition live (t : Z) (e : entry) : bool :=
  match e.2 with None => true | Some d => t <? d end.

Definition val (s : gmap string entry) (t : Z) (k : string) : option rval :=
  e ← s !! k; if live t e then Some e.1 else None.

Definition deadline (s : gmap string entry) (t : Z) (k : string) : option Z :=
  e ← s !! k; if live t e then e.2 else None.

#[export] Instance demo_redis : RedisServer := {|
  rstore := gmap string entry;
  r_val := val;
  r_setex k v ttl t s := <[k := (RStr v, Some (t + 1000 * ttl))]> s;
  r_del k t s := delete k s;
  r_expire k ttl t s :=
    match val s t k with
    | Some v => <[k := (v, Some (t + 1000 * ttl))]> s
    | None => delete k s
    end;
  r_write k v t s := <[k := (v, deadline s t k)]> s;
  r_ttl k t s :=
    match val s t k with
    | None => -2
    | Some _ => match deadline s t k with
                | None => -1
                | Some d => Z.max 0 ((d - t) / 1000)
                end
    end;
  r_order := elements
|}.

Lemma val_insert s t k e k' :
  val (<[k := e]> s) t k' =
    if bool_decide (k' = k) then if live t e then Some e.1 else None else val s t k'.
Proof.
  unfold val. destruct (bool_decide_reflect (k' = k)) as [->|H].
  - by rewrite lookup_insert_eq.
  - by rewrite lookup_insert_ne.
Qed.

Lemma val_delete s t k k' :
  val (delete k s) t k' = if bool_decide (k' = k) then None else val s t k'.
Proof.
  unfold val. destruct (bool_decide_reflect (k' = k)) as [->|H].
  - by rewrite lookup_delete_eq.
  - by rewrite lookup_delete_ne.
Qed.

Lemma val_fade (s : gmap string entry) t t' k :
  t <= t' → val s t' k = val s t k ∨ val s t' k = None.
Proof.
  intros Ht. unfold val. destruct (s !! k) as [[v [d|]]|]; simpl; [|by left|by left].
  unfold live; simpl. destruct (Z.ltb_spec t' d); [|by right].
  destruct (Z.ltb_spec t d); [by left|lia].
Qed.

Lemma val_gone (s : gmap string entry) t t' k :
  t <= t' → val s t k = None → val s t' k = None.
Proof. intros Ht H. by destruct (val_fade s t t' k Ht) as [->|]. Qed.

Lemma val_keep (s : gmap string entry) t t' k (v : rval) :
  t <= t' →
  (if live t' (v, deadline s t k) then Some v else None) =
    keep_deadline (val s t k) (val s t' k) v.
Proof.
  intros Ht. unfold keep_deadline, deadline, val.
  destruct (s !! k) as [[w [d|]]|]; [|done|done].
  simpl. unfold live; simpl. destruct (Z.ltb_spec t d); simpl; [|done].
  by destruct (Z.ltb_spec t' d).
Qed.

Lemma val_persistent (s : gmap string entry) t t' k :
  t <= t' → r_ttl k t s < 0 → val s t' k = val s t k.
Proof.
  intros Ht. cbn [r_ttl demo_redis]. unfold val, deadline.
  destruct (s !! k) as [[w [d|]]|]; [|done|done].
  simpl. unfold live; simpl. destruct (Z.ltb_spec t d); simpl.
  - lia.
  - by destruct (Z.ltb_spec t' d); [lia|].
Qed.

#[export] Instance demo_redis_laws : RedisLaws.
Proof.
  split; cbn [r_val r_setex r_del r_expire r_write r_order demo_redis].
  - exact val_fade.
  - exact val_gone.
  - intros s t t' k v ttl k' _ _. by rewrite val_insert.
  - intros s t t' k k' _. apply val_delete.
  - intros s t t' k ttl k' Ht _. destruct (val s t k) as [v|] eqn:E.
    + by rewrite val_insert.
    + rewrite val_delete. by destruct (t' <? _).
  - intros s t t' k v k' Ht. rewrite val_insert. destruct (bool_decide _); [|done].
    by apply val_keep.
  - exact val_persistent.
  - intros m x. apply elem_of_elements.
  - intros m. apply NoDup_elements.
Qed.
End DemoRedis.
