(* ===== verification/Scripts.v ===== *)
(** * Scripts: the Lua scripts the relay runs in Redis
    ([limits.rs], [relay/presence.rs], [relay/rendezvous.rs])

    Each script is the sequence of commands its text runs at one server time;
    [None] is a script error (a command on a key of another type), after which
    the writes already made stay. *)

From S2P Require Import Prelude Text Redis.

Local Open Scope Z_scope.

Section Scripts.
Context {R : RedisServer}.

(** ** Registration limits *)

(** [tonumber(redis.call('GET', key) or '0')] of a counter. *)
Definition counter_number (k : string) (t : Z) (s : rstore) : option Z :=
  v ← r_get k t s; counter_of (RStr <$> v).

(** The first loop: whether some key has used up its limit. *)
Fixpoint any_used_up (keys : list (string * Z)) (t : Z) (s : rstore) : option bool :=
  match keys with
  | [] => Some false
  | (k, limit) :: keys' =>
    used ← counter_number k t s;
    if limit <=? used then Some true else any_used_up keys' t s
  end.

(** The second loop: [INCR] and [EXPIRE] of each key. *)
Fixpoint incr_all (keys : list (string * Z)) (ttl t : Z) (s : rstore) : option unit * rstore :=
  match keys with
  | [] => (Some tt, s)
  | (k, _) :: keys' =>
    match r_incr k t s with
    | (Some _, s') => incr_all keys' ttl t (r_expire k ttl t s')
    | (None, s') => (None, s')
    end
  end.

(** [limits.rs:180-195 REGISTRATION_SCRIPT] *)
Definition REGISTRATION_SCRIPT (keys : list (string * Z)) (ttl t : Z) (s : rstore) :
    option Z * rstore :=
  match any_used_up keys t s with
  | Some true => (Some 1, s)
  | Some false =>
    match incr_all keys ttl t s with
    | (Some _, s') => (Some 0, s')
    | (None, s') => (None, s')
    end
  | None => (None, s)
  end.

(** ** Presence *)

(** [relay/presence.rs:20-27 REFRESH_SCRIPT] *)
Definition REFRESH_SCRIPT (key instance : string) (ttl t : Z) (s : rstore) :
    option Z * rstore :=
  match r_get key t s with
  | Some v =>
    if bool_decide (v = None) || bool_decide (v = Some instance)
    then (Some 1, r_setex key instance ttl t s)
    else (Some 0, s)
  | None => (None, s)
  end.

(** [relay/presence.rs:29-34 RELEASE_SCRIPT] *)
Definition RELEASE_SCRIPT (key instance : string) (t : Z) (s : rstore) : option Z * rstore :=
  match r_get key t s with
  | Some v =>
    if bool_decide (v = Some instance) then (Some 1, r_del key t s) else (Some 0, s)
  | None => (None, s)
  end.

(** ** Rendezvous *)

(** The end of the script: the deadline of a new set, then the reply. *)
Definition join_reply (key : string) (added ttl t : Z) (s : rstore) :
    option (list string) * rstore :=
  let s := if r_ttl key t s <? 0 then r_expire key ttl t s else s in
  (ms ← r_smembers key t s; Some (display_Z added :: ms), s).

(** [relay/rendezvous.rs:17-28 JOIN_SCRIPT] *)
Definition JOIN_SCRIPT (key member : string) (ttl t : Z) (s : rstore) :
    option (list string) * rstore :=
  match r_sadd key member t s with
  | (Some added, s) =>
    match r_scard key t s with
    | Some card =>
      if card >? 2 then (Some [], if added =? 1 then (r_srem key member t s).2 else s)
      else join_reply key added ttl t s
    | None => (None, s)
    end
  | (None, s) => (None, s)
  end.

Context {RL : RedisLaws}.

Lemma r_val_expire_same s t k ttl :
  0 < ttl → r_val (r_expire k ttl t s) t k = r_val s t k.
Proof.
  intros H. rewrite r_val_expire, bool_decide_true by done || lia.
  destruct (Z.ltb_spec t (t + 1000 * ttl)); [done|lia].
Qed.

Lemma r_val_write_same s t k v : r_val (r_write k v t s) t k = Some v.
Proof.
  rewrite r_val_write, bool_decide_true by done || lia.
  unfold keep_deadline. by destruct (r_val s t k).
Qed.

Lemma r_val_other_write s t t' k v k' :
  t <= t' → k' ≠ k → r_val (r_write k v t s) t' k' = r_val s t' k'.
Proof. intros. by rewrite r_val_write, bool_decide_false. Qed.

Lemma r_val_other_expire s t t' k ttl k' :
  t <= t' → 0 < ttl → k' ≠ k → r_val (r_expire k ttl t s) t' k' = r_val s t' k'.
Proof. intros. by rewrite r_val_expire, bool_decide_false. Qed.

(** *** One more call in a window *)

(** The timeline of [k] after it was counted up to [n] with a fresh deadline. *)
Definition counted (k : string) (n ttl t : Z) (s s' : rstore) : Prop :=
  ∀ t' k', t <= t' →
    r_val s' t' k' =
      if bool_decide (k' = k)
      then if t' <? t + 1000 * ttl then Some (RStr (display_Z n)) else None
      else r_val s t' k'.

Lemma incr_expire_counted k t s n s' ttl :
  0 < ttl → r_incr k t s = (Some n, s') →
  counter_of (r_val s t k) = Some (n - 1) ∧ i64_ok n ∧
  counted k n ttl t s (r_expire k ttl t s').
Proof.
  unfold r_incr. intros Httl H. destruct (counter_of (r_val s t k)) as [c|]; [|done].
  case_bool_decide; simplify_eq. split_and!; [f_equal; lia|done|].
  intros t' k' Ht. rewrite r_val_expire by done.
  destruct (bool_decide_reflect (k' = k)) as [->|Hk].
  - by rewrite r_val_write_same.
  - by apply r_val_other_write.
Qed.

Lemma counter_display n : i64_ok n → counter_of (Some (RStr (display_Z n))) = Some n.
Proof. apply parse_display_i64. Qed.

Lemma counter_number_Some k t s n :
  counter_number k t s = Some n ↔ counter_of (r_val s t k) = Some n.
Proof.
  unfold counter_number, r_get. by destruct (r_val s t k) as [[v|m]|].
Qed.

Lemma any_used_up_true keys t s :
  any_used_up keys t s = Some true →
  ∃ k l u, (k, l) ∈ keys ∧ counter_of (r_val s t k) = Some u ∧ l <= u.
Proof.
  induction keys as [|[k l] keys IH]; simpl; intros H; [done|].
  apply bind_Some in H as (u & Hu & H). apply counter_number_Some in Hu.
  destruct (Z.leb_spec l u).
  - exists k, l, u. split_and!; [by left|done|done].
  - destruct (IH H) as (k' & l' & u' & ? & ? & ?). exists k', l', u'.
    split_and!; [by right|done|done].
Qed.

Lemma any_used_up_false keys t s :
  any_used_up keys t s = Some false →
  ∀ k l, (k, l) ∈ keys → ∃ u, counter_of (r_val s t k) = Some u ∧ u < l.
Proof.
  induction keys as [|[k l] keys IH]; simpl; intros H k' l' Hin.
  { by apply not_elem_of_nil in Hin. }
  apply bind_Some in H as (u & Hu & H). apply counter_number_Some in Hu.
  destruct (Z.leb_spec l u); [done|].
  apply elem_of_cons in Hin as [[= -> ->]|Hin]; [eauto|by apply IH].
Qed.

Lemma incr_all_spec keys ttl t s s' :
  0 < ttl → NoDup (keys.*1) → incr_all keys ttl t s = (Some tt, s') →
  ∀ t' k, t <= t' →
    if bool_decide (k ∈ keys.*1)
    then ∃ u, counter_of (r_val s t k) = Some u ∧
         r_val s' t' k = if t' <? t + 1000 * ttl then Some (RStr (display_Z (u + 1))) else None
    else r_val s' t' k = r_val s t' k.
Proof.
  intros Httl. revert s. induction keys as [|[k0 l0] keys IH]; intros s Hnd H t' k Ht.
  { simpl in H. by simplify_eq. }
  simpl in H. destruct (r_incr k0 t s) as [[n|] s1] eqn:Hi; [|done].
  destruct (incr_expire_counted _ _ _ _ _ _ Httl Hi) as (Hc & Hok & Hs1).
  rewrite fmap_cons in Hnd |- *. cbn [fst] in *. apply NoDup_cons in Hnd as [Hni Hnd].
  specialize (IH _ Hnd H t' k Ht).
  destruct (bool_decide_reflect (k = k0)) as [->|Hk].
  - rewrite bool_decide_true by left. rewrite bool_decide_false in IH by done.
    exists (n - 1). split; [done|]. rewrite IH, Hs1, bool_decide_true by done.
    by replace (n - 1 + 1) with n by lia.
  - destruct (bool_decide_reflect (k ∈ keys.*1)) as [Hin|Hin].
    + rewrite bool_decide_true by by right.
      destruct IH as (u & Hu & IH). exists u. split; [|done].
      by rewrite Hs1, bool_decide_false in Hu by done || lia.
    + rewrite bool_decide_false by by rewrite not_elem_of_cons.
      by rewrite IH, Hs1, bool_decide_false by done.
Qed.

(** *** Sets *)

Lemma set_of_RSet v ms : set_of v = Some ms → v = Some (RSet ms) ∨ v = None ∧ ms = ∅.
Proof. destruct v as [[]|]; simpl; intros [= ->]; auto. Qed.

Lemma r_scard_set k t s ms :
  r_val s t k = Some (RSet ms) → r_scard k t s = Some (Z.of_nat (size ms)).
Proof. intros H. unfold r_scard. by rewrite H. Qed.

Lemma join_reply_spec k added ttl t s ms r s' :
  0 < ttl → r_val s t k = Some (RSet ms) → join_reply k added ttl t s = (r, s') →
  r = Some (display_Z added :: r_order ms) ∧ set_of (r_val s' t k) = Some ms ∧
  ∀ t' k', t <= t' → k' ≠ k → r_val s' t' k' = r_val s t' k'.
Proof.
  unfold join_reply, r_smembers. intros Httl Hv H.
  destruct (r_ttl k t s <? 0); simplify_eq.
  - rewrite r_val_expire_same, Hv by done. split_and!; [done|done|].
    intros. by apply r_val_other_expire.
  - rewrite Hv. by split_and!.
Qed.

(** Adding a member and taking it out again leaves every timeline as it was. *)
Lemma sadd_srem_timeline k m t s ms :
  r_val s t k = Some (RSet ms) → ms ≠ ∅ → m ∉ ms →
  ∀ t' k', t <= t' →
    r_val (r_srem k m t (r_write k (RSet ({[m]} ∪ ms)) t s)).2 t' k' = r_val s t' k'.
Proof.
  intros Hv Hne Hm t' k' Ht. unfold r_srem. rewrite r_val_write_same. cbn [set_of].
  rewrite bool_decide_true by set_solver.
  replace (({[m]} ∪ ms) ∖ {[m]}) with ms by set_solver.
  rewrite bool_decide_false by done. cbn [snd].
  destruct (bool_decide_reflect (k' = k)) as [->|Hk].
  - rewrite !r_val_write, !bool_decide_true by done || lia.
    rewrite Hv. destruct (r_val_fade s t t' k Ht) as [->| ->]; [by rewrite Hv|done].
  - by rewrite !r_val_other_write.
Qed.

(** The members of a rendezvous at a time. *)
Definition rv_members (s : rstore) (t : Z) (key : string) : option (gset string) :=
  set_of (r_val s t key).

(** Joining, on every branch of the script. *)
Lemma join_script_joined key member ttl t s ms r s' :
  0 < ttl → rv_members s t key = Some ms → (size ms <= 2)%nat →
  JOIN_SCRIPT key member ttl t s = (r, s') →
  if bool_decide (member ∈ ms ∨ size ms < 2)%nat
  then r = Some (display_Z (if bool_decide (member ∈ ms) then 0 else 1)
                 :: r_order ({[member]} ∪ ms)) ∧
       rv_members s' t key = Some ({[member]} ∪ ms) ∧ (size ({[member]} ∪ ms) <= 2)%nat ∧
       (∀ t' k, t <= t' → k ≠ key → r_val s' t' k = r_val s t' k)
  else r = Some [] ∧ ∀ t' k, t <= t' → r_val s' t' k = r_val s t' k.
Proof.
  unfold rv_members. intros Httl Hms Hsz. unfold JOIN_SCRIPT, r_sadd. rewrite Hms.
  destruct (bool_decide_reflect (member ∈ ms)) as [Hin|Hin].
  - rewrite (bool_decide_true (_ ∨ _)) by by left.
    replace ({[member]} ∪ ms) with ms by set_solver.
    assert (r_val s t key = Some (RSet ms)) as Hv
      by (apply set_of_RSet in Hms as [?|[_ ->]]; set_solver).
    rewrite (r_scard_set _ _ _ _ Hv).
    destruct (Z.gtb_spec (Z.of_nat (size ms)) 2); [lia|]. intros Hj.
    by destruct (join_reply_spec _ _ _ _ _ _ _ _ Httl Hv Hj) as (-> & -> & ?).
  - destruct (decide (size ms < 2)%nat) as [Hlt|Hge].
    + rewrite bool_decide_true by by right.
      assert (size ({[member]} ∪ ms) <= 2)%nat as Hs
        by (rewrite size_union, size_singleton by set_solver; lia).
      rewrite (r_scard_set _ _ _ _ (r_val_write_same _ _ _ _)).
      destruct (Z.gtb_spec (Z.of_nat (size ({[member]} ∪ ms))) 2); [lia|]. intros Hj.
      destruct (join_reply_spec _ _ _ _ _ _ _ _ Httl (r_val_write_same _ _ _ _) Hj)
        as (-> & -> & Ho). split_and!; try done.
      intros t' k Ht Hk. rewrite Ho by done. by apply r_val_other_write.
    + rewrite bool_decide_false by tauto.
      assert (ms ≠ ∅) as Hne by (intros ->; rewrite size_empty in Hge; lia).
      assert (r_val s t key = Some (RSet ms)) as Hv
        by (apply set_of_RSet in Hms as [?|[_ ->]]; done).
      rewrite (r_scard_set _ _ _ _ (r_val_write_same _ _ _ _)).
      rewrite size_union, size_singleton by set_solver.
      destruct (Z.gtb_spec (Z.of_nat (1 + size ms)) 2); [|lia].
      intros Hj. simplify_eq. split; [done|]. intros t' k Ht.
      by apply sadd_srem_timeline with (ms := ms).
Qed.

(** ** Properties *)

(** One registration is counted all or nothing: a refused request finds a
    used-up limit and changes no counter; an accepted one found every counter
    below its limit and leaves each of them one higher for the hour, and no
    other key changed. *)
Theorem registration_script_spec keys ttl t s r s' :
  0 < ttl → NoDup (keys.*1) → REGISTRATION_SCRIPT keys ttl t s = (Some r, s') →
  (r = 1 ∧ s' = s ∧
     ∃ k l u, (k, l) ∈ keys ∧ counter_of (r_val s t k) = Some u ∧ l <= u) ∨
  (r = 0 ∧
     (∀ k l, (k, l) ∈ keys → ∃ u, counter_of (r_val s t k) = Some u ∧ u + 1 <= l ∧
        ∀ t', t <= t' → r_val s' t' k =
          if t' <? t + 1000 * ttl then Some (RStr (display_Z (u + 1))) else None) ∧
     (∀ t' k, t <= t' → k ∉ keys.*1 → r_val s' t' k = r_val s t' k)).
Proof.
  intros Httl Hnd. unfold REGISTRATION_SCRIPT.
  destruct (any_used_up keys t s) as [[]|] eqn:Hu; intros H; [| |done].
  - simplify_eq. left. split_and!; [done|done|by apply any_used_up_true].
  - destruct (incr_all keys ttl t s) as [[[]|] s1] eqn:Hi; simplify_eq. right.
    pose proof (incr_all_spec _ _ _ _ _ Httl Hnd Hi) as Hs. split_and!; [done| |].
    + intros k l Hin. destruct (any_used_up_false _ _ _ Hu _ _ Hin) as (u & Hc & Hl).
      exists u. split_and!; [done|lia|]. intros t' Ht. specialize (Hs t' k Ht).
      rewrite bool_decide_true in Hs by (apply list_elem_of_fmap; by exists (k, l)).
      destruct Hs as (u' & Hc' & ->). by assert (u' = u) as -> by congruence.
    + intros t' k Ht Hk. specialize (Hs t' k Ht). by rewrite bool_decide_false in Hs.
Qed.

(** Presence belongs to the instance that claimed it last: renewal and
    release by an instance succeed exactly when the key is its own (or, for
    renewal, missing); otherwise they report 0 and change nothing, so a stale
    connection never overwrites or deletes a newer one's presence. *)
Theorem presence_owner_spec key instance ttl t s :
  0 < ttl →
  match r_val s t key with
  | Some (RStr owner) =>
    if bool_decide (owner = instance) then
      REFRESH_SCRIPT key instance ttl t s = (Some 1, r_setex key instance ttl t s) ∧
      RELEASE_SCRIPT key instance t s = (Some 1, r_del key t s)
    else
      REFRESH_SCRIPT key instance ttl t s = (Some 0, s) ∧
      RELEASE_SCRIPT key instance t s = (Some 0, s)
  | None =>
    REFRESH_SCRIPT key instance ttl t s = (Some 1, r_setex key instance ttl t s) ∧
    r_val (r_setex key instance ttl t s) t key = Some (RStr instance) ∧
    RELEASE_SCRIPT key instance t s = (Some 0, s)
  | Some (RSet _) =>
    REFRESH_SCRIPT key instance ttl t s = (None, s) ∧
    RELEASE_SCRIPT key instance t s = (None, s)
  end.
Proof.
  intros Httl. unfold REFRESH_SCRIPT, RELEASE_SCRIPT, r_get.
  destruct (r_val s t key) as [[owner|m]|] eqn:Hv; [|done|].
  - rewrite (bool_decide_false (Some owner = None)) by done.
    rewrite (bool_decide_ext (Some owner = Some instance) (owner = instance))
      by (split; congruence).
    by destruct (bool_decide (owner = instance)).
  - split_and!; [done| |done].
    rewrite r_val_setex, bool_decide_true by done || lia.
    by destruct (Z.ltb_spec t (t + 1000 * ttl)); [|lia].
Qed.

(** A rendezvous never has more than two members: joining one with at
    most two members lets a member of it and any newcomer while there is room
    in, and answers with the members, the joiner among them; a third device
    gets an empty answer and no timeline of any key changes. *)
Theorem join_script_spec key member ttl t s ms r s' :
  0 < ttl → rv_members s t key = Some ms → (size ms <= 2)%nat →
  JOIN_SCRIPT key member ttl t s = (r, s') →
  if bool_decide (member ∈ ms ∨ size ms < 2)%nat
  then r = Some (display_Z (if bool_decide (member ∈ ms) then 0 else 1)
                 :: r_order ({[member]} ∪ ms)) ∧
       rv_members s' t key = Some ({[member]} ∪ ms) ∧ (size ({[member]} ∪ ms) <= 2)%nat ∧
       (∀ t' k, t <= t' → k ≠ key → r_val s' t' k = r_val s t' k)
  else r = Some [] ∧ ∀ t' k, t <= t' → r_val s' t' k = r_val s t' k.
Proof. apply join_script_joined. Qed.
End Scripts.
