(* ===== verification/Usage.v ===== *)
(** * Usage: in-memory counters and the monthly salt key ([usage.rs])

    The tallies of one instance with their machine widths, [device_hash], and
    the UTC calendar month, compared with the Gregorian calendar. *)

From Stdlib Require Import Ascii.
From S2P Require Import Prelude Text Errors Externals Tables.

Local Open Scope Z_scope.

Definition i32_wrap (z : Z) : Z := (z + 2 ^ 31) mod 2 ^ 32 - 2 ^ 31.

(** [usage.rs:24-29 Tally] *)
Record Tally : Type := mkTally { t_envelopes : Z; t_bytes : Z; t_pushes : Z }.

#[export] Instance Tally_eq_dec : EqDecision Tally.
Proof. solve_decision. Defined.

Definition zero_tally : Tally := mkTally 0 0 0.

Definition tally_ok (t : Tally) : Prop :=
  i64_ok (t_envelopes t) ∧ i64_ok (t_bytes t) ∧ - 2 ^ 31 <= t_pushes t < 2 ^ 31.

(** The additions of [restore], each wrapping at its width. *)
Definition tally_add (x y : Tally) : Tally :=
  mkTally (i64_wrap (t_envelopes x + t_envelopes y)) (i64_wrap (t_bytes x + t_bytes y))
          (i32_wrap (t_pushes x + t_pushes y)).

(** [usage.rs:31-35 Usage] *)
Abbreviation Usage := (gmap Uuid Tally).

(** [usage.rs:65-67 Usage::update] *)
Definition update (device_id : Uuid) (f : Tally → Tally) (u : Usage) : Usage :=
  <[device_id := f (default zero_tally (u !! device_id))]> u.

(** [usage.rs:38-43 Usage::add_envelope] *)
Definition add_envelope (device_id : Uuid) (n : Z) (u : Usage) : Usage :=
  update device_id (λ t, mkTally (i64_wrap (t_envelopes t + 1))
                            (i64_wrap (t_bytes t + i64_wrap n)) (t_pushes t)) u.

(** [usage.rs:45-47 Usage::add_push] *)
Definition add_push (device_id : Uuid) (u : Usage) : Usage :=
  update device_id (λ t, mkTally (t_envelopes t) (t_bytes t) (i32_wrap (t_pushes t + 1))) u.

(** [usage.rs:49-52 Usage::take] *)
Definition take_usage (u : Usage) : Usage * Usage := (u, ∅).

(** [usage.rs:54-63 Usage::restore] *)
Definition restore (tallies : Usage) (u : Usage) : Usage :=
  map_fold (λ device_id t u, update device_id (λ e, tally_add e t) u) u tallies.

Section Hash.
Context {C : Crypto}.

(** [usage.rs:74-80 device_hash] *)
Definition device_hash (device_id : Uuid) (salt : bytes) : bytes :=
  arr_bytes (sha256 (arr_bytes device_id ++ salt)).

(** [usage.rs:146-149 flush, part]: the rows of a batch. *)
Definition usage_rows (tallies : Usage) (salt : bytes) : list UsageRow :=
  (λ '(id, t), (device_hash id salt, mkUsageCounts (t_envelopes t) (t_bytes t) (t_pushes t)))
    <$> map_to_list tallies.
End Hash.

(** ** The calendar month *)

(** [usage.rs:82-94 year_month] *)
Definition year_month (now_ms : Z) : Z * Z :=
  let z := now_ms / 86400000 + 719468 in
  let era := z / 146097 in
  let doe := z - era * 146097 in
  let yoe := (doe - doe / 1460 + doe / 36524 - doe / 146096) / 365 in
  let doy := doe - (365 * yoe + yoe / 4 - yoe / 100) in
  let mp := (5 * doy + 2) / 153 in
  let month := if mp <? 10 then mp + 3 else mp - 9 in
  let year := yoe + era * 400 + (if month <=? 2 then 1 else 0) in
  (year, month).

(** [{z:0w}]: padded with zeros to [w] characters, the sign in front. *)
Fixpoint zeros (n : nat) : string :=
  match n with O => EmptyString | S n' => "0" +:+ zeros n' end.
Definition display_padded (w : nat) (z : Z) : string :=
  let digits := display_Z (Z.abs z) in
  if z <? 0 then "-" +:+ zeros (w - 1 - str_len digits) +:+ digits
  else zeros (w - str_len digits) +:+ digits.

(** [usage.rs:96-99 salt_key] *)
Definition salt_key (now_ms : Z) : string :=
  let '(year, month) := year_month now_ms in
  "usage_salt:" +:+ display_padded 4 year +:+ "-" +:+ display_padded 2 month.

(** *** The Gregorian calendar, days counted from 1970-01-01 *)

Definition leap (y : Z) : bool :=
  (y mod 4 =? 0) && (negb (y mod 100 =? 0) || (y mod 400 =? 0)).

(** Leap years before year [y], up to a constant. *)
Definition leaps_before (y : Z) : Z := (y - 1) / 4 - (y - 1) / 100 + (y - 1) / 400.
Definition year_start (y : Z) : Z :=
  365 * (y - 1970) + (leaps_before y - leaps_before 1970).

Definition days_in_month (y m : Z) : Z :=
  match m with
  | 2 => if leap y then 29 else 28
  | 4 | 6 | 9 | 11 => 30
  | _ => 31
  end.

Definition month_offset (y m : Z) : Z :=
  foldl (λ acc k, if k <? m then acc + days_in_month y k else acc) 0
    [1; 2; 3; 4; 5; 6; 7; 8; 9; 10; 11; 12].

Definition month_start (y m : Z) : Z := year_start y + month_offset y m.

Lemma leaps_before_succ y :
  leaps_before (y + 1) = leaps_before y + (if leap y then 1 else 0).
Proof.
  unfold leaps_before, leap. replace (y + 1 - 1) with y by lia.
  assert (∀ n, 0 < n → y / n = (y - 1) / n + (if y mod n =? 0 then 1 else 0)) as Hd.
  { intros n Hn. destruct (Z.eqb_spec (y mod n) 0) as [H|H].
    - pose proof (Z.div_mod y n ltac:(lia)).
      symmetry. rewrite <-(Z.div_unique_pos (y - 1) n (y / n - 1) (n - 1)); lia.
    - pose proof (Z.div_mod y n ltac:(lia)). pose proof (Z.mod_pos_bound y n Hn).
      rewrite <-(Z.div_unique_pos (y - 1) n (y / n) (y mod n - 1)); lia. }
  rewrite (Hd 4), (Hd 100), (Hd 400) by lia.
  assert (y mod 400 = 0 → y mod 100 = 0) as H1 by
    (intros H; apply Z.mod_divide in H; [|lia]; apply Z.mod_divide; [lia|];
     eapply Z.divide_trans; [|exact H]; by exists 4).
  assert (y mod 100 = 0 → y mod 4 = 0) as H2 by
    (intros H; apply Z.mod_divide in H; [|lia]; apply Z.mod_divide; [lia|];
     eapply Z.divide_trans; [|exact H]; by exists 25).
  destruct (Z.eqb_spec (y mod 4) 0), (Z.eqb_spec (y mod 100) 0), (Z.eqb_spec (y mod 400) 0);
    simpl; lia.
Qed.

(** A year has 366 days when it is leap and 365 otherwise. *)
Lemma year_start_succ y : year_start (y + 1) = year_start y + (if leap y then 366 else 365).
Proof. unfold year_start. rewrite leaps_before_succ. destruct (leap y); lia. Qed.

Lemma year_start_era y e : year_start (y + e * 400) = year_start y + e * 146097.
Proof.
  unfold year_start, leaps_before.
  replace (y + e * 400 - 1) with ((y - 1) + (e * 100) * 4) at 1 by lia.
  replace (y + e * 400 - 1) with ((y - 1) + (e * 4) * 100) at 1 by lia.
  replace (y + e * 400 - 1) with ((y - 1) + e * 400) at 1 by lia.
  rewrite !Z.div_add by lia. lia.
Qed.

Lemma leap_era y e : leap (y + e * 400) = leap y.
Proof.
  unfold leap. replace (y + e * 400) with (y + (e * 100) * 4) at 1 by lia.
  replace (y + e * 400) with (y + (e * 4) * 100) at 1 by lia. by rewrite !Z.mod_add by lia.
Qed.

Lemma month_start_era y e m : month_start (y + e * 400) m = month_start y m + e * 146097.
Proof.
  unfold month_start. rewrite year_start_era.
  enough (month_offset (y + e * 400) m = month_offset y m) as -> by lia.
  unfold month_offset, days_in_month. by rewrite leap_era.
Qed.

Lemma days_in_month_era y e m : days_in_month (y + e * 400) m = days_in_month y m.
Proof. unfold days_in_month. by rewrite leap_era. Qed.

(** The algorithm on the day [doe] of one 400-year era, which starts on a
    first of March. *)
Definition yoe_num (doe : Z) : Z := doe - doe / 1460 + doe / 36524 - doe / 146096.
Definition yoe_of (doe : Z) : Z := yoe_num doe / 365.
Definition march_start (yoe : Z) : Z := 365 * yoe + yoe / 4 - yoe / 100.
Definition march_end (yoe : Z) : Z :=
  march_start yoe + 364 + (if leap (yoe + 1) then 1 else 0).

Lemma yoe_num_step d : 0 <= d → d + 1 < 146097 → yoe_num d <= yoe_num (d + 1).
Proof. unfold yoe_num. intros H1 H2. Z.to_euclidean_division_equations. lia. Qed.

Lemma yoe_of_mono a b : 0 <= a <= b → b < 146097 → yoe_of a <= yoe_of b.
Proof.
  intros [H0 Hab] Hb. unfold yoe_of. apply Z.div_le_mono; [lia|].
  revert Hb. pattern b. apply Zlt_lower_bound_ind with (z := a); [|done].
  intros x IH Hx Hb. destruct (decide (x = a)) as [->|]; [done|].
  replace x with (x - 1 + 1) by lia.
  etrans; [apply (IH (x - 1)); lia|]. apply yoe_num_step; lia.
Qed.

Definition march_year_ok (y : Z) : bool :=
  (yoe_of (march_start y) =? y) && (yoe_of (march_end y) =? y)
  && (march_end y + 1 =? if y =? 399 then 146097 else march_start (y + 1)).

Lemma march_years_ok : forallb march_year_ok (seqZ 0 400) = true.
Proof. vm_compute. reflexivity. Qed.

Lemma march_year_spec y :
  0 <= y < 400 →
  yoe_of (march_start y) = y ∧ yoe_of (march_end y) = y ∧
  march_end y + 1 = if y =? 399 then 146097 else march_start (y + 1).
Proof.
  intros H. pose proof march_years_ok as Ha. rewrite forallb_forall in Ha.
  specialize (Ha y). rewrite <-list_elem_of_In, elem_of_seqZ in Ha.
  specialize (Ha ltac:(lia)). unfold march_year_ok in Ha.
  rewrite !andb_true_iff, !Z.eqb_eq in Ha. tauto.
Qed.

Lemma march_start_nonneg y : 0 <= y → 0 <= march_start y.
Proof. unfold march_start. intros H. Z.to_euclidean_division_equations. lia. Qed.

Lemma march_start_bound y : 0 <= y < 400 → march_start y < 146097.
Proof. unfold march_start. intros H. Z.to_euclidean_division_equations. lia. Qed.

Lemma yoe_of_spec doe :
  0 <= doe < 146097 →
  0 <= yoe_of doe < 400 ∧ march_start (yoe_of doe) <= doe <= march_end (yoe_of doe).
Proof.
  intros H.
  assert (0 <= yoe_of doe < 400) as Hy.
  { pose proof (yoe_of_mono 0 doe ltac:(lia) ltac:(lia)) as H0.
    pose proof (yoe_of_mono doe 146096 ltac:(lia) ltac:(lia)) as H1.
    change (yoe_of 0) with 0 in H0. change (yoe_of 146096) with 399 in H1. lia. }
  split; [done|]. remember (yoe_of doe) as y eqn:E.
  destruct (march_year_spec y Hy) as (_ & _ & Hn).
  pose proof (march_start_nonneg y ltac:(lia)) as Hs.
  split; apply Z.nlt_ge; intros Hlt.
  - destruct (decide (y = 0)) as [->|Hy0]; [change (march_start 0) with 0 in Hlt; lia|].
    destruct (march_year_spec (y - 1) ltac:(lia)) as (_ & He & Hp).
    rewrite (proj2 (Z.eqb_neq (y - 1) 399)) in Hp by lia. replace (y - 1 + 1) with y in Hp by lia.
    pose proof (march_start_bound y ltac:(lia)).
    pose proof (yoe_of_mono doe (march_end (y - 1)) ltac:(lia) ltac:(lia)). lia.
  - destruct (Z.eqb_spec y 399); [lia|].
    destruct (march_year_spec (y + 1) ltac:(lia)) as (Hf & _ & _).
    pose proof (march_start_nonneg (y + 1) ltac:(lia)).
    pose proof (yoe_of_mono (march_start (y + 1)) doe ltac:(lia) ltac:(lia)). lia.
Qed.

Definition era_year_month (doe : Z) : Z * Z :=
  let doy := doe - march_start (yoe_of doe) in
  let mp := (5 * doy + 2) / 153 in
  let month := if mp <? 10 then mp + 3 else mp - 9 in
  (yoe_of doe + (if month <=? 2 then 1 else 0), month).

(** The first of March of year [y] of the era. *)
Lemma march_first y :
  0 <= y < 400 → march_start y = year_start y + 59 + (if leap y then 1 else 0) + 719468.
Proof.
  intros H. pose proof (leaps_before_succ y) as Hl. unfold leaps_before in Hl.
  replace (y + 1 - 1) with y in Hl by lia. rewrite (Z.div_small y 400) in Hl by lia.
  unfold march_start, year_start. change (leaps_before 1970) with 477.
  unfold leaps_before. destruct (leap y); lia.
Qed.

Lemma month_offset_table y m :
  month_offset y m =
    (if 1 <? m then 31 else 0) + (if 2 <? m then (if leap y then 29 else 28) else 0)
    + (if 3 <? m then 31 else 0) + (if 4 <? m then 30 else 0) + (if 5 <? m then 31 else 0)
    + (if 6 <? m then 30 else 0) + (if 7 <? m then 31 else 0) + (if 8 <? m then 31 else 0)
    + (if 9 <? m then 30 else 0) + (if 10 <? m then 31 else 0) + (if 11 <? m then 30 else 0)
    + (if 12 <? m then 31 else 0).
Proof.
  unfold month_offset. cbn [foldl days_in_month].
  repeat match goal with |- context [if ?k <? m then ?a + ?b else ?a] =>
    replace (if k <? m then a + b else a) with (a + (if k <? m then b else 0))
      by (destruct (k <? m); lia) end.
  lia.
Qed.

Lemma era_day_spec doe :
  0 <= doe < 146097 →
  let '(y, m) := era_year_month doe in
  1 <= m <= 12 ∧ month_start y m <= doe - 719468 < month_start y m + days_in_month y m.
Proof.
  intros H. destruct (yoe_of_spec doe H) as [Hy [Hlo Hhi]]. unfold era_year_month.
  set (y := yoe_of doe) in *. pose proof (march_first y Hy) as Hm.
  unfold march_end in Hhi. set (doy := doe - march_start y).
  assert (0 <= doy <= 364 + (if leap (y + 1) then 1 else 0)) as Hd by lia.
  assert (doe - 719468 = year_start y + 59 + (if leap y then 1 else 0) + doy) as -> by lia.
  clearbody doy y. clear -Hd. pose proof (year_start_succ y) as Hs.
  assert (∃ mp, (5 * doy + 2) / 153 = mp ∧ 0 <= mp <= 11 ∧ 153 * mp <= 5 * doy + 2 < 153 * mp + 153)
    as (mp & -> & Hmp & Hdiv).
  { eexists. split; [done|]. destruct (leap (y + 1)); Z.to_euclidean_division_equations; lia. }
  assert (mp = 0 ∨ mp = 1 ∨ mp = 2 ∨ mp = 3 ∨ mp = 4 ∨ mp = 5 ∨ mp = 6 ∨ mp = 7 ∨ mp = 8 ∨
          mp = 9 ∨ mp = 10 ∨ mp = 11) as Hcases by lia.
  repeat destruct Hcases as [-> | Hcases]; try subst mp;
    match goal with |- context [if ?c then ?a else ?b] =>
      let v := eval vm_compute in (if c then a else b) in change (if c then a else b) with v end;
    match goal with |- context [if ?c then 1 else 0] =>
      let v := eval vm_compute in c in lazymatch v with true => idtac | false => idtac end;
      change c with v end;
    unfold month_start; rewrite month_offset_table; cbn [days_in_month];
    rewrite ?Z.add_0_r, ?Hs; destruct (leap y), (leap (y + 1)); cbn -[year_start]; lia.
Qed.

Lemma year_month_era now :
  let z := now / 86400000 + 719468 in
  year_month now =
    ((era_year_month (z mod 146097)).1 + z / 146097 * 400, (era_year_month (z mod 146097)).2).
Proof.
  cbv zeta. unfold year_month, era_year_month, march_start, yoe_of, yoe_num. cbv zeta.
  set (z := now / 86400000 + 719468).
  replace (z - z / 146097 * 146097) with (z mod 146097)
    by (rewrite Z.mod_eq by lia; rewrite (Z.mul_comm 146097); done).
  generalize (z mod 146097) as doe, (z / 146097) as era. intros doe era. cbn [fst snd].
  rewrite ?(Z.add_sub_assoc (365 * _)). f_equal. lia.
Qed.

(** ** Properties *)

(** C40. [year_month] is the UTC calendar month: for every time, the month is
    between 1 and 12 and the day lies within that month of that year of the
    proleptic Gregorian calendar. *)
Theorem year_month_gregorian (now_ms : Z) :
  let '(y, m) := year_month now_ms in
  1 <= m <= 12 ∧
  month_start y m <= now_ms / 86400000 < month_start y m + days_in_month y m.
Proof.
  rewrite year_month_era. set (z := now_ms / 86400000 + 719468).
  pose proof (Z.mod_pos_bound z 146097 ltac:(lia)) as Hb.
  pose proof (era_day_spec _ Hb) as H.
  destruct (era_year_month (z mod 146097)) as [y m]. cbn [fst snd].
  rewrite month_start_era, days_in_month_era.
  pose proof (Z.div_mod z 146097 ltac:(lia)). lia.
Qed.

Lemma lookup_update_eq id f u : update id f u !! id = Some (f (default zero_tally (u !! id))).
Proof. apply lookup_insert_eq. Qed.
Lemma lookup_update_ne id id' f u : id ≠ id' → update id f u !! id' = u !! id'.
Proof. apply lookup_insert_ne. Qed.

Lemma lookup_restore (tallies u : Usage) (id : Uuid) :
  restore tallies u !! id =
    match tallies !! id with
    | Some t => Some (tally_add (default zero_tally (u !! id)) t)
    | None => u !! id
    end.
Proof.
  unfold restore. revert id.
  apply (map_fold_weak_ind (λ r m, ∀ id, r !! id =
    match m !! id with
    | Some t => Some (tally_add (default zero_tally (u !! id)) t)
    | None => u !! id
    end)); [done|].
  intros i t m r Hi IH id. destruct (decide (i = id)) as [->|Hne].
  - rewrite lookup_insert_eq, lookup_update_eq, IH, Hi. done.
  - by rewrite lookup_insert_ne, lookup_update_ne.
Qed.

(** Counters taken for a flush that fails are put back without loss: each
    device's counters become the sum, at their widths, of those taken and those
    tallied meanwhile, and devices not taken are untouched. *)
Theorem restore_adds (tallies u : Usage) (id : Uuid) :
  restore tallies u !! id =
    match tallies !! id with
    | Some t => Some (tally_add (default zero_tally (u !! id)) t)
    | None => u !! id
    end.
Proof. apply lookup_restore. Qed.
