(* ===== verification/Hub.v ===== *)
(** * Hub: one instance's view of its relay connections ([relay/hub.rs])

    The registry maps a device to the connection serving it; a connection is a
    handle on a channel that the registry, the connection's task and a newer
    connection share, so the channels live in a store keyed by [conn_id].  The
    bus task is a step function on the hub and its set of subscriptions; what
    Redis answers to a [SUBSCRIBE] is part of the event. *)

From S2P Require Import Prelude Text Externals Bus.

Local Open Scope Z_scope.

(** [relay/hub.rs:27-33 Delivery] *)
Inductive Delivery : Type :=
| DBus (m : BusMessage)
| DResync.

(** [relay/hub.rs:35-42 LocalConn]: what the handles of one connection share.
    [ch_open] is false once the receiver is dropped; [ch_kill] is the permit
    [Notify::notify_one] leaves. *)
Record Chan : Type := mkChan {
  ch_queue : list Delivery;
  ch_queued : Z;
  ch_kill : bool;
  ch_open : bool
}.

Definition new_chan : Chan := mkChan [] 0 false true.

(** [relay/hub.rs:44-52 BusRequest] *)
Inductive BusRequest : Type :=
| Subscribe (device_id : Uuid)
| Unsubscribe (device_id : Uuid).

(** [relay/hub.rs:54-59 Hub]; [requests] is the queue to the bus task. *)
Record HubState : Type := mkHub {
  registry : gmap Uuid Uuid;
  chans : gmap Uuid Chan;
  requests : list BusRequest
}.

Definition empty_hub : HubState := mkHub ∅ ∅ [].

Definition set_chans (f : gmap Uuid Chan → gmap Uuid Chan) (h : HubState) : HubState :=
  mkHub (registry h) (f (chans h)) (requests h).

(** [usize] arithmetic of the queue counters. *)
Definition usize_wrap (z : Z) : Z := z mod 2 ^ 64.

(** [UnboundedSender::send]: refused once the receiver is gone. *)
Definition chan_send (d : Delivery) (c : Chan) : option Chan :=
  if ch_open c then Some (mkChan (ch_queue c ++ [d]) (ch_queued c) (ch_kill c) (ch_open c))
  else None.

(** [let _ = tx.send(d)] *)
Definition send_ignore (conn_id : Uuid) (d : Delivery) : HubState → HubState :=
  set_chans (alter (λ c, default c (chan_send d c)) conn_id).

(** [relay/hub.rs:88-91 Hub::register]: with the channel of [conn]. *)
Definition register (device_id conn_id : Uuid) (h : HubState) : option Uuid * HubState :=
  (registry h !! device_id,
   mkHub (<[device_id := conn_id]> (registry h)) (<[conn_id := new_chan]> (chans h)) (requests h)).

(** [relay/hub.rs:93-104 Hub::unregister] *)
Definition unregister (device_id conn_id : Uuid) (h : HubState) : bool * HubState :=
  if bool_decide (registry h !! device_id = Some conn_id)
  then (true, mkHub (delete device_id (registry h)) (chans h) (requests h))
  else (false, h).

(** [relay/hub.rs:106-108 Hub::is_registered] *)
Definition is_registered (device_id : Uuid) (h : HubState) : bool :=
  bool_decide (is_Some (registry h !! device_id)).

(** [relay/hub.rs:126-129 Hub::unsubscribe] *)
Definition unsubscribe (device_id : Uuid) (h : HubState) : HubState :=
  mkHub (registry h) (chans h) (requests h ++ [Unsubscribe device_id]).

(** [relay/hub.rs:110-124 Hub::subscribe]: the request; the answer comes from
    the bus task or from the timeout. *)
Definition subscribe_request (device_id : Uuid) (h : HubState) : HubState :=
  mkHub (registry h) (chans h) (requests h ++ [Subscribe device_id]).

(** [relay/hub.rs:142-157 Hub::dispatch] *)
Definition dispatch (max_queued_bytes : Z) (device_id : Uuid) (msg : BusMessage)
    (h : HubState) : HubState :=
  match registry h !! device_id with
  | None => h
  | Some conn_id =>
    set_chans (alter (λ c,
      let len := queued_len msg in
      let queued := usize_wrap (ch_queued c + len) in
      if queued >? max_queued_bytes
      then mkChan (ch_queue c) queued true (ch_open c)
      else match chan_send (DBus msg) (mkChan (ch_queue c) queued (ch_kill c) (ch_open c)) with
           | Some c' => c'
           | None => mkChan (ch_queue c) (usize_wrap (queued - len)) (ch_kill c) (ch_open c)
           end) conn_id) h
  end.

(** [relay/hub.rs:159-163 Hub::broadcast_resync] *)
Definition broadcast_resync (h : HubState) : HubState :=
  map_fold (λ _ conn_id h', send_ignore conn_id DResync h') h (registry h).

(** [relay/hub.rs:165-167 Hub::registered_devices] *)
Definition registered_devices (h : HubState) : list Uuid := (map_to_list (registry h)).*1.

(** What [rx.recv()] gives: the next delivery, [None] once the queue is empty and
    the registry's handle (the only sender) is gone, or nothing yet. *)
Inductive Received : Type :=
| Got (d : Delivery)
| Closed
| NotReady.

(** [relay/connection.rs:178-186 Conn::serve, part]: the connection task takes the
    next delivery and gives its bytes back to the counter; in the code the counter
    follows a moment later, so that a message in between may find it too high. *)
Definition chan_recv (device_id conn_id : Uuid) (h : HubState) : Received * HubState :=
  match chans h !! conn_id with
  | Some (mkChan (d :: q) n k o) =>
    let n' := match d with DBus msg => usize_wrap (n - queued_len msg) | DResync => n end in
    (Got d, set_chans <[conn_id := mkChan q n' k o]> h)
  | _ => (if bool_decide (registry h !! device_id = Some conn_id) then NotReady else Closed, h)
  end.

(** The connection task ends and drops its receiver. *)
Definition chan_close (conn_id : Uuid) : HubState → HubState :=
  set_chans (alter (λ c, mkChan (ch_queue c) (ch_queued c) (ch_kill c) false) conn_id).

(** ** The bus task *)

Section Bus.
Context {UO : UuidOps}.

(** What wakes the bus task: the next request with Redis's answer to it, a
    published message, or the end of the stream followed by the reconnection
    with the devices whose [SUBSCRIBE] succeeded. *)
Inductive BusEvent : Type :=
| EvRequest (answer : bool)
| EvMessage (channel : string) (payload : bytes)
| EvLost (subscribes : Uuid → bool).

Record BusTask : Type := mkBusTask {
  bt_hub : HubState;
  bt_subscribed : gset Uuid
}.

(** [relay/hub.rs:170-225 run_bus]: one turn of the loop, with the reply sent
    to the waiting subscriber if any.  After a lost stream the reconnection, the
    renewed subscriptions and the broadcast are one step: requests wait in their
    queue meanwhile, and nothing is delivered.  The reply is [subscribed.insert], true
    for a new member. *)
Definition bus_step (max_queued_bytes : Z) (ev : BusEvent) (b : BusTask) :
    option (Uuid * bool) * BusTask :=
  let h := bt_hub b in
  match ev with
  | EvRequest answer =>
    match requests h with
    | [] => (None, b)
    | Subscribe d :: rs =>
      let h' := mkHub (registry h) (chans h) rs in
      if bool_decide (d ∈ bt_subscribed b) then (Some (d, true), mkBusTask h' (bt_subscribed b))
      else if answer then (Some (d, true), mkBusTask h' ({[d]} ∪ bt_subscribed b))
      else (Some (d, false), mkBusTask h' (bt_subscribed b))
    | Unsubscribe d :: rs =>
      let h' := mkHub (registry h) (chans h) rs in
      (None, mkBusTask h' (if is_registered d h then bt_subscribed b
                           else bt_subscribed b ∖ {[d]}))
    end
  | EvMessage channel payload =>
    match channel_device (str_bytes channel), bus_decode payload with
    | Some device, Some decoded =>
      (None, mkBusTask (dispatch max_queued_bytes device decoded h) (bt_subscribed b))
    | _, _ => (None, b)
    end
  | EvLost subscribes =>
    let subscribed := list_to_set (filter (λ d, subscribes d = true) (registered_devices h)) in
    (None, mkBusTask (broadcast_resync h) subscribed)
  end.

(** [relay/hub.rs:24-24 RECONNECT_MIN], in milliseconds. *)
Definition RECONNECT_MIN : Z := 200.
(** [relay/hub.rs:25-25 RECONNECT_MAX] *)
Definition RECONNECT_MAX : Z := 5000.
(** [relay/hub.rs:227-239 reconnect]: the pause after the [n]-th failed attempt. *)
Fixpoint reconnect_wait (n : nat) : Z :=
  match n with
  | O => RECONNECT_MIN
  | S n' => Z.min (reconnect_wait n' * 2) RECONNECT_MAX
  end.
End Bus.

(** ** Histories of a hub *)

(** The operations that change a hub, from any task, in the order they take its
    lock; [OpRequest] and [OpServed] are the two ends of the queue to the bus task.
    The kill permit is not among them: only the connection itself takes it, and ends
    ([Serve.take_kill]). *)
Inductive HubOp : Type :=
| OpRegister (device_id conn_id : Uuid)
| OpReplace (conn_id : Uuid) (by_conn : Uuid)
| OpUnregister (device_id conn_id : Uuid)
| OpDispatch (device_id : Uuid) (msg : BusMessage)
| OpResync
| OpRecv (device_id conn_id : Uuid)
| OpClose (conn_id : Uuid)
| OpRequest (r : BusRequest)
| OpServed.

Definition hub_apply (max : Z) (h : HubState) (op : HubOp) : HubState :=
  match op with
  | OpRegister d c => (register d c h).2
  | OpReplace c c' => send_ignore c (DBus (Replace c')) h
  | OpUnregister d c => (unregister d c h).2
  | OpDispatch d m => dispatch max d m h
  | OpResync => broadcast_resync h
  | OpRecv d c => (chan_recv d c h).2
  | OpClose c => chan_close c h
  | OpRequest r => mkHub (registry h) (chans h) (requests h ++ [r])
  | OpServed => mkHub (registry h) (chans h) (tail (requests h))
  end.

Definition hub_run (max : Z) (ops : list HubOp) (h : HubState) : HubState :=
  foldl (hub_apply max) h ops.

(** Bytes of a queue; a message is never longer than a Rust allocation. *)
Definition delivery_len (d : Delivery) : Z := match d with DBus m => queued_len m | DResync => 0 end.
Definition queue_len (q : list Delivery) : Z := foldr (λ d n, delivery_len d + n) 0 q.
Definition op_ok (op : HubOp) : Prop :=
  match op with OpDispatch _ m => queued_len m < 2 ^ 63 | _ => True end.

Definition chan_ok (max : Z) (c : Chan) : Prop :=
  ch_kill c = false → ch_queued c = queue_len (ch_queue c) ∧ ch_queued c <= max.
Definition chans_ok (max : Z) (h : HubState) : Prop := map_Forall (λ _, chan_ok max) (chans h).

Lemma queued_len_nonneg m : 0 <= queued_len m.
Proof. destruct m; simpl; lia. Qed.

Lemma delivery_len_nonneg d : 0 <= delivery_len d.
Proof. destruct d; simpl; [apply queued_len_nonneg|lia]. Qed.

Lemma queue_len_nonneg q : 0 <= queue_len q.
Proof. induction q as [|d q IH]; simpl; [lia|]. pose proof (delivery_len_nonneg d). lia. Qed.

Lemma queue_len_app q1 q2 : queue_len (q1 ++ q2) = queue_len q1 + queue_len q2.
Proof. induction q1 as [|d q IH]; simpl; [done|]. lia. Qed.

Lemma usize_wrap_id z : 0 <= z < 2 ^ 64 → usize_wrap z = z.
Proof. apply Z.mod_small. Qed.

Lemma chans_ok_alter max h f conn_id :
  (∀ c, chan_ok max c → chan_ok max (f c)) → chans_ok max h →
  chans_ok max (set_chans (alter f conn_id) h).
Proof.
  intros Hf Hh i c. simpl. destruct (decide (i = conn_id)) as [->|Hne].
  - rewrite lookup_alter_eq. destruct (chans h !! conn_id) as [c0|] eqn:E; simpl; [|done].
    intros [= <-]. apply Hf, (Hh _ _ E).
  - rewrite lookup_alter_ne by done. apply Hh.
Qed.

Lemma chans_ok_insert max h conn_id c :
  chan_ok max c → chans_ok max h → chans_ok max (set_chans <[conn_id := c]> h).
Proof. intros Hc Hh. apply map_Forall_insert_2; done. Qed.

(** A message that carries no bytes. *)
Lemma chan_ok_send max d c : delivery_len d = 0 → chan_ok max c →
  chan_ok max (default c (chan_send d c)).
Proof.
  intros Hd Hc. unfold chan_send. destruct (ch_open c); [|done]. intros Hk. simpl in *.
  destruct (Hc Hk) as [Hq ?]. split; [|done]. rewrite queue_len_app, Hq. simpl. lia.
Qed.

Lemma chans_ok_send max d conn_id h :
  delivery_len d = 0 → chans_ok max h → chans_ok max (send_ignore conn_id d h).
Proof. intros Hd. apply chans_ok_alter. intros c. by apply chan_ok_send. Qed.

Lemma chans_ok_dispatch max d m h :
  0 <= max < 2 ^ 63 → queued_len m < 2 ^ 63 → chans_ok max h → chans_ok max (dispatch max d m h).
Proof.
  intros Hmax Hm Hh. unfold dispatch. destruct (registry h !! d) as [conn_id|]; [|done].
  apply chans_ok_alter; [|done]. intros c Hc. cbv zeta.
  pose proof (queued_len_nonneg m). pose proof (queue_len_nonneg (ch_queue c)).
  destruct (Z.gtb_spec (usize_wrap (ch_queued c + queued_len m)) max) as [|Hle]; [done|].
  unfold chan_send. cbn [ch_open ch_queue ch_queued ch_kill].
  assert (ch_kill c = false → ch_queued c = queue_len (ch_queue c) ∧
    usize_wrap (ch_queued c + queued_len m) = ch_queued c + queued_len m) as Hw.
  { intros Hk. destruct (Hc Hk). rewrite usize_wrap_id; lia. }
  destruct (ch_open c); intros Hk; cbn [ch_kill ch_queue ch_queued] in *;
    destruct (Hw Hk) as [Hq Hw'], (Hc Hk) as [_ Hle']; rewrite Hw' in *.
  - rewrite queue_len_app. simpl. lia.
  - rewrite usize_wrap_id by lia. lia.
Qed.

Lemma chans_ok_recv max d c h :
  0 <= max < 2 ^ 63 → chans_ok max h → chans_ok max (chan_recv d c h).2.
Proof.
  intros Hmax Hh. unfold chan_recv.
  destruct (chans h !! c) as [[[|dl q] n k o]|] eqn:E; [done| |done].
  apply chans_ok_insert; [|done]. intros Hk. simpl in *. destruct (Hh _ _ E Hk) as [Hq Hle].
  simpl in *. pose proof (queue_len_nonneg q).
  destruct dl as [m|]; simpl in *; [|lia]. pose proof (queued_len_nonneg m).
  rewrite usize_wrap_id; lia.
Qed.

Lemma chans_ok_resync max h : chans_ok max h → chans_ok max (broadcast_resync h).
Proof.
  intros Hh. unfold broadcast_resync.
  apply (map_fold_weak_ind (λ h' _, chans_ok max h')); [done|].
  intros ? ? ? ? _ IH. by apply chans_ok_send.
Qed.

Lemma chans_ok_apply max h op :
  0 <= max < 2 ^ 63 → op_ok op → chans_ok max h → chans_ok max (hub_apply max h op).
Proof.
  intros Hmax Hop Hh. destruct op; simpl in *.
  - apply map_Forall_insert_2; [|done]. intros _. simpl. lia.
  - by apply chans_ok_send.
  - unfold unregister. by case_bool_decide.
  - by apply chans_ok_dispatch.
  - by apply chans_ok_resync.
  - by apply chans_ok_recv.
  - by apply chans_ok_alter.
  - done.
  - done.
Qed.

Lemma registry_resync h : registry (broadcast_resync h) = registry h.
Proof.
  unfold broadcast_resync. apply (map_fold_weak_ind (λ h' _, registry h' = registry h)); [done|].
  intros ? ? ? ? _ IH. exact IH.
Qed.

Lemma registry_dispatch max d m h : registry (dispatch max d m h) = registry h.
Proof. unfold dispatch. by destruct (registry h !! d). Qed.

Lemma registry_apply max h op d c :
  registry h !! d = Some c →
  (∀ c', op ≠ OpRegister d c') → op ≠ OpUnregister d c →
  registry (hub_apply max h op) !! d = Some c.
Proof.
  intros H Hr Hu. destruct op as [d' c'|c' c''|d' c'|d' m| |d' c'|c'|r|]; simpl.
  - destruct (decide (d' = d)) as [->|]; [by destruct (Hr c')|]. by rewrite lookup_insert_ne.
  - done.
  - unfold unregister. case_bool_decide as E; [|done]. simpl.
    destruct (decide (d' = d)) as [->|]; [|by rewrite lookup_delete_ne].
    rewrite H in E. simplify_eq.
  - unfold dispatch. by destruct (registry h !! d').
  - by rewrite registry_resync.
  - unfold chan_recv. by destruct (chans h !! c') as [[[|? ?] ? ? ?]|].
  - done.
  - done.
  - done.
Qed.

Lemma dispatch_queued (max : Z) (d conn_id : Uuid) (m : BusMessage) (c : Chan) (h : HubState) :
  registry h !! d = Some conn_id → chans h !! conn_id = Some c → ch_open c = true →
  0 <= ch_queued c → ch_queued c + queued_len m < 2 ^ 64 →
  chans (dispatch max d m h) !! conn_id =
    Some (if ch_queued c + queued_len m <=? max
          then mkChan (ch_queue c ++ [DBus m]) (ch_queued c + queued_len m) (ch_kill c) true
          else mkChan (ch_queue c) (ch_queued c + queued_len m) true true).
Proof.
  intros Hr Hc Ho H0 Hm. pose proof (queued_len_nonneg m). unfold dispatch. rewrite Hr.
  cbn [chans set_chans]. rewrite lookup_alter_eq, Hc. cbn [fmap option_fmap option_map].
  rewrite usize_wrap_id by lia. f_equal.
  destruct (Z.gtb_spec (ch_queued c + queued_len m) max), (Z.leb_spec (ch_queued c + queued_len m) max);
    try lia; unfold chan_send; cbn [ch_open ch_queue ch_queued ch_kill]; by rewrite Ho.
Qed.

(** ** Properties *)

(** C27. Whatever connections come and go and whatever is published, the byte
    counter of a connection that was not told to die is exactly the bytes
    waiting in its queue, and never exceeds the limit. *)
Theorem hub_queue_bounded (max : Z) (ops : list HubOp) (conn_id : Uuid) (c : Chan) :
  0 <= max < 2 ^ 63 → Forall op_ok ops →
  chans (hub_run max ops empty_hub) !! conn_id = Some c →
  ch_kill c = false →
  ch_queued c = queue_len (ch_queue c) ∧ ch_queued c <= max.
Proof.
  intros Hmax Hops Hc. assert (chans_ok max (hub_run max ops empty_hub)) as H.
  { clear Hc. unfold hub_run. assert (chans_ok max empty_hub) as H0 by done.
    revert H0. generalize empty_hub as h. induction Hops as [|op ops Hop _ IH]; [done|].
    intros h Hh. apply IH, chans_ok_apply; done. }
  by apply (H _ _ Hc).
Qed.

(** The newest connection of a device serves it: once [conn_id] is
    registered, published messages go to it until it unregisters itself or a
    newer connection registers; an older connection's [unregister] changes
    nothing. *)
Theorem newest_connection_serves (max : Z) (d conn_id : Uuid) (ops : list HubOp) (h : HubState) :
  Forall (λ op, (∀ c', op ≠ OpRegister d c') ∧ op ≠ OpUnregister d conn_id) ops →
  let h' := hub_run max ops (register d conn_id h).2 in
  registry h' !! d = Some conn_id ∧
  (∀ old, old ≠ conn_id → unregister d old h' = (false, h')) ∧
  (∀ m c, c ≠ conn_id → chans (dispatch max d m h') !! c = chans h' !! c).
Proof.
  intros Hops h'. assert (registry h' !! d = Some conn_id) as H.
  { unfold h', hub_run. assert (registry (register d conn_id h).2 !! d = Some conn_id) as H0.
    { simpl. by rewrite lookup_insert_eq. }
    revert H0. generalize (register d conn_id h).2 as h0. clear h'.
    induction Hops as [|op ops [H1 H2] _ IH]; [done|]. intros h0 H0. by apply IH, registry_apply. }
  split_and!; [done| |].
  - intros old Hne. unfold unregister. rewrite bool_decide_false; [done|]. rewrite H. congruence.
  - intros m c Hne. unfold dispatch. rewrite H. simpl. by rewrite lookup_alter_ne.
Qed.

(** A published message reaches the serving connection of its device after
    everything queued before it, or, when the queue would exceed the limit, is
    dropped and the connection is told to die. *)
Theorem dispatch_spec (max : Z) (d conn_id : Uuid) (m : BusMessage) (c : Chan) (h : HubState) :
  registry h !! d = Some conn_id → chans h !! conn_id = Some c → ch_open c = true →
  0 <= ch_queued c → ch_queued c + queued_len m < 2 ^ 64 →
  chans (dispatch max d m h) !! conn_id =
    Some (if ch_queued c + queued_len m <=? max
          then mkChan (ch_queue c ++ [DBus m]) (ch_queued c + queued_len m) (ch_kill c) true
          else mkChan (ch_queue c) (ch_queued c + queued_len m) true true).
Proof. apply dispatch_queued. Qed.

(** C28. A confirmed subscription lasts: the bus task answers yes only for a
    channel it is subscribed to, keeps the subscription of every device with a
    registered connection through requests and messages, and after a lost Redis
    connection is subscribed to exactly the registered devices whose renewed
    [SUBSCRIBE] succeeded. *)
Theorem bus_subscriptions {UO : UuidOps} (max : Z) (ev : BusEvent) (b : BusTask) :
  let '(reply, b') := bus_step max ev b in
  (∀ d, reply = Some (d, true) → d ∈ bt_subscribed b') ∧
  match ev with
  | EvLost subscribes => ∀ d, d ∈ bt_subscribed b' ↔
      is_Some (registry (bt_hub b) !! d) ∧ subscribes d = true
  | _ => ∀ d, d ∈ bt_subscribed b → is_Some (registry (bt_hub b) !! d) → d ∈ bt_subscribed b'
  end.
Proof.
  destruct ev as [answer|ch payload|subs]; cbn [bus_step].
  - destruct (requests (bt_hub b)) as [|[d|d] rs].
    + done.
    + case_bool_decide; [|destruct answer]; cbn [bt_subscribed];
        (split; [intros d'; intros [= <-]|intros d' Hd _]; try done; set_solver).
    + unfold is_registered. case_bool_decide as E; cbn [bt_subscribed]; (split; [done|]).
      * done.
      * intros d' Hd Hreg. assert (d' ≠ d) by congruence. set_solver.
  - destruct (channel_device _), (bus_decode payload); done.
  - split; [done|]. intros d. cbn [bt_subscribed]. rewrite elem_of_list_to_set, list_elem_of_filter.
    unfold registered_devices. rewrite list_elem_of_fmap. split.
    + intros [Hs ([d' c] & -> & Hin)]. apply elem_of_map_to_list in Hin. eauto.
    + intros [[c Hc] Hs]. split; [done|]. exists (d, c). by rewrite elem_of_map_to_list.
Qed.
