(* ===== verification/IO.v ===== *)
(** * IO: effects of the relay as commands, programs and their executions

    A handler is a program: a tree of commands to the outside (clocks, random
    bytes, PostgreSQL, Redis, the hub, the device's socket, HTTP).  [exec] runs
    one command on the [World] with the environment's [Input] for it (time that
    passed, what the bus task and other tasks did to the hub in the meantime, a lost
    request or reply, what a peer answered); [runs] is every execution of a program,
    [runs_in K] those whose inputs satisfy [K], [run] the executable one, and
    [pool_step] the interleaving of concurrent handlers of any number of instances
    command by command. *)

From stdpp Require Import relations.
From S2P Require Import Prelude Text Errors Externals Signatures Revocation Bus Tables Redis.
From S2P Require Import Scripts Usage Hub.

Local Open Scope Z_scope.

(** ** Queries *)

Inductive sql : Type → Type :=
| QUpsert (device : NewDevice) : sql UpsertOutcome
| QFindKey (device_id : Uuid) : sql (option DeviceKey)
| QTouchLastSeen (device_id : Uuid) : sql unit
| QFindPlatform (device_id : Uuid) : sql (option (string * bool))
| QSetPushToken (device_id : Uuid) (provider token : string) (topic : option string) : sql bool
| QClearPushToken (device_id : Uuid) : sql unit
| QDeleteWithPeers {T E} (device_id : Uuid) (check : list (Uuid * Uuid) → result E T) :
    sql (result E T)
| QPushTarget (pair_id from to : Uuid) : sql (option PushTarget)
| QMemberDevices (a b : Uuid) : sql (gmap Uuid MemberDevice)
| QInsertPair (pair : NewPair) : sql bool
| QStoredPair (pair_id : Uuid) : sql StoredPair
| QListPairs (device_id : Uuid) (include_revoked : bool) : sql (list PairListing)
| QRevoke (statement : RevokeStatement) : sql (option Uuid)
| QMembers (pair_id : Uuid) : sql (option (Uuid * Uuid))
| QActivePeers (device_id : Uuid) : sql (list (Uuid * Uuid))
| QRecentlyRevoked (device_id : Uuid) : sql (list RevokeStatement)
| QAddBatch (rows : list UsageRow) : sql unit
| QDeleteUsage : sql Z
| QDeleteInactive : sql Z.

(** ** Redis commands, scripts and [MULTI] blocks *)

Inductive redis : Type → Type :=
| RSetEx (k v : string) (ttl : Z) : redis unit
| RGetDel (k : string) : redis (option string)
| RIncrWindow (k : string) (ttl : Z) : redis Z
| RSetNx (k v : string) (ttl : Z) : redis bool
| RGet (k : string) : redis (option string)
| RDel (k : string) : redis unit
| RMGet (ks : list string) : redis (list (option string))
| RRegistration (keys : list (string * Z)) (ttl : Z) : redis Z
| RRefresh (k instance : string) (ttl : Z) : redis Z
| RRelease (k instance : string) : redis Z
| RJoin (k member : string) (ttl : Z) : redis (list string)
| RAddNotice (k member : string) (ttl : Z) : redis unit
| RTakeNotices (k : string) : redis (list string)
| RSMembers (k : string) : redis (list string).

(** ** The device's socket and HTTP *)

Inductive WsFrame : Type :=
| WText (text : string)
| WBinary (frame : bytes)
| WPing
| WPong (payload : bytes)
| WClose (code : Z).

(** A write bounded by [write_timeout]: done, the session is closed, or the
    time is over. *)
Inductive WriteResult : Type := Written | SessionClosed | TimedOut.

Record HttpRequest : Type := mkHttp {
  h_url : string;
  h_headers : list (string * string);
  h_body : string
}.

Inductive Provider : Type := ProvApns | ProvFcm.
#[export] Instance Provider_eq_dec : EqDecision Provider.
Proof. solve_decision. Defined.

(** ** Commands and programs *)

Inductive cmd : Type → Type :=
| CNow : cmd Z                                  (** wall clock, ms since the epoch *)
| CInstant : cmd Z                              (** monotonic clock, ns *)
| CRandom (n : nat) : cmd (option (arr n))
| CUuidV4 : cmd Uuid
| CSql {A} (q : sql A) : cmd (option A)         (** [None] is an error *)
| CRedis {A} (q : redis A) : cmd (option A)
| CPublish (channel : string) (payload : bytes) : cmd (option Z)
| CUsage {A} (f : Usage → A * Usage) : cmd A
| CHub {A} (f : HubState → A * HubState) : cmd A
| CSubscribed (device_id : Uuid) : cmd bool     (** the bus task's answer in time *)
| CWrite (conn_id : Uuid) (frame : WsFrame) : cmd WriteResult
| CHttp (req : HttpRequest) : cmd (option (Z * string))
| CTokenGet (p : Provider) : cmd (option (string * Z))
| CTokenPut (p : Provider) (token : string) (at_ : Z) : cmd unit
| CSleep (ms : Z) : cmd unit.

Inductive prog (A : Type) : Type :=
| Ret (a : A)
| Do {X} (c : cmd X) (k : X → prog A).
Arguments Ret {A} a.
Arguments Do {A X} c k.

Fixpoint pbind {A B} (p : prog A) (k : A → prog B) : prog B :=
  match p with
  | Ret a => k a
  | Do c f => Do c (λ x, pbind (f x) k)
  end.

Definition perform {X} (c : cmd X) : prog X := Do c Ret.

Notation "'let!' x ':=' p 'in' k" := (pbind p (λ x, k))
  (at level 10, x pattern, p at level 100, k at level 200).

(** [p?]: go on with the value, or return the error. *)
Definition pbind_ok {E A B} (p : prog (result E A)) (k : A → prog (result E B)) :
    prog (result E B) :=
  let! r := p in match r with Ok a => k a | Err e => Ret (Err e) end.

Notation "'let*' x ':=' p 'in' k" := (pbind_ok p (λ x, k))
  (at level 10, x pattern, p at level 100, k at level 200).

(** [.map_err(|e| ApiError::internal(_, e))] on what a service answered. *)
Definition or_internal {A} (p : prog (option A)) : prog (result ApiError A) :=
  let! o := p in Ret (ok_or o Internal).

(** A plain result as a program. *)
Definition pure {E A} (r : result E A) : prog (result E A) := Ret r.

(** [for x in l { f(x).await }] *)
Fixpoint for_each {A} (l : list A) (f : A → prog unit) : prog unit :=
  match l with
  | [] => Ret tt
  | a :: l' => let! _ := f a in for_each l' f
  end.

(** [for x in l { f(x).await? }] *)
Fixpoint try_each {E A} (l : list A) (f : A → prog (result E unit)) : prog (result E unit) :=
  match l with
  | [] => Ret (Ok tt)
  | a :: l' => let* _ := f a in try_each l' f
  end.

(** Milliseconds since the epoch as the relay reads them.
    [clock.rs:5-10 now_ms] *)
Definition now_ms : prog Z :=
  let! t := perform CNow in Ret (if t <? 0 then 0 else i64_wrap t).

(** ** The world and the environment *)

Section Exec.
Context {P : Postgres} {R : RedisServer}.

(** The shared memory of one instance. *)
Record Local : Type := mkLocal {
  lo_usage : Usage;
  lo_hub : HubState;
  lo_tokens : Provider → option (string * Z)
}.

(** The services, the memory of the instance that runs ([w_here]) and of the others
    ([w_parked]), and what left them.  The server clocks are milliseconds
    ([w_rnow]) and the server's unit ([w_pgnow]); [w_instant] is the monotonic clock
    in nanoseconds; [w_max_queued] is the hubs' [max_queued_bytes]. *)
Record World : Type := mkWorld {
  w_db : Db;
  w_pgnow : Z;
  w_redis : rstore;
  w_rnow : Z;
  w_instant : Z;
  w_usage : Usage;
  w_hub : HubState;
  w_tokens : Provider → option (string * Z);
  w_published : list (string * bytes);
  w_written : list (Uuid * WsFrame);
  w_http : list HttpRequest;
  w_max_queued : Z;
  w_here : nat;
  w_parked : nat → Local
}.

(** A request to a service may be lost before it is executed, or its reply
    may be. *)
Inductive Fault : Type := Fine | Lost | LostReply.

(** What the environment contributes to one command; [i_hub] is what the bus task and
    the instance's other tasks did to the hub since the last one. *)
Record Input : Type := mkInput {
  i_wall : Z;
  i_pg_elapsed : N;
  i_redis_elapsed : N;
  i_elapsed : N;
  i_hub : list HubOp;
  i_fault : Fault;
  i_random : option bytes;
  i_uuid : Uuid;
  i_receivers : N;
  i_subscribed : bool;
  i_write : WriteResult;
  i_http : option (Z * string)
}.

Definition exec_sql {A} (q : sql A) (now : Z) (db : Db) : option A * Db :=
  match q in sql A return option A * Db with
  | QUpsert d => upsert now d db
  | QFindKey d => (Some (find_key d db), db)
  | QTouchLastSeen d => (Some tt, touch_last_seen now d db)
  | QFindPlatform d => (Some (find_platform d db), db)
  | QSetPushToken d p t topic => set_push_token now d p t topic db
  | QClearPushToken d => (Some tt, clear_push_token d db)
  | QDeleteWithPeers d check => let '(r, db') := delete_with_peers d check db in (Some r, db')
  | QPushTarget p f t => (Some (push_target p f t db), db)
  | QMemberDevices a b => (Some (member_devices a b db), db)
  | QInsertPair np => insert_pair np db
  | QStoredPair p => (stored_pair p db, db)
  | QListPairs d incl => (Some (list_pairs d incl db), db)
  | QRevoke st => revoke st db
  | QMembers p => (Some (members p db), db)
  | QActivePeers d => (Some (active_peers d db), db)
  | QRecentlyRevoked d => (recently_revoked now d db, db)
  | QAddBatch rows => add_batch now rows db
  | QDeleteUsage => let '(n, db') := delete_usage now db in (Some n, db')
  | QDeleteInactive => let '(n, db') := delete_inactive now db in (Some n, db')
  end.

(** [u64] replies refuse a negative counter. *)
Definition as_u64 (o : option Z) : option Z := n ← o; if n <? 0 then None else Some n.

Definition exec_redis {A} (q : redis A) (t : Z) (s : rstore) : option A * rstore :=
  match q in redis A return option A * rstore with
  | RSetEx k v ttl => (Some tt, r_setex k v ttl t s)
  | RGetDel k => r_getdel k t s
  | RIncrWindow k ttl => let '(o, s') := r_incr k t s in (as_u64 o, r_expire k ttl t s')
  | RSetNx k v ttl => let '(b, s') := r_setnx k v ttl t s in (Some b, s')
  | RGet k => (r_get k t s, s)
  | RDel k => (Some tt, r_del k t s)
  | RMGet ks => (Some (r_mget ks t s), s)
  | RRegistration keys ttl => REGISTRATION_SCRIPT keys ttl t s
  | RRefresh k i ttl => REFRESH_SCRIPT k i ttl t s
  | RRelease k i => RELEASE_SCRIPT k i t s
  | RJoin k m ttl => JOIN_SCRIPT k m ttl t s
  | RAddNotice k m ttl =>
    let '(o, s') := r_sadd k m t s in ((λ _, tt) <$> o, r_expire k ttl t s')
  | RTakeNotices k => (r_smembers k t s, r_del k t s)
  | RSMembers k => (r_smembers k t s, s)
  end.

(** A request to a service under a fault. *)
Definition faulty {A S} (f : Fault) (request : S → option A * S) (s : S) : option A * S :=
  match f with
  | Fine => request s
  | Lost => (None, s)
  | LostReply => (None, (request s).2)
  end.

(** The clocks move on, and the hub with them, before the command takes effect. *)
Definition elapse (i : Input) (w : World) : World :=
  mkWorld (w_db w) (w_pgnow w + Z.of_N (i_pg_elapsed i)) (w_redis w)
    (w_rnow w + Z.of_N (i_redis_elapsed i)) (w_instant w + Z.of_N (i_elapsed i)) (w_usage w)
    (hub_run (w_max_queued w) (i_hub i) (w_hub w)) (w_tokens w) (w_published w) (w_written w)
    (w_http w) (w_max_queued w) (w_here w) (w_parked w).

Definition with_db (db : Db) (w : World) : World :=
  mkWorld db (w_pgnow w) (w_redis w) (w_rnow w) (w_instant w) (w_usage w) (w_hub w)
    (w_tokens w) (w_published w) (w_written w) (w_http w)
    (w_max_queued w) (w_here w) (w_parked w).
Definition with_redis (s : rstore) (w : World) : World :=
  mkWorld (w_db w) (w_pgnow w) s (w_rnow w) (w_instant w) (w_usage w) (w_hub w)
    (w_tokens w) (w_published w) (w_written w) (w_http w)
    (w_max_queued w) (w_here w) (w_parked w).
Definition with_usage (u : Usage) (w : World) : World :=
  mkWorld (w_db w) (w_pgnow w) (w_redis w) (w_rnow w) (w_instant w) u (w_hub w)
    (w_tokens w) (w_published w) (w_written w) (w_http w)
    (w_max_queued w) (w_here w) (w_parked w).
Definition with_hub (h : HubState) (w : World) : World :=
  mkWorld (w_db w) (w_pgnow w) (w_redis w) (w_rnow w) (w_instant w) (w_usage w) h
    (w_tokens w) (w_published w) (w_written w) (w_http w)
    (w_max_queued w) (w_here w) (w_parked w).
Definition with_token (p : Provider) (v : string * Z) (w : World) : World :=
  mkWorld (w_db w) (w_pgnow w) (w_redis w) (w_rnow w) (w_instant w) (w_usage w) (w_hub w)
    (λ p', if decide (p' = p) then Some v else w_tokens w p')
    (w_published w) (w_written w) (w_http w)
    (w_max_queued w) (w_here w) (w_parked w).
Definition with_published (ch : string) (m : bytes) (w : World) : World :=
  mkWorld (w_db w) (w_pgnow w) (w_redis w) (w_rnow w) (w_instant w) (w_usage w) (w_hub w)
    (w_tokens w) (w_published w ++ [(ch, m)]) (w_written w) (w_http w)
    (w_max_queued w) (w_here w) (w_parked w).
Definition with_written (c : Uuid) (f : WsFrame) (w : World) : World :=
  mkWorld (w_db w) (w_pgnow w) (w_redis w) (w_rnow w) (w_instant w) (w_usage w) (w_hub w)
    (w_tokens w) (w_published w) (w_written w ++ [(c, f)]) (w_http w)
    (w_max_queued w) (w_here w) (w_parked w).
Definition with_http (r : HttpRequest) (w : World) : World :=
  mkWorld (w_db w) (w_pgnow w) (w_redis w) (w_rnow w) (w_instant w) (w_usage w) (w_hub w)
    (w_tokens w) (w_published w) (w_written w) (w_http w ++ [r])
    (w_max_queued w) (w_here w) (w_parked w).

(** One command, after the clocks moved on. *)
Definition exec_now {X} (i : Input) (c : cmd X) (w : World) : X * World :=
  match c in cmd X return X * World with
  | CNow => (i_wall i, w)
  | CInstant => (w_instant w, w)
  | CRandom n => (b ← i_random i; arr_of n b, w)
  | CUuidV4 => (i_uuid i, w)
  | CSql q =>
    let '(a, db) := faulty (i_fault i) (exec_sql q (w_pgnow w)) (w_db w) in (a, with_db db w)
  | CRedis q =>
    let '(a, s) := faulty (i_fault i) (exec_redis q (w_rnow w)) (w_redis w) in
    (a, with_redis s w)
  | CPublish ch m =>
    faulty (i_fault i) (λ w, (Some (Z.of_N (i_receivers i)), with_published ch m w)) w
  | CUsage f => let '(a, u) := f (w_usage w) in (a, with_usage u w)
  | CHub f => let '(a, h) := f (w_hub w) in (a, with_hub h w)
  | CSubscribed _ => (i_subscribed i, w)
  | CWrite c f =>
    (i_write i, match i_write i with Written => with_written c f w | _ => w end)
  | CHttp r => (i_http i, with_http r w)
  | CTokenGet p => (w_tokens w p, w)
  | CTokenPut p v at_ => (tt, with_token p (v, at_) w)
  | CSleep ms => (tt, w)
  end.

Definition exec {X} (i : Input) (c : cmd X) (w : World) : X * World :=
  exec_now i c (elapse i w).

(** The memory of every instance, and the world as instance [m] sees it. *)
Definition memories (w : World) : nat → Local := λ n,
  if decide (n = w_here w) then mkLocal (w_usage w) (w_hub w) (w_tokens w) else w_parked w n.
Definition at_instance (m : nat) (w : World) : World :=
  let l := memories w m in
  mkWorld (w_db w) (w_pgnow w) (w_redis w) (w_rnow w) (w_instant w) (lo_usage l) (lo_hub l)
    (lo_tokens l) (w_published w) (w_written w) (w_http w) (w_max_queued w) m (memories w).

(** ** Executions *)

(** [runs p w a w']: from [w], some environment lets [p] return [a] in [w']. *)
Fixpoint runs {A} (p : prog A) (w : World) (a : A) (w' : World) : Prop :=
  match p with
  | Ret b => b = a ∧ w = w'
  | Do c k => ∃ i x w1, exec i c w = (x, w1) ∧ runs (k x) w1 a w'
  end.

(** The execution under the inputs [env 0], [env 1], ... *)
Fixpoint run {A} (p : prog A) (env : nat → Input) (w : World) : A * World :=
  match p with
  | Ret a => (a, w)
  | Do c k => let '(x, w1) := exec (env O) c w in run (k x) (λ n, env (S n)) w1
  end.

Lemma run_runs {A} (p : prog A) env w : runs p w (run p env w).1 (run p env w).2.
Proof.
  revert env w. induction p as [a|X c k IH]; intros env w; simpl; [done|].
  destruct (exec (env O) c w) as [x w1] eqn:E. eauto 6.
Qed.

Lemma runs_bind {A B} (p : prog A) (k : A → prog B) w b w' :
  runs (pbind p k) w b w' ↔ ∃ a w1, runs p w a w1 ∧ runs (k a) w1 b w'.
Proof.
  revert w. induction p as [a|X c f IH]; intros w; simpl.
  - split; [eauto|]. by intros (? & ? & [-> ->] & ?).
  - setoid_rewrite IH. split.
    + intros (i & x & w1 & ? & a & w2 & ? & ?). eauto 10.
    + intros (a & w1 & (i & x & w2 & ? & ?) & ?). eauto 10.
Qed.

Lemma runs_Ret {A} (a b : A) w w' : runs (Ret a) w b w' ↔ a = b ∧ w = w'.
Proof. done. Qed.

Lemma runs_perform {X} (c : cmd X) w x w' :
  runs (perform c) w x w' ↔ ∃ i, exec i c w = (x, w').
Proof. simpl. split; [intros (i & y & w1 & ? & -> & ->); eauto|intros [i ?]; eauto 8]. Qed.

Lemma runs_bind_ok {E A B} (p : prog (result E A)) (k : A → prog (result E B)) w r w' :
  runs (pbind_ok p k) w r w' ↔
    (∃ a w1, runs p w (Ok a) w1 ∧ runs (k a) w1 r w') ∨ (∃ e, runs p w (Err e) w' ∧ r = Err e).
Proof.
  unfold pbind_ok. rewrite runs_bind. split.
  - intros ([a|e] & w1 & H1 & H2); [eauto|].
    apply runs_Ret in H2 as [<- ->]. eauto.
  - intros [(a & w1 & ? & ?)|(e & ? & ->)]; [by exists (Ok a), w1|].
    exists (Err e), w'. by rewrite runs_Ret.
Qed.

(** The executions in an environment whose inputs satisfy [K]. *)
Fixpoint runs_in (K : Input → Prop) {A} (p : prog A) (w : World) (a : A) (w' : World) : Prop :=
  match p with
  | Ret b => b = a ∧ w = w'
  | Do c k => ∃ i x w1, K i ∧ exec i c w = (x, w1) ∧ runs_in K (k x) w1 a w'
  end.

Lemma runs_in_runs K {A} (p : prog A) w a w' : runs_in K p w a w' → runs p w a w'.
Proof.
  revert w. induction p as [b|X c k IH]; intros w; simpl; [done|].
  intros (i & x & w1 & _ & ? & ?). eauto 6.
Qed.

Lemma runs_runs_in {A} (p : prog A) w a w' : runs p w a w' → runs_in (λ _, True) p w a w'.
Proof.
  revert w. induction p as [b|X c k IH]; intros w; simpl; [done|].
  intros (i & x & w1 & ? & ?). eauto 8.
Qed.

Lemma run_runs_in (K : Input → Prop) {A} (p : prog A) env w :
  (∀ n, K (env n)) → runs_in K p w (run p env w).1 (run p env w).2.
Proof.
  revert env w. induction p as [a|X c k IH]; intros env w HK; simpl; [done|].
  destruct (exec (env O) c w) as [x w1] eqn:E. eexists _, _, _. split; [apply HK|].
  split; [exact E|]. by apply IH.
Qed.

Lemma runs_in_bind K {A B} (p : prog A) (k : A → prog B) w b w' :
  runs_in K (pbind p k) w b w' ↔ ∃ a w1, runs_in K p w a w1 ∧ runs_in K (k a) w1 b w'.
Proof.
  revert w. induction p as [a|X c f IH]; intros w; simpl.
  - split; [eauto|]. by intros (? & ? & [-> ->] & ?).
  - setoid_rewrite IH. split.
    + intros (i & x & w1 & ? & ? & a & w2 & ? & ?). eauto 10.
    + intros (a & w1 & (i & x & w2 & ? & ? & ?) & ?). eauto 12.
Qed.

Lemma runs_in_bind_ok K {E A B} (p : prog (result E A)) (k : A → prog (result E B)) w r w' :
  runs_in K (pbind_ok p k) w r w' ↔
    (∃ a w1, runs_in K p w (Ok a) w1 ∧ runs_in K (k a) w1 r w') ∨
    (∃ e, runs_in K p w (Err e) w' ∧ r = Err e).
Proof.
  unfold pbind_ok. rewrite runs_in_bind. split.
  - intros ([a|e] & w1 & H1 & H2); [eauto|]. destruct H2 as [<- ->]. eauto.
  - intros [(a & w1 & ? & ?)|(e & ? & ->)]; [by exists (Ok a), w1|].
    exists (Err e), w'. by split.
Qed.

Lemma runs_in_perform K {X} (c : cmd X) w x w' :
  runs_in K (perform c) w x w' ↔ ∃ i, K i ∧ exec i c w = (x, w').
Proof. simpl. split; [intros (i & y & w1 & ? & ? & -> & ->); eauto|intros (i & ? & ?); eauto 8]. Qed.

Lemma runs_in_mono (K K' : Input → Prop) {A} (p : prog A) w a w' :
  (∀ i, K i → K' i) → runs_in K p w a w' → runs_in K' p w a w'.
Proof.
  intros HK. revert w. induction p as [b|X c k IH]; intros w; simpl; [done|].
  intros (i & x & w1 & ? & ? & ?). exists i, x, w1. auto.
Qed.

(** No request and no reply is lost. *)
Definition no_fault (i : Input) : Prop := i_fault i = Fine.

(** The wall clock of an input as [now_ms] reads it, and the times the relay may read
    where the inputs satisfy [K]. *)
Definition wall_ms (i : Input) : Z := if i_wall i <? 0 then 0 else i64_wrap (i_wall i).
Definition seen (K : Input → Prop) (now : Z) : Prop := ∃ i, K i ∧ now = wall_ms i.

Lemma runs_in_now K w t w' :
  runs_in K now_ms w t w' → seen K t ∧ ∃ i, K i ∧ w' = elapse i w.
Proof.
  intros (t' & w1 & H & [<- <-])%runs_in_bind. apply runs_in_perform in H as (i & Hi & H).
  unfold exec in H. cbn [exec_now] in H. injection H as <- <-. split; by exists i.
Qed.

(** Some request or reply may be lost. *)
Definition lossy (K : Input → Prop) : Prop := ∃ i, K i ∧ ¬ no_fault i.

(** What others do to a hub where the inputs satisfy [K]. *)
Definition meanwhile (K : Input → Prop) (max : Z) : HubState → HubState → Prop :=
  rtc (λ h h', ∃ i, K i ∧ h' = hub_run max (i_hub i) h).

(** The inputs of an execution, one for each command. *)
Fixpoint runs_with {A} (p : prog A) (ins : list Input) (w : World) (a : A) (w' : World) : Prop :=
  match p with
  | Ret b => ins = [] ∧ b = a ∧ w = w'
  | Do c k => ∃ i ins' x w1, ins = i :: ins' ∧ exec i c w = (x, w1) ∧ runs_with (k x) ins' w1 a w'
  end.

Lemma runs_with_in {A} (p : prog A) ins w a w' :
  runs_with p ins w a w' → runs_in (λ i, i ∈ ins) p w a w'.
Proof.
  revert ins w. induction p as [b|X c k IH]; intros ins w; simpl; [by intros (_ & <- & <-)|].
  intros (i & ins' & x & w1 & -> & E & Hr). exists i, x, w1. split; [by left|]. split; [done|].
  eapply runs_in_mono; [|by apply IH]. intros j Hj. by right.
Qed.

Lemma runs_with_bind {A B} (p : prog A) (k : A → prog B) ins w b w' :
  runs_with (pbind p k) ins w b w' ↔
  ∃ ins1 ins2 a w1, ins = ins1 ++ ins2 ∧ runs_with p ins1 w a w1 ∧ runs_with (k a) ins2 w1 b w'.
Proof.
  revert ins w. induction p as [a|X c f IH]; intros ins w; simpl.
  - split; [|by intros (? & ins2 & ? & ? & -> & (-> & -> & ->) & H)].
    intros H. by exists [], ins, a, w.
  - setoid_rewrite IH. split.
    + intros (i & ins' & x & w1 & -> & E & ins1 & ins2 & a & w2 & -> & H1 & H2).
      exists (i :: ins1), ins2, a, w2. split; [done|]. split; [|done]. by exists i, ins1, x, w1.
    + intros (ins1 & ins2 & a & w2 & -> & (i & ins' & x & w1 & -> & E & H1) & H2).
      exists i, (ins' ++ ins2), x, w1. split_and!; [done|done|]. by exists ins', ins2, a, w2.
Qed.

(** The execution under exactly these inputs, if they are as many as its commands. *)
Fixpoint run_list {A} (p : prog A) (ins : list Input) (w : World) : option (A * World) :=
  match p, ins with
  | Ret a, [] => Some (a, w)
  | Do c k, i :: ins' => let '(x, w1) := exec i c w in run_list (k x) ins' w1
  | _, _ => None
  end.

Lemma run_list_runs {A} (p : prog A) ins w a w' :
  run_list p ins w = Some (a, w') → runs_with p ins w a w'.
Proof.
  revert ins w. induction p as [b|X c k IH]; intros [|i ins] w; cbn [run_list runs_with]; try done.
  - by intros [= -> ->].
  - destruct (exec i c w) as [x w1] eqn:E. intros H. exists i, ins, x, w1. auto.
Qed.

(** A service call that answered: its effect at the server's time. *)
Lemma exec_sql_Some {A} i (q : sql A) w a w' :
  exec i (CSql q) w = (Some a, w') →
  ∃ db, exec_sql q (w_pgnow w') (w_db w) = (Some a, db) ∧ w' = with_db db (elapse i w).
Proof.
  unfold exec. simpl. unfold faulty. destruct (i_fault i); try done.
  destruct (exec_sql q _ _) as [o db] eqn:E. intros [= -> <-]. by exists db.
Qed.

Lemma exec_redis_Some {A} i (q : redis A) w a w' :
  exec i (CRedis q) w = (Some a, w') →
  ∃ s, exec_redis q (w_rnow w') (w_redis w) = (Some a, s) ∧ w' = with_redis s (elapse i w).
Proof.
  unfold exec. simpl. unfold faulty. destruct (i_fault i); try done.
  destruct (exec_redis q _ _) as [o s] eqn:E. intros [= -> <-]. by exists s.
Qed.

(** ** What a program can do *)

(** Every command [p] can issue, whatever the answers, satisfies [Q]. *)
Fixpoint issues (Q : ∀ X, cmd X → Prop) {A} (p : prog A) : Prop :=
  match p with
  | Ret _ => True
  | @Do _ X c k => Q X c ∧ ∀ x, issues Q (k x)
  end.

Lemma issues_bind Q {A B} (p : prog A) (k : A → prog B) :
  issues Q p → (∀ a, issues Q (k a)) → issues Q (pbind p k).
Proof.
  intros Hp Hk. induction p as [a|X c f IH]; simpl in *; [done|]. destruct Hp. split; auto.
Qed.

Lemma issues_bind_ok Q {E A B} (p : prog (result E A)) (k : A → prog (result E B)) :
  issues Q p → (∀ a, issues Q (k a)) → issues Q (pbind_ok p k).
Proof. intros Hp Hk. apply issues_bind; [done|]. intros [a|e]; [apply Hk|done]. Qed.

Lemma issues_impl (Q Q' : ∀ X, cmd X → Prop) {A} (p : prog A) :
  (∀ X c, Q X c → Q' X c) → issues Q p → issues Q' p.
Proof. intros HQ. induction p as [a|X c f IH]; simpl; [done|]. intros []. split; auto. Qed.

Lemma issues_for_each Q {A} (l : list A) f :
  (∀ a, a ∈ l → issues Q (f a)) → issues Q (for_each l f).
Proof.
  induction l as [|a l IH]; simpl; [done|]. intros Hf. apply issues_bind.
  - apply Hf. set_solver.
  - intros _. apply IH. set_solver.
Qed.

Lemma issues_try_each Q {E A} (l : list A) (f : A → prog (result E unit)) :
  (∀ a, a ∈ l → issues Q (f a)) → issues Q (try_each l f).
Proof.
  induction l as [|a l IH]; simpl; [done|]. intros Hf. apply issues_bind_ok.
  - apply Hf. set_solver.
  - intros _. apply IH. set_solver.
Qed.

(** Every command of [p] satisfies [Q] and every result [G], whatever the
    replies are. *)
Fixpoint yields (Q : ∀ X, cmd X → Prop) {A} (G : A → Prop) (p : prog A) : Prop :=
  match p with
  | Ret a => G a
  | @Do _ X c k => Q X c ∧ ∀ x, yields Q G (k x)
  end.

Lemma yields_bind Q {A B} (G : A → Prop) (H : B → Prop) (p : prog A) (k : A → prog B) :
  yields Q G p → (∀ a, G a → yields Q H (k a)) → yields Q H (pbind p k).
Proof.
  intros Hp Hk. induction p as [a|X c f IH]; simpl in *; [by apply Hk|]. destruct Hp. split; auto.
Qed.

Lemma yields_issues Q {A} (G : A → Prop) (p : prog A) : yields Q G p → issues Q p.
Proof. induction p as [a|X c k IH]; simpl; [done|]. intros []. split; auto. Qed.

Lemma issues_yields Q {A} (p : prog A) : issues Q p → yields Q (λ _, True) p.
Proof. induction p as [a|X c k IH]; simpl; [done|]. intros []. split; auto. Qed.

(** After a program whose results do not matter. *)
Lemma yields_after Q {A B} (H : B → Prop) (p : prog A) (k : A → prog B) :
  issues Q p → (∀ a, yields Q H (k a)) → yields Q H (pbind p k).
Proof. intros Hp Hk. eapply yields_bind; [by apply issues_yields|]. auto. Qed.

(** An invariant of the world kept by the commands of a program is kept by its
    executions. *)
Lemma yields_runs (Q : ∀ X, cmd X → Prop) {A} (G : A → Prop) (p : prog A) w a w' :
  yields Q G p → runs p w a w' → G a.
Proof.
  revert w. induction p as [b|X c k IH]; intros w; simpl.
  - by intros Hb [<- _].
  - intros [_ Hk] (i & x & w1 & _ & Hr). by eapply IH.
Qed.

Lemma runs_invariant (I : World → Prop) (Q : ∀ X, cmd X → Prop) {A} (p : prog A) w a w' :
  (∀ X (c : cmd X) i w, Q X c → I w → I (exec i c w).2) →
  issues Q p → runs p w a w' → I w → I w'.
Proof.
  intros HI. revert w. induction p as [b|X c k IH]; intros w; simpl.
  - by intros _ [_ ->].
  - intros [Hc Hk] (i & x & w1 & E & Hr) Hw. eapply IH; [apply Hk|exact Hr|].
    pose proof (HI _ c i w Hc Hw) as H. by rewrite E in H.
Qed.

(** *** Concurrent handlers *)

(** One command of one of the concurrent programs, in the memory of some instance:
    which instance a program runs on is left open, so these executions include those
    where every program stays on its own. *)
Inductive pool_step {A} : World * list (prog A) → World * list (prog A) → Prop :=
| Pool_step w ps n m X (c : cmd X) k i x w1 :
    ps !! n = Some (Do c k) → exec i c (at_instance m w) = (x, w1) →
    pool_step (w, ps) (w1, <[n := k x]> ps).

(** The interleaving a schedule picks: which program, each on an instance of its own,
    runs its next command, under which input. *)
Fixpoint pool_run {A} (sched : list (nat * Input)) (s : World * list (prog A)) :
    World * list (prog A) :=
  match sched with
  | [] => s
  | (n, i) :: sched' =>
    match s.2 !! n with
    | Some (Do c k) =>
      let '(x, w1) := exec i c (at_instance n s.1) in pool_run sched' (w1, <[n := k x]> s.2)
    | _ => pool_run sched' s
    end
  end.

Lemma pool_run_steps {A} sched (s : World * list (prog A)) : rtc pool_step s (pool_run sched s).
Proof.
  revert s. induction sched as [|[n i] sched IH]; intros s; simpl; [done|].
  destruct (s.2 !! n) as [[a|X c k]|] eqn:E; [apply IH| |apply IH].
  destruct (exec i c (at_instance n s.1)) as [x w1] eqn:Ex. eapply rtc_l; [|apply IH].
  destruct s as [w ps]. by eapply Pool_step.
Qed.

(** An invariant kept by every command of the pool, seen with the answer, whichever
    instance runs it. *)
Lemma pool_invariant {A} (I : World → list (prog A) → Prop) :
  (∀ m w ps, I w ps → I (at_instance m w) ps) →
  (∀ w ps n X (c : cmd X) k i x w1, I w ps → ps !! n = Some (Do c k) →
     exec i c w = (x, w1) → I w1 (<[n := k x]> ps)) →
  ∀ s s', rtc pool_step s s' → I s.1 s.2 → I s'.1 s'.2.
Proof.
  intros Hm HI s s' H. induction H as [|s1 s2 s3 Hs _ IH]; [done|].
  intros H1. apply IH. destruct Hs as [w ps n m X c k i x w1 Hn He].
  exact (HI _ _ _ _ _ _ _ _ _ (Hm m _ _ H1) Hn He).
Qed.

Lemma runs_or_internal {A} (p : prog (option A)) w r w' :
  runs (or_internal p) w r w' ↔ ∃ o, runs p w o w' ∧ r = ok_or o Internal.
Proof.
  unfold or_internal. rewrite runs_bind. split.
  - intros (o & w1 & H1 & [<- ->]). eauto.
  - intros (o & H1 & ->). by exists o, w'.
Qed.

Lemma runs_sql_Ok {A} (q : sql A) w a w' :
  runs (or_internal (perform (CSql q))) w (Ok a) w' →
  ∃ i db, exec_sql q (w_pgnow w') (w_db w) = (Some a, db) ∧ w' = with_db db (elapse i w).
Proof.
  intros (o & H & Ho)%runs_or_internal. destruct o as [b|]; cbn [ok_or] in Ho; [injection Ho as <-|discriminate].
  apply (proj1 (runs_perform _ _ _ _)) in H as [i H]. apply exec_sql_Some in H. eauto.
Qed.

Lemma runs_redis_Ok {A} (q : redis A) w a w' :
  runs (or_internal (perform (CRedis q))) w (Ok a) w' →
  ∃ i s, exec_redis q (w_rnow w') (w_redis w) = (Some a, s) ∧ w' = with_redis s (elapse i w).
Proof.
  intros (o & H & Ho)%runs_or_internal. destruct o as [b|]; cbn [ok_or] in Ho; [injection Ho as <-|discriminate].
  apply (proj1 (runs_perform _ _ _ _)) in H as [i H]. apply exec_redis_Some in H. eauto.
Qed.

Lemma runs_internal_Err {A} (p : prog (option A)) w e w' :
  runs (or_internal p) w (Err e) w' → e = Internal.
Proof. intros (o & _ & Ho)%runs_or_internal. by destruct o; simplify_eq/=. Qed.

Lemma runs_now w t w' : runs now_ms w t w' → ∃ i, w' = elapse i w.
Proof.
  intros (t' & w1 & H & Hr)%runs_bind. apply (proj1 (runs_perform _ _ _ _)) in H as [i H].
  apply runs_Ret in Hr as [_ <-]. unfold exec in H. simpl in H. simplify_eq. eauto.
Qed.
End Exec.

(** The commands of a program, one bind, loop or branch at a time; the lemmas on
    its parts come from the hint database [relay]. *)
Ltac issues_step :=
  first
    [ done
    | solve [auto 2 with relay nocore]
    | apply issues_bind_ok; [|intros ?]
    | apply issues_bind; [|intros ?]
    | apply issues_for_each; intros ? _
    | apply issues_try_each; intros ? _
    | match goal with |- issues _ (match ?x with _ => _ end) => destruct x end
    | match goal with |- issues _ (Do _ _) => split; [|intros ?] end ].
Ltac issues_auto := repeat issues_step.

(** Step through an execution whose result is known. *)
Ltac runs_step :=
  match goal with
  | H : runs (pbind_ok _ _) _ (Ok _) _ |- _ =>
    let a := fresh "a" in let w := fresh "w" in let H1 := fresh "Hr" in let H2 := fresh "Hr" in
    let e := fresh "e" in
    apply runs_bind_ok in H as [(a & w & H1 & H2)|(e & H1 & H2)]; [|discriminate H2]
  | H : runs (pbind _ _) _ _ _ |- _ =>
    let a := fresh "a" in let w := fresh "w" in let H1 := fresh "Hr" in let H2 := fresh "Hr" in
    apply runs_bind in H as (a & w & H1 & H2)
  | H : runs (pure _) _ _ _ |- _ =>
    let H1 := fresh "Hv" in let H2 := fresh "Hw" in apply runs_Ret in H as [H1 H2]; subst
  | H : runs (Ret _) _ _ _ |- _ =>
    let H1 := fresh "Hv" in let H2 := fresh "Hw" in apply runs_Ret in H as [H1 H2]; subst
  end.
Ltac runs_inv := repeat (runs_step; simplify_eq).

(** ** A concrete environment *)

Module DemoIO.
Export DemoPg DemoRedis.

Definition calm : Input :=
  {| i_wall := 0; i_pg_elapsed := 0; i_redis_elapsed := 0; i_elapsed := 0; i_hub := []; i_fault := Fine;
     i_random := None; i_uuid := arr_zero 16; i_receivers := 1; i_subscribed := true;
     i_write := Written; i_http := None |}.

(** A calm environment at a wall time, with random bytes. *)
Definition calm_at (t : Z) (random : bytes) : Input :=
  {| i_wall := t; i_pg_elapsed := 0; i_redis_elapsed := 0; i_elapsed := 0; i_hub := []; i_fault := Fine;
     i_random := Some random; i_uuid := arr_zero 16; i_receivers := 1; i_subscribed := true;
     i_write := Written; i_http := None |}.

Definition world0 : World :=
  {| w_db := empty_db; w_pgnow := 0; w_redis := (∅ : rstore); w_rnow := 0; w_instant := 0;
     w_usage := ∅; w_hub := empty_hub; w_tokens := λ _, None; w_published := [];
     w_written := []; w_http := []; w_max_queued := 1048576; w_here := O;
     w_parked := λ _, mkLocal ∅ empty_hub (λ _, None) |}.
End DemoIO.
