(* ===== verification/Pool.v ===== *)
(** * Pool: what concurrent handlers can and cannot do together

    Frames (a Redis command leaves the keys it does not name alone, at every
    later time) and tickets: when each of many interleaved programs must pass a
    gate to succeed, a bound on how often the gate opens bounds the successes. *)

From stdpp Require Import relations.
From S2P Require Import Prelude Text Errors Externals Redis Scripts Tables Hub Usage IO.

Local Open Scope Z_scope.

(** ** Frames *)

(** The keys a command may write. *)
Definition redis_writes {A} (q : redis A) : list string :=
  match q with
  | RSetEx k _ _ | RGetDel k | RIncrWindow k _ | RSetNx k _ _ | RDel k | RRefresh k _ _
  | RRelease k _ | RJoin k _ _ | RAddNotice k _ _ | RTakeNotices k => [k]
  | RRegistration keys _ => keys.*1
  | RGet _ | RMGet _ | RSMembers _ => []
  end.

(** Its time to live is positive (Redis refuses any other). *)
Definition redis_ttl_ok {A} (q : redis A) : Prop :=
  match q with
  | RSetEx _ _ ttl | RIncrWindow _ ttl | RSetNx _ _ ttl | RRegistration _ ttl | RRefresh _ _ ttl
  | RJoin _ _ ttl | RAddNotice _ _ ttl => 0 < ttl
  | _ => True
  end.

Section Frames.
Context {P : Postgres} {R : RedisServer} {RL : RedisLaws}.

Lemma frame_incr k t s k' t' :
  t <= t' → k' ≠ k → r_val (r_incr k t s).2 t' k' = r_val s t' k'.
Proof.
  intros Ht Hk. unfold r_incr. destruct (counter_of (r_val s t k)); [|done].
  case_bool_decide; [|done]. by apply r_val_other_write.
Qed.

Lemma frame_sadd k m t s k' t' :
  t <= t' → k' ≠ k → r_val (r_sadd k m t s).2 t' k' = r_val s t' k'.
Proof.
  intros Ht Hk. unfold r_sadd. destruct (set_of (r_val s t k)); [|done].
  case_bool_decide; [done|]. by apply r_val_other_write.
Qed.

Lemma frame_setex k v ttl t s k' t' :
  0 < ttl → t <= t' → k' ≠ k → r_val (r_setex k v ttl t s) t' k' = r_val s t' k'.
Proof. intros. by rewrite r_val_setex, bool_decide_false. Qed.

Lemma frame_del k t s k' t' :
  t <= t' → k' ≠ k → r_val (r_del k t s) t' k' = r_val s t' k'.
Proof. intros. by rewrite r_val_del, bool_decide_false. Qed.

Lemma frame_srem k m t s k' t' :
  t <= t' → k' ≠ k → r_val (r_srem k m t s).2 t' k' = r_val s t' k'.
Proof.
  intros Ht Hk. unfold r_srem. destruct (set_of (r_val s t k)); [|done].
  case_bool_decide; [|done]. cbn [snd].
  case_bool_decide; [by apply frame_del|by apply r_val_other_write].
Qed.

Lemma frame_incr_all keys ttl t s k' t' :
  0 < ttl → t <= t' → k' ∉ keys.*1 → r_val (incr_all keys ttl t s).2 t' k' = r_val s t' k'.
Proof.
  intros Httl Ht. revert s. induction keys as [|[k l] keys IH]; intros s Hk; [done|].
  rewrite fmap_cons in Hk. apply not_elem_of_cons in Hk as [Hk Hks]. simpl.
  pose proof (frame_incr k t s k' t' Ht Hk) as Hf.
  destruct (r_incr k t s) as [[n|] s1]; cbn [snd] in Hf; [|done].
  rewrite IH, r_val_other_expire by done. done.
Qed.

Lemma frame_join k m ttl t s k' t' :
  0 < ttl → t <= t' → k' ≠ k → r_val (JOIN_SCRIPT k m ttl t s).2 t' k' = r_val s t' k'.
Proof.
  intros Httl Ht Hk. unfold JOIN_SCRIPT, join_reply.
  pose proof (frame_sadd k m t s k' t' Ht Hk) as Hf.
  destruct (r_sadd k m t s) as [[a|] s1]; cbn [snd] in Hf; [|done].
  destruct (r_scard k t s1); [|done].
  destruct (_ >? 2); cbn [snd].
  - destruct (a =? 1); [|done]. by rewrite frame_srem.
  - destruct (r_ttl k t s1 <? 0); [|done]. by rewrite r_val_other_expire.
Qed.

Lemma exec_redis_frame {A} (q : redis A) t s k t' :
  redis_ttl_ok q → t <= t' → k ∉ redis_writes q →
  r_val (exec_redis q t s).2 t' k = r_val s t' k.
Proof.
  intros Hq Ht. destruct q; cbn [redis_writes redis_ttl_ok] in *; intros Hk;
    rewrite ?list_elem_of_singleton in Hk; cbn [exec_redis snd]; try done.
  - by apply frame_setex.
  - unfold r_getdel. destruct (r_get k0 t s) as [[v|]|]; cbn [snd]; try done. by apply frame_del.
  - pose proof (frame_incr k0 t s k t' Ht Hk) as Hf.
    destruct (r_incr k0 t s) as [o s1]; cbn [snd] in *. by rewrite r_val_other_expire.
  - unfold r_setnx. destruct (r_val s t k0); cbn [snd]; try done. by apply frame_setex.
  - by apply frame_del.
  - unfold REGISTRATION_SCRIPT. destruct (any_used_up keys t s) as [[]|]; try done.
    pose proof (frame_incr_all keys ttl t s k t' Hq Ht Hk) as Hf.
    destruct (incr_all keys ttl t s) as [[[]|] s1]; exact Hf.
  - unfold REFRESH_SCRIPT. destruct (r_get k0 t s); [|done].
    destruct (_ || _); [by apply frame_setex|done].
  - unfold RELEASE_SCRIPT. destruct (r_get k0 t s); [|done].
    case_bool_decide; [by apply frame_del|done].
  - by apply frame_join.
  - pose proof (frame_sadd k0 member t s k t' Ht Hk) as Hf.
    destruct (r_sadd k0 member t s) as [o s1]; cbn [snd] in *. by rewrite r_val_other_expire.
  - by apply frame_del.
Qed.

Lemma r_getdel_Some k t s v s' :
  r_getdel k t s = (Some (Some v), s') → r_val s t k = Some (RStr v) ∧ s' = r_del k t s.
Proof.
  unfold r_getdel, r_get. destruct (r_val s t k) as [[v'|]|]; intros; by simplify_eq.
Qed.

Lemma r_val_del_same k t t' s : t <= t' → r_val (r_del k t s) t' k = None.
Proof. intros. by rewrite r_val_del, bool_decide_true. Qed.

(** A command that writes no [k]. *)
Definition leaves (k : string) (X : Type) (c : cmd X) : Prop :=
  match c with
  | CRedis q => redis_ttl_ok q ∧ k ∉ redis_writes q
  | _ => True
  end.

Lemma exec_rnow {X} i (c : cmd X) w :
  w_rnow (exec i c w).2 = w_rnow w + Z.of_N (i_redis_elapsed i).
Proof.
  unfold exec. destruct c; simpl; try done; unfold faulty;
    repeat (case_match; simplify_eq; try done).
Qed.

Lemma exec_other_redis {X} i (c : cmd X) w :
  match c with CRedis _ => False | _ => True end → w_redis (exec i c w).2 = w_redis w.
Proof.
  intros Hc. unfold exec. destruct c; simpl in *; try done; unfold faulty;
    repeat (case_match; simplify_eq; try done).
Qed.

(** A Redis command with what its fault lets through. *)
Lemma exec_redis_cases {A} i (q : redis A) w :
  let now := w_rnow w + Z.of_N (i_redis_elapsed i) in
  let '(x, w') := exec i (CRedis q) w in
  (x = None ∧ w_redis w' = w_redis w) ∨
  (w_redis w' = (exec_redis q now (w_redis w)).2 ∧
   (x = None ∨ x = (exec_redis q now (w_redis w)).1)).
Proof.
  unfold exec. simpl. unfold faulty. destruct (i_fault i); simpl; [|by left|right; by split; [|left]].
  destruct (exec_redis q _ _); right; simpl. split; [done|by right].
Qed.

Lemma leaves_frame k {X} i (c : cmd X) w t :
  leaves k X c → w_rnow (exec i c w).2 <= t →
  r_val (w_redis (exec i c w).2) t k = r_val (w_redis w) t k.
Proof.
  intros Hl. rewrite exec_rnow. intros Ht. destruct c; try by rewrite exec_other_redis.
  destruct Hl as [Httl Hk]. pose proof (exec_redis_cases i q w) as H. cbv zeta in H.
  destruct (exec i (CRedis q) w) as [x w']. cbn [snd].
  destruct H as [[_ ->]|[-> _]]; [done|]. by apply exec_redis_frame.
Qed.
End Frames.

(** *** Runs that leave a key, or the database, alone *)

Definition no_sql (X : Type) (c : cmd X) : Prop := match c with CSql _ => False | _ => True end.

Section RunFrames.
Context {P : Postgres} {R : RedisServer}.

Lemma exec_no_sql {X} i (c : cmd X) w : no_sql X c → w_db (exec i c w).2 = w_db w.
Proof.
  intros Hc. unfold exec. destruct c; simpl in *; try done; unfold faulty;
    repeat (case_match; simplify_eq; try done).
Qed.

Lemma runs_no_sql {A} (p : prog A) w a w' : issues no_sql p → runs p w a w' → w_db w' = w_db w.
Proof.
  intros Hp Hr. eapply (runs_invariant (λ w1, w_db w1 = w_db w)); [|done|exact Hr|done].
  intros X c i w1 Hc Hw1. by rewrite exec_no_sql.
Qed.

(** A command under no fault executes, and answers, as Redis does. *)
Lemma runs_in_redis {A} (q : redis A) w o w' :
  runs_in no_fault (perform (CRedis q)) w o w' →
  ∃ i s, exec_redis q (w_rnow w') (w_redis w) = (o, s) ∧ w' = with_redis s (elapse i w).
Proof.
  intros (i & HK & H)%runs_in_perform. unfold exec in H. cbn [exec_now elapse w_redis w_rnow] in H.
  unfold faulty in H. rewrite HK in H.
  destruct (exec_redis q _ _) as [o' s] eqn:E. injection H as <- <-. by exists i, s.
Qed.

Lemma runs_rnow {A} (p : prog A) w a w' : runs p w a w' → w_rnow w <= w_rnow w'.
Proof.
  intros Hr. eapply (runs_invariant (λ w1, w_rnow w <= w_rnow w1) (λ _ _, True)); [| |exact Hr|lia].
  - intros X c i w1 _ H. pose proof (exec_rnow i c w1). lia.
  - clear. induction p; simpl; [done|]. by split.
Qed.

(** A command that does not reach Redis. *)
Definition no_redis (X : Type) (c : cmd X) : Prop := match c with CRedis _ => False | _ => True end.

Lemma runs_no_redis {A} (p : prog A) w a w' : issues no_redis p → runs p w a w' → w_redis w' = w_redis w.
Proof.
  intros Hp Hr. eapply (runs_invariant (λ w1, w_redis w1 = w_redis w)); [|done|exact Hr|done].
  intros X c i w1 Hc <-. apply exec_other_redis. by destruct c.
Qed.

(** A command that publishes nothing. *)
Definition no_publish (X : Type) (c : cmd X) : Prop :=
  match c with CPublish _ _ => False | _ => True end.

Lemma runs_no_publish {A} (p : prog A) w a w' :
  issues no_publish p → runs p w a w' → w_published w' = w_published w.
Proof.
  intros Hp Hr.
  eapply (runs_invariant (λ w1, w_published w1 = w_published w)); [|done|exact Hr|done].
  intros X c i w1 Hc <-. unfold exec. destruct c; simpl in *; try done; unfold faulty;
    repeat (case_match; simplify_eq; try done).
Qed.

(** *** The hub, under the other tasks *)

(** A command that does not work on the hub. *)
Definition no_hub (X : Type) (c : cmd X) : Prop := match c with CHub _ => False | _ => True end.

Lemma exec_hub {X} i (c : cmd X) w :
  no_hub X c → w_hub (exec i c w).2 = w_hub (elapse i w) ∧
               w_max_queued (exec i c w).2 = w_max_queued w.
Proof.
  intros Hc. unfold exec. destruct c; cbn [exec_now no_hub] in *; try done; unfold faulty;
    repeat case_match; by simplify_eq/=.
Qed.

(** Meanwhile only the others change the hub. *)
Lemma runs_in_meanwhile K {A} (p : prog A) w a w' :
  issues no_hub p → runs_in K p w a w' →
  meanwhile K (w_max_queued w) (w_hub w) (w_hub w') ∧ w_max_queued w' = w_max_queued w.
Proof.
  revert w. induction p as [b|X c k IH]; intros w; cbn [issues runs_in].
  - intros _ [_ <-]. split; [apply rtc_refl|done].
  - intros [Hc Hk] (i & x & w1 & Hi & E & Hr). pose proof (exec_hub i c w Hc) as [Hh Hm].
    rewrite E in Hh, Hm. cbn [snd] in *. apply IH in Hr as [Hr Hm']; [|done].
    rewrite Hm in *. split; [|done]. eapply rtc_l; [|exact Hr]. exists i. by rewrite Hh.
Qed.

Lemma runs_in_hub K {A} (f : HubState → A * HubState) w a w' :
  runs_in K (perform (CHub f)) w a w' →
  ∃ i, K i ∧ a = (f (w_hub (elapse i w))).1 ∧
    w' = with_hub (f (w_hub (elapse i w))).2 (elapse i w) ∧
    meanwhile K (w_max_queued w) (w_hub w) (w_hub (elapse i w)).
Proof.
  intros (i & Hi & H)%runs_in_perform. unfold exec in H. cbn [exec_now] in H.
  exists i. destruct (f (w_hub (elapse i w))) as [x h]. injection H as <- <-.
  split_and!; [done..|]. apply rtc_once. by exists i.
Qed.

Lemma exec_pgnow {X} i (c : cmd X) w :
  w_pgnow (exec i c w).2 = w_pgnow w + Z.of_N (i_pg_elapsed i).
Proof.
  unfold exec. destruct c; simpl; try done; unfold faulty;
    repeat (case_match; simplify_eq; try done).
Qed.

Lemma runs_pgnow {A} (p : prog A) w a w' : runs p w a w' → w_pgnow w <= w_pgnow w'.
Proof.
  intros Hr. eapply (runs_invariant (λ w1, w_pgnow w <= w_pgnow w1) (λ _ _, True)); [| |exact Hr|lia].
  - intros X c i w1 _ H. pose proof (exec_pgnow i c w1). lia.
  - clear. induction p; simpl; [done|]. by split.
Qed.

(** A request that is not answered was lost. *)
Lemma exec_sql_None {A} (K : Input → Prop) i (q : sql A) w w' :
  K i → (∀ now db, is_Some (exec_sql q now db).1) → exec i (CSql q) w = (None, w') → lossy K.
Proof.
  intros HK Hq H. exists i. split; [done|]. unfold no_fault. intros Hf.
  unfold exec in H. cbn [exec_now elapse w_db w_pgnow] in H. unfold faulty in H. rewrite Hf in H.
  specialize (Hq (w_pgnow w + Z.of_N (i_pg_elapsed i)) (w_db w)).
  destruct (exec_sql q _ _) as [o db]. injection H as -> _. by destruct Hq.
Qed.

(** A query that always answers, and changes nothing, failed: it was lost. *)
Lemma runs_in_lost {A} K (q : sql A) w e w' :
  (∀ now db, is_Some (exec_sql q now db).1 ∧ (exec_sql q now db).2 = db) →
  runs_in K (or_internal (perform (CSql q))) w (Err e) w' →
  e = Internal ∧ w_db w' = w_db w ∧ lossy K.
Proof.
  intros Hq Hr. apply runs_in_bind in Hr as (o & w1 & H & [Ho <-]). destruct o as [o|]; [done|].
  injection Ho as <-. apply runs_in_perform in H as (i & Hi & H). split; [done|]. split.
  - unfold exec in H. cbn [exec_now elapse w_db w_pgnow] in H. unfold faulty in H.
    destruct (Hq (w_pgnow w + Z.of_N (i_pg_elapsed i)) (w_db w)) as [_ Hd].
    destruct (i_fault i); [destruct (exec_sql q _ _) as [o' db]; injection H as _ <-; exact Hd| |];
      injection H as <-; [done|exact Hd].
  - eapply exec_sql_None; [exact Hi| |exact H]. intros. apply Hq.
Qed.

Context {RL : RedisLaws}.

Lemma runs_leaves k {A} (p : prog A) w a w' :
  issues (leaves k) p → runs p w a w' →
  w_rnow w <= w_rnow w' ∧
  ∀ t, w_rnow w' <= t → r_val (w_redis w') t k = r_val (w_redis w) t k.
Proof.
  intros Hp Hr. eapply (runs_invariant (λ w1, w_rnow w <= w_rnow w1 ∧
    ∀ t, w_rnow w1 <= t → r_val (w_redis w1) t k = r_val (w_redis w) t k)); [|done|exact Hr|done].
  intros X c i w1 Hc [Ht Hv]. pose proof (exec_rnow i c w1) as Hn. split; [lia|].
  intros t Ht'. rewrite leaves_frame by done. apply Hv. lia.
Qed.
End RunFrames.

(** ** Counting commands *)

(** No path through [p] issues more than [n] commands that [G] selects. *)
Fixpoint at_most (G : ∀ X, cmd X → bool) {A} (n : nat) (p : prog A) : Prop :=
  match p with
  | Ret _ => True
  | @Do _ X c k =>
    if G X c then match n with O => False | S n' => ∀ x, at_most G n' (k x) end
    else ∀ x, at_most G n (k x)
  end.

Lemma at_most_le G {A} n m (p : prog A) : (n <= m)%nat → at_most G n p → at_most G m p.
Proof.
  revert n m. induction p as [a|X c k IH]; intros n m Hnm; simpl; [done|].
  destruct (G X c); [|intros H x; by eapply IH].
  destruct n as [|n]; [done|]. destruct m as [|m]; [lia|]. intros H x. eapply IH; [|done]. lia.
Qed.

Lemma at_most_bind G {A B} n m (p : prog A) (k : A → prog B) :
  at_most G n p → (∀ a, at_most G m (k a)) → at_most G (n + m) (pbind p k).
Proof.
  revert n. induction p as [a|X c f IH]; intros n Hp Hk; simpl in *.
  - eapply at_most_le; [|apply Hk]. lia.
  - destruct (G X c); [|by eauto]. destruct n as [|n]; [done|]. simpl. eauto.
Qed.

Lemma at_most_bind_ok G {E A B} n m (p : prog (result E A)) (k : A → prog (result E B)) :
  at_most G n p → (∀ a, at_most G m (k a)) → at_most G (n + m) (pbind_ok p k).
Proof. intros Hp Hk. apply at_most_bind; [done|]. intros [a|e]; [apply Hk|done]. Qed.

(** ** Tickets *)

Section Tickets.
Context {P : Postgres} {R : RedisServer}.
Context {A : Type} (ok : A → Prop) (G : ∀ X, cmd X → X → Prop).

(** A program that cannot end in [ok] without [G] happening. *)
Fixpoint needs (p : prog A) : Prop :=
  match p with
  | Ret a => ¬ ok a
  | @Do _ X c k => ∀ x, G X c x ∨ needs (k x)
  end.

Lemma needs_bind {B} (p : prog B) (k : B → prog A) :
  (∀ b, needs (k b)) → needs (pbind p k).
Proof.
  intros Hk. induction p as [b|X c f IH]; simpl; [done|]. intros x. right. apply IH.
Qed.

Variable (J : World → nat → Prop) (Q : ∀ X, cmd X → Prop).
Hypothesis J_instance : ∀ m w n, J w n → J (at_instance m w) n.
Hypothesis J_step : ∀ X (c : cmd X) i w n, Q X c → J w n →
  let '(x, w') := exec i c w in ∃ m, J w' m ∧ (n <= m)%nat ∧ (G X c x → (S n <= m)%nat).

(** The programs in [js] succeed only with a ticket. *)
Variable (js : list nat).

Definition ticketed (w : World) (ps : list (prog A)) : Prop :=
  Forall (issues Q) ps ∧
  ∃ n (past : gset nat), J w n ∧ (size past <= n)%nat ∧
    ∀ j p, ps !! j = Some p → j ∈ js → j ∉ past → needs p.

Lemma ticketed_instance m w ps : ticketed w ps → ticketed (at_instance m w) ps.
Proof. intros (Hq & n & past & HJ & H). split; [done|]. exists n, past. auto. Qed.

Lemma ticketed_step w ps n X (c : cmd X) k i x w1 :
  ticketed w ps → ps !! n = Some (Do c k) → exec i c w = (x, w1) →
  ticketed w1 (<[n := k x]> ps).
Proof.
  intros (Hq & t & past & HJ & Hsz & Hp) Hn He.
  pose proof (proj1 (Forall_lookup _ _) Hq _ _ Hn) as [Hqc Hqk].
  split; [by apply Forall_insert|].
  pose proof (J_step _ c i w t Hqc HJ) as Hs. rewrite He in Hs.
  destruct Hs as (m & HJ' & Hm & Hg).
  assert (∀ past', past ⊆ past' → (n ∈ js → n ∈ past' ∨ needs (k x)) →
    ∀ j p, <[n := k x]> ps !! j = Some p → j ∈ js → j ∉ past' → needs p) as Hkeep.
  { intros past' Hsub Hnew j p Hj Hjs Hout. destruct (decide (j = n)) as [->|Hne].
    - rewrite list_lookup_insert_eq in Hj by (by eapply lookup_lt_Some). simplify_eq. tauto.
    - rewrite list_lookup_insert_ne in Hj by done. eapply Hp; [exact Hj|done|set_solver]. }
  destruct (decide (n ∈ js)) as [Hjs|Hjs].
  2: { exists m, past. split_and!; [done|lia|]. by apply Hkeep. }
  destruct (decide (n ∈ past)) as [Hin|Hout].
  - exists m, past. split_and!; [done|lia|]. apply Hkeep; [done|by left].
  - pose proof (Hp _ _ Hn Hjs Hout x) as [HG|Hneed].
    + exists m, ({[n]} ∪ past). split_and!; [done| |].
      * rewrite size_union, size_singleton by set_solver. specialize (Hg HG). lia.
      * apply Hkeep; [set_solver|left; set_solver].
    + exists m, past. split_and!; [done|lia|]. apply Hkeep; [done|by right].
Qed.

(** The successes of a pool are at most the tickets handed out. *)
Lemma pool_tickets w ps w' ps' :
  rtc pool_step (w, ps) (w', ps') →
  Forall (issues Q) ps → (∀ j p, ps !! j = Some p → j ∈ js → needs p) → J w O →
  NoDup js → Forall (λ j, ∃ a, ps' !! j = Some (Ret a) ∧ ok a) js →
  ∃ n, J w' n ∧ (length js <= n)%nat.
Proof.
  intros Hr Hq Hn HJ Hnd Hjs.
  destruct (pool_invariant ticketed ticketed_instance (λ w ps n X c k i x w1, ticketed_step w ps n X c k i x w1)
              _ _ Hr) as (_ & n & past & HJ' & Hsz & Hp).
  { split; [done|]. exists O, ∅. split_and!; [done|by rewrite size_empty|].
    intros j p Hj Hjs' _. by eapply Hn. }
  exists n. split; [exact HJ'|]. etrans; [|exact Hsz].
  rewrite <-(size_list_to_set (C := gset nat) js) by done. apply subseteq_size.
  intros j Hj. apply elem_of_list_to_set in Hj. rewrite Forall_forall in Hjs.
  destruct (Hjs _ Hj) as (a & Ha & Hok). destruct (decide (j ∈ past)) as [|Hout]; [done|].
  by destruct (Hp _ _ Ha Hj Hout).
Qed.
End Tickets.

(** The successes of a fallible program. *)
Definition succeeds {E A} (r : result E A) : Prop := ∃ a, r = Ok a.

Lemma needs_bind_ok {E A B} G (p : prog (result E A)) (k : A → prog (result E B)) :
  (∀ a, needs succeeds G (k a)) → needs succeeds G (pbind_ok p k).
Proof.
  intros Hk. apply needs_bind. intros [a|e]; [apply Hk|]. intros [a [=]].
Qed.
