(* ===== verification/Net.v ===== *)
(** * Net: IP addresses of the Rust standard library ([std::net])

    [IpAddr] with its canonical form, the text it prints and the texts it
    parses from, written after the standard library's parser. *)

From Stdlib Require Import Strings.Byte Ascii.
From S2P Require Import Prelude Text.

Local Open Scope Z_scope.

Inductive IpAddr : Type :=
| V4 (octets : arr 4)
| V6 (octets : arr 16).

#[export] Instance IpAddr_eq_dec : EqDecision IpAddr.
Proof. solve_decision. Defined.

Definition v4_of (a b c d : Z) : arr 4 := arr_fill 4 (byte_of_Z <$> [a; b; c; d]).
Definition segments_bytes (l : list Z) : bytes := concat (be_bytes 2 <$> l).
Definition v6_of (segments : list Z) : arr 16 := arr_fill 16 (segments_bytes segments).
Definition segments (v6 : arr 16) : list Z :=
  (λ i, be_Z (slice (2 * i) 2 (arr_bytes v6))) <$> seq 0 8.

Definition mapped_prefix : bytes := replicate 10 x00 ++ [xff; xff].

(** [Ipv6Addr::to_ipv4_mapped] *)
Definition to_ipv4_mapped (v6 : arr 16) : option (arr 4) :=
  if bytes_eqb (take 12 (arr_bytes v6)) mapped_prefix
  then arr_of 4 (drop 12 (arr_bytes v6)) else None.

(** [IpAddr::to_canonical] *)
Definition to_canonical (ip : IpAddr) : IpAddr :=
  match ip with
  | V4 _ => ip
  | V6 v6 => match to_ipv4_mapped v6 with Some v4 => V4 v4 | None => ip end
  end.

(** [IpAddr::is_loopback] *)
Definition is_loopback (ip : IpAddr) : bool :=
  match ip with
  | V4 v4 => arr_get 0 v4 =? 127
  | V6 v6 => bool_decide (v6 = v6_of [0; 0; 0; 0; 0; 0; 0; 1])
  end.

Lemma to_canonical_idem ip : to_canonical (to_canonical ip) = to_canonical ip.
Proof. destruct ip as [v4|v6]; simpl; [done|]. destruct (to_ipv4_mapped v6) eqn:E; simpl; [done|].
  by rewrite E. Qed.

(** ** Printing *)

Definition dot : string := ".".
Fixpoint join_with (sep : string) (l : list string) : string :=
  match l with
  | [] => EmptyString
  | [s] => s
  | s :: l' => s +:+ sep +:+ join_with sep l'
  end.

Definition show_v4 (v4 : arr 4) : string :=
  join_with dot ((λ b, display_Z (byteZ b)) <$> arr_bytes v4).

(** [{:x}] of a 16-bit segment. *)
Definition hex_char (n : Z) : byte := byte_of_Z (if n <? 10 then 0x30 + n else 0x57 + n).
Definition show_hex (z : Z) : string :=
  str_of (hex_char <$>
    (if z <? 16 then [z] else if z <? 256 then [z / 16; z mod 16]
     else if z <? 4096 then [z / 256; z / 16 mod 16; z mod 16]
     else [z / 4096; z / 256 mod 16; z / 16 mod 16; z mod 16])).

(** The first longest run of zero segments: (start, length). *)
Fixpoint zero_span (i : nat) (cur best : nat * nat) (l : list Z) : nat * nat :=
  match l with
  | [] => best
  | z :: l' =>
    if z =? 0 then
      let cur := (if Nat.eqb cur.2 0 then i else cur.1, S cur.2) in
      zero_span (S i) cur (if Nat.ltb best.2 cur.2 then cur else best) l'
    else zero_span (S i) (0%nat, 0%nat) best l'
  end.

Definition show_segments (l : list Z) : string := join_with ":" (show_hex <$> l).

Definition show_v6 (v6 : arr 16) : string :=
  match to_ipv4_mapped v6 with
  | Some v4 => "::ffff:" +:+ show_v4 v4
  | None =>
    let segs := segments v6 in
    let '(start, len) := zero_span 0 (0%nat, 0%nat) (0%nat, 0%nat) segs in
    if Nat.ltb 1 len
    then show_segments (take start segs) +:+ "::" +:+ show_segments (drop (start + len) segs)
    else show_segments segs
  end.

(** ** Parsing *)

(** A parser consumes a prefix of the bytes. *)
Abbreviation parser A := (bytes → option (A * bytes)).

Definition given (c : byte) : parser unit := λ l,
  match l with b :: l' => if bool_decide (b = c) then Some (tt, l') else None | [] => None end.

Definition digit_value (radix : Z) (b : byte) : option Z :=
  let z := byteZ b in
  let d := if is_ascii_digit b then z - 0x30
           else if in_range 0x61 0x66 b then z - 0x57
           else if in_range 0x41 0x46 b then z - 0x37 else 99 in
  if d <? radix then Some d else None.

Fixpoint take_digits (radix : Z) (l : bytes) : list Z * bytes :=
  match l with
  | b :: l' =>
    match digit_value radix b with
    | Some d => let '(ds, r) := take_digits radix l' in (d :: ds, r)
    | None => ([], l)
    end
  | [] => ([], [])
  end.

(** [read_number]: at most [max_digits] digits, a value up to [max], and no
    leading zero unless allowed. *)
Definition read_number (radix : Z) (max_digits : nat) (zero_prefix : bool) (max : Z) : parser Z :=
  λ l,
  let '(ds, r) := take_digits radix l in
  let z := foldl (λ acc d, acc * radix + d) 0 ds in
  if Nat.eqb (length ds) 0 || Nat.ltb max_digits (length ds) || (max <? z)
     || (negb zero_prefix && Nat.ltb 1 (length ds) && bool_decide (head ds = Some 0))
  then None else Some (z, r).

(** [read_separator(sep, i, inner)]: the separator is read before all but the
    first. *)
Definition read_separator {A} (sep : byte) (first : bool) (p : parser A) : parser A := λ l,
  if first then p l else '(_, l) ← given sep l; p l.

Definition c_dot : byte := byte_of_Z 0x2E.
Definition c_colon : byte := byte_of_Z 0x3A.

Definition read_octet (first : bool) : parser Z :=
  read_separator c_dot first (read_number 10 3 false 255).

Definition read_v4 : parser (list Z) := λ l,
  '(a, l) ← read_octet true l; '(b, l) ← read_octet false l;
  '(c, l) ← read_octet false l; '(d, l) ← read_octet false l;
  Some ([a; b; c; d], l).

(** [read_groups]: up to [limit] groups, an embedded IPv4 address filling two;
    the groups and whether they end in an IPv4 address. *)
Fixpoint read_groups (limit : nat) (first : bool) (l : bytes) : list Z * bool * bytes :=
  match limit with
  | O => ([], false, l)
  | S limit' =>
    let v4 := if Nat.ltb 0 limit' then read_separator c_colon first read_v4 l else None in
    match v4 with
    | Some ([a; b; c; d], l') => ([a * 256 + b; c * 256 + d], true, l')
    | _ =>
      match read_separator c_colon first (read_number 16 4 true 0xFFFF) l with
      | Some (g, l') => let '(gs, v4, r) := read_groups limit' false l' in (g :: gs, v4, r)
      | None => ([], false, l)
      end
    end
  end.

Definition read_v6 : parser (list Z) := λ l,
  let '(h, head_v4, l) := read_groups 8 true l in
  if Nat.eqb (length h) 8 then Some (h, l)
  else if head_v4 then None
  else
    '(_, l) ← given c_colon l; '(_, l) ← given c_colon l;
    let '(t, _, l) := read_groups (7 - length h) true l in
    Some (h ++ replicate (8 - length h - length t) 0 ++ t, l).

Definition read_ip : parser IpAddr := λ l,
  match read_v4 l with
  | Some (o, l) => Some (V4 (arr_fill 4 (byte_of_Z <$> o)), l)
  | None => '(s, l) ← read_v6 l; Some (V6 (v6_of s), l)
  end.

Definition whole {A} (p : parser A) (l : bytes) : option A :=
  '(a, r) ← p l; if bool_decide (r = []) then Some a else None.

(** [s.parse::<IpAddr>()] *)
Definition parse_ip (s : string) : option IpAddr := whole read_ip (str_bytes s).

(** [SocketAddr]: [v4:port] or [[v6%scope]:port]. *)
Definition read_port : parser Z := λ l,
  '(_, l) ← given c_colon l; read_number 10 (length l) true 0xFFFF l.

Definition read_scope : parser unit := λ l,
  match given (byte_of_Z 0x25) l with
  | Some (_, r) => '(_, r) ← read_number 10 (length r) true 0xFFFFFFFF r; Some (tt, r)
  | None => Some (tt, l)
  end.

Definition read_socket : parser IpAddr := λ l,
  match ('(o, l) ← read_v4 l; '(_, l) ← read_port l;
         Some (V4 (arr_fill 4 (byte_of_Z <$> o)), l)) with
  | Some r => Some r
  | None =>
    '(_, l) ← given (byte_of_Z 0x5B) l; '(s, l) ← read_v6 l; '(_, l) ← read_scope l;
    '(_, l) ← given (byte_of_Z 0x5D) l; '(_, l) ← read_port l; Some (V6 (v6_of s), l)
  end.

(** The address of [s.parse::<SocketAddr>()]. *)
Definition parse_socket_ip (s : string) : option IpAddr := whole read_socket (str_bytes s).

(** Examples from the standard library's documentation. *)
Example parse_v4_example : parse_ip "192.168.0.10" = Some (V4 (v4_of 192 168 0 10)).
Proof. reflexivity. Qed.
Example parse_leading_zero : parse_ip "10.0.0.01" = None.
Proof. reflexivity. Qed.
Example parse_v6_example :
  parse_ip "2001:db8::1" = Some (V6 (v6_of [0x2001; 0xdb8; 0; 0; 0; 0; 0; 1])).
Proof. vm_compute. reflexivity. Qed.
Example parse_mapped_example :
  to_canonical <$> parse_ip "::ffff:10.0.0.7" = Some (V4 (v4_of 10 0 0 7)).
Proof. vm_compute. reflexivity. Qed.
Example show_v6_example :
  show_v6 (v6_of [0x2001; 0xdb8; 0; 0; 1; 0; 0; 0]) = "2001:db8:0:0:1::".
Proof. vm_compute. reflexivity. Qed.
Example parse_socket_example : parse_socket_ip "[::1]:8080" = Some (V6 (v6_of [0;0;0;0;0;0;0;1])).
Proof. vm_compute. reflexivity. Qed.
