(* ===== verification/Config.v ===== *)
(** * Config: the configuration read from the environment
    ([config.rs], [relay-push/src/config.rs])

    [env] is the process environment: the value of a variable that is set to
    Unicode text. *)

From Stdlib Require Import Ascii.
From S2P Require Import Prelude Text Externals Net.

Local Open Scope Z_scope.

Abbreviation Environment := (string → option string).

(** [Duration] in nanoseconds. *)
Definition secs (n : Z) : Z := n * 1000000000.

(** [s.parse::<u64>()] *)
Definition parse_u64 (s : string) : option Z :=
  z ← match s with
      | String "+" s' => parse_nonempty s'
      | _ => parse_nonempty s
      end;
  if z <? 2 ^ 64 then Some z else None.

(** ** Relay settings *)

(** [config.rs:51-78 RelaySettings] *)
Record RelaySettings : Type := mkSettings {
  instance_id : string;
  trusted_proxies : list IpAddr;
  registrations_per_ip_per_hour : Z;
  max_registrations_per_hour : Z;
  presence_refresh : Z;
  ping_interval : Z;
  idle_timeout : Z;
  pair_bandwidth_bytes_per_sec : Z;
  usage_flush_interval : Z;
  max_queued_bytes : Z;
  write_timeout : Z
}.

(** [config.rs:81-95 RelaySettings::default]; [id] is the fresh UUID's text. *)
Definition default_settings (id : string) : RelaySettings :=
  {| instance_id := id;
     trusted_proxies := [];
     registrations_per_ip_per_hour := 10;
     max_registrations_per_hour := 1000;
     presence_refresh := secs 20;
     ping_interval := secs 15;
     idle_timeout := secs 45;
     pair_bandwidth_bytes_per_sec := 2 * 1024 * 1024;
     usage_flush_interval := secs 60;
     max_queued_bytes := 32 * 1024 * 1024;
     write_timeout := secs 10 |}.

Definition with_instance (id : string) (s : RelaySettings) : RelaySettings :=
  mkSettings id (trusted_proxies s) (registrations_per_ip_per_hour s)
    (max_registrations_per_hour s) (presence_refresh s) (ping_interval s) (idle_timeout s)
    (pair_bandwidth_bytes_per_sec s) (usage_flush_interval s) (max_queued_bytes s)
    (write_timeout s).
Definition with_proxies (l : list IpAddr) (s : RelaySettings) : RelaySettings :=
  mkSettings (instance_id s) l (registrations_per_ip_per_hour s)
    (max_registrations_per_hour s) (presence_refresh s) (ping_interval s) (idle_timeout s)
    (pair_bandwidth_bytes_per_sec s) (usage_flush_interval s) (max_queued_bytes s)
    (write_timeout s).
Definition with_max_registrations (n : Z) (s : RelaySettings) : RelaySettings :=
  mkSettings (instance_id s) (trusted_proxies s) (registrations_per_ip_per_hour s) n
    (presence_refresh s) (ping_interval s) (idle_timeout s)
    (pair_bandwidth_bytes_per_sec s) (usage_flush_interval s) (max_queued_bytes s)
    (write_timeout s).

(** [config.rs:98-110 parse_ip_list] *)
Definition parse_ip_list (l : string) : result string (list IpAddr) :=
  rcollect (λ s, rmap to_canonical
                   (ok_or (parse_ip s) ("RELAY_TRUSTED_PROXIES: not an IP address: " +:+ s)))
    (filter (λ s, str_is_empty s = false) (trim <$> split_on (byte_of_Z 0x2C) l)).

(** [config.rs:112-121 is_loopback_bind] *)
Definition is_loopback_bind (bind : string) : bool :=
  match parse_socket_ip bind with
  | Some ip => is_loopback (to_canonical ip)
  | None =>
    match rsplit_once (byte_of_Z 0x3A) bind with
    | Some (host, _) => eq_ignore_ascii_case host "localhost"
    | None => false
    end
  end.

Definition LOCALHOST4 : IpAddr := V4 (v4_of 127 0 0 1).
Definition LOCALHOST6 : IpAddr := V6 (v6_of [0; 0; 0; 0; 0; 0; 0; 1]).

(** [config.rs:123-135 effective_trusted_proxies] *)
Definition effective_trusted_proxies (bind : string) (configured : list IpAddr) : list IpAddr :=
  if bool_decide (configured = []) && is_loopback_bind bind
  then [LOCALHOST4; LOCALHOST6] else configured.

(** [config.rs:137-149 proxy_warning] *)
Definition proxy_warning (bind : string) (trusted : list IpAddr) : option string :=
  if negb (bool_decide (trusted = [])) || is_loopback_bind bind then None
  else Some ("RELAY_TRUSTED_PROXIES is empty and the relay binds " +:+ bind +:+
    ": the per-IP limits count the TCP peer, which is the proxy's address when a reverse proxy is in front").

(** [config.rs:151-153 required] *)
Definition required (env : Environment) (name : string) : result string string :=
  ok_or (env name) ("missing environment variable " +:+ name).

(** ** Push providers *)

(** [relay-push/src/config.rs:19-29 ApnsConfig] *)
Record ApnsConfig : Type := mkApnsConfig {
  ac_key_path : string;
  ac_key_id : string;
  ac_team_id : string;
  ac_topic : string;
  ac_production_url : string;
  ac_sandbox_url : string
}.

(** [relay-push/src/config.rs:31-37 FcmConfig] *)
Record FcmConfig : Type := mkFcmConfig {
  fc_project_id : string;
  fc_service_account_path : string;
  fc_url : string
}.

(** [relay-push/src/config.rs:12-17 PushConfig] *)
Record PushConfig : Type := mkPushConfig { pc_apns : option ApnsConfig; pc_fcm : option FcmConfig }.

Definition APNS_PRODUCTION_URL : string := "https://api.push.apple.com".
Definition APNS_SANDBOX_URL : string := "https://api.sandbox.push.apple.com".
Definition FCM_URL : string := "https://fcm.googleapis.com".

(** A variable that is set to more than white space. *)
Definition nonblank (o : option string) : option string :=
  v ← o; if str_is_empty (trim v) then None else Some v.

(** [relay-push/src/config.rs:68-81 group] *)
Definition group (env : Environment) (names : list string) : result string (option (list string)) :=
  let values := (λ n, nonblank (env n)) <$> names in
  if forallb (λ v, bool_decide (v = None)) values then Ok None
  else if existsb (λ v, bool_decide (v = None)) values
  then Err ("set all of " +:+ Net.join_with ", " names +:+ " or none")
  else Ok (Some (omap id values)).

(** [relay-push/src/config.rs:83-90 optional] *)
Definition optional (env : Environment) (name dflt : string) : string :=
  trim_end_matches (byte_of_Z 0x2F) (default dflt (nonblank (env name))).

(** [v[i]] *)
Definition nth_string (l : list string) (i : nat) : string := default EmptyString (l !! i).

(** [relay-push/src/config.rs:40-65 PushConfig::from_env] *)
Definition push_from_env (env : Environment) : result string PushConfig :=
  let? apns := group env ["RELAY_APNS_KEY_PATH"; "RELAY_APNS_KEY_ID"; "RELAY_APNS_TEAM_ID";
                          "RELAY_APNS_TOPIC"] in
  let? fcm := group env ["RELAY_FCM_PROJECT_ID"; "RELAY_FCM_SERVICE_ACCOUNT_PATH"] in
  Ok (mkPushConfig
    ((λ v, mkApnsConfig (nth_string v 0) (nth_string v 1) (nth_string v 2) (nth_string v 3)
             (optional env "RELAY_APNS_URL" APNS_PRODUCTION_URL)
             (optional env "RELAY_APNS_SANDBOX_URL" APNS_SANDBOX_URL)) <$> apns)
    ((λ v, mkFcmConfig (nth_string v 0) (nth_string v 1)
             (optional env "RELAY_FCM_URL" FCM_URL)) <$> fcm)).

(** ** The whole configuration *)

(** [config.rs:10-18 Config] *)
Record Config : Type := mkConfig {
  c_database_url : string;
  c_redis_url : string;
  c_jwt_secret : bytes;
  c_bind : string;
  c_settings : RelaySettings;
  c_push : PushConfig
}.

(** [config.rs:21-48 Config::from_env]; [fresh] is the default instance id. *)
Definition from_env (env : Environment) (fresh : string) : result string Config :=
  let settings := default_settings fresh in
  let? settings :=
    match env "RELAY_INSTANCE_ID" with
    | Some id => if str_is_empty (trim id) then Err "RELAY_INSTANCE_ID is empty"
                 else Ok (with_instance (trim id) settings)
    | None => Ok settings
    end in
  let bind := default "127.0.0.1:8080" (env "RELAY_BIND") in
  let? configured :=
    match env "RELAY_TRUSTED_PROXIES" with
    | Some l => parse_ip_list l
    | None => Ok []
    end in
  let settings := with_proxies (effective_trusted_proxies bind configured) settings in
  let? settings :=
    match env "RELAY_MAX_REGISTRATIONS_PER_HOUR" with
    | Some cap =>
      let? n := ok_or (parse_u64 (trim cap))
                  ("RELAY_MAX_REGISTRATIONS_PER_HOUR: not a whole number: " +:+ cap) in
      Ok (with_max_registrations n settings)
    | None => Ok settings
    end in
  let? database_url := required env "DATABASE_URL" in
  let? redis_url := required env "REDIS_URL" in
  let? secret := required env "RELAY_JWT_SECRET" in
  let? push := push_from_env env in
  Ok (mkConfig database_url redis_url (str_bytes secret) bind settings push).

(** ** Properties *)

Lemma parse_ip_list_canonical l ips :
  parse_ip_list l = Ok ips → Forall (λ ip, to_canonical ip = ip) ips.
Proof.
  unfold parse_ip_list. rewrite rcollect_Ok. induction 1 as [|s ip ss ips' H _ IH]; [done|].
  constructor; [|done]. result_inv. apply to_canonical_idem.
Qed.

Lemma required_Ok env name v : required env name = Ok v ↔ env name = Some v.
Proof. unfold required. apply ok_or_Ok. Qed.

(** A push provider is configured only when every one of its required
    variables is set and not blank, is left out when none is, and any other
    combination refuses to start. *)
Theorem group_spec (env : Environment) (names : list string) :
  match group env names with
  | Ok (Some vs) => (λ n, nonblank (env n)) <$> names = Some <$> vs
  | Ok None => Forall (λ n, nonblank (env n) = None) names
  | Err _ => Exists (λ n, nonblank (env n) = None) names ∧
             Exists (λ n, nonblank (env n) ≠ None) names
  end.
Proof.
  unfold group.
  assert (∀ l : list (option string),
    forallb (λ v, bool_decide (v = None)) l = true ↔ Forall (λ v, v = None) l) as Hall.
  { intros l. rewrite forallb_forall, Forall_forall.
    setoid_rewrite bool_decide_eq_true. by setoid_rewrite list_elem_of_In. }
  assert (∀ l : list (option string),
    existsb (λ v, bool_decide (v = None)) l = true ↔ Exists (λ v, v = None) l) as Hex.
  { intros l. rewrite existsb_exists, Exists_exists.
    setoid_rewrite bool_decide_eq_true. by setoid_rewrite list_elem_of_In. }
  destruct (forallb _ _) eqn:E1.
  { apply Hall in E1. by rewrite Forall_fmap in E1. }
  destruct (existsb _ _) eqn:E2.
  - apply Hex in E2. rewrite Exists_fmap in E2. split; [exact E2|].
    apply not_true_iff_false in E1. rewrite Hall, Forall_fmap in E1.
    apply not_Forall_Exists in E1; [exact E1|]. intros n. simpl. apply _.
  - apply not_true_iff_false in E2. rewrite Hex in E2. clear -E2.
    induction names as [|n names IH]; simpl in *; [done|].
    destruct (nonblank (env n)); [|by destruct E2; left]. simpl. f_equal.
    apply IH. contradict E2. by right.
Qed.

(** A relay that starts trusts [X-Forwarded-For] only from configured
    proxies, stored in canonical form, or, when none is configured, from this
    host and only if it listens on a loopback address; its instance id is never
    blank unless the generated one is. *)
Theorem from_env_trust (env : Environment) (fresh : string) (c : Config) :
  from_env env fresh = Ok c →
  Forall (λ ip, to_canonical ip = ip) (trusted_proxies (c_settings c)) ∧
  (env "RELAY_TRUSTED_PROXIES" = None →
   trusted_proxies (c_settings c) =
     if is_loopback_bind (c_bind c) then [LOCALHOST4; LOCALHOST6] else []) ∧
  (instance_id (c_settings c) = fresh ∨
   ∃ id, env "RELAY_INSTANCE_ID" = Some id ∧ instance_id (c_settings c) = trim id ∧
         str_is_empty (trim id) = false).
Proof.
  intros H. unfold from_env in H. apply rbind_Ok in H as (s1 & H1 & H).
  apply rbind_Ok in H as (conf & H2 & H). apply rbind_Ok in H as (s2 & H3 & H).
  result_inv.
  assert (trusted_proxies s2 =
    effective_trusted_proxies (default "127.0.0.1:8080" (env "RELAY_BIND")) conf ∧
    instance_id s2 = instance_id s1) as [Ht Hi].
  { destruct (env "RELAY_MAX_REGISTRATIONS_PER_HOUR"); result_inv; done. }
  cbn [c_settings c_bind]. rewrite Ht, Hi. unfold effective_trusted_proxies. split_and!.
  - destruct (bool_decide _ && _); [by repeat constructor|].
    destruct (env "RELAY_TRUSTED_PROXIES"); result_inv; [|done].
    by eapply parse_ip_list_canonical.
  - intros E. rewrite E in H2. result_inv. by rewrite bool_decide_true.
  - destruct (env "RELAY_INSTANCE_ID") as [id|]; [|result_inv; by left].
    destruct (str_is_empty (trim id)) eqn:E; result_inv. right. eauto.
Qed.
