(* ===== verification/Invariants.v ===== *)
(** * Invariants: what every row of the database carries with it

    [db_ok]: device ids derive from the stored keys, pairs join two registered
    devices and hold an attestation both of them signed, and a revoked pair holds
    the statement its signer made.  Every query keeps it, as long as the handlers
    write only what [sql_ok] allows; every interleaving of such handlers keeps it
    too. *)

From stdpp Require Import relations sorting.
From S2P Require Import Prelude Text Errors Externals Signatures Attestation Revocation Tables.
From S2P Require Import Redis Scripts Usage Hub IO Pool.

Local Open Scope Z_scope.

Section Ok.
Context {C : Crypto} {P : Postgres}.

(** A stored key derives its device's id; platform and provider are known. *)
Definition device_ok (id : Uuid) (r : DeviceRow) : Prop :=
  (∃ ik, d_ik_sig_pub r = arr_bytes ik ∧ device_id_from_public_key ik = id) ∧
  d_platform r ∈ PLATFORMS_CHECK ∧
  match d_push_provider r with Some p => p ∈ PROVIDERS_CHECK | None => True end.

(** Both devices signed the attestation of this pair with keys their ids derive
    from. *)
Definition attested (pid a b : Uuid) (created_ms : Z) (attestation sig_a sig_b : bytes) : Prop :=
  ∃ ka kb sa sb,
    attestation = to_bytes (mkAttestation pid a b ka kb created_ms) ∧ i64_ok created_ms ∧
    sig_a = arr_bytes sa ∧ sig_b = arr_bytes sb ∧
    signed_by a ka attestation sa ∧ signed_by b kb attestation sb.

(** A revocation was signed by a member at the stored time. *)
Definition revoked_by_member (pid : Uuid) (p : PairRow) : Prop :=
  match p_revoked_at p, p_revoked_by p, p_revoke_sig p with
  | None, None, None => True
  | Some t, Some by_, Some sig =>
    is_member by_ p = true ∧ ∃ ik s ms, sig = arr_bytes s ∧ ts_of_ms ms = Some t ∧ 0 <= ms ∧
      signed_by by_ ik (revoke_message pid by_ ms) s
  | _, _, _ => False
  end.

Definition pair_ok (db : Db) (pid : Uuid) (p : PairRow) : Prop :=
  p_device_a p ≠ p_device_b p ∧
  is_Some (devices db !! p_device_a p) ∧ is_Some (devices db !! p_device_b p) ∧
  (∃ ms, ts_of_ms ms = Some (p_created_at p) ∧
     attested pid (p_device_a p) (p_device_b p) ms (p_attestation p) (p_sig_a p) (p_sig_b p)) ∧
  revoked_by_member pid p.

Definition db_ok (db : Db) : Prop :=
  map_Forall device_ok (devices db) ∧ map_Forall (pair_ok db) (pairs db).

(** What a handler may ask the database to write. *)
Definition sql_ok {A} (q : sql A) : Prop :=
  match q with
  | QUpsert d => device_id_from_public_key (nd_ik_sig_pub d) = nd_device_id d
  | QInsertPair np =>
    attested (np_pair_id np) (np_device_a np) (np_device_b np) (np_created_at_ms np)
      (np_attestation np) (np_sig_a np) (np_sig_b np)
  | QRevoke st =>
    0 <= rs_revoked_at st ∧ ∃ ik, signed_by (rs_by st) ik
      (revoke_message (rs_pair_id st) (rs_by st) (rs_revoked_at st)) (rs_sig st)
  | _ => True
  end.

(** *** Maps with the same devices *)

Lemma pair_ok_devices db db' pid p :
  (∀ d, is_Some (devices db !! d) → is_Some (devices db' !! d)) →
  pair_ok db pid p → pair_ok db' pid p.
Proof. intros Hd (? & ? & ? & ? & ?). split_and!; auto. Qed.

Lemma db_ok_devices db m :
  db_ok db → map_Forall device_ok m →
  (∀ d, is_Some (devices db !! d) → is_Some (m !! d)) →
  db_ok (mkDb m (pairs db) (usage_daily db)).
Proof.
  intros [_ Hp] Hm Hd. split; [done|]. intros pid p Hpid.
  eapply pair_ok_devices; [|by apply Hp]. done.
Qed.

(** A row update that keeps key, platform and, unless it is set, the provider. *)
Lemma db_ok_alter db f d :
  (∀ r, devices db !! d = Some r → device_ok d r → device_ok d (f r)) →
  db_ok db → db_ok (set_devices (alter f d) db).
Proof.
  intros Hf Hdb. apply db_ok_devices; [done| |].
  - intros i r. destruct (decide (i = d)) as [->|Hne].
    + rewrite lookup_alter_eq. destruct (devices db !! d) as [r0|] eqn:E; simpl; [|done].
      intros [= <-]. apply Hf; [done|]. by apply Hdb.
    + rewrite lookup_alter_ne by done. apply Hdb.
  - intros i Hi. destruct (decide (i = d)) as [->|Hne].
    + rewrite lookup_alter_eq. by apply fmap_is_Some.
    + by rewrite lookup_alter_ne.
Qed.

Lemma db_ok_insert_device db d r :
  device_ok d r → db_ok db → db_ok (set_devices <[d := r]> db).
Proof.
  intros Hr Hdb. apply db_ok_devices; [done| |].
  - apply map_Forall_insert_2; [done|apply Hdb].
  - intros i Hi. destruct (decide (i = d)) as [->|Hne].
    + by rewrite lookup_insert_eq.
    + by rewrite lookup_insert_ne.
Qed.

Lemma db_ok_insert_pair db pid p :
  pair_ok db pid p → db_ok db → db_ok (set_pairs <[pid := p]> db).
Proof.
  intros Hp [Hd Hps]. split; [done|]. simpl. apply map_Forall_insert_2; [done|].
  intros i q Hq. by apply Hps.
Qed.

(** Deleting devices takes their pairs along. *)
Lemma db_ok_delete db gone : db_ok db → db_ok (delete_devices gone db).
Proof.
  intros [Hd Hp]. unfold delete_devices. split; simpl.
  - intros d r Hr. apply map_lookup_filter_Some in Hr as [Hr _]. by apply Hd.
  - intros pid p Hpid. apply map_lookup_filter_Some in Hpid as [Hpid Hg]. simpl in Hg.
    apply orb_false_iff in Hg as [Ha Hb].
    destruct (Hp _ _ Hpid) as (Hne & [ra Hra] & [rb Hrb] & Hat & Hrev).
    split_and!; try done; simpl.
    + exists ra. by apply map_lookup_filter_Some.
    + exists rb. by apply map_lookup_filter_Some.
Qed.

Lemma db_ok_upsert now d db :
  device_id_from_public_key (nd_ik_sig_pub d) = nd_device_id d →
  db_ok db → db_ok (upsert now d db).2.
Proof.
  intros Hid Hdb. unfold upsert. cbv zeta. case_match; [done|].
  case_bool_decide as Hp; cbn [negb]; [|done].
  destruct (devices db !! nd_device_id d) as [r|] eqn:E.
  - case_match; [|done]. apply db_ok_insert_device; [|done].
    destruct (proj1 Hdb _ _ E) as (Hk & Hp' & Hpr). by split_and!.
  - case_match; [done|]. apply db_ok_insert_device; [|done]. split_and!; [by eexists|done|done].
Qed.

Lemma db_ok_set_push_token now d p t topic db :
  db_ok db → db_ok (set_push_token now d p t topic db).2.
Proof.
  intros Hdb. unfold set_push_token. case_match; [done|].
  destruct (devices db !! d) as [r|] eqn:E; [|done].
  case_match; [|done]. case_bool_decide; [|done]. apply db_ok_insert_device; [|done].
  destruct (proj1 Hdb _ _ E) as (Hk & Hp & _). by split_and!.
Qed.

Lemma db_ok_insert_pair_query np db :
  attested (np_pair_id np) (np_device_a np) (np_device_b np) (np_created_at_ms np)
    (np_attestation np) (np_sig_a np) (np_sig_b np) →
  db_ok db → db_ok (insert_pair np db).2.
Proof.
  intros Hat Hdb. unfold insert_pair. destruct (ts_of_ms _) as [t|] eqn:Et; [|done].
  case_bool_decide as Hne; [done|]. case_bool_decide as He; [done|].
  destruct (bool_decide_reflect (is_Some (devices db !! np_device_a np))); [|done].
  destruct (bool_decide_reflect (is_Some (devices db !! np_device_b np))); [|done].
  apply db_ok_insert_pair; [|done].
  split_and!; simpl; [done|done|done|by exists (np_created_at_ms np)|done].
Qed.

Lemma db_ok_revoke st db :
  0 <= rs_revoked_at st →
  (∃ ik, signed_by (rs_by st) ik
     (revoke_message (rs_pair_id st) (rs_by st) (rs_revoked_at st)) (rs_sig st)) →
  db_ok db → db_ok (revoke st db).2.
Proof.
  intros H0 [ik Hs] Hdb. unfold revoke.
  destruct (pairs db !! rs_pair_id st) as [p|] eqn:E; [|done].
  destruct (is_member (rs_by st) p) eqn:Em; [|done]. destruct (unrevoked p); [|done].
  destruct (ts_of_ms (rs_revoked_at st)) as [t|] eqn:Et; [|done].
  apply db_ok_insert_pair; [|done].
  destruct (proj2 Hdb _ _ E) as (Hne & Ha & Hb & Hat & _).
  split_and!; [done..|]. simpl. split; [done|]. exists ik. eauto 10.
Qed.

(** Every query keeps the invariant. *)
Lemma exec_sql_db_ok {A} (q : sql A) now db :
  sql_ok q → db_ok db → db_ok (exec_sql q now db).2.
Proof.
  intros Hq Hdb. destruct q; cbn [exec_sql snd sql_ok] in *; try done.
  - by apply db_ok_upsert.
  - apply db_ok_alter; [|done]. intros r _ (Hk & Hp & Hpr). by split_and!.
  - by apply db_ok_set_push_token.
  - apply db_ok_alter; [|done]. intros r _ (Hk & Hp & Hpr). by split_and!.
  - unfold delete_with_peers. destruct (check _); [by apply db_ok_delete|done].
  - by apply db_ok_insert_pair_query.
  - destruct Hq. by apply db_ok_revoke.
  - unfold add_batch. destruct rows; [done|]. by case_match.
  - by apply db_ok_delete.
Qed.

Definition sql_cmd_ok (X : Type) (c : cmd X) : Prop :=
  match c with CSql q => sql_ok q | _ => True end.

Context {R : RedisServer}.

Lemma exec_db_ok {X} i (c : cmd X) w :
  sql_cmd_ok X c → db_ok (w_db w) → db_ok (w_db (exec i c w).2).
Proof.
  intros Hc Hw. destruct c; try by rewrite exec_no_sql.
  unfold exec. simpl. unfold faulty. destruct (i_fault i); simpl; [|done|].
  - pose proof (exec_sql_db_ok q (w_pgnow w + Z.of_N (i_pg_elapsed i)) (w_db w) Hc Hw) as H.
    by destruct (exec_sql q _ _).
  - by apply exec_sql_db_ok.
Qed.
End Ok.

(** ** Properties *)

(** Handlers that ask only for certified writes keep the database certified. *)
Lemma pool_db_ok {C : Crypto} {P : Postgres} {R : RedisServer} {A : Type}
    (ps ps' : list (prog A)) (w w' : World) :
  Forall (issues sql_cmd_ok) ps → db_ok (w_db w) → rtc pool_step (w, ps) (w', ps') →
  db_ok (w_db w').
Proof.
  intros Hq Hw Hr.
  refine (proj2 (pool_invariant (λ w1 ps1, Forall (issues sql_cmd_ok) ps1 ∧ db_ok (w_db w1))
    _ _ _ _ Hr (conj Hq Hw))); [done|].
  clear. intros w ps n X c k i x w1 [Hq Hw] Hn He.
  pose proof (proj1 (Forall_lookup _ _) Hq _ _ Hn) as [Hc Hk]. split.
  - by apply Forall_insert.
  - pose proof (exec_db_ok i c w Hc Hw) as H. by rewrite He in H.
Qed.

(** The first statement stays: once a pair is revoked, every query either
    leaves its row exactly as it is or deletes the row with a device of the
    pair. *)
Theorem first_statement_stays {P : Postgres} {A : Type} (q : sql A) (now : Z) (db : Db)
    (pid : Uuid) (p : PairRow) :
  pairs db !! pid = Some p → p_revoked_at p ≠ None →
  let db' := (exec_sql q now db).2 in
  pairs db' !! pid = Some p ∨
  pairs db' !! pid = None ∧
  (devices db' !! p_device_a p = None ∨ devices db' !! p_device_b p = None).
Proof.
  intros Hp Hr. cbv zeta.
  assert (∀ gone, pairs (delete_devices gone db) !! pid = Some p ∨
    pairs (delete_devices gone db) !! pid = None ∧
    (devices (delete_devices gone db) !! p_device_a p = None ∨
     devices (delete_devices gone db) !! p_device_b p = None)) as Hdel.
  { intros gone. unfold delete_devices. cbn [pairs devices].
    rewrite !map_lookup_filter, Hp. cbn [mbind option_bind].
    destruct (gone (p_device_a p)) eqn:Ea; [|destruct (gone (p_device_b p)) eqn:Eb].
    - right. split; [case_guard as Hg; [exfalso; cbn in Hg; by rewrite Ea in Hg|done]|left].
      destruct (devices db !! p_device_a p); [|done]. cbn [mbind option_bind].
      case_guard as Hg; [exfalso; cbn in Hg; congruence|done].
    - right. split; [case_guard as Hg; [exfalso; cbn in Hg; by rewrite Ea, Eb in Hg|done]|right].
      destruct (devices db !! p_device_b p); [|done]. cbn [mbind option_bind].
      case_guard as Hg; [exfalso; cbn in Hg; congruence|done].
    - left. case_guard as Hg; [done|]. cbn in Hg. by rewrite Ea, Eb in Hg. }
  destruct q; cbn [exec_sql snd]; try (by left).
  - left. unfold upsert. cbv zeta. by repeat case_match.
  - left. unfold set_push_token. by repeat case_match.
  - unfold delete_with_peers. destruct (check _); [apply Hdel|by left].
  - left. unfold insert_pair. destruct (ts_of_ms _); [|done]. case_bool_decide; [done|].
    case_bool_decide as He; [done|]. destruct (_ && _); [|done].
    simpl. rewrite lookup_insert_ne; [done|]. intros Hid. rewrite Hid, Hp in He. by destruct He.
  - left. unfold revoke. destruct (pairs db !! rs_pair_id statement) as [p'|] eqn:E; [|done].
    destruct (_ && unrevoked p') eqn:Eu; [|done]. destruct (ts_of_ms _); [|done]. simpl.
    destruct (decide (rs_pair_id statement = pid)) as [<-|Hne]; [|by rewrite lookup_insert_ne].
    apply andb_true_iff in Eu as [_ Eu]. apply bool_decide_eq_true in Eu. congruence.
  - left. unfold add_batch. destruct rows; [done|]. by case_match.
  - apply Hdel.
Qed.
