(* ===== verification/Limits.v ===== *)
(** * Limits: fixed-window rate limits in Redis and the client address
    ([limits.rs], [store/challenges.rs])

    The keys, the counters as programs over Redis, the per-hour registration
    limit, [OnceAMinute] and the client address behind trusted proxies. *)

From stdpp Require Import relations.
From S2P Require Import Prelude Text Errors Externals Signatures Challenge Revocation Bus Tables.
From S2P Require Import Redis Scripts Usage Hub IO Pool Net Config.

Local Open Scope Z_scope.

(** [limits.rs:17-18 REST_PER_MINUTE] *)
Definition REST_PER_MINUTE : Z := 60.
(** [limits.rs:19-20 PUSH_PER_MINUTE] *)
Definition PUSH_PER_MINUTE : Z := 30.
(** [limits.rs:21-23 AUTH_PER_IP_PER_MINUTE] *)
Definition AUTH_PER_IP_PER_MINUTE : Z := 30.
(** [limits.rs:24-25 CHALLENGES_PER_DEVICE_IP_PER_MINUTE] *)
Definition CHALLENGES_PER_DEVICE_IP_PER_MINUTE : Z := 10.
(** [limits.rs:27-27 GROUP_REST] *)
Definition GROUP_REST : string := "rest".
(** [limits.rs:28-28 GROUP_PUSH] *)
Definition GROUP_PUSH : string := "push".
(** [limits.rs:30-30 HOUR_MS] *)
Definition HOUR_MS : Z := 3600000.
(** [limits.rs:31-31 HOUR_WINDOW_TTL_SECS] *)
Definition HOUR_WINDOW_TTL_SECS : Z := 3600.
(** [store/challenges.rs:12-12 RATE_LIMIT_TTL_SECS] *)
Definition RATE_LIMIT_TTL_SECS : Z := 120.

(** ** Keys *)

(** [limits.rs:45-57 ip_bucket] *)
Definition ip_bucket (ip : IpAddr) : string :=
  match to_canonical ip with
  | V4 v4 => show_v4 v4
  | V6 v6 => show_v6 (arr_fill 16 (take 8 (arr_bytes v6) ++ replicate 8 (byte_of_Z 0))) +:+ "/64"
  end.

(** [limits.rs:59-62 registration_key] *)
Definition registration_key (ip : IpAddr) (hour : Z) : string :=
  "rl:ip:" +:+ ip_bucket ip +:+ ":reg:" +:+ display_Z hour.

(** [limits.rs:64-67 global_registration_key] *)
Definition global_registration_key (hour : Z) : string := "rl:reg:" +:+ display_Z hour.

(** [limits.rs:69-72 auth_ip_key] *)
Definition auth_ip_key (ip : IpAddr) (minute : Z) : string :=
  "rl:ip:" +:+ ip_bucket ip +:+ ":auth:" +:+ display_Z minute.

(** ** The client address *)

(** What the relay reads of an HTTP request: the TCP peer and the headers that
    are visible ASCII text. *)
Record Request : Type := mkRequest {
  rq_peer : option IpAddr;
  rq_forwarded_for : option string;
  rq_authorization : option string
}.

Definition is_trusted (trusted : list IpAddr) (ip : IpAddr) : bool :=
  existsb (λ t, bool_decide (to_canonical t = ip)) trusted.

(** [limits.rs:258-269 client_ip, part]: the walk over the hops from the right. *)
Fixpoint walk_hops (trusted : list IpAddr) (last : IpAddr) (hops : list string) : IpAddr :=
  match hops with
  | [] => last
  | hop :: hops' =>
    match parse_ip (trim hop) with
    | None => last
    | Some ip =>
      let ip := to_canonical ip in
      if is_trusted trusted ip then walk_hops trusted ip hops' else ip
    end
  end.

(** [limits.rs:237-270 client_ip] *)
Definition client_ip (peer : option IpAddr) (forwarded_for : option string)
    (trusted : list IpAddr) : option IpAddr :=
  peer ← peer;
  let peer := to_canonical peer in
  if negb (is_trusted trusted peer) then Some peer
  else match forwarded_for with
       | None => Some peer
       | Some header => Some (walk_hops trusted peer (rsplit_on (byte_of_Z 0x2C) header))
       end.

(** [limits.rs:134-146 forwarded_for_ignored] *)
Definition forwarded_for_ignored (peer : option IpAddr) (forwarded_for : option string)
    (trusted : list IpAddr) : bool :=
  match peer with
  | None => false
  | Some peer =>
    bool_decide (is_Some forwarded_for) && negb (is_trusted trusted (to_canonical peer))
  end.

(** [limits.rs:114-132 request_ip]: the log of an ignored header has no effect
    on the result. *)
Definition request_ip (http : Request) (trusted : list IpAddr) : option IpAddr :=
  client_ip (rq_peer http) (rq_forwarded_for http) trusted.

(** ** [OnceAMinute] *)

(** [limits.rs:148-152 OnceAMinute]: the cell, [i64::MIN] at first. *)
Definition once_new : Z := i64_min.

Definition saturating_sub (a b : Z) : Z := Z.max i64_min (Z.min i64_max (a - b)).

(** [limits.rs:167-177 OnceAMinute::due]: with the value [last] loaded earlier
    and the cell at the time of the exchange. *)
Definition due (last now cell : Z) : bool * Z :=
  if negb (last =? i64_min) && (saturating_sub now last <? 60000) then (false, cell)
  else if cell =? last then (true, now) else (false, cell).

(** Calls from any threads, each with the value it loaded, in the order of their
    exchanges; the times let through. *)
Fixpoint due_all (calls : list (Z * Z)) (cell : Z) : list Z :=
  match calls with
  | [] => []
  | (last, now) :: calls' =>
    let '(b, cell') := due last now cell in
    if b then now :: due_all calls' cell' else due_all calls' cell'
  end.

(** ** Counters *)

Section Limits.
Context {UO : UuidOps} {P : Postgres} {R : RedisServer}.

(** [store/challenges.rs:23-25 rate_limit_key] *)
Definition rate_limit_key (device_id : Uuid) (group : string) (minute : Z) : string :=
  "rl:" +:+ hyphenated device_id +:+ ":" +:+ group +:+ ":" +:+ display_Z minute.

(** [limits.rs:74-79 challenge_quota_key] *)
Definition challenge_quota_key (device_id : Uuid) (ip : option IpAddr) (minute : Z) : string :=
  let bucket := match ip with None => "unknown" | Some ip => ip_bucket ip end in
  "rl:" +:+ hyphenated device_id +:+ ":" +:+ bucket +:+ ":chal:" +:+ display_Z minute.

(** [store/challenges.rs:48-57 incr_window] *)
Definition incr_window (key : string) : prog (option Z) :=
  perform (CRedis (RIncrWindow key RATE_LIMIT_TTL_SECS)).

(** [limits.rs:105-112 count_minute] *)
Definition count_minute (key : string) (limit : Z) : prog (result ApiError unit) :=
  let! now := now_ms in
  let* count := or_internal (incr_window key) in
  pure (rate_limit_decision count limit now).

(** [limits.rs:33-43 check_device] *)
Definition check_device (device_id : Uuid) (group : string) (limit : Z) :
    prog (result ApiError unit) :=
  let! now := now_ms in
  count_minute (rate_limit_key device_id group (minute_window now)) limit.

(** [limits.rs:81-93 check_auth_ip] *)
Definition check_auth_ip (ip : option IpAddr) : prog (result ApiError unit) :=
  match ip with
  | None => pure (Ok tt)
  | Some ip =>
    let! now := now_ms in
    count_minute (auth_ip_key ip (minute_window now)) AUTH_PER_IP_PER_MINUTE
  end.

(** [limits.rs:95-103 check_challenge_quota] *)
Definition check_challenge_quota (device_id : Uuid) (ip : option IpAddr) :
    prog (result ApiError unit) :=
  let! now := now_ms in
  count_minute (challenge_quota_key device_id ip (minute_window now))
    CHALLENGES_PER_DEVICE_IP_PER_MINUTE.

(** [n.min(1 << 53)] *)
Definition clamp (n : Z) : Z := Z.min n (2 ^ 53).

(** [limits.rs:197-235 check_registration] *)
Definition check_registration (ip : option IpAddr) (per_ip_limit global_limit : Z) :
    prog (result ApiError unit) :=
  let! now := now_ms in
  let hour := now / HOUR_MS in
  let keys :=
    match ip with
    | Some ip => [(global_registration_key hour, clamp global_limit);
                  (registration_key ip hour, clamp per_ip_limit)]
    | None => [(global_registration_key hour, clamp global_limit)]
    end in
  let* refused := or_internal (perform (CRedis (RRegistration keys HOUR_WINDOW_TTL_SECS))) in
  if refused =? 0 then pure (Ok tt)
  else pure (Err (RateLimited (window_retry HOUR_MS now))).
End Limits.

(** ** Lemmas *)

(** Trusted hops from the right, then the one that decides. *)
Inductive walked (trusted : list IpAddr) : IpAddr → list string → IpAddr → Prop :=
| Walked_end last : walked trusted last [] last
| Walked_malformed last hop hops : parse_ip (trim hop) = None →
    walked trusted last (hop :: hops) last
| Walked_client last hop hops ip : parse_ip (trim hop) = Some ip →
    is_trusted trusted (to_canonical ip) = false →
    walked trusted last (hop :: hops) (to_canonical ip)
| Walked_proxy last hop hops ip r : parse_ip (trim hop) = Some ip →
    is_trusted trusted (to_canonical ip) = true →
    walked trusted (to_canonical ip) hops r → walked trusted last (hop :: hops) r.

Lemma walk_hops_walked trusted hops last r :
  walk_hops trusted last hops = r ↔ walked trusted last hops r.
Proof.
  split.
  - intros <-. revert last. induction hops as [|hop hops IH]; intros last; simpl; [constructor|].
    destruct (parse_ip (trim hop)) as [ip|] eqn:E; [|by constructor].
    destruct (is_trusted trusted (to_canonical ip)) eqn:Et; [by eapply Walked_proxy|].
    by apply Walked_client.
  - induction 1 as [last|last hop hops E|last hop hops ip E Et|last hop hops ip r E Et _ IH];
      simpl; rewrite ?E, ?Et; done.
Qed.

(** A hop that stops the walk: malformed, or not a trusted proxy. *)
Definition decides (trusted : list IpAddr) (hop : string) : Prop :=
  match parse_ip (trim hop) with
  | None => True
  | Some ip => is_trusted trusted (to_canonical ip) = false
  end.

Lemma walk_hops_app trusted hops more last :
  Exists (decides trusted) hops →
  walk_hops trusted last (hops ++ more) = walk_hops trusted last hops.
Proof.
  intros H. revert last. induction hops as [|hop hops IH]; [by inversion H|]. intros last. simpl.
  apply Exists_cons in H. unfold decides in H at 1. destruct (parse_ip (trim hop)) as [ip|]; [|done].
  destruct (is_trusted trusted (to_canonical ip)); [|done]. apply IH. by destruct H.
Qed.

Lemma split_bytes_app_all sep l1 l2 :
  split_bytes sep (l1 ++ sep :: l2) = split_bytes sep l1 ++ split_bytes sep l2.
Proof.
  assert (∀ l, split_bytes sep l ≠ []) as Hne.
  { intros l. destruct l as [|b l]; simpl; [done|]. case_bool_decide; [done|].
    by destruct (split_bytes sep l). }
  induction l1 as [|b l1 IH]; simpl.
  - by rewrite bool_decide_true.
  - rewrite IH. case_bool_decide; [done|]. pose proof (Hne l1).
    destruct (split_bytes sep l1); done.
Qed.

Lemma rsplit_on_prefix sep (s1 s2 : string) :
  rsplit_on sep (s1 +:+ str_of [sep] +:+ s2) = rsplit_on sep s2 ++ rsplit_on sep s1.
Proof.
  unfold rsplit_on, split_on. rewrite <-reverse_app, <-fmap_app. do 2 f_equal.
  rewrite !str_bytes_app, str_bytes_of. apply (split_bytes_app_all sep).
Qed.

(** The times let through by [OnceAMinute], each at least a minute after the
    one before. *)
Fixpoint minute_apart (cell : Z) (ts : list Z) : Prop :=
  match ts with
  | [] => True
  | t :: ts' => (cell = i64_min ∨ 60000 <= saturating_sub t cell) ∧ minute_apart t ts'
  end.

(** ** The counter of a window under concurrency *)

Section Window.
Context {P : Postgres} {R : RedisServer} {RL : RedisLaws}.

(** A call is let through: the counter answered within the limit. *)
Definition passes (key : string) (limit : Z) (X : Type) (c : cmd X) : X → Prop :=
  match c in cmd X return X → Prop with
  | CRedis q =>
    match q in redis A return option A → Prop with
    | RIncrWindow k _ => λ o, k = key ∧ ∃ n, o = Some n ∧ n <= limit
    | _ => λ _, False
    end
  | _ => λ _, False
  end.

(** It counts in this window, or leaves the counter alone. *)
Inductive window_cmd (key : string) : ∀ X, cmd X → Prop :=
| Window_count : window_cmd key _ (CRedis (RIncrWindow key RATE_LIMIT_TTL_SECS))
| Window_leaves X c : leaves key X c → window_cmd key X c.

Lemma leaves_not_passes key limit X c x : leaves key X c → ¬ passes key limit X c x.
Proof.
  destruct c; simpl; try tauto. destruct q; simpl; try tauto.
  intros [_ Hk] [-> _]. set_solver.
Qed.

Lemma count_minute_needs {A} key limit (body : prog (result ApiError A)) :
  needs succeeds (passes key limit)
    (pbind_ok (count_minute key limit) (λ _, body)).
Proof.
  cbn. intros t. right. intros [n|]; cbn.
  - unfold rate_limit_decision. destruct (Z.leb_spec n limit); [left; eauto|].
    right. cbn. by intros [a [=]].
  - right. by intros [a [=]].
Qed.

Lemma count_minute_issues key limit : issues (window_cmd key) (count_minute key limit).
Proof.
  cbn. split; [by apply Window_leaves|]. intros t. split; [constructor|]. by intros [n|].
Qed.

Variable (key : string) (limit T : Z).

(** [n] calls were let through by [T], the end of the window. *)
Definition window_count (w : World) (n : nat) : Prop :=
  T <= w_rnow w ∨
  Z.of_nat n <= limit ∧
  (n = O ∧ r_val (w_redis w) (w_rnow w) key = None ∨
   ∃ c, Z.of_nat n <= c ∧ i64_ok c ∧ ∀ t, w_rnow w <= t → t < T →
     r_val (w_redis w) t key = Some (RStr (display_Z c))).

Lemma window_count_frame w w' n :
  window_count w n → w_rnow w <= w_rnow w' →
  (∀ t, w_rnow w' <= t → r_val (w_redis w') t key = r_val (w_redis w) t key) →
  window_count w' n.
Proof.
  intros [HT|[Hn Hv]] Ht Hf; [left; lia|].
  destruct (decide (T <= w_rnow w')); [by left|]. right. split; [done|].
  destruct Hv as [[-> Hv]|(c & Hc & Hok & Hv)].
  - left. split; [done|]. rewrite Hf by lia. by apply (r_val_gone _ (w_rnow w)).
  - right. exists c. split_and!; [done|done|]. intros t ? ?. rewrite Hf by lia. apply Hv; lia.
Qed.

(** One more count at [now]. *)
Lemma window_count_incr s now n w' :
  now < T → T <= now + 1000 * RATE_LIMIT_TTL_SECS → Z.of_nat n <= limit →
  (n = O ∧ r_val s now key = None ∨
   ∃ c, Z.of_nat n <= c ∧ i64_ok c ∧ ∀ t, now <= t → t < T →
     r_val s t key = Some (RStr (display_Z c))) →
  let '(o, s') := exec_redis (RIncrWindow key RATE_LIMIT_TTL_SECS) now s in
  w_rnow w' = now → w_redis w' = s' →
  window_count w' n ∧ (∀ v, o = Some v → v <= limit → window_count w' (S n)).
Proof.
  intros HnT HT Hn Hv. cbn [exec_redis].
  assert (∃ c, Z.of_nat n <= c ∧ i64_ok c ∧ counter_of (r_val s now key) = Some c) as (c & Hc & Hok & Hcv).
  { destruct Hv as [[-> Hv]|(c & Hc & Hok & Hv)].
    - exists 0. rewrite Hv. split_and!; [lia|done|done].
    - exists c. rewrite Hv, counter_display by done || lia. done. }
  destruct (r_incr key now s) as [o s1] eqn:Hi. intros Hnow Hs.
  destruct o as [v|].
  - destruct (incr_expire_counted _ _ _ _ _ RATE_LIMIT_TTL_SECS eq_refl Hi)
      as (Hcv' & Hok' & Hcnt). rewrite Hcv in Hcv'. injection Hcv' as ->.
    assert (∀ m, Z.of_nat m <= v → Z.of_nat m <= limit → window_count w' m) as Hw.
    { intros m Hm Hml. right. split; [done|]. right. exists v. split_and!; [done|done|].
      rewrite Hs, Hnow. intros t ? ?. rewrite Hcnt, bool_decide_true by done.
      destruct (Z.ltb_spec t (now + 1000 * RATE_LIMIT_TTL_SECS)); [done|lia]. }
    split; [apply Hw; lia|]. intros v' Hv' Hle. cbn in Hv'.
    destruct (v <? 0); simplify_eq. apply Hw; lia.
  - split; [|done]. unfold r_incr in Hi. rewrite Hcv in Hi.
    case_bool_decide as Hfull; simplify_eq.
    destruct Hv as [[-> Hv]|(c' & Hc' & Hok' & Hv)].
    + rewrite Hv in Hcv. cbn in Hcv. injection Hcv as <-. destruct Hfull.
      unfold i64_ok, i64_min, i64_max. lia.
    + right. split; [done|]. right. exists c'. split_and!; [done|done|]. intros t Ht HtT.
      rewrite Hs, r_val_expire, bool_decide_true by done || lia.
      destruct (Z.ltb_spec t (w_rnow w' + 1000 * RATE_LIMIT_TTL_SECS)); [apply Hv; lia|lia].
Qed.

Lemma window_count_step X (c : cmd X) i w n T0 :
  T = T0 + 1000 * RATE_LIMIT_TTL_SECS → T0 <= w_rnow w →
  window_cmd key X c → window_count w n →
  let '(x, w') := exec i c w in
  ∃ m, window_count w' m ∧ (n <= m)%nat ∧ (passes key limit X c x → (S n <= m)%nat).
Proof.
  intros HT Hstart Hc Hw. destruct (exec i c w) as [x w'] eqn:E.
  assert (w_rnow w' = w_rnow w + Z.of_N (i_redis_elapsed i)) as Hnow
    by (rewrite <-(exec_rnow i c w), E; done).
  destruct (decide (T <= w_rnow w')) as [|HnT]; [exists (S n); split_and!; [by left|lia|lia]|].
  destruct Hc as [|X c Hl].
  - pose proof (exec_redis_cases i (RIncrWindow key RATE_LIMIT_TTL_SECS) w) as Hx.
    cbv zeta in Hx. rewrite E, <-Hnow in Hx.
    assert (window_count w n → w_redis w' = w_redis w → window_count w' n) as Hsame.
    { intros Hw' Heq. apply (window_count_frame w); [done|lia|]. intros. by rewrite Heq. }
    destruct Hx as [[-> Hs]|[Hs Hx]].
    { exists n. split_and!; [by apply Hsame|done|]. by intros (_ & v & [=] & _). }
    destruct Hw as [|[Hn Hv]]; [lia|].
    assert (n = O ∧ r_val (w_redis w) (w_rnow w') key = None ∨
      ∃ c, Z.of_nat n <= c ∧ i64_ok c ∧ ∀ t, w_rnow w' <= t → t < T →
        r_val (w_redis w) t key = Some (RStr (display_Z c))) as Hv'.
    { destruct Hv as [[-> Hv]|(c & ? & ? & Hv)]; [left|right].
      - split; [done|]. apply (r_val_gone _ (w_rnow w)); [lia|done].
      - exists c. split_and!; [done|done|]. intros. apply Hv; lia. }
    pose proof (window_count_incr (w_redis w) (w_rnow w') n w' ltac:(lia) ltac:(lia) Hn Hv') as Hi.
    destruct (exec_redis _ (w_rnow w') (w_redis w)) as [o s']. cbn [fst snd] in *.
    destruct (Hi eq_refl Hs) as [Hi1 Hi2].
    destruct Hx as [->| ->]; [exists n; split_and!; [done|done|by intros (_ & v & [=] & _)]|].
    destruct o as [v|]; [|exists n; split_and!; [done|done|by intros (_ & v & [=] & _)]].
    destruct (decide (v <= limit)); [exists (S n)|exists n]; (split_and!; [by eauto|lia|]);
      [lia|]. by intros (_ & v' & [= <-] & ?).
  - exists n. split_and!; [|done|intros Hp; by destruct (leaves_not_passes _ _ _ _ _ Hl Hp)].
    apply (window_count_frame w); [done|lia|]. intros t Ht.
    pose proof (leaves_frame key i c w t Hl) as Hf. rewrite E in Hf. by apply Hf.
Qed.
End Window.

(** ** Properties *)

(** C24. The client address: without a trusted peer it is the TCP peer and the
    header counts for nothing; behind a trusted proxy it is the rightmost hop
    that is not a trusted proxy, and a malformed entry stops the walk at the
    last trusted hop. *)
Theorem client_ip_spec (peer : option IpAddr) (header : option string) (trusted : list IpAddr)
    (r : option IpAddr) :
  client_ip peer header trusted = r ↔
  match peer with
  | None => r = None
  | Some p =>
    if is_trusted trusted (to_canonical p)
    then match header with
         | None => r = Some (to_canonical p)
         | Some h => ∃ ip, r = Some ip ∧
             walked trusted (to_canonical p) (rsplit_on (byte_of_Z 0x2C) h) ip
         end
    else r = Some (to_canonical p)
  end.
Proof.
  unfold client_ip. destruct peer as [p|]; [|split; done].
  cbn [mbind option_bind]. destruct (is_trusted trusted (to_canonical p)); cbn [negb];
    [|split; intros; congruence].
  destruct header as [h|]; [|split; intros; congruence]. split.
  - intros <-. eexists. split; [done|]. by apply walk_hops_walked.
  - intros (ip & -> & Hw). apply walk_hops_walked in Hw. by rewrite Hw.
Qed.

(** A client cannot choose its address: whatever it puts in front of the
    header, the address found behind the proxies that appended the rest is the
    same, once one of the appended hops is not a trusted proxy. *)
Theorem client_ip_ignores_forged_prefix (peer : option IpAddr) (forged appended : string)
    (trusted : list IpAddr) :
  Exists (decides trusted) (rsplit_on (byte_of_Z 0x2C) appended) →
  client_ip peer (Some (forged +:+ str_of [byte_of_Z 0x2C] +:+ appended)) trusted =
  client_ip peer (Some appended) trusted.
Proof.
  intros H. unfold client_ip. destruct peer as [p|]; [|done]. cbn [mbind option_bind].
  rewrite rsplit_on_prefix. destruct (negb _); [done|]. by rewrite walk_hops_app.
Qed.

(** [OnceAMinute] lets events through at least a minute apart, whatever
    values the racing threads loaded. *)
Theorem due_minute_apart (calls : list (Z * Z)) (cell : Z) :
  minute_apart cell (due_all calls cell).
Proof.
  revert cell. induction calls as [|[last now] calls IH]; intros cell; simpl; [done|].
  unfold due. destruct (negb (last =? i64_min) && (saturating_sub now last <? 60000)) eqn:E;
    [apply IH|].
  destruct (Z.eqb_spec cell last) as [->|]; [|apply IH]. simpl. split; [|apply IH].
  apply andb_false_iff in E as [E|E].
  - apply negb_false_iff, Z.eqb_eq in E. by left.
  - apply Z.ltb_ge in E. by right.
Qed.

(** C23. The limit holds under concurrency: however the calls [js] that count in
    one fresh window interleave with each other and with any other work that
    counts there or leaves the counter alone, and whatever requests and replies
    are lost, no more of them succeed than the limit, as long as the two minutes
    the counter lives are not over. *)
Theorem rate_limit_enforced {P : Postgres} {R : RedisServer} {RL : RedisLaws} {A : Type}
    (key : string) (limit : Z) (ps ps' : list (prog (result ApiError A))) (w w' : World)
    (js : list nat) :
  0 <= limit →
  Forall (issues (window_cmd key)) ps →
  (∀ j p, ps !! j = Some p → j ∈ js →
     ∃ body, p = pbind_ok (count_minute key limit) (λ _, body)) →
  r_val (w_redis w) (w_rnow w) key = None →
  rtc pool_step (w, ps) (w', ps') →
  w_rnow w' < w_rnow w + 1000 * RATE_LIMIT_TTL_SECS →
  NoDup js → Forall (λ j, ∃ a, ps' !! j = Some (Ret (Ok a))) js →
  Z.of_nat (length js) <= limit.
Proof.
  intros Hl Hq Hp Hk Hr Ht Hnd Hjs.
  set (T := w_rnow w + 1000 * RATE_LIMIT_TTL_SECS).
  edestruct (pool_tickets (succeeds (E := ApiError) (A := A)) (passes key limit)
    (λ w1 n, w_rnow w <= w_rnow w1 ∧ window_count key limit T w1 n) (window_cmd key))
    with (js := js) as (n & [_ Hw] & Hn).
  - done.
  - intros X c i w1 n Hc [Hs Hw]. pose proof (exec_rnow i c w1) as Hnow.
    pose proof (window_count_step key limit T X c i w1 n (w_rnow w) eq_refl Hs Hc Hw) as H.
    destruct (exec i c w1) as [x w2]. destruct H as (m & ? & ? & ?). cbn [snd] in Hnow.
    exists m. split_and!; [lia|done..].
  - exact Hr.
  - exact Hq.
  - intros j p Hj Hin. destruct (Hp _ _ Hj Hin) as [body ->]. apply count_minute_needs.
  - split; [done|]. right. split; [done|]. by left.
  - exact Hnd.
  - eapply Forall_impl; [exact Hjs|]. intros j [a Ha]. exists (Ok a). split; [done|by exists a].
  - destruct Hw as [Hw|[Hw _]]; lia.
Qed.

Import DemoIO.

(** A pool of two calls with the limit 1: the first one finishes. *)
Lemma rate_limit_enforced_witness : Z.of_nat (length [0%nat]) <= 1.
Proof.
  pose (p := pbind_ok (count_minute "k" 1) (λ _, Ret (Ok tt) : prog (result ApiError unit))).
  pose (s := pool_run [(0%nat, calm); (0%nat, calm)] (world0, [p; p])).
  apply (rate_limit_enforced "k" 1 [p; p] s.2 world0 s.1 [0%nat]).
  - lia.
  - repeat constructor; intros; apply issues_bind_ok; try done; apply count_minute_issues.
  - intros [|j] q Hj Hin; [|set_solver]. injection Hj as <-. by eexists.
  - reflexivity.
  - rewrite <-surjective_pairing. apply pool_run_steps.
  - vm_compute. reflexivity.
  - repeat constructor. apply not_elem_of_nil.
  - constructor; [|constructor]. exists tt. vm_compute. reflexivity.
Defined.

Lemma client_ip_ignores_forged_prefix_witness :
  client_ip (Some LOCALHOST4) (Some ("1.2.3.4" +:+ str_of [byte_of_Z 0x2C] +:+ "203.0.113.9"))
    [LOCALHOST4] = client_ip (Some LOCALHOST4) (Some "203.0.113.9") [LOCALHOST4].
Proof.
  apply (client_ip_ignores_forged_prefix (Some LOCALHOST4) "1.2.3.4" "203.0.113.9" [LOCALHOST4]).
  apply Exists_cons_hd. vm_compute. reflexivity.
Defined.
