(* ===== verification/Presence.v ===== *)
(** * Presence: who is online, and queued revocation notices
    ([relay/presence.rs])

    Presence of a device is a Redis key owned by the instance of its connection;
    a notice is a text member of a Redis set. *)

From S2P Require Import Prelude Text Errors Externals Signatures Revocation Bus Tables Redis.
From S2P Require Import Scripts Usage Hub IO Pool.

Local Open Scope Z_scope.

(** [relay/presence.rs:16-16 PRESENCE_TTL_SECS] *)
Definition PRESENCE_TTL_SECS : Z := 60.
(** [relay/presence.rs:17-18 REVOKED_NOTICE_TTL_SECS] *)
Definition REVOKED_NOTICE_TTL_SECS : Z := 30 * 24 * 3600.

Definition bar : byte := byte_of_Z 0x7C.
Definition bar_str : string := str_of [bar].

Section Presence.
Context {UO : UuidOps} {B64 : Base64}.

(** [relay/presence.rs:36-38 presence_key] *)
Definition presence_key (device_id : Uuid) : string := "presence:" +:+ hyphenated device_id.

(** [relay/presence.rs:40-42 revoked_notice_key] *)
Definition revoked_notice_key (device_id : Uuid) : string :=
  "revoked_notice:" +:+ hyphenated device_id.

(** [relay/presence.rs:44-49 claim] *)
Definition claim (device_id : Uuid) (instance : string) : prog (option unit) :=
  perform (CRedis (RSetEx (presence_key device_id) instance PRESENCE_TTL_SECS)).

(** [relay/presence.rs:51-67 refresh] *)
Definition refresh (device_id : Uuid) (instance : string) : prog (option bool) :=
  let! held := perform (CRedis (RRefresh (presence_key device_id) instance PRESENCE_TTL_SECS)) in
  Ret (option_map (λ h, h =? 1) held).

(** [relay/presence.rs:69-84 release] *)
Definition release (device_id : Uuid) (instance : string) : prog (option bool) :=
  let! deleted := perform (CRedis (RRelease (presence_key device_id) instance)) in
  Ret (option_map (λ d, d =? 1) deleted).

(** [relay/presence.rs:86-95 online] *)
Definition online (devices : list Uuid) : prog (option (list bool)) :=
  if bool_decide (devices = []) then Ret (Some [])
  else
    let! values := perform (CRedis (RMGet (map presence_key devices))) in
    Ret (option_map (map (λ v : option string, bool_decide (is_Some v))) values).

(** [relay/presence.rs:97-106 revoked_notice_member] *)
Definition revoked_notice_member (statement : RevokeStatement) : string :=
  hyphenated (rs_pair_id statement) +:+ bar_str +:+ hyphenated (rs_by statement) +:+ bar_str +:+
  display_Z (rs_revoked_at statement) +:+ bar_str +:+ encode (arr_bytes (rs_sig statement)).

(** [relay/presence.rs:108-119 parse_revoked_notice] *)
Definition parse_revoked_notice (member : string) : option RevokeStatement :=
  match split_on bar member with
  | p :: parts =>
    pair_id ← uuid_parse p;
    match parts with
    | b :: parts =>
      by_ ← uuid_parse b;
      match parts with
      | t :: parts =>
        revoked_at ← parse_i64 t;
        match parts with
        | s :: parts =>
          sig ← decode_fixed 64 s;
          if bool_decide (parts = []) then Some (mkStatement pair_id by_ revoked_at sig) else None
        | [] => None
        end
      | [] => None
      end
    | [] => None
    end
  | [] => None
  end.

(** [relay/presence.rs:121-138 add_revoked_notice] *)
Definition add_revoked_notice (peer : Uuid) (statement : RevokeStatement) : prog (option unit) :=
  perform (CRedis (RAddNotice (revoked_notice_key peer) (revoked_notice_member statement)
                     REVOKED_NOTICE_TTL_SECS)).

(** [relay/presence.rs:140-159 take_revoked_notices] *)
Definition take_revoked_notices (device_id : Uuid) : prog (option (list RevokeStatement)) :=
  let! members := perform (CRedis (RTakeNotices (revoked_notice_key device_id))) in
  Ret (option_map (omap parse_revoked_notice) members).

Context {UL : UuidLaws} {BL : Base64Laws}.

Lemma uuid_no_bar u : no_byte bar (hyphenated u).
Proof. by apply hyphenated_no_byte. Qed.

Lemma parse_notice_member st :
  i64_ok (rs_revoked_at st) → parse_revoked_notice (revoked_notice_member st) = Some st.
Proof.
  intros Hok. unfold parse_revoked_notice, revoked_notice_member, bar_str.
  rewrite !split_on_app by (apply uuid_no_bar || by apply display_Z_no_byte).
  rewrite split_on_single by by apply b64u_no_byte.
  rewrite !uuid_parse_hyphenated. cbn [mbind option_bind].
  rewrite parse_display_i64 by done. cbn [mbind option_bind].
  rewrite decode_fixed_encode. cbn [mbind option_bind].
  rewrite bool_decide_true by done. by destruct st.
Qed.
End Presence.

(** ** Properties *)

(** A queued notice comes back as the statement that was queued: the text
    of a member determines the pair, the signer, the time and the signature. *)
Theorem revoked_notice_roundtrip {UO : UuidOps} {UL : UuidLaws} {B64 : Base64}
    {BL : Base64Laws} (st st' : RevokeStatement) :
  i64_ok (rs_revoked_at st) →
  parse_revoked_notice (revoked_notice_member st) = Some st ∧
  (i64_ok (rs_revoked_at st') → revoked_notice_member st = revoked_notice_member st' → st = st').
Proof.
  intros H. split; [by apply parse_notice_member|]. intros H' E.
  pose proof (parse_notice_member st H) as H1. rewrite E, parse_notice_member in H1 by done.
  congruence.
Qed.

Lemma frame_notice_sadd {R : RedisServer} {RL : RedisLaws} k m ttl t s ms :
  0 < ttl → set_of (r_val s t k) = Some ms →
  let '(o, s') := exec_redis (RAddNotice k m ttl) t s in
  o = Some tt ∧ ∀ t', t <= t' → r_val s' t' k =
    if t' <? t + 1000 * ttl then Some (RSet ({[m]} ∪ ms)) else None.
Proof.
  intros Httl Hms. cbn [exec_redis]. unfold r_sadd. rewrite Hms.
  case_bool_decide as Hin; cbn [fmap option_fmap option_map].
  - split; [done|]. intros t' Ht. rewrite r_val_expire, bool_decide_true by done.
    replace ({[m]} ∪ ms) with ms by set_solver.
    by apply set_of_RSet in Hms as [->|[_ ->]]; [|set_solver].
  - split; [done|]. intros t' Ht.
    by rewrite r_val_expire, bool_decide_true, r_val_write_same by done.
Qed.

(** C34. Notices are delivered: one queued for a device is among the notices the
    device takes within the next thirty days if nothing else touches its set, and
    taking them empties the set. *)
Theorem notice_delivered {UO : UuidOps} {UL : UuidLaws} {B64 : Base64} {BL : Base64Laws}
    {P : Postgres} {R : RedisServer} {RL : RedisLaws}
    (peer : Uuid) (st : RevokeStatement) (w w1 w2 : World)
    (sts : list RevokeStatement) :
  i64_ok (rs_revoked_at st) →
  (∀ t, is_Some (set_of (r_val (w_redis w) t (revoked_notice_key peer)))) →
  runs (add_revoked_notice peer st) w (Some tt) w1 →
  w_rnow w2 < w_rnow w1 + 1000 * REVOKED_NOTICE_TTL_SECS →
  runs (take_revoked_notices peer) w1 (Some sts) w2 →
  st ∈ sts ∧ r_val (w_redis w2) (w_rnow w2) (revoked_notice_key peer) = None.
Proof.
  intros Hok Hms Ha Ht Hk.
  apply (proj1 (runs_perform _ _ _ _)) in Ha as [i Ha].
  apply exec_redis_Some in Ha as (s & Ha & ->).
  unfold take_revoked_notices in Hk. apply runs_bind in Hk as (o & w3 & Hk & [Ho ->]).
  destruct o as [members|]; [|done]. cbn in Ho. injection Ho as <-.
  apply (proj1 (runs_perform _ _ _ _)) in Hk as [i' Hk].
  apply exec_redis_Some in Hk as (s' & Hk & ->).
  cbn [w_rnow w_redis with_redis elapse] in *.
  destruct (Hms (w_rnow w + Z.of_N (i_redis_elapsed i))) as [ms Hms'].
  pose proof (frame_notice_sadd (revoked_notice_key peer) (revoked_notice_member st)
    REVOKED_NOTICE_TTL_SECS _ _ ms eq_refl Hms') as Hadd.
  rewrite Ha in Hadd. destruct Hadd as [_ Hadd].
  cbn [exec_redis] in Hk. injection Hk as Hm <-. split; [|apply r_val_del_same; lia].
  unfold r_smembers in Hm. rewrite Hadd in Hm by lia.
  destruct (Z.ltb_spec (w_rnow w + Z.of_N (i_redis_elapsed i) + Z.of_N (i_redis_elapsed i'))
    (w_rnow w + Z.of_N (i_redis_elapsed i) + 1000 * REVOKED_NOTICE_TTL_SECS)); [|lia].
  cbn in Hm. injection Hm as <-. apply list_elem_of_omap.
  exists (revoked_notice_member st). split; [apply r_order_elements; set_solver|].
  by apply parse_notice_member.
Qed.
