(* ===== verification/Rendezvous.v ===== *)
(** * Rendezvous: pairing over the relay ([relay/rendezvous.rs])

    A rendezvous is a Redis set of at most two devices that lives three minutes;
    the relay passes on [pair] envelopes between them, but never a PIN-mode
    hello. *)

From S2P Require Import Prelude Text Errors Externals Signatures Wire Redis Scripts Tables Usage.
From S2P Require Import Hub IO.

Local Open Scope Z_scope.

(** [relay/rendezvous.rs:15-15 RV_TTL_SECS] *)
Definition RV_TTL_SECS : Z := 180.

(** [relay/rendezvous.rs:40-47 Join] *)
Inductive Join : Type :=
| Full
| Joined (newly : bool) (members : list Uuid).

(** [relay/rendezvous.rs:83-89 EnvHead] *)
Record EnvHead : Type := mkEnvHead { eh_kind : string; eh_payload : option string }.

(** [relay/rendezvous.rs:91-96 PairPayloadHead]; the [mode] of its [data]. *)
Record PairPayloadHead : Type := mkPairHead { ph_op : string; ph_data_mode : option (option string) }.

(** [serde_json] on an envelope's head and on a handshake payload. *)
Class RvJson : Type := {
  json_env_head : string → option EnvHead;
  json_pair_head : bytes → option PairPayloadHead
}.

Section Rendezvous.
Context {UO : UuidOps} {B64 : Base64}.

(** [relay/rendezvous.rs:30-34 canonical_rv_id] *)
Definition canonical_rv_id (rv_id : string) : option string :=
  b ← decode_fixed 16 rv_id; Some (encode (arr_bytes b)).

(** [relay/rendezvous.rs:36-38 rv_key] *)
Definition rv_key (rv_id : string) : string := "rv:" +:+ rv_id.

(** [relay/rendezvous.rs:49-69 join]: the reply is the members behind whether
    the device was added. *)
Definition join (rv_id : string) (device_id : Uuid) : prog (option Join) :=
  let! reply := perform (CRedis (RJoin (rv_key rv_id) (hyphenated device_id) RV_TTL_SECS)) in
  Ret (option_map (λ r, match r with
                        | [] => Full
                        | added :: members =>
                          Joined (bool_decide (added = "1")) (omap uuid_parse members)
                        end) reply).

(** [relay/rendezvous.rs:71-81 members] *)
Definition rv_members_of (rv_id : string) : prog (option (list Uuid)) :=
  let! members := perform (CRedis (RSMembers (rv_key rv_id))) in
  Ret (option_map (omap uuid_parse) members).

Context {RJ : RvJson}.

(** [relay/rendezvous.rs:104-119 rendezvous_allows] *)
Definition rendezvous_allows (env : RawValue) : bool :=
  match json_env_head env with
  | None => false
  | Some head =>
    if negb (bool_decide (eh_kind head = "pair")) then false
    else negb (match (p ← eh_payload head; plain ← b64_std_decode p; json_pair_head plain) with
               | Some p =>
                 bool_decide (ph_op p = "hello")
                 && bool_decide ((m ← ph_data_mode p; m) = Some "pin")
               | None => false
               end)
  end.

(** A handshake that offers the PIN mode. *)
Definition pin_hello (payload : string) : Prop :=
  ∃ plain p, b64_std_decode payload = Some plain ∧ json_pair_head plain = Some p ∧
    ph_op p = "hello" ∧ ph_data_mode p = Some (Some "pin").

Lemma rendezvous_allows_true env :
  rendezvous_allows env = true ↔
  ∃ head, json_env_head env = Some head ∧ eh_kind head = "pair" ∧
    ∀ payload, eh_payload head = Some payload → ¬ pin_hello payload.
Proof.
  unfold rendezvous_allows, pin_hello. destruct (json_env_head env) as [[kind payload]|];
    [|split; [done|by intros (? & ? & _)]]. cbn [eh_kind eh_payload].
  case_bool_decide as Hk; cbn [negb]; [|split; [done|by intros (? & [= <-] & ? & _)]].
  rewrite negb_true_iff. destruct payload as [p|]; cbn [mbind option_bind].
  2: { split; [intros _; eexists; by split_and!|done]. }
  destruct (b64_std_decode p) as [plain|] eqn:Ep; cbn [mbind option_bind].
  2: { split; [|done]. intros _. eexists. split_and!; [done|done|].
       intros ? [= <-] (? & ? & ? & _). congruence. }
  destruct (json_pair_head plain) as [[op mode]|] eqn:Ej; cbn [ph_op ph_data_mode].
  2: { split; [|done]. intros _. eexists. split_and!; [done|done|].
       intros ? [= <-] (? & ? & ? & ? & _). congruence. }
  split.
  - intros H. eexists. split_and!; [done|done|]. intros ? [= <-] (pl & h & Hp & Hj & Ho & Hm).
    assert (pl = plain) as -> by congruence. assert (h = mkPairHead op mode) as -> by congruence.
    cbn in Ho, Hm. subst. by rewrite !bool_decide_true in H.
  - intros (head & [= <-] & _ & H). apply not_true_iff_false. intros Hb.
    apply andb_true_iff in Hb as [Ho Hm]. apply bool_decide_eq_true in Ho, Hm.
    apply (H p eq_refl). exists plain, (mkPairHead op mode). split_and!; try done.
    cbn. destruct mode as [m|]; [|done]. cbn in Hm. by rewrite Hm.
Qed.
End Rendezvous.

(** Distinct elements have distinct images under an injective function. *)
Lemma size_set_map_inj {A B} `{Countable A, Countable B} (f : A → B) (X : gset A) :
  (∀ x y, f x = f y → x = y) → size (set_map f X : gset B) = size X.
Proof.
  intros Hf. induction X as [|x X Hx IH] using set_ind_L; [done|].
  rewrite set_map_union_L, set_map_singleton_L, !size_union, !size_singleton, IH; [done|set_solver|].
  apply disjoint_singleton_l. intros (y & Hy & Hin)%elem_of_map. by apply Hf in Hy as ->.
Qed.

(** ** Properties *)

(** A rendezvous has one name: the canonical form of an [rv_id] is the text
    itself, and only texts of exactly 16 bytes have one. *)
Theorem canonical_rv_id_spec {B64 : Base64} {BL : Base64Laws} (rv_id s : string) :
  canonical_rv_id rv_id = Some s ↔ s = rv_id ∧ ∃ b : arr 16, rv_id = encode (arr_bytes b).
Proof.
  unfold canonical_rv_id. split.
  - destruct (decode_fixed 16 rv_id) as [b|] eqn:E; [cbn|done]. intros [= <-].
    apply decode_fixed_canonical in E. split; [done|eauto].
  - intros [-> [b ->]]. by rewrite decode_fixed_encode.
Qed.

(** The PIN never crosses the relay: an envelope is passed on through a
    rendezvous exactly when it is a [pair] envelope whose payload is not a
    readable PIN-mode hello. *)
Theorem rendezvous_never_passes_pin {B64 : Base64} {RJ : RvJson} (env : RawValue) :
  rendezvous_allows env = true ↔
  ∃ head, json_env_head env = Some head ∧ eh_kind head = "pair" ∧
    ∀ payload, eh_payload head = Some payload → ¬ pin_hello payload.
Proof. apply rendezvous_allows_true. Qed.

(** Joining is decided by the set as it is when Redis runs the script: with
    at most two members in it, a device is told "joined" with exactly the members
    after it joined, itself among them and no more than two; a third device is told
    "full". *)
Theorem join_outcome {UO : UuidOps} {UL : UuidLaws} {P : Postgres} {R : RedisServer}
    {RL : RedisLaws} (rv_id : string) (device_id : Uuid) (w w' : World) (j : Join) :
  runs (join rv_id device_id) w (Some j) w' →
  ∃ t, w_rnow w <= t ∧ ∀ ms : gset Uuid,
    set_of (r_val (w_redis w) t (rv_key rv_id)) = Some (set_map hyphenated ms) →
    (size ms <= 2)%nat →
    if bool_decide (device_id ∈ ms ∨ size ms < 2)%nat
    then ∃ members, j = Joined (bool_decide (device_id ∉ ms)) members ∧
         (∀ d, d ∈ members ↔ d = device_id ∨ d ∈ ms) ∧ (size ({[device_id]} ∪ ms) <= 2)%nat
    else j = Full.
Proof.
  intros Hr. unfold join in Hr. apply runs_bind in Hr as (o & w1 & Hr & [Hj <-]).
  destruct o as [reply|]; [|done]. cbn in Hj. injection Hj as <-.
  apply (proj1 (runs_perform _ _ _ _)) in Hr as [i Hr].
  apply exec_redis_Some in Hr as (s & Hr & ->). cbn [w_rnow with_redis elapse] in Hr.
  eexists. split; [|intros ms Hms Hsz]; [|cbn [exec_redis] in Hr].
  { instantiate (1 := w_rnow w + Z.of_N (i_redis_elapsed i)). lia. }
  assert (∀ d, hyphenated d ∈ (set_map hyphenated ms : gset string) ↔ d ∈ ms) as Hin.
  { intros d. rewrite elem_of_map. split; [|eauto]. by intros (d' & ->%hyphenated_inj & ?). }
  assert (size (set_map hyphenated ms : gset string) = size ms) as Hsize.
  { apply size_set_map_inj, hyphenated_inj. }
  pose proof (join_script_joined _ _ _ _ _ _ _ _ (eq_refl : 0 < RV_TTL_SECS) Hms
    ltac:(lia) Hr) as Hjoin.
  rewrite Hsize in Hjoin.
  rewrite (bool_decide_ext (hyphenated device_id ∈ _ ∨ _) (device_id ∈ ms ∨ (size ms < 2)%nat))
    in Hjoin by (by rewrite Hin).
  case_bool_decide.
  - destruct Hjoin as ([= ->] & _ & Hle & _).
    exists (omap uuid_parse (r_order ({[hyphenated device_id]} ∪ set_map hyphenated ms))).
    split_and!.
    + f_equal. rewrite (bool_decide_ext (hyphenated device_id ∈ _) (device_id ∈ ms)) by apply Hin.
      rewrite bool_decide_not. by destruct (bool_decide (device_id ∈ ms)).
    + intros d. rewrite list_elem_of_omap. split.
      * intros (m & Hm & Hd). apply r_order_elements in Hm. apply elem_of_union in Hm as [Hm|Hm].
        -- apply elem_of_singleton in Hm as ->. rewrite uuid_parse_hyphenated in Hd.
           left. congruence.
        -- apply elem_of_map in Hm as (d' & -> & Hd'). rewrite uuid_parse_hyphenated in Hd.
           right. congruence.
      * intros Hd. exists (hyphenated d). split; [|apply uuid_parse_hyphenated].
        apply r_order_elements. destruct Hd as [->|Hd]; [set_solver|].
        apply elem_of_union. right. by apply Hin.
    + rewrite <-(size_set_map_inj hyphenated) by apply hyphenated_inj.
      by rewrite set_map_union_L, set_map_singleton_L.
  - destruct Hjoin as [[= ->] _]. done.
Qed.
