(* ===== verification/Push.v ===== *)
(** * Push: the push proxy ([relay-push])

    Kinds, reasons and payloads ([lib.rs], [payload.rs]), the verdicts on a
    provider's answer, and the APNs and FCM clients ([apns.rs], [fcm.rs]) as
    programs: the cached provider token, the send loop with its single renewal
    and single retry.  The loops run on fuel 3, which is enough: every turn that
    does not return sets one of the two flags. *)

From S2P Require Import Prelude Text Errors Externals Wire Tables Redis Usage Hub IO Pool Config.

Local Open Scope Z_scope.

(** [relay-push/src/lib.rs:18-25 Kind] *)
Inductive Kind : Type := KWake | KAlert.
#[export] Instance Kind_eq_dec : EqDecision Kind.
Proof. solve_decision. Defined.

(** [relay-push/src/lib.rs:27-36 Reason] *)
Inductive Reason : Type := UserOpen | SmsSend | CallAction | SmsNew | CallIncoming | CallMissed.
#[export] Instance Reason_eq_dec : EqDecision Reason.
Proof. solve_decision. Defined.

(** [relay-push/src/lib.rs:39-46 Reason::ALL] *)
Definition ALL_REASONS : list Reason :=
  [UserOpen; SmsSend; CallAction; SmsNew; CallIncoming; CallMissed].

(** [relay-push/src/lib.rs:52-61 Reason::as_str] *)
Definition reason_str (r : Reason) : string :=
  match r with
  | UserOpen => "user_open"
  | SmsSend => "sms_send"
  | CallAction => "call_action"
  | SmsNew => "sms_new"
  | CallIncoming => "call_incoming"
  | CallMissed => "call_missed"
  end.

(** [relay-push/src/lib.rs:48-50 Reason::parse] *)
Definition parse_reason (text : string) : option Reason :=
  snd <$> list_find (λ r, reason_str r = text) ALL_REASONS.

(** [relay-push/src/lib.rs:63-69 Reason::kind] *)
Definition reason_kind (r : Reason) : Kind :=
  match r with
  | UserOpen | SmsSend | CallAction => KWake
  | SmsNew | CallIncoming | CallMissed => KAlert
  end.

(** [relay-push/src/lib.rs:71-80 Reason::default_ttl_s] *)
Definition default_ttl_s (r : Reason) : Z :=
  match r with
  | SmsNew | CallMissed => 86400
  | CallIncoming => 30
  | UserOpen | SmsSend | CallAction => 60
  end.

(** [relay-push/src/lib.rs:83-93 Outcome] *)
Inductive Outcome : Type := Sent | TokenInvalid | TooLarge | Failed.
#[export] Instance Outcome_eq_dec : EqDecision Outcome.
Proof. solve_decision. Defined.

(** [relay-push/src/lib.rs:95-101 Wake] *)
Record Wake : Type := mkWake {
  wk_token : string;
  wk_pair_id : Uuid;
  wk_reason : Reason;
  wk_ttl_s : Z
}.

(** [relay-push/src/lib.rs:103-114 Alert] *)
Record Alert : Type := mkAlert {
  al_token : string;
  al_topic : string;
  al_sandbox : bool;
  al_pair_id : Uuid;
  al_reason : Reason;
  al_env_b64 : string;
  al_collapse_key : option string;
  al_ttl_s : Z
}.

(** [relay-push/src/payload.rs:11-12 APNS_MAX_PAYLOAD_BYTES] *)
Definition APNS_MAX_PAYLOAD_BYTES : Z := 4096.
(** [relay-push/src/payload.rs:13-14 FCM_WAKE_TTL_S] *)
Definition FCM_WAKE_TTL_S : Z := 60.

(** [relay-push/src/payload.rs:16-29 apns_presentation] *)
Definition apns_presentation (r : Reason) : option (string * string * string) :=
  match r with
  | SmsNew => Some ("push.sms_new", "active", "sms")
  | CallIncoming => Some ("push.call_incoming", "time-sensitive", "calls")
  | CallMissed => Some ("push.call_missed", "active", "calls")
  | UserOpen | SmsSend | CallAction => None
  end.

(** ** Answers of the providers *)

(** [relay-push/src/apns.rs:80-92 Verdict] *)
Inductive Verdict : Type := VSent | VUnregistered | VRenewToken | VRetry | VReject.
#[export] Instance Verdict_eq_dec : EqDecision Verdict.
Proof. solve_decision. Defined.

Definition is_str (o : option string) (s : string) : bool := bool_decide (o = Some s).

(** [relay-push/src/apns.rs:94-102 verdict] *)
Definition apns_verdict (status : Z) (reason : option string) : Verdict :=
  if status =? 200 then VSent
  else if status =? 410 then VUnregistered
  else if (status =? 403)
          && (is_str reason "ExpiredProviderToken" || is_str reason "InvalidProviderToken")
  then VRenewToken
  else if (status =? 500) || (status =? 503) then VRetry
  else VReject.

(** [relay-push/src/fcm.rs:82-90 verdict] *)
Definition fcm_verdict (status : Z) (error_code : option string) : Verdict :=
  if status =? 200 then VSent
  else if is_str error_code "UNREGISTERED" then VUnregistered
  else if status =? 401 then VRenewToken
  else if (status =? 500) || (status =? 503) then VRetry
  else VReject.

(** ** Clients *)

(** [relay-push/src/apns.rs:21-25 ProviderClaims] *)
Record ProviderClaims : Type := mkProviderClaims { pv_iss : string; pv_iat : Z }.

(** [relay-push/src/fcm.rs:34-41 AssertionClaims] *)
Record AssertionClaims : Type := mkAssertion {
  as_iss : string;
  as_scope : string;
  as_aud : string;
  as_iat : Z;
  as_exp : Z
}.

(** [relay-push/src/fcm.rs:49-52 FcmErrorBody]: the [status] and the
    [errorCode] of each detail. *)
Record FcmErrorBody : Type := mkFcmError {
  fe_status : option string;
  fe_details : list (option string)
}.

(** [jsonwebtoken] signing with a PEM key, and [serde_json] / [reqwest] on the
    bodies the clients exchange. *)
Class PushLib : Type := {
  es256_encode : bytes → string → ProviderClaims → option string;
  rs256_encode : bytes → AssertionClaims → option string;
  json_apns_error : string → option string;
  json_fcm_error : string → option FcmErrorBody;
  json_token_response : string → option (string * Z);
  form_urlencoded : list (string * string) → string
}.

(** [relay-push/src/apns.rs:109-115 ApnsClient] with its [ProviderToken]. *)
Record ApnsClient : Type := mkApnsClient {
  ap_production_url : string;
  ap_sandbox_url : string;
  ap_topic : string;
  ap_key : bytes;
  ap_key_id : string;
  ap_team_id : string
}.

(** [relay-push/src/fcm.rs:99-106 FcmClient] *)
Record FcmClient : Type := mkFcmClient {
  fm_send_url : string;
  fm_token_uri : string;
  fm_client_email : string;
  fm_key : bytes
}.

(** [relay-push/src/lib.rs:116-120 PushGateway] *)
Record PushGateway : Type := mkGateway { gw_apns : option ApnsClient; gw_fcm : option FcmClient }.

(** [relay-push/src/lib.rs:135-138 PushGateway::apns_topic] *)
Definition apns_topic (g : PushGateway) : option string := ap_topic <$> gw_apns g.

(** [relay-push/src/apns.rs:18-18 PROVIDER_TOKEN_REFRESH] *)
Definition PROVIDER_TOKEN_REFRESH : Z := secs (50 * 60).
(** [relay-push/src/apns.rs:19-19 RETRY_DELAY], in milliseconds. *)
Definition RETRY_DELAY : Z := 500.
Definition FCM_SCOPE : string := "https://www.googleapis.com/auth/firebase.messaging".
Definition GOOGLE_TOKEN_URI : string := "https://oauth2.googleapis.com/token".
Definition JWT_BEARER_GRANT : string := "urn:ietf:params:oauth:grant-type:jwt-bearer".
Definition ASSERTION_TTL_S : Z := 3600.
Definition RENEW_MARGIN_S : Z := 300.

(** [relay-push/src/fcm.rs:92-97 now_s] *)
Definition now_s : prog Z :=
  let! t := perform CNow in Ret (if t <? 0 then 0 else t / 1000).

Section Push.
Context {UO : UuidOps} {J : Json} {L : PushLib}.

(** [relay-push/src/payload.rs:31-45 apns_payload] *)
Definition apns_payload (r : Reason) (pair_id : Uuid) (env_b64 : string) : option Value :=
  '(loc_key, level, thread) ← apns_presentation r;
  Some (VObj [
    ("aps", VObj [
      ("alert", VObj [("loc-key", VStr loc_key)]);
      ("mutable-content", VNum 1);
      ("sound", VStr "default");
      ("thread-id", VStr thread);
      ("interruption-level", VStr level)]);
    ("p", VStr (hyphenated pair_id));
    ("hl", VStr env_b64)]).

(** [relay-push/src/payload.rs:47-65 fcm_message] *)
Definition fcm_message (token : string) (pair_id : Uuid) (r : Reason) (ttl_s : Z) : Value :=
  VObj [("message", VObj [
    ("token", VStr token);
    ("data", VObj [("t", VStr "wake"); ("p", VStr (hyphenated pair_id));
                   ("r", VStr (reason_str r))]);
    ("android", VObj [("priority", VStr "HIGH");
                      ("ttl", VStr (display_Z (Z.min ttl_s FCM_WAKE_TTL_S) +:+ "s"));
                      ("collapse_key", VStr "wake")])])].

(** *** APNs *)

(** [relay-push/src/apns.rs:49-63 ProviderToken::sign] *)
Definition apns_sign (c : ApnsClient) : prog (result string string) :=
  let! iat := now_s in
  pure (ok_or (es256_encode (ap_key c) (ap_key_id c) (mkProviderClaims (ap_team_id c) iat))
          "APNs provider token").

(** [relay-push/src/apns.rs:65-77 ProviderToken::get] *)
Definition apns_token (c : ApnsClient) (renew : bool) : prog (result string string) :=
  let! cached := perform (CTokenGet ProvApns) in
  let sign :=
    let* token := apns_sign c in
    let! now := perform CInstant in
    let! _ := perform (CTokenPut ProvApns token now) in
    pure (Ok token) in
  match cached with
  | Some (token, at_) =>
    if renew then sign
    else let! now := perform CInstant in
         if now - at_ <? PROVIDER_TOKEN_REFRESH then pure (Ok token) else sign
  | None => sign
  end.

Definition apns_request (url : string) (topic : string) (expiration : Z) (body : string)
    (collapse : option string) (jwt : string) : HttpRequest :=
  mkHttp url
    ([("authorization", "bearer " +:+ jwt); ("apns-push-type", "alert"); ("apns-topic", topic);
      ("apns-priority", "10"); ("apns-expiration", display_Z expiration);
      ("content-type", "application/json")]
     ++ match collapse with Some k => [("apns-collapse-id", k)] | None => [] end) body.

(** The loop of a send; [None] when the fuel is used up. *)
Section Loop.
Context (get_token : bool → prog (result string string))
        (request : string → HttpRequest)
        (reason_of : string → option string)
        (verdict : Z → option string → Verdict).

(** [relay-push/src/apns.rs:153-212 ApnsClient::send, part] and
    [relay-push/src/fcm.rs:193-242 FcmClient::send, part]: the loops are the
    same up to their parameters. *)
Fixpoint send_loop (fuel : nat) (renewed retried : bool) : prog (option Outcome) :=
  match fuel with
  | O => Ret None
  | S fuel' =>
    let! t := get_token renewed in
    match t with
    | Err _ => Ret (Some Failed)
    | Ok jwt =>
      let! answer := perform (CHttp (request jwt)) in
      match answer with
      | None =>
        if retried then Ret (Some Failed)
        else let! _ := perform (CSleep RETRY_DELAY) in send_loop fuel' renewed true
      | Some (status, body) =>
        let reason := if status =? 200 then None else reason_of body in
        match verdict status reason with
        | VSent => Ret (Some Sent)
        | VUnregistered => Ret (Some TokenInvalid)
        | VRenewToken =>
          if renewed then Ret (Some Failed) else send_loop fuel' true retried
        | VRetry =>
          if retried then Ret (Some Failed)
          else let! _ := perform (CSleep RETRY_DELAY) in send_loop fuel' renewed true
        | VReject => Ret (Some Failed)
        end
      end
    end
  end.
End Loop.

Definition loop_fuel : nat := 3.

(** [relay-push/src/apns.rs:134-213 ApnsClient::send]; the time is read before
    the loop. *)
Definition apns_send (c : ApnsClient) (alert : Alert) : prog (option Outcome) :=
  match apns_payload (al_reason alert) (al_pair_id alert) (al_env_b64 alert) with
  | None => Ret (Some Failed)
  | Some payload =>
    let body := json_text payload in
    if Z.of_nat (str_len body) >? APNS_MAX_PAYLOAD_BYTES then Ret (Some TooLarge)
    else
      let base := if al_sandbox alert then ap_sandbox_url c else ap_production_url c in
      let url := base +:+ "/3/device/" +:+ al_token alert in
      let! now := now_s in
      let expiration := now + al_ttl_s alert in
      send_loop (apns_token c)
        (apns_request url (al_topic alert) expiration body (al_collapse_key alert))
        json_apns_error apns_verdict loop_fuel false false
  end.

(** *** FCM *)

(** [relay-push/src/fcm.rs:132-143 FcmClient::assertion] *)
Definition fcm_assertion (c : FcmClient) : prog (result string string) :=
  let! iat := now_s in
  pure (ok_or (rs256_encode (fm_key c)
                 (mkAssertion (fm_client_email c) FCM_SCOPE (fm_token_uri c) iat
                    (iat + ASSERTION_TTL_S))) "FCM assertion").

(** [expires_in.saturating_sub(RENEW_MARGIN_S).max(60)] *)
Definition token_valid_s (expires_in : Z) : Z := Z.max (Z.max (expires_in - RENEW_MARGIN_S) 0) 60.

(** A request for an access token. *)
Definition fcm_token_request (c : FcmClient) (body : string) : HttpRequest :=
  mkHttp (fm_token_uri c) [("content-type", "application/x-www-form-urlencoded")] body.

(** [relay-push/src/fcm.rs:155-179 FcmClient::access_token, part]: a new access token,
    put into the cache. *)
Definition fcm_fetch (c : FcmClient) : prog (result string string) :=
  let* assertion := fcm_assertion c in
  let form := [("grant_type", JWT_BEARER_GRANT); ("assertion", assertion)] in
  let! answer := perform (CHttp (fcm_token_request c (form_urlencoded form))) in
  match answer with
  | None => pure (Err "FCM token request failed")
  | Some (status, body) =>
    if negb ((200 <=? status) && (status <? 300))
    then pure (Err ("FCM token request refused: status " +:+ display_Z status))
    else match json_token_response body with
         | None => pure (Err "FCM token response unreadable")
         | Some (token, expires_in) =>
           let! now := perform CInstant in
           let! _ := perform (CTokenPut ProvFcm token (now + secs (token_valid_s expires_in))) in
           pure (Ok token)
         end
  end.

(** [relay-push/src/fcm.rs:145-180 FcmClient::access_token] *)
Definition fcm_access_token (c : FcmClient) (renew : bool) : prog (result string string) :=
  let! cached := perform (CTokenGet ProvFcm) in
  match cached with
  | Some (token, refresh_at) =>
    if renew then fcm_fetch c
    else let! now := perform CInstant in
         if now <? refresh_at then pure (Ok token) else fcm_fetch c
  | None => fcm_fetch c
  end.

(** The error code of an FCM answer: the first detail that has one, else the
    status. *)
Definition fcm_code (body : string) : option string :=
  e ← json_fcm_error body;
  match omap id (fe_details e) with
  | code :: _ => Some code
  | [] => fe_status e
  end.

(** [relay-push/src/fcm.rs:182-243 FcmClient::send] *)
Definition fcm_send (c : FcmClient) (wake : Wake) : prog (option Outcome) :=
  let body := json_text (fcm_message (wk_token wake) (wk_pair_id wake) (wk_reason wake)
                           (wk_ttl_s wake)) in
  send_loop (fcm_access_token c)
    (λ access, mkHttp (fm_send_url c)
       [("authorization", "Bearer " +:+ access); ("content-type", "application/json")] body)
    fcm_code fcm_verdict loop_fuel false false.

(** *** Gateway *)

(** An outcome that ran out of fuel never happens ([send_loop_fuel]). *)
Definition outcome_of (o : option Outcome) : Outcome := default Failed o.

(** [relay-push/src/lib.rs:140-148 PushGateway::wake] *)
Definition gateway_wake (g : PushGateway) (push : Wake) : prog Outcome :=
  match gw_fcm g with
  | Some fcm => let! o := fcm_send fcm push in Ret (outcome_of o)
  | None => Ret Failed
  end.

(** [relay-push/src/lib.rs:150-158 PushGateway::alert] *)
Definition gateway_alert (g : PushGateway) (push : Alert) : prog Outcome :=
  match gw_apns g with
  | Some apns => let! o := apns_send apns push in Ret (outcome_of o)
  | None => Ret Failed
  end.
End Push.

(** ** Lemmas *)

Section LoopLemmas.
Context {P : Postgres} {R : RedisServer}.
Context (get_token : bool → prog (result string string)) (request : string → HttpRequest)
        (reason_of : string → option string) (verdict : Z → option string → Verdict).

Definition flags_left (renewed retried : bool) : nat :=
  S ((if renewed then 0 else 1) + (if retried then 0 else 1)).

(** Enough fuel for the flags that are still unset. *)
Lemma send_loop_fuel fuel renewed retried w o w' :
  (flags_left renewed retried <= fuel)%nat →
  runs (send_loop get_token request reason_of verdict fuel renewed retried) w o w' → is_Some o.
Proof.
  revert renewed retried w. induction fuel as [|fuel IH]; intros renewed retried w Hf.
  { unfold flags_left in Hf. lia. }
  cbn [send_loop]. rewrite runs_bind. intros ([jwt|e] & w1 & _ & Hr).
  2: { apply runs_Ret in Hr as [<- _]. eauto. }
  apply runs_bind in Hr as (answer & w2 & _ & Hr).
  assert (∀ renewed', (if retried then renewed' = renewed' else True) →
    retried = false → renewed' = renewed →
    runs (let! _ := perform (CSleep RETRY_DELAY) in
          send_loop get_token request reason_of verdict fuel renewed' true) w2 o w' → is_Some o) as Hretry.
  { intros ? _ -> -> H. apply runs_bind in H as (? & w3 & _ & H). eapply IH; [|exact H].
    unfold flags_left in *. destruct renewed; lia. }
  destruct answer as [[status body]|].
  - destruct (verdict status _); try (apply runs_Ret in Hr as [<- _]; by eauto).
    + destruct renewed; [apply runs_Ret in Hr as [<- _]; by eauto|].
      eapply IH; [|exact Hr]. unfold flags_left in *. destruct retried; lia.
    + destruct retried eqn:E; [apply runs_Ret in Hr as [<- _]; by eauto|]. by eapply Hretry.
  - destruct retried eqn:E; [apply runs_Ret in Hr as [<- _]; by eauto|]. by eapply Hretry.
Qed.

(** A provider answered the request with the status. *)
Definition answered (to : HttpRequest → Prop) (statuses : Z → Prop) (X : Type) (c : cmd X) :
    X → Prop :=
  match c in cmd X return X → Prop with
  | CHttp r => λ x, to r ∧ ∃ s body, x = Some (s, body) ∧ statuses s
  | _ => λ _, False
  end.

(** An outcome only a verdict gives needs an answer with that verdict. *)
Lemma send_loop_needs (o : Outcome) (v : Verdict) (to : HttpRequest → Prop) statuses fuel renewed retried :
  (o, v) = (Sent, VSent) ∨ (o, v) = (TokenInvalid, VUnregistered) →
  (∀ jwt, to (request jwt)) →
  (∀ s r, verdict s r = v → statuses s) →
  needs (λ r, r = Some o) (answered to statuses)
    (send_loop get_token request reason_of verdict fuel renewed retried).
Proof.
  intros Ho Hto Hv. revert renewed retried. induction fuel as [|fuel IH]; intros renewed retried.
  { cbn. by destruct Ho; simplify_eq. }
  cbn [send_loop]. apply needs_bind. intros [jwt|e]; [|cbn; by destruct Ho; simplify_eq].
  cbn. assert (∀ b b', needs (λ r, r = Some o) (answered to statuses)
    (send_loop get_token request reason_of verdict fuel b b')) as IH' by done.
  intros [[status body]|].
  - destruct (verdict status _) eqn:E.
    + destruct Ho; simplify_eq; [left|by right].
      split; [done|]. do 2 eexists. split; [done|]. by eapply Hv.
    + destruct Ho; simplify_eq; [by right|left].
      split; [done|]. do 2 eexists. split; [done|]. by eapply Hv.
    + right. destruct renewed; [|apply IH']. cbn. by destruct Ho; simplify_eq.
    + right. destruct retried; [cbn; by destruct Ho; simplify_eq|]. cbn.
      intros _. right. apply IH'.
    + right. cbn. by destruct Ho; simplify_eq.
  - right. destruct retried; [cbn; by destruct Ho; simplify_eq|]. cbn.
    intros _. right. apply IH'.
Qed.

Lemma send_loop_issues Q fuel renewed retried :
  (∀ b, issues Q (get_token b)) → (∀ jwt, Q _ (CHttp (request jwt))) →
  Q _ (CSleep RETRY_DELAY) →
  issues Q (send_loop get_token request reason_of verdict fuel renewed retried).
Proof.
  intros Ht Hr Hs. revert renewed retried. induction fuel as [|fuel IH]; intros renewed retried; [done|].
  cbn [send_loop]. apply issues_bind; [apply Ht|]. intros [jwt|e]; [|done].
  cbn. split; [done|]. intros [[status body]|].
  - destruct (verdict status _), renewed, retried; cbn; done || auto.
  - destruct retried; cbn; done || auto.
Qed.
End LoopLemmas.

(** The HTTP requests a test selects, and the test for an access token. *)
Definition asks (sel : HttpRequest → bool) (X : Type) (c : cmd X) : bool :=
  match c with CHttp r => sel r | _ => false end.
Definition authorized (r : HttpRequest) : bool :=
  existsb (λ h : string * string, String.eqb h.1 "authorization") (h_headers r).

Section SendLemmas.
Context {P : Postgres} {R : RedisServer} {UO : UuidOps} {J : Json} {L : PushLib}.

Lemma send_loop_at_most sel (s : bool) get_token request reason_of verdict n fuel renewed retried :
  (∀ b, at_most (asks sel) n (get_token b)) → (∀ jwt, sel (request jwt) = s) →
  at_most (asks sel) (fuel * (n + if s then 1 else 0))
    (send_loop get_token request reason_of verdict fuel renewed retried).
Proof.
  intros Ht Hs. revert renewed retried. induction fuel as [|fuel IH]; intros renewed retried; [done|].
  cbn [send_loop]. set (m := (fuel * (n + if s then 1 else 0))%nat) in *.
  replace (S fuel * (n + if s then 1 else 0))%nat with (n + ((if s then 1 else 0) + m))%nat by lia.
  apply at_most_bind; [apply Ht|]. intros [jwt|e]; [|done].
  apply (at_most_bind _ (if s then 1 else 0) m); [cbn; rewrite Hs; by destruct s|].
  intros [[status body]|].
  - destruct (verdict status _); try done.
    + destruct renewed; [done|apply IH].
    + destruct retried; [done|]. cbn. intros _. apply IH.
  - destruct retried; [done|]. cbn. intros _. apply IH.
Qed.

Lemma now_s_at_most G : at_most (asks G) 0 now_s.
Proof. done. Qed.

Lemma apns_token_at_most sel c renew : at_most (asks sel) 0 (apns_token c renew).
Proof.
  assert (at_most (asks sel) 0 (let* token := apns_sign c in
      let! now := perform CInstant in
      let! _ := perform (CTokenPut ProvApns token now) in pure (Ok token))) as Hs.
  { apply (at_most_bind_ok _ 0 0); [|done]. apply (at_most_bind _ 0 0); done. }
  unfold apns_token. cbn. intros [[token at_]|]; [|exact Hs].
  destruct renew; [exact Hs|]. cbn. intros now. destruct (_ <? _); [done|exact Hs].
Qed.

Lemma fcm_token_at_most sel (s : bool) c renew :
  (∀ body, sel (fcm_token_request c body) = s) →
  at_most (asks sel) (if s then 1 else 0) (fcm_access_token c renew).
Proof.
  intros Hs. assert (at_most (asks sel) (if s then 1 else 0) (fcm_fetch c)) as Hf.
  { apply (at_most_bind_ok _ 0); [by apply (at_most_bind _ 0 0)|]. intros assertion.
    replace (if s then 1 else 0)%nat with ((if s then 1 else 0) + 0)%nat by by destruct s.
    apply at_most_bind; [cbn; rewrite Hs; by destruct s|]. intros [[st body]|]; [|done].
    destruct (negb _); [done|]. by destruct (json_token_response body) as [[]|]. }
  apply (at_most_bind _ 0); [done|]. intros [[token at_]|]; [|exact Hf]. destruct renew; [exact Hf|].
  apply (at_most_bind _ 0); [done|]. intros now. destruct (_ <? _); [done|exact Hf].
Qed.

(** Which service each request of an FCM send goes to. *)
Definition fcm_addressed (c : FcmClient) (X : Type) (cm : cmd X) : Prop :=
  match cm with
  | CHttp r => h_url r = if authorized r then fm_send_url c else fm_token_uri c
  | _ => True
  end.

Lemma fcm_token_addressed c renew : issues (fcm_addressed c) (fcm_access_token c renew).
Proof.
  assert (issues (fcm_addressed c) (fcm_fetch c)) as Hf.
  { apply issues_bind_ok; [done|]. intros assertion. apply issues_bind; [done|].
    intros [[st body]|]; [|done].
    destruct (negb _); [done|]. by destruct (json_token_response body) as [[]|]. }
  apply issues_bind; [done|]. intros [[token at_]|]; [|exact Hf]. destruct renew; [exact Hf|].
  apply issues_bind; [done|]. intros now. destruct (_ <? _); [done|exact Hf].
Qed.

Lemma apns_send_cases c alert (Φ : prog (option Outcome) → Prop) :
  Φ (Ret (Some Failed)) → Φ (Ret (Some TooLarge)) →
  (∀ payload, apns_payload (al_reason alert) (al_pair_id alert) (al_env_b64 alert) = Some payload →
     Z.of_nat (str_len (json_text payload)) <= APNS_MAX_PAYLOAD_BYTES →
     Φ (let! now := now_s in
        send_loop (apns_token c)
          (apns_request
             ((if al_sandbox alert then ap_sandbox_url c else ap_production_url c)
              +:+ "/3/device/" +:+ al_token alert)
             (al_topic alert) (now + al_ttl_s alert) (json_text payload) (al_collapse_key alert))
          json_apns_error apns_verdict loop_fuel false false)) →
  Φ (apns_send c alert).
Proof.
  intros H1 H2 H3. unfold apns_send.
  destruct (apns_payload _ _ _) as [payload|]; [|done]. cbv zeta.
  destruct (Z.gtb_spec (Z.of_nat (str_len (json_text payload))) APNS_MAX_PAYLOAD_BYTES); [done|].
  by apply H3.
Qed.

Lemma apns_verdict_Sent s r : apns_verdict s r = VSent → s = 200.
Proof.
  unfold apns_verdict. destruct (Z.eqb_spec s 200); [done|].
  by repeat (destruct (_ : bool); try done).
Qed.
Lemma apns_verdict_Unregistered s r : apns_verdict s r = VUnregistered → s = 410.
Proof.
  unfold apns_verdict. destruct (s =? 200); [done|]. destruct (Z.eqb_spec s 410); [done|].
  by repeat (destruct (_ : bool); try done).
Qed.
Lemma fcm_verdict_Sent s r : fcm_verdict s r = VSent → s = 200.
Proof.
  unfold fcm_verdict. destruct (Z.eqb_spec s 200); [done|].
  by repeat (destruct (_ : bool); try done).
Qed.
End SendLemmas.

(** ** Concrete libraries *)

Module DemoPush.
Export DemoIO Demo.

(** A text that shows the tree, and no inbound frame. *)
Fixpoint show_value (v : Value) : string :=
  match v with
  | VNull => "null"
  | VBool b => if b then "true" else "false"
  | VNum z => display_Z z
  | VStr s => "<" +:+ s +:+ ">"
  | VArr l => "[" +:+ foldr (λ v acc, show_value v +:+ "," +:+ acc) "]" l
  | VObj fs => "{" +:+ foldr (λ '(k, v) acc, k +:+ ":" +:+ show_value v +:+ "," +:+ acc) "}" fs
  end.

#[export] Instance demo_json : Json := {| json_text := show_value; json_inbound _ := None |}.

#[export] Instance demo_push : PushLib := {|
  es256_encode _ kid c := Some (kid +:+ "/" +:+ pv_iss c +:+ "/" +:+ display_Z (pv_iat c));
  rs256_encode _ c := Some (as_iss c +:+ "/" +:+ display_Z (as_iat c));
  json_apns_error s := Some s;
  json_fcm_error s := Some (mkFcmError (Some s) []);
  json_token_response s := Some (s, 3600);
  form_urlencoded fs := Net.join_with "&" ((λ '(k, v), k +:+ "=" +:+ v) <$> fs)
|}.

Definition demo_apns : ApnsClient := mkApnsClient "https://p" "https://s" "app" [] "K" "T".
Definition demo_alert : Alert := mkAlert "aa" "app" false (arr_zero 16) SmsNew "ZW52" None 60.

(** A provider that refuses the token, then fails, then accepts; one second
    passes between the signatures. *)
Definition answers (n : nat) : Input :=
  {| i_wall := 1000 * Z.of_nat n; i_pg_elapsed := 0; i_redis_elapsed := 0; i_elapsed := 0;
     i_hub := []; i_fault := Fine; i_random := None; i_uuid := arr_zero 16; i_receivers := 0;
     i_subscribed := true; i_write := Written;
     i_http := Some (match n with
                     | 5%nat => (403, "ExpiredProviderToken")
                     | 10%nat => (500, "InternalServerError")
                     | _ => (200, EmptyString)
                     end) |}.
End DemoPush.

Lemma parse_reason_str (text : string) (r : Reason) :
  parse_reason text = Some r ↔ text = reason_str r.
Proof.
  unfold parse_reason. split.
  - intros H. apply fmap_Some in H as ([i r'] & H & ->).
    apply list_find_Some in H as (_ & <- & _). done.
  - intros ->. by destruct r.
Qed.

(** ** Properties *)

(** C38. Every push ends: whatever the providers answer, a send returns an outcome after
    at most three requests to APNs; or after at most three requests to FCM, those that
    carry an access token, and at most three for access tokens, all others. *)
Theorem sends_terminate {P : Postgres} {R : RedisServer} {UO : UuidOps} {J : Json} {L : PushLib}
    (apns : ApnsClient) (alert : Alert) (fcm : FcmClient) (wake : Wake) :
  (∀ w o w', runs (apns_send apns alert) w o w' → is_Some o) ∧
  (∀ w o w', runs (fcm_send fcm wake) w o w' → is_Some o) ∧
  at_most (asks (λ _, true)) 3 (apns_send apns alert) ∧
  at_most (asks authorized) 3 (fcm_send fcm wake) ∧
  at_most (asks (λ r, negb (authorized r))) 3 (fcm_send fcm wake) ∧
  issues (λ X c, match c with
                 | CHttp r => h_url r = if authorized r then fm_send_url fcm else fm_token_uri fcm
                 | _ => True
                 end) (fcm_send fcm wake).
Proof.
  split_and!.
  - intros w o w'. apply (apns_send_cases apns alert (λ p, runs p w o w' → is_Some o)).
    + intros [<- _]. eauto.
    + intros [<- _]. eauto.
    + intros payload _ _ Hr. apply runs_bind in Hr as (now & w1 & _ & Hr).
      eapply send_loop_fuel; [|exact Hr]. done.
  - intros w o w' Hr. eapply send_loop_fuel; [|exact Hr]. done.
  - apply (apns_send_cases apns alert (at_most _ 3)); [done..|]. intros payload _ _.
    apply (at_most_bind _ 0 3); [apply now_s_at_most|]. intros now.
    apply (send_loop_at_most _ true _ _ _ _ 0 3); [|done]. apply apns_token_at_most.
  - apply (send_loop_at_most _ true _ _ _ _ 0 3); [|done]. intros b. by apply (fcm_token_at_most _ false).
  - apply (send_loop_at_most _ false _ _ _ _ 1 3); [|done]. intros b. by apply (fcm_token_at_most _ true).
  - apply (send_loop_issues _ _ _ _ (fcm_addressed fcm)); [apply fcm_token_addressed|done|done].
Qed.

(** Outcomes are what the provider said: a send reports success only after
    a 200 to a request carrying this push, and APNs reports a dead token only
    after a 410 for this device token; every APNs body is at most 4,096 bytes. *)
Theorem apns_outcome_sound {UO : UuidOps} {J : Json} {L : PushLib} (c : ApnsClient)
    (alert : Alert) :
  let url := (if al_sandbox alert then ap_sandbox_url c else ap_production_url c)
             +:+ "/3/device/" +:+ al_token alert in
  let mine r := h_url r = url ∧
    apns_payload (al_reason alert) (al_pair_id alert) (al_env_b64 alert) ≠ None ∧
    Z.of_nat (str_len (h_body r)) <= APNS_MAX_PAYLOAD_BYTES in
  needs (λ o, o = Some Sent) (answered mine (λ s, s = 200)) (apns_send c alert) ∧
  needs (λ o, o = Some TokenInvalid) (answered mine (λ s, s = 410)) (apns_send c alert) ∧
  issues (λ X cm, match cm with CHttp r => mine r | _ => True end) (apns_send c alert).
Proof.
  intros url mine. split_and!.
  - apply (apns_send_cases c alert (needs _ _)); [done..|]. intros payload Hp Hl.
    apply needs_bind. intros now. eapply send_loop_needs; [by left| |].
    + intros jwt. unfold mine. cbn [h_url h_body apns_request]. rewrite Hp. done.
    + apply apns_verdict_Sent.
  - apply (apns_send_cases c alert (needs _ _)); [done..|]. intros payload Hp Hl.
    apply needs_bind. intros now. eapply send_loop_needs; [by right| |].
    + intros jwt. unfold mine. cbn [h_url h_body apns_request]. rewrite Hp. done.
    + apply apns_verdict_Unregistered.
  - apply (apns_send_cases c alert (issues _)); [done..|]. intros payload Hp Hl.
    apply issues_bind; [done|]. intros now. apply send_loop_issues; [| |done].
    + intros b. unfold apns_token, apns_sign. cbn. split; [done|].
      intros [[t a]|]; [destruct b|]; cbn; (split; [done|]); intros x.
      * destruct (es256_encode _ _ _); cbn; done.
      * destruct (_ <? _); cbn; [done|]. split; [done|]. intros t'.
        destruct (es256_encode _ _ _); cbn; done.
      * destruct (es256_encode _ _ _); cbn; done.
    + intros jwt. unfold mine. cbn [h_url h_body apns_request]. rewrite Hp. done.
Qed.

(** [Reason::parse] reads exactly the six reason names. *)
Theorem parse_reason_iff (text : string) (r : Reason) :
  parse_reason text = Some r ↔ text = reason_str r.
Proof. apply parse_reason_str. Qed.

Definition authorization_of (r : HttpRequest) : list string :=
  omap (λ '(k, v), if bool_decide (k = "authorization") then Some v else None) (h_headers r).

(** One send can sign two new provider tokens: after a renewal the flag
    stays set, so the retry of a failed request renews again although the token
    is fresh. *)
Theorem apns_send_renews_twice :
  ∃ (P : Postgres) (R : RedisServer) (UO : UuidOps) (J : Json) (L : PushLib)
    (c : ApnsClient) (alert : Alert) (env : nat → Input) (w : World),
    let '(o, w') := run (apns_send c alert) env w in
    o = Some Sent ∧ w_http w = [] ∧
    mjoin (authorization_of <$> w_http w') = ["bearer K/T/2"; "bearer K/T/7"; "bearer K/T/13"].
Proof.
  exists DemoPg.demo_pg, DemoRedis.demo_redis, Demo.demo_uuid, DemoPush.demo_json,
    DemoPush.demo_push, DemoPush.demo_apns, DemoPush.demo_alert, DemoPush.answers, DemoIO.world0.
  vm_compute. done.
Qed.
