(* ===== verification/Auth.v ===== *)
(** * Auth: access tokens, challenges and authenticated requests
    ([jwt.rs], [store/challenges.rs], [routes/auth.rs], [auth_extractor.rs],
    [state.rs])

    A device asks for a challenge, signs it and gets a token; the extractor
    turns a token back into a device that is still registered. *)

From stdpp Require Import relations.
From S2P Require Import Prelude Text Errors Externals Signatures Challenge Revocation Bus Tables.
From S2P Require Import Redis Scripts Usage Hub IO Pool Net Config Limits Push.

Local Open Scope Z_scope.

(** ** JWT ([jwt.rs]) *)

(** [jwt.rs:11-12 JWT_TTL_SECS] *)
Definition JWT_TTL_SECS : Z := 900.
(** [jwt.rs:13-14 MIN_SECRET_BYTES] *)
Definition MIN_SECRET_BYTES : nat := 32.

(** [jwt.rs:16-22 Claims] *)
Record Claims : Type := mkClaims { sub : string; iat : Z; exp : Z; jti : string }.

Inductive JwtError : Type := ExpiredSignature | OtherJwtError.

(** [jsonwebtoken] with HS256, no leeway and the claims [exp] and [sub]
    required; [jwt_decode] is given the time in seconds. *)
Class JwtLib : Type := {
  jwt_encode : bytes → Claims → option string;
  jwt_decode : bytes → Z → string → result JwtError Claims
}.

(** A token decodes to the claims it was made of, until it expires. *)
Class JwtLaws {JW : JwtLib} : Prop := {
  jwt_decode_encode secret c now t : 0 <= exp c → jwt_encode secret c = Some t →
    jwt_decode secret now t = if exp c <? now then Err ExpiredSignature else Ok c
}.

(** [jwt.rs:24-29 JwtKeys] *)
Record JwtKeys : Type := mkJwtKeys { jk_secret : bytes }.

(** [jwt.rs:32-48 JwtKeys::from_secret] *)
Definition from_secret (secret : bytes) : result string JwtKeys :=
  if Nat.ltb (length secret) MIN_SECRET_BYTES
  then Err ("JWT secret must be at least " +:+ display_Z (Z.of_nat MIN_SECRET_BYTES) +:+ " bytes")
  else Ok (mkJwtKeys secret).

(** [state.rs:16-25 AppState]: what never changes while the relay runs; the
    connections and shared state are in the [World]. *)
Record AppState : Type := mkAppState {
  st_jwt : JwtKeys;
  st_settings : RelaySettings;
  st_push : PushGateway
}.

Section Jwt.
Context {UO : UuidOps} {JW : JwtLib}.

(** [jwt.rs:50-61 JwtKeys::issue] *)
Definition issue (keys : JwtKeys) (device_id : Uuid) (now_secs : Z) :
    prog (result ApiError (string * Z)) :=
  let! id := perform CUuidV4 in
  let claims := mkClaims (hyphenated device_id) now_secs (i64_wrap (now_secs + JWT_TTL_SECS))
                  (hyphenated id) in
  let* token := pure (ok_or (jwt_encode (jk_secret keys) claims) Internal) in
  pure (Ok (token, JWT_TTL_SECS)).

(** [jwt.rs:63-76 JwtKeys::verify] at [now_secs]. *)
Definition verify_at (keys : JwtKeys) (now_secs : Z) (token : string) : result ApiError Uuid :=
  let? data := map_err (λ e, match e with
                             | ExpiredSignature => TokenExpired
                             | OtherJwtError => SignatureInvalid
                             end) (jwt_decode (jk_secret keys) now_secs token) in
  ok_or (uuid_parse (sub data)) SignatureInvalid.

(** [jwt.rs:63-76 JwtKeys::verify]; the library reads the clock. *)
Definition verify (keys : JwtKeys) (token : string) : prog (result ApiError Uuid) :=
  let! t := perform CNow in Ret (verify_at keys (t / 1000) token).
End Jwt.

(** ** Challenges in Redis ([store/challenges.rs]) *)

Section Challenges.
Context {UO : UuidOps} {B64 : Base64}.

(** [store/challenges.rs:14-21 challenge_key] *)
Definition challenge_key (device_id : Uuid) (challenge : arr 32) : string :=
  "chal:" +:+ hyphenated device_id +:+ ":" +:+ encode (arr_bytes challenge).

(** [store/challenges.rs:27-37 put] *)
Definition put (device_id : Uuid) (challenge : arr 32) : prog (option unit) :=
  perform (CRedis (RSetEx (challenge_key device_id challenge) (encode (arr_bytes challenge))
                     CHALLENGE_TTL_SECS)).

(** [store/challenges.rs:39-46 take] *)
Definition take_challenge (device_id : Uuid) (challenge : arr 32) : prog (option (option string)) :=
  perform (CRedis (RGetDel (challenge_key device_id challenge))).
End Challenges.

(** [challenge.rs:16-22 generate] *)
Definition generate : prog (result ApiError (arr 32)) :=
  or_internal (perform (CRandom 32)).

(** ** Routes ([routes/auth.rs]) *)

(** [routes/auth.rs:19-22 ChallengeRequest] *)
Record ChallengeRequest : Type := mkChallengeRequest { cr_device_id : Uuid }.

(** [routes/auth.rs:24-29 TokenRequest] *)
Record TokenRequest : Type := mkTokenRequest {
  tr_device_id : Uuid;
  tr_challenge : string;
  tr_sig : string
}.

(** [routes/auth.rs:31-40 usable_key] *)
Definition usable_key (found : option DeviceKey) : result ApiError (arr 32) :=
  let? key := ok_or found DeviceNotFound in
  if dk_revoked key then Err DeviceRevoked else ok_or (arr_of 32 (dk_ik_sig_pub key)) Internal.

Section Routes.
Context {C : Crypto} {B64 : Base64} {UO : UuidOps} {JW : JwtLib}.

(** [routes/auth.rs:42-54 check_token_proof] *)
Definition check_token_proof (stored_challenge : option string) (req : TokenRequest)
    (sig : arr 64) (found : option DeviceKey) : result ApiError unit :=
  let? challenge := accept_presented stored_challenge (tr_challenge req) in
  let? ik_sig_pub := usable_key found in
  verify_device_signature (tr_device_id req) ik_sig_pub
    (auth_message challenge (tr_device_id req)) sig.

(** [routes/auth.rs:56-83 challenge] *)
Definition challenge (state : AppState) (http : Request) (body : ChallengeRequest) :
    prog (result ApiError HttpResponse) :=
  let ip := request_ip http (trusted_proxies (st_settings state)) in
  let* _ := check_auth_ip ip in
  let device_id := cr_device_id body in
  let* _ := check_challenge_quota device_id ip in
  let* found := or_internal (perform (CSql (QFindKey device_id))) in
  let* _ := pure (usable_key found) in
  let! now := now_ms in
  let* challenge := generate in
  let* _ := or_internal (put device_id challenge) in
  pure (Ok (resp_json 200 (VObj [
    ("challenge", VStr (encode (arr_bytes challenge)));
    ("expires_at", VNum (i64_wrap (now + CHALLENGE_TTL_SECS * 1000)))]))).

(** [routes/auth.rs:85-120 token] *)
Definition token (state : AppState) (http : Request) (req : TokenRequest) :
    prog (result ApiError HttpResponse) :=
  let ip := request_ip http (trusted_proxies (st_settings state)) in
  let* _ := check_auth_ip ip in
  let* sig := pure (decode_field 64 (tr_sig req)) in
  let* presented := pure (ok_or (decode_fixed 32 (tr_challenge req)) ChallengeExpired) in
  let* stored := or_internal (take_challenge (tr_device_id req) presented) in
  let* _ := pure (guard (bool_decide (stored = None)) ChallengeExpired) in
  let* found := or_internal (perform (CSql (QFindKey (tr_device_id req)))) in
  let* _ := pure (check_token_proof stored req sig found) in
  let* _ := or_internal (perform (CSql (QTouchLastSeen (tr_device_id req)))) in
  let! now := now_ms in
  let* (access_token, expires_in) := issue (st_jwt state) (tr_device_id req) (Z.quot now 1000) in
  pure (Ok (resp_json 200 (VObj [("access_token", VStr access_token);
                                 ("expires_in", VNum expires_in)]))).

(** ** The extractor ([auth_extractor.rs]) *)

(** [auth_extractor.rs:26-37 bearer_token] *)
Definition bearer_token (header : option string) : result ApiError string :=
  let? value := ok_or header SignatureInvalid in
  let? (scheme, token) := ok_or (split_once (byte_of_Z 0x20) value) SignatureInvalid in
  if negb (eq_ignore_ascii_case scheme "bearer") || str_is_empty (trim token)
  then Err SignatureInvalid else Ok (trim token).

(** [auth_extractor.rs:43-58 from_request]: the device of the token, still
    registered and not revoked. *)
Definition from_request (state : AppState) (http : Request) : prog (result ApiError Uuid) :=
  let* token := pure (bearer_token (rq_authorization http)) in
  let* device_id := verify (st_jwt state) token in
  let* found := or_internal (perform (CSql (QFindKey device_id))) in
  let* _ := pure (usable_key found) in
  pure (Ok device_id).
End Routes.

(** ** Lemmas *)

Lemma usable_key_Ok found ik :
  usable_key found = Ok ik ↔ found = Some (mkDeviceKey (arr_bytes ik) false).
Proof.
  unfold usable_key. split.
  - destruct found as [[l []]|]; cbn [ok_or rbind dk_revoked dk_ik_sig_pub]; [done| |done].
    intros H%ok_or_Ok%arr_of_Some. by subst.
  - intros ->. rsimpl. cbn [dk_revoked dk_ik_sig_pub]. by rewrite arr_of_bytes.
Qed.

Section AuthLemmas.
Context {C : Crypto} {CL : CryptoLaws} {B64 : Base64} {UO : UuidOps} {JW : JwtLib}.

Lemma check_token_proof_Ok stored req sig found u :
  check_token_proof stored req sig found = Ok u ↔
  ∃ s c ik, stored = Some s ∧ decode_fixed 32 s = Some c ∧
    decode_fixed 32 (tr_challenge req) = Some c ∧
    found = Some (mkDeviceKey (arr_bytes ik) false) ∧
    signed_by (tr_device_id req) ik (auth_message c (tr_device_id req)) sig.
Proof.
  unfold check_token_proof. split.
  - intros (c & H1 & (ik & H2 & H)%rbind_Ok)%rbind_Ok.
    apply accept_presented_Ok in H1 as (s & ? & ? & ?).
    apply usable_key_Ok in H2. apply verify_device_signature_Ok in H. eauto 10.
  - intros (s & c & ik & -> & Hs & Hc & -> & Hsig).
    rewrite (proj2 (accept_presented_Ok (Some s) _ c)) by eauto. rsimpl.
    rewrite (proj2 (usable_key_Ok _ _) eq_refl). rsimpl.
    by apply verify_device_signature_Ok.
Qed.

Lemma check_token_proof_Err stored req sig found e :
  check_token_proof stored req sig found = Err e →
  e = ChallengeExpired ∨ e = DeviceNotFound ∨ e = DeviceRevoked ∨ e = Internal ∨
  e = SignatureInvalid.
Proof.
  unfold check_token_proof. intros [H|(c & _ & [H|(k & _ & H)]%rbind_Err)]%rbind_Err.
  - left. by eapply accept_presented_Err.
  - unfold usable_key in H. result_inv; auto. case_match; result_inv; auto.
  - apply verify_device_signature_Err in H. auto.
Qed.

End AuthLemmas.

(** ** What the handlers touch *)

Section AuthFrames.
Context {UO : UuidOps} {B64 : Base64} {JW : JwtLib}.

Lemma check_auth_ip_issues (Q : ∀ X, cmd X → Prop) ip :
  (∀ k, Q _ (CRedis (RIncrWindow ("rl:" +:+ k) RATE_LIMIT_TTL_SECS))) → Q _ CNow →
  issues Q (check_auth_ip ip).
Proof.
  intros HQ Hn. destruct ip as [ip|]; [|done]. cbn. split; [done|]. intros t. split; [done|].
  intros t'. split; [apply (HQ ("ip:" +:+ _))|]. by intros [n|].
Qed.

Lemma challenge_key_not_rl device c k : challenge_key device c ≠ "rl:" +:+ k.
Proof. by cbn. Qed.

Lemma check_auth_ip_leaves device c ip :
  issues (leaves (challenge_key device c)) (check_auth_ip ip).
Proof.
  apply check_auth_ip_issues; [|done]. intros k. split; [done|]. cbn [redis_writes].
  rewrite list_elem_of_singleton. apply challenge_key_not_rl.
Qed.

Lemma check_challenge_quota_no_sql d ip : issues no_sql (check_challenge_quota d ip).
Proof. cbn. split; [done|]. intros t. split; [done|]. intros t'. split; [done|]. by intros [n|]. Qed.

Lemma check_auth_ip_no_sql ip : issues no_sql (check_auth_ip ip).
Proof. by apply check_auth_ip_issues. Qed.
End AuthFrames.

Section AuthErrors.
Context {UO : UuidOps} {P : Postgres} {R : RedisServer}.

Lemma count_minute_Err key limit w e w' :
  runs (count_minute key limit) w (Err e) w' → e = Internal ∨ ∃ s, e = RateLimited s.
Proof.
  intros (now & w1 & _ & Hr)%runs_bind.
  apply runs_bind_ok in Hr as [(n & w2 & _ & [Hr _])|(e' & Hr & [= ->])].
  - unfold rate_limit_decision in Hr. destruct (n <=? limit); simplify_eq. eauto.
  - apply runs_internal_Err in Hr. by left.
Qed.

Lemma check_auth_ip_Err ip w e w' :
  runs (check_auth_ip ip) w (Err e) w' → e = Internal ∨ ∃ s, e = RateLimited s.
Proof.
  destruct ip as [ip|]; [|by intros [? _]].
  intros (now & w1 & _ & Hr)%runs_bind. by eapply count_minute_Err.
Qed.
End AuthErrors.

(** ** The single use of a challenge *)

Section SingleUse.
Context {C : Crypto} {B64 : Base64} {UO : UuidOps} {JW : JwtLib} {P : Postgres}
        {R : RedisServer}.

(** The challenge under [key] was taken by this command. *)
Definition takes (key : string) (X : Type) (c : cmd X) : X → Prop :=
  match c in cmd X return X → Prop with
  | CRedis q =>
    match q in redis A return option A → Prop with
    | RGetDel k => λ o, k = key ∧ ∃ v, o = Some (Some v)
    | _ => λ _, False
    end
  | _ => λ _, False
  end.

(** A command that takes it or does not write it. *)
Definition take_cmd (key : string) (X : Type) (c : cmd X) : Prop :=
  leaves key X c ∨ match c with CRedis (RGetDel k) => k = key | _ => False end.

Lemma leaves_not_takes key X c x : leaves key X c → ¬ takes key X c x.
Proof.
  destruct c; simpl; try tauto. destruct q; simpl; try tauto.
  intros [_ Hk] [-> _]. set_solver.
Qed.

Lemma token_needs state http req d c :
  tr_device_id req = d → decode_fixed 32 (tr_challenge req) = Some c →
  needs succeeds (takes (challenge_key d c)) (token state http req).
Proof.
  intros <- Hc. unfold token. rewrite Hc.
  apply needs_bind_ok. intros _. apply needs_bind_ok. intros sig. cbn.
  intros [[v|]|]; cbn; [by eauto| |]; right; by intros [a [=]].
Qed.

Lemma token_issues state http req d c :
  issues (take_cmd (challenge_key d c)) (token state http req).
Proof.
  unfold token. apply issues_bind_ok.
  { eapply issues_impl; [|apply (check_auth_ip_leaves d c)]. intros; by left. }
  intros _. apply issues_bind_ok; [done|]. intros sig. apply issues_bind_ok; [done|]. intros pr.
  apply issues_bind_ok.
  { split; [|by intros [o|]].
    destruct (decide (challenge_key (tr_device_id req) pr = challenge_key d c)); [by right|left].
    split; [done|]. cbn [redis_writes]. by rewrite list_elem_of_singleton. }
  intros stored. apply issues_bind_ok; [done|]. intros _.
  assert (∀ A (q : sql A), issues (take_cmd (challenge_key d c)) (or_internal (perform (CSql q)))) as Hq
    by (intros A q; split; [by left|done]).
  apply issues_bind_ok; [apply Hq|]. intros found. apply issues_bind_ok; [done|]. intros _.
  apply issues_bind_ok; [apply Hq|]. intros _. apply issues_bind; [by split; [left|]|]. intros now.
  apply issues_bind_ok; [|by intros [tok n]]. unfold issue. cbn.
  split; [by left|]. intros u. by destruct (jwt_encode _ _).
Qed.

Context {RL : RedisLaws}.

(** [n] tickets were handed out for the challenge: at most one, and then it is
    gone. *)
Definition taken (key : string) (w : World) (n : nat) : Prop :=
  n = O ∨ n = 1%nat ∧ r_val (w_redis w) (w_rnow w) key = None.

Lemma taken_step key X (c : cmd X) i w n :
  take_cmd key X c → taken key w n →
  let '(x, w') := exec i c w in
  ∃ m, taken key w' m ∧ (n <= m)%nat ∧ (takes key X c x → (S n <= m)%nat).
Proof.
  intros Hc Hn. destruct (exec i c w) as [x w'] eqn:E.
  assert (w_rnow w' = w_rnow w + Z.of_N (i_redis_elapsed i)) as Hnow
    by (rewrite <-(exec_rnow i c w), E; done).
  assert (∀ s, s = w_redis w → w_redis w' = s → taken key w' n) as Hsame.
  { intros s -> Hs. destruct Hn as [->|[-> Hv]]; [by left|]. right. split; [done|].
    rewrite Hs. apply (r_val_gone _ (w_rnow w)); [lia|done]. }
  destruct Hc as [Hl|Hc].
  - exists n. split_and!; [|done|intros Ht; by destruct (leaves_not_takes _ _ _ _ Hl Ht)].
    destruct Hn as [->|[-> Hv]]; [by left|right]. split; [done|].
    pose proof (leaves_frame key i c w (w_rnow w') Hl) as Hf. rewrite E in Hf. cbn [snd] in Hf.
    rewrite Hf by lia. apply (r_val_gone _ (w_rnow w)); [lia|done].
  - destruct c; try done. destruct q; try done. subst k.
    pose proof (exec_redis_cases i (RGetDel key) w) as Hx. cbv zeta in Hx. rewrite E, <-Hnow in Hx.
    destruct Hx as [[-> Hs]|[Hs Hx]].
    { exists n. split_and!; [by eapply Hsame|done|]. by intros (_ & v & [=]). }
    cbn [exec_redis] in Hs, Hx. unfold r_getdel, r_get in Hs, Hx.
    destruct (r_val (w_redis w) (w_rnow w') key) as [[v|m]|] eqn:Ev; cbn [fst snd] in *.
    + exists 1%nat. split_and!; [|destruct Hn; lia|].
      * right. split; [done|]. rewrite Hs. by apply r_val_del_same.
      * destruct Hn as [->|[-> Hv]]; [done|].
        pose proof (r_val_gone _ (w_rnow w) (w_rnow w') key ltac:(lia) Hv). congruence.
    + exists n. split_and!; [by eapply Hsame|done|]. intros (_ & v & ->). by destruct Hx.
    + exists n. split_and!; [by eapply Hsame|done|]. intros (_ & v & ->). by destruct Hx.
Qed.
End SingleUse.

(** ** Properties *)

(** C8. A token is issued only on proof: the presented challenge was pending in
    Redis for this device, the device is registered and not revoked, its stored
    key derives its id and signed [HLAUTH1] over exactly that challenge and id;
    the token names the device and lives 900 seconds. *)
Theorem token_requires_proof {C : Crypto} {CL : CryptoLaws} {B64 : Base64} {UO : UuidOps}
    {JW : JwtLib} {P : Postgres} {R : RedisServer} {RL : RedisLaws}
    (state : AppState) (http : Request) (req : TokenRequest) (w w' : World) (resp : HttpResponse) :
  runs (token state http req) w (Ok resp) w' →
  let device := tr_device_id req in
  ∃ sig c ik s t,
    decode_fixed 64 (tr_sig req) = Some sig ∧
    decode_fixed 32 (tr_challenge req) = Some c ∧ decode_fixed 32 s = Some c ∧
    w_rnow w <= t ∧ r_val (w_redis w) t (challenge_key device c) = Some (RStr s) ∧
    find_key device (w_db w) = Some (mkDeviceKey (arr_bytes ik) false) ∧
    signed_by device ik (auth_message c device) sig ∧
    ∃ now id tok,
      jwt_encode (jk_secret (st_jwt state))
        (mkClaims (hyphenated device) now (i64_wrap (now + JWT_TTL_SECS)) (hyphenated id)) = Some tok ∧
      resp = resp_json 200 (VObj [("access_token", VStr tok); ("expires_in", VNum JWT_TTL_SECS)]).
Proof.
  intros Hr device. unfold token, decode_field in Hr. runs_inv.
  repeat match goal with H : ok_or _ _ = Ok _ |- _ => apply ok_or_Ok in H end.
  match goal with H : check_token_proof _ _ _ _ = Ok _ |- _ =>
    apply check_token_proof_Ok in H as (s & c & ik & -> & Hs & Hc & -> & Hsig) end.
  match goal with H : runs (or_internal (perform (CSql (QFindKey _)))) _ _ _ |- _ =>
    apply runs_sql_Ok in H as (i2 & db & Hf & ->) end.
  match goal with H : runs (check_auth_ip _) w _ ?wa |- _ =>
    pose proof (runs_no_sql _ _ _ _ (check_auth_ip_no_sql _) H) as Hdb;
    destruct (runs_leaves (challenge_key device c) _ _ _ _ (check_auth_ip_leaves device c _) H)
      as [Ht Hv] end.
  match goal with H : runs (or_internal (take_challenge _ _)) _ _ _ |- _ =>
    apply runs_redis_Ok in H as (i1 & st & Htk & ->) end.
  match goal with H : runs (issue _ _ _) _ (Ok ?p) _ |- _ =>
    unfold issue in H; destruct p as [tok ex] end.
  runs_inv. match goal with H : ok_or (jwt_encode _ _) _ = Ok _ |- _ => apply ok_or_Ok in H end.
  unfold exec_sql in Hf. injection Hf as Hf _. cbn [w_db with_redis elapse] in Hf. rewrite Hdb in Hf.
  apply r_getdel_Some in Htk as [Htk _]. cbn [w_rnow with_redis elapse] in Htk.
  rewrite Hv in Htk by lia.
  eexists _, _, ik, s, _. split_and!; [done|done|done| |exact Htk|done|done|eauto 6]. lia.
Qed.

(** C9. A challenge is used at most once: however the token requests [js] that
    present the same challenge of a device interleave with each other and with
    anything that does not store that challenge again, at most one of them gets a
    token. *)
Theorem challenge_single_use {C : Crypto} {B64 : Base64} {UO : UuidOps} {JW : JwtLib}
    {P : Postgres} {R : RedisServer} {RL : RedisLaws}
    (device : Uuid) (c : arr 32) (ps ps' : list (prog (result ApiError HttpResponse)))
    (w w' : World) (js : list nat) :
  Forall (issues (take_cmd (challenge_key device c))) ps →
  (∀ j p, ps !! j = Some p → j ∈ js → ∃ state http req,
     p = token state http req ∧ tr_device_id req = device ∧
     decode_fixed 32 (tr_challenge req) = Some c) →
  rtc pool_step (w, ps) (w', ps') →
  NoDup js → Forall (λ j, ∃ resp, ps' !! j = Some (Ret (Ok resp))) js →
  (length js <= 1)%nat.
Proof.
  intros Hq Hp Hr Hnd Hjs.
  edestruct (pool_tickets (succeeds (E := ApiError) (A := HttpResponse))
    (takes (challenge_key device c)) (taken (challenge_key device c))
    (take_cmd (challenge_key device c))) with (js := js) as (n & Hw & Hn).
  - done.
  - intros X cm i w1 n Hc Hw. by apply taken_step.
  - exact Hr.
  - exact Hq.
  - intros j p Hj Hin. destruct (Hp _ _ Hj Hin) as (st & http & req & -> & Hd & Hc).
    by apply token_needs.
  - by left.
  - exact Hnd.
  - eapply Forall_impl; [exact Hjs|]. intros j [a Ha]. exists (Ok a). split; [done|by exists a].
  - destruct Hw as [->|[-> _]]; lia.
Qed.

(** A failed proof burns the challenge: when a token request is answered
    with a token, or refused because of the device or its signature, the challenge
    it presented is gone from Redis. *)
Theorem proof_consumes_challenge {C : Crypto} {B64 : Base64} {UO : UuidOps}
    {JW : JwtLib} {P : Postgres} {R : RedisServer} {RL : RedisLaws}
    (state : AppState) (http : Request) (req : TokenRequest) (c : arr 32) (w w' : World)
    (r : result ApiError HttpResponse) :
  runs (token state http req) w r w' →
  decode_fixed 32 (tr_challenge req) = Some c →
  match r with Ok _ => True | Err e => e ∈ [DeviceNotFound; DeviceRevoked; SignatureInvalid] end →
  r_val (w_redis w') (w_rnow w') (challenge_key (tr_device_id req) c) = None.
Proof.
  intros Hr Hc He. unfold token in Hr. rewrite Hc in Hr.
  apply runs_bind_ok in Hr as [(u & w1 & _ & Hr)|(e & H & ->)].
  2: { apply check_auth_ip_Err in H as [->|[s ->]]; set_solver. }
  apply runs_bind_ok in Hr as [(sig & w2 & _ & Hr)|(e & [H _] & ->)].
  2: { apply ok_or_Err in H as [_ <-]. set_solver. }
  apply runs_bind_ok in Hr as [(pr & w3 & [Hv <-] & Hr)|(e & [H _] & ->)]; [|discriminate].
  cbn in Hv. injection Hv as <-.
  apply runs_bind_ok in Hr as [(stored & w4 & Ht & Hr)|(e & H & ->)].
  2: { apply runs_internal_Err in H as ->. set_solver. }
  apply runs_redis_Ok in Ht as (i & s & Ht & ->).
  apply runs_bind_ok in Hr as [(u' & w5 & [Hg <-] & Hr)|(e & [H _] & ->)].
  2: { apply guard_Err in H as [_ <-]. set_solver. }
  apply guard_Ok, bool_decide_eq_false in Hg. destruct stored as [v|]; [|done].
  cbn [w_rnow with_redis elapse exec_redis] in Ht. apply r_getdel_Some in Ht as [_ ->].
  assert (∀ A (q : sql A), issues (leaves (challenge_key (tr_device_id req) c))
    (or_internal (perform (CSql q)))) as Hq by done.
  apply (runs_leaves (challenge_key (tr_device_id req) c)) in Hr as [Hn Hf].
  - cbn [w_rnow w_redis with_redis elapse] in *.
    rewrite Hf by lia. apply r_val_del_same. lia.
  - apply issues_bind_ok; [apply Hq|]. intros found. apply issues_bind_ok; [done|]. intros _.
    apply issues_bind_ok; [apply Hq|]. intros _. apply issues_bind; [done|]. intros now.
    apply issues_bind_ok; [|by intros [tok n]]. unfold issue. cbn.
    split; [done|]. intros id. by destruct (jwt_encode _ _).
Qed.

(** C30. An issued token is accepted, for the device it was issued to, until it
    expires 900 seconds later, and then refused as expired. *)
Theorem issued_token_verifies {UO : UuidOps} {UL : UuidLaws} {JW : JwtLib} {JL : JwtLaws}
    {P : Postgres} {R : RedisServer}
    (keys : JwtKeys) (device : Uuid) (now : Z) (w w' : World) (tok : string) (n : Z) :
  0 <= now → now + JWT_TTL_SECS <= i64_max →
  runs (issue keys device now) w (Ok (tok, n)) w' →
  n = JWT_TTL_SECS ∧
  ∀ later, verify_at keys later tok =
    if now + JWT_TTL_SECS <? later then Err TokenExpired else Ok device.
Proof.
  intros H0 Hmax Hr. unfold issue in Hr. runs_inv.
  match goal with H : ok_or (jwt_encode _ _) _ = Ok _ |- _ => apply ok_or_Ok in H; rename H into He end.
  split; [done|]. intros later. unfold verify_at.
  rewrite i64_wrap_id in He by (unfold i64_ok, i64_min, i64_max, JWT_TTL_SECS in *; lia).
  pose proof (λ t H, jwt_decode_encode _ _ t _ H He) as Hd. cbn [exp] in Hd.
  rewrite Hd by (unfold JWT_TTL_SECS; lia).
  destruct (_ <? later); cbn [map_err rbind sub]; [done|]. by rewrite uuid_parse_hyphenated.
Qed.

(** The bearer token of a request, as the JWT library judges it at a wall-clock time the
    relay reads. *)
Definition presents {JW : JwtLib} (K : Input → Prop) (state : AppState) (http : Request)
    (judged : result JwtError Claims) : Prop :=
  ∃ token i, bearer_token (rq_authorization http) = Ok token ∧ K i ∧
    jwt_decode (jk_secret (st_jwt state)) (i_wall i / 1000) token = judged.

(** A valid token of the device [d]. *)
Definition presents_device {UO : UuidOps} {JW : JwtLib} (K : Input → Prop) (state : AppState)
    (http : Request) (d : Uuid) : Prop :=
  ∃ data, presents K state http (Ok data) ∧ uuid_parse (sub data) = Some d.

Lemma bearer_token_Err h e : bearer_token h = Err e → e = SignatureInvalid.
Proof.
  unfold bearer_token. destruct h as [v|]; rsimpl; [|by intros [= <-]].
  destruct (split_once _ v) as [[sch tok]|]; rsimpl; [|by intros [= <-]].
  by case_match; intros [= <-].
Qed.

(** The token is judged at the wall clock of one of the inputs. *)
Lemma runs_in_verify_at {UO : UuidOps} {JW : JwtLib} {P : Postgres} {R : RedisServer} K keys token w r w' :
  runs_in K (verify keys token) w r w' →
  w_db w' = w_db w ∧ ∃ i, K i ∧ verify_at keys (i_wall i / 1000) token = r.
Proof.
  intros (t & w1 & H & [<- <-])%runs_in_bind. apply runs_in_perform in H as (i & Hi & H).
  unfold exec in H. cbn [exec_now] in H. injection H as <- <-. split; [done|by exists i].
Qed.

Lemma runs_in_verify {UO : UuidOps} {JW : JwtLib} {P : Postgres} {R : RedisServer} K state http
    token w r w' :
  bearer_token (rq_authorization http) = Ok token →
  runs_in K (verify (st_jwt state) token) w r w' →
  w_db w' = w_db w ∧
  match r with
  | Ok d => presents_device K state http d
  | Err TokenExpired => presents K state http (Err ExpiredSignature)
  | Err SignatureInvalid => presents K state http (Err OtherJwtError) ∨
      ∃ data, presents K state http (Ok data) ∧ uuid_parse (sub data) = None
  | Err _ => False
  end.
Proof.
  intros Ht [Hdb (i & Hi & <-)]%runs_in_verify_at. split; [done|]. unfold verify_at.
  assert (presents K state http (jwt_decode (jk_secret (st_jwt state)) (i_wall i / 1000) token)) as Hp
    by (by exists token, i).
  destruct (jwt_decode _ _ token) as [data|[]]; rsimpl; [|exact Hp|by left].
  destruct (uuid_parse (sub data)) as [d|] eqn:E; rsimpl; [by exists data|right; by exists data].
Qed.

(** C29. An authenticated request: the extractor lets the device of a token through
    exactly if the token is valid when the relay reads its clock and the device is
    registered and not revoked; a missing, malformed or forged token is
    [SignatureInvalid], an expired one [TokenExpired], a valid one of a device without a
    row [DeviceNotFound], of a revoked one [DeviceRevoked]; an internal error means that
    the query was lost or the stored key is not 32 bytes; no other answer exists. *)
Theorem from_request_outcome {UO : UuidOps} {JW : JwtLib} {P : Postgres} {R : RedisServer}
    (K : Input → Prop) (state : AppState) (http : Request) (w w' : World) (r : result ApiError Uuid) :
  runs_in K (from_request state http) w r w' →
  w_db w' = w_db w ∧
  match r with
  | Ok d => presents_device K state http d ∧ ∃ row (ik : arr 32),
      devices (w_db w) !! d = Some row ∧ device_active row = true ∧ d_ik_sig_pub row = arr_bytes ik
  | Err SignatureInvalid => (∀ token, bearer_token (rq_authorization http) ≠ Ok token) ∨
      presents K state http (Err OtherJwtError) ∨
      ∃ data, presents K state http (Ok data) ∧ uuid_parse (sub data) = None
  | Err TokenExpired => presents K state http (Err ExpiredSignature)
  | Err DeviceNotFound => ∃ d, presents_device K state http d ∧ devices (w_db w) !! d = None
  | Err DeviceRevoked => ∃ d row, presents_device K state http d ∧
      devices (w_db w) !! d = Some row ∧ device_active row = false
  | Err Internal => ∃ d, presents_device K state http d ∧
      (lossy K ∨ ∃ row, devices (w_db w) !! d = Some row ∧ device_active row = true ∧
                        length (d_ik_sig_pub row) ≠ 32%nat)
  | Err _ => False
  end.
Proof.
  intros Hr. unfold from_request in Hr.
  apply runs_in_bind_ok in Hr as [(tok & w1 & [Ht <-] & Hr)|(e & [Ht <-] & ->)].
  2: { split; [done|]. rewrite (bearer_token_Err _ _ Ht). left. intros tok. by rewrite Ht. }
  apply runs_in_bind_ok in Hr as [(d & w2 & [Hdb Hd]%(runs_in_verify K state http tok) & Hr)|
    (e & [Hdb He]%(runs_in_verify K state http tok) & ->)]; [|done| |done].
  2: { split; [done|]. by destruct e; try right. }
  apply runs_in_bind_ok in Hr as [(found & w3 & Hf & Hr)|(e & Hf & ->)].
  - apply runs_in_runs, runs_sql_Ok in Hf as (i & db & Hf & ->). cbn [exec_sql] in Hf.
    injection Hf as <- <-. rewrite Hdb in Hr.
    assert (w_db w' = w_db w ∧ r = (let? _ := usable_key (find_key d (w_db w)) in Ok d)) as [-> ->].
    { apply runs_in_bind_ok in Hr as [(k & w4 & [Hk <-] & Hr)|(e & [Hk <-] & ->)]; rewrite Hk; [|done].
      by destruct Hr as [<- <-]. }
    split; [done|]. unfold find_key, usable_key.
    destruct (devices (w_db w) !! d) as [row|] eqn:Er; cbn [mbind option_bind]; rsimpl; [|by exists d].
    cbn [dk_revoked dk_ik_sig_pub]. destruct (device_active row) eqn:Ea; rsimpl; [|by exists d, row].
    destruct (arr_of 32 (d_ik_sig_pub row)) as [ik|] eqn:Ek; rsimpl.
    + apply arr_of_Some in Ek. split; [done|]. by exists row, ik.
    + exists d. split; [done|]. right. exists row. split_and!; [done|done|]. by apply arr_of_None.
  - apply runs_in_lost in Hf as (-> & Hdb' & Hl); [|by intros; split; [eexists|]].
    split; [by rewrite Hdb'|]. exists d. split; [done|by left].
Qed.

(** A challenge handed out is pending: for a registered device the answer
    carries fresh 32 bytes that stay in Redis, under their own key, for sixty
    seconds, and decode back to what the token endpoint takes. *)
Theorem challenge_pending {C : Crypto} {B64 : Base64} {BL : Base64Laws} {UO : UuidOps}
    {P : Postgres} {R : RedisServer} {RL : RedisLaws}
    (state : AppState) (http : Request) (body : ChallengeRequest) (w w' : World)
    (resp : HttpResponse) :
  runs (challenge state http body) w (Ok resp) w' →
  let device := cr_device_id body in
  ∃ c now ik,
    usable_key (find_key device (w_db w)) = Ok ik ∧
    resp = resp_json 200 (VObj [("challenge", VStr (encode (arr_bytes c)));
                                ("expires_at", VNum (i64_wrap (now + CHALLENGE_TTL_SECS * 1000)))]) ∧
    decode_fixed 32 (encode (arr_bytes c)) = Some c ∧
    ∀ t, w_rnow w' <= t → r_val (w_redis w') t (challenge_key device c) =
      if t <? w_rnow w' + 1000 * CHALLENGE_TTL_SECS then Some (RStr (encode (arr_bytes c))) else None.
Proof.
  intros Hr device. unfold challenge in Hr. runs_inv.
  match goal with H : runs (check_auth_ip _) w _ _ |- _ =>
    pose proof (runs_no_sql _ _ _ _ (check_auth_ip_no_sql _) H) as Hdb1 end.
  match goal with H : runs (check_challenge_quota _ _) _ _ _ |- _ =>
    pose proof (runs_no_sql _ _ _ _ (check_challenge_quota_no_sql _ _) H) as Hdb2 end.
  match goal with H : runs (or_internal (perform (CSql _))) _ _ _ |- _ =>
    apply runs_sql_Ok in H as (i & db & Hf & ->) end.
  unfold exec_sql in Hf. injection Hf as <- <-. rewrite Hdb2, Hdb1 in *.
  match goal with H : runs (or_internal (put _ _)) _ _ _ |- _ =>
    apply runs_redis_Ok in H as (i' & s & Hp & ->) end.
  cbn [exec_redis w_rnow with_redis elapse] in Hp. injection Hp as _ Hp.
  do 3 eexists. split_and!; [done|done|apply decode_fixed_encode|].
  intros t Ht. cbn [w_redis w_rnow with_redis elapse] in *.
  by rewrite <-Hp, r_val_setex, bool_decide_true by done.
Qed.
