(* ===== verification/Startup.v ===== *)
(** * Startup: from the environment to a listening relay
    ([main.rs], [state.rs], [relay-push/src/lib.rs], the constructors of the push clients)

    Starting is a sequence of fallible steps; what the host answers to each - key
    files, connections, migrations, the socket - is the record [Host], and the
    steps taken are logged, so that their order is part of the result.  Errors of
    a library are kept as the texts the host gives. *)

From S2P Require Import Prelude Text Errors Externals Signatures Attestation Revocation Challenge.
From S2P Require Import Wire Bus Tables Redis Scripts Usage Hub IO Pool Net Config Limits Presence.
From S2P Require Import Rendezvous Push Auth.

Local Open Scope Z_scope.

(** [relay-push/src/fcm.rs:26-32 ServiceAccount] *)
Record ServiceAccount : Type := mkServiceAccount {
  sa_client_email : string;
  sa_private_key : string;
  sa_token_uri : option string
}.

(** [jsonwebtoken] reading PEM keys, [serde_json] reading a service account. *)
Class KeyLib : Type := {
  ec_key_from_pem : bytes → option bytes;
  rsa_key_from_pem : bytes → option bytes;
  json_service_account : bytes → option ServiceAccount
}.

(** What the host answers. *)
Record Host : Type := mkHost {
  ho_env : Environment;
  ho_fresh_id : string;
  ho_wall_ms : Z;
  ho_file : string → result string bytes;
  ho_apns_http : result string unit;
  ho_fcm_http : result string unit;
  ho_postgres : result string unit;
  ho_redis_url : result string unit;
  ho_redis : result string unit;
  ho_pubsub : result string unit;
  ho_migrate : result string unit;
  ho_bind : result string unit
}.

(** The steps that reach outside the process. *)
Inductive BootStep : Type :=
| BReadFile (path : string)
| BPostgres (url : string)
| BRedisUrl (url : string)
| BRedis
| BPubSub
| BMigrate
| BSpawnJobs
| BBind (address : string).
#[export] Instance BootStep_eq_dec : EqDecision BootStep.
Proof. solve_decision. Defined.

(** ** A log of steps that stops at the first error *)

Definition boot (A : Type) : Type := list BootStep * result string A.
Definition bret {A} (r : result string A) : boot A := ([], r).
Definition bbind {A B} (m : boot A) (k : A → boot B) : boot B :=
  match m.2 with
  | Ok a => let n := k a in (m.1 ++ n.1, n.2)
  | Err e => (m.1, Err e)
  end.
Notation "'let&' x ':=' m 'in' k" := (bbind m (λ x, k))
  (at level 10, x name, m at level 100, k at level 200) : relay_scope.

(** A step and the host's answer, an error prefixed as the code does. *)
Definition step {A} (s : BootStep) (prefix : string) (answer : result string A) : boot A :=
  ([s], map_err (λ e, prefix +:+ e) answer).
(** The same without a step outside the process. *)
Definition check {A} (prefix : string) (answer : result string A) : boot A :=
  ([], map_err (λ e, prefix +:+ e) answer).

Section Startup.
Context {L : PushLib} {K : KeyLib}.

(** [relay-push/src/http.rs:19-24 apns_client] *)
Definition apns_client (h : Host) : boot unit := check "apns http client: " (ho_apns_http h).
(** [relay-push/src/http.rs:26-30 fcm_client] *)
Definition fcm_client (h : Host) : boot unit := check "fcm http client: " (ho_fcm_http h).

(** [relay-push/src/apns.rs:36-47 ProviderToken::new]: the key, tried once. *)
Definition provider_token_new (now_s : Z) (pem : bytes) (key_id team_id : string) :
    result string bytes :=
  let? key := ok_or (ec_key_from_pem pem) "APNs key is not a PKCS#8 EC key" in
  let? _ := ok_or (es256_encode key key_id (mkProviderClaims team_id now_s)) "APNs provider token" in
  Ok key.

(** Seconds since the epoch, 0 before it. *)
Definition host_now_s (h : Host) : Z := if ho_wall_ms h <? 0 then 0 else ho_wall_ms h / 1000.

(** [relay-push/src/apns.rs:118-128 ApnsClient::new] *)
Definition apns_new (h : Host) (config : ApnsConfig) : boot ApnsClient :=
  let path := ac_key_path config in
  let& pem := step (BReadFile path) ("APNs key " +:+ path +:+ ": ") (ho_file h path) in
  let& _ := apns_client h in
  let& key := bret (provider_token_new (host_now_s h) pem (ac_key_id config) (ac_team_id config)) in
  bret (Ok (mkApnsClient (ac_production_url config) (ac_sandbox_url config) (ac_topic config)
              key (ac_key_id config) (ac_team_id config))).

(** [relay-push/src/fcm.rs:109-130 FcmClient::new] *)
Definition fcm_new (h : Host) (config : FcmConfig) : boot FcmClient :=
  let path := fc_service_account_path config in
  let& text := step (BReadFile path) ("FCM service account " +:+ path +:+ ": ") (ho_file h path) in
  let& account := bret (ok_or (json_service_account text)
    ("FCM service account " +:+ path +:+ ": not a service-account JSON")) in
  let& key := bret (ok_or (rsa_key_from_pem (str_bytes (sa_private_key account)))
    ("FCM service account " +:+ path +:+ ": private_key is not an RSA key")) in
  let& _ := fcm_client h in
  bret (Ok (mkFcmClient
    (fc_url config +:+ "/v1/projects/" +:+ fc_project_id config +:+ "/messages:send")
    (default GOOGLE_TOKEN_URI (sa_token_uri account)) (sa_client_email account) key)).

(** [Option::map(new).transpose()] *)
Definition configured {A B} (new : A → boot B) (config : option A) : boot (option B) :=
  match config with
  | Some c => let& client := new c in bret (Ok (Some client))
  | None => bret (Ok None)
  end.

(** [relay-push/src/lib.rs:123-133 PushGateway::new] *)
Definition gateway_new (h : Host) (config : PushConfig) : boot PushGateway :=
  let& apns := configured (apns_new h) (pc_apns config) in
  let& fcm := configured (fcm_new h) (pc_fcm config) in
  bret (Ok (mkGateway apns fcm)).

(** [relay/hub.rs:63-82 Hub::start]: an empty registry and the bus task on the
    pub/sub connection. *)
Definition hub_start (h : Host) : boot HubState :=
  let& _ := step BPubSub "redis pubsub: " (ho_pubsub h) in bret (Ok empty_hub).

(** The state of an instance that serves. *)
Record Started : Type := mkStarted { sd_state : AppState; sd_hub : HubState; sd_usage : Usage }.

(** [state.rs:30-54 AppState::connect] *)
Definition connect_state (h : Host) (config : Config) : boot Started :=
  let& jwt := bret (from_secret (c_jwt_secret config)) in
  let& push := gateway_new h (c_push config) in
  let& _ := step (BPostgres (c_database_url config)) "postgres connect: " (ho_postgres h) in
  let& _ := step (BRedisUrl (c_redis_url config)) "redis url: " (ho_redis_url h) in
  let& _ := step BRedis "redis connect: " (ho_redis h) in
  let& hub := hub_start h in
  bret (Ok (mkStarted (mkAppState jwt (c_settings config) push) hub ∅)).

(** [main.rs:11-38 main] *)
Definition main (h : Host) : boot Started :=
  let& config := bret (from_env (ho_env h) (ho_fresh_id h)) in
  let& started := connect_state h config in
  let& _ := step BMigrate "migrations: " (ho_migrate h) in
  let& _ := ([BSpawnJobs], Ok tt) in
  let& _ := step (BBind (c_bind config)) EmptyString (ho_bind h) in
  bret (Ok started).
End Startup.

(** ** Lemmas *)

(** [m] takes a prefix of the steps [l], all of them where it succeeds, and a
    success satisfies [G]. *)
Definition boots {A} (l : list BootStep) (G : A → Prop) (m : boot A) : Prop :=
  m.1 `prefix_of` l ∧ ∀ a, m.2 = Ok a → m.1 = l ∧ G a.

Lemma boots_bret {A} (G : A → Prop) (r : result string A) :
  (∀ a, r = Ok a → G a) → boots [] G (bret r).
Proof. intros HG. split; [done|]. cbn. auto. Qed.

Lemma boots_step {A} (G : A → Prop) s pre (r : result string A) :
  (∀ a, r = Ok a → G a) → boots [s] G (step s pre r).
Proof. intros HG. split; [done|]. cbn. intros a Ha%map_err_Ok. auto. Qed.

Lemma boots_check {A} (G : A → Prop) pre (r : result string A) :
  (∀ a, r = Ok a → G a) → boots [] G (check pre r).
Proof. intros HG. split; [done|]. cbn. intros a Ha%map_err_Ok. auto. Qed.

Lemma boots_bind {A B} l1 l2 (G : A → Prop) (H : B → Prop) (m : boot A) (k : A → boot B) :
  boots l1 G m → (∀ a, G a → boots l2 H (k a)) → boots (l1 ++ l2) H (bbind m k).
Proof.
  intros [Hp Hm] Hk. unfold bbind. destruct m as [acts [a|e]]; cbn [fst snd] in *.
  - destruct (Hm a eq_refl) as [-> HG]. destruct (Hk a HG) as [Hp' Hk']. split; cbn [fst snd].
    + by apply prefix_app.
    + intros b Hb. destruct (Hk' b Hb) as [-> ?]. done.
  - split; cbn [fst snd]; [|done]. by apply prefix_app_r.
Qed.

Section StartupLemmas.
Context {L : PushLib} {K : KeyLib}.

(** The steps of a start that goes through. *)
Definition key_files (c : PushConfig) : list BootStep :=
  match pc_apns c with Some a => [BReadFile (ac_key_path a)] | None => [] end ++
  match pc_fcm c with Some f => [BReadFile (fc_service_account_path f)] | None => [] end.
Definition boot_sequence (c : Config) : list BootStep :=
  key_files (c_push c) ++
  [BPostgres (c_database_url c); BRedisUrl (c_redis_url c); BRedis; BPubSub; BMigrate; BSpawnJobs;
   BBind (c_bind c)].

(** An APNs client that answers to its configuration: the same topic and URLs, and a
    key from the configured file that has signed once. *)
Definition apns_ready (h : Host) (a : ApnsConfig) (c : ApnsClient) : Prop :=
  ap_topic c = ac_topic a ∧ ap_production_url c = ac_production_url a ∧
  ap_sandbox_url c = ac_sandbox_url a ∧
  ∃ pem, ho_file h (ac_key_path a) = Ok pem ∧ ec_key_from_pem pem = Some (ap_key c) ∧
    is_Some (es256_encode (ap_key c) (ap_key_id c)
               (mkProviderClaims (ap_team_id c) (host_now_s h))).

(** An FCM client that answers to its configuration: the send URL of the project, and
    the email, token URI and parsed key of the configured service account. *)
Definition fcm_ready (h : Host) (f : FcmConfig) (c : FcmClient) : Prop :=
  fm_send_url c = fc_url f +:+ "/v1/projects/" +:+ fc_project_id f +:+ "/messages:send" ∧
  ∃ text account, ho_file h (fc_service_account_path f) = Ok text ∧
    json_service_account text = Some account ∧ fm_client_email c = sa_client_email account ∧
    fm_token_uri c = default GOOGLE_TOKEN_URI (sa_token_uri account) ∧
    rsa_key_from_pem (str_bytes (sa_private_key account)) = Some (fm_key c).

Lemma boots_apns h a : boots [BReadFile (ac_key_path a)] (apns_ready h a) (apns_new h a).
Proof.
  unfold apns_new. apply (boots_bind [_] []  (λ pem, ho_file h (ac_key_path a) = Ok pem));
    [by apply boots_step|]. intros pem Hpem.
  apply (boots_bind [] [] (λ _, True)); [by apply boots_check|]. intros _ _.
  apply (boots_bind [] [] (λ key, provider_token_new (host_now_s h) pem (ac_key_id a)
    (ac_team_id a) = Ok key)); [by apply boots_bret|]. intros key Hkey. apply boots_bret.
  intros c [= <-]. unfold provider_token_new in Hkey. result_inv. split_and!; [done..|].
  exists pem. by split_and!.
Qed.

Lemma boots_fcm h f : boots [BReadFile (fc_service_account_path f)] (fcm_ready h f) (fcm_new h f).
Proof.
  unfold fcm_new. apply (boots_bind [_] [] (λ text, ho_file h (fc_service_account_path f) = Ok text));
    [by apply boots_step|]. intros text Htext.
  apply (boots_bind [] [] (λ acc, json_service_account text = Some acc)).
  { apply boots_bret. intros acc. apply ok_or_Ok. }
  intros acc Hacc.
  apply (boots_bind [] [] (λ key, rsa_key_from_pem (str_bytes (sa_private_key acc)) = Some key)).
  { apply boots_bret. intros key. apply ok_or_Ok. }
  intros key Hkey. apply (boots_bind [] [] (λ _, True)); [by apply boots_check|]. intros _ _.
  apply boots_bret. intros c [= <-]. split; [done|]. by exists text, acc.
Qed.

(** A provider is there exactly if it is configured. *)
Definition fits {A B} (ready : A → B → Prop) (config : option A) (client : option B) : Prop :=
  match config, client with
  | Some a, Some c => ready a c
  | None, None => True
  | _, _ => False
  end.

Lemma boots_configured {A B} (steps : A → list BootStep) (ready : A → B → Prop) (new : A → boot B) o :
  (∀ a, boots (steps a) (ready a) (new a)) →
  boots (match o with Some a => steps a | None => [] end) (fits ready o) (configured new o).
Proof.
  intros Hnew. destruct o as [a|]; cbn [configured]; [|apply boots_bret; by intros c [= <-]].
  rewrite <-(app_nil_r (steps a)). eapply boots_bind; [apply Hnew|]. intros c Hc.
  apply boots_bret. by intros c' [= <-].
Qed.

Definition gateway_ready (h : Host) (c : PushConfig) (g : PushGateway) : Prop :=
  fits (apns_ready h) (pc_apns c) (gw_apns g) ∧ fits (fcm_ready h) (pc_fcm c) (gw_fcm g).

Lemma boots_gateway h c : boots (key_files c) (gateway_ready h c) (gateway_new h c).
Proof.
  unfold gateway_new, key_files. eapply boots_bind.
  { apply (boots_configured (λ a, [BReadFile (ac_key_path a)])). intros a. apply boots_apns. }
  intros apns Ha. rewrite <-(app_nil_r (match pc_fcm c with Some _ => _ | None => _ end)).
  eapply boots_bind.
  { apply (boots_configured (λ f, [BReadFile (fc_service_account_path f)])).
    intros f. apply boots_fcm. }
  intros fcm Hf. apply boots_bret. by intros g [= <-].
Qed.

(** What a started instance is, for its configuration. *)
Definition started_from (h : Host) (c : Config) (s : Started) : Prop :=
  st_settings (sd_state s) = c_settings c ∧
  jk_secret (st_jwt (sd_state s)) = c_jwt_secret c ∧
  (MIN_SECRET_BYTES <= length (c_jwt_secret c))%nat ∧
  gateway_ready h (c_push c) (st_push (sd_state s)) ∧
  sd_hub s = empty_hub ∧ sd_usage s = ∅.

Lemma boots_connect h c :
  boots (key_files (c_push c) ++ [BPostgres (c_database_url c); BRedisUrl (c_redis_url c); BRedis; BPubSub])
    (started_from h c) (connect_state h c).
Proof.
  unfold connect_state.
  apply (boots_bind [] _ (λ jwt, jk_secret jwt = c_jwt_secret c ∧
    (MIN_SECRET_BYTES <= length (c_jwt_secret c))%nat)).
  { apply boots_bret. intros jwt. unfold from_secret. destruct (Nat.ltb_spec (length (c_jwt_secret c)) MIN_SECRET_BYTES); [done|].
    by intros [= <-]. }
  intros jwt [Hj Hlen]. eapply boots_bind; [apply boots_gateway|]. intros push Hpush.
  apply (boots_bind [_] [_; _; _] (λ _, True)); [by apply boots_step|]. intros _ _.
  apply (boots_bind [_] [_; _] (λ _, True)); [by apply boots_step|]. intros _ _.
  apply (boots_bind [_] [_] (λ _, True)); [by apply boots_step|]. intros _ _.
  apply (boots_bind [_] [] (λ hub, hub = empty_hub)).
  { apply (boots_bind [_] [] (λ _, True)); [by apply boots_step|]. intros _ _.
    apply boots_bret. by intros hub [= <-]. }
  intros hub ->. apply boots_bret. by intros s [= <-].
Qed.
End StartupLemmas.

(** ** Properties *)

(** C39. The relay starts in order: a configuration that cannot be read stops it before
    anything is touched; otherwise it takes a prefix of one fixed sequence - key
    files, database, Redis, pub/sub, migrations, jobs, socket - and when it gets
    through, a client is there for each configured push provider and for no other: the
    APNs client has the configured topic and URLs and the key of the configured file,
    which signed once, and the FCM client the configured address and the account and
    parsed key of the configured file (it signs nothing at the start); and the secret has
    its minimum length. *)
Theorem starts_in_order {L : PushLib} {K : KeyLib} (h : Host) :
  match from_env (ho_env h) (ho_fresh_id h) with
  | Err e => main h = ([], Err e)
  | Ok c => (main h).1 `prefix_of` boot_sequence c ∧
      ∀ s, (main h).2 = Ok s → (main h).1 = boot_sequence c ∧ started_from h c s
  end.
Proof.
  unfold main. destruct (from_env _ _) as [c|e]; [|done].
  assert (boots (boot_sequence c) (started_from h c)
    (let& started := connect_state h c in
     let& _ := step BMigrate "migrations: " (ho_migrate h) in
     let& _ := ([BSpawnJobs], Ok tt) in
     let& _ := step (BBind (c_bind c)) EmptyString (ho_bind h) in
     bret (Ok started))) as H.
  { unfold boot_sequence.
    change [BPostgres (c_database_url c); BRedisUrl (c_redis_url c); BRedis; BPubSub; BMigrate; BSpawnJobs;
            BBind (c_bind c)]
      with ([BPostgres (c_database_url c); BRedisUrl (c_redis_url c); BRedis; BPubSub] ++
            [BMigrate; BSpawnJobs; BBind (c_bind c)]).
    rewrite app_assoc. eapply boots_bind; [apply boots_connect|]. intros s Hs.
    apply (boots_bind [_] [_; _] (λ _, True)); [by apply boots_step|]. intros _ _.
    apply (boots_bind [_] [_] (λ _, True)); [by split|]. intros _ _.
    apply (boots_bind [_] [] (λ _, True)); [by apply boots_step|]. intros _ _.
    apply boots_bret. by intros s' [= <-]. }
  exact H.
Qed.
