(* ===== verification/PairRoutes.v ===== *)
(** * PairRoutes: registering, listing and revoking pairs ([routes/pairs.rs])

    A pair row needs an attestation signed by both devices; a revocation needs a
    statement signed by a member, and the first statement stays. *)

From S2P Require Import Prelude Text Errors Externals Signatures Attestation Revocation Challenge.
From S2P Require Import Wire Bus Tables Redis Scripts Usage Hub IO Pool Invariants Net Config.
From S2P Require Import Limits Presence Push Auth.

Local Open Scope Z_scope.

(** [routes/pairs.rs:22-22 REVOKE_REASONS] *)
Definition REVOKE_REASONS : list string := ["user"; "reinstall"; "lost_device"].

(** [routes/pairs.rs:24-33 PairRequest] *)
Record PairRequest : Type := mkPairRequest {
  pr_pair_id : Uuid;
  pr_device_a : Uuid;
  pr_device_b : Uuid;
  pr_created_at : Z;
  pr_attestation : string;
  pr_sig_a : string;
  pr_sig_b : string
}.

(** [routes/pairs.rs:35-38 ListQuery] *)
Record ListQuery : Type := mkListQuery { lq_include_revoked : option bool }.

(** [routes/pairs.rs:40-45 PairFields] *)
Record PairFields : Type := mkPairFields {
  pf_attestation : bytes;
  pf_sig_a : arr 64;
  pf_sig_b : arr 64
}.

Section Pairs.
Context {C : Crypto} {B64 : Base64} {UO : UuidOps}.

(** [relay/hub.rs:131-140 Hub::publish] *)
Definition publish (device_id : Uuid) (msg : BusMessage) : prog (option Z) :=
  perform (CPublish (device_channel device_id) (bus_encode msg)).

(** [routes/pairs.rs:218-224 notify] *)
Definition notify (device_id : Uuid) (msg : BusMessage) : prog unit :=
  let! _ := publish device_id msg in Ret tt.

(** [routes/pairs.rs:47-60 decode_pair_request] *)
Definition decode_pair_request (req : PairRequest) : result ApiError PairFields :=
  let? _ := guard (bool_decide (pr_device_a req = pr_device_b req)) BadRequest in
  let? attestation :=
    ok_or (a ← decode (pr_attestation req);
           if Nat.eqb (length a) ATTESTATION_LEN then Some a else None) BadRequest in
  let? sig_a := decode_field 64 (pr_sig_a req) in
  let? sig_b := decode_field 64 (pr_sig_b req) in
  Ok (mkPairFields attestation sig_a sig_b).

(** The answer to a registered pair. *)
Definition pair_body (req : PairRequest) (created_at : Z) : Value :=
  VObj [("pair_id", VStr (hyphenated (pr_pair_id req))); ("created_at", VNum created_at)].

Definition claim_of (req : PairRequest) (f : PairFields) : PairClaim :=
  mkPairClaim (pr_pair_id req) (pr_device_a req) (pr_device_b req) (pr_created_at req)
    (pf_attestation f) (pf_sig_a f) (pf_sig_b f).

Definition new_pair (req : PairRequest) (f : PairFields) : NewPair :=
  mkNewPair (pr_pair_id req) (pr_device_a req) (pr_device_b req) (pf_attestation f)
    (arr_bytes (pf_sig_a f)) (arr_bytes (pf_sig_b f)) (pr_created_at req).

(** [store/pairs.rs:65-69 InsertOutcome] *)
Inductive InsertOutcome : Type :=
| PairCreated
| Existing (stored : StoredPair).

(** [store/pairs.rs:71-105 insert]: two statements, the second only after a
    conflict. *)
Definition insert_or_stored (pair : NewPair) : prog (option InsertOutcome) :=
  let! inserted := perform (CSql (QInsertPair pair)) in
  match inserted with
  | None => Ret None
  | Some true => Ret (Some PairCreated)
  | Some false =>
    let! row := perform (CSql (QStoredPair (np_pair_id pair))) in
    Ret (option_map Existing row)
  end.

(** [routes/pairs.rs:62-128 register] *)
Definition register_pair (device : Uuid) (req : PairRequest) :
    prog (result ApiError HttpResponse) :=
  let* _ := check_device device GROUP_REST REST_PER_MINUTE in
  let* fields := pure (decode_pair_request req) in
  let* _ := pure (guard (negb (bool_decide (device = pr_device_a req))
                         && negb (bool_decide (device = pr_device_b req))) NotPaired) in
  let* members := or_internal (perform (CSql (QMemberDevices (pr_device_a req) (pr_device_b req)))) in
  match members !! pr_device_a req, members !! pr_device_b req with
  | Some a, Some b =>
    let* _ := pure (guard (negb (bool_decide (md_platform a = "android"))
                           || bool_decide (md_platform b = "android")) BadRequest) in
    let* key_a := pure (ok_or (arr_of 32 (md_ik_sig_pub a)) Internal) in
    let* key_b := pure (ok_or (arr_of 32 (md_ik_sig_pub b)) Internal) in
    let* _ := pure (verify_pair_claim (claim_of req fields) key_a key_b) in
    let* outcome := or_internal (insert_or_stored (new_pair req fields)) in
    match outcome with
    | PairCreated =>
      let! _ := for_each [pr_device_a req; pr_device_b req] (λ m, notify m PairsChanged) in
      pure (Ok (resp_json 201 (pair_body req (pr_created_at req))))
    | Existing stored =>
      if bool_decide (sp_device_a stored = pr_device_a req)
         && bool_decide (sp_device_b stored = pr_device_b req)
         && bytes_eqb (sp_attestation stored) (pf_attestation fields)
      then pure (Ok (resp_json 200 (pair_body req (sp_created_at_ms stored))))
      else pure (Err PairExists)
    end
  | _, _ => pure (Err DeviceNotFound)
  end.

(** One entry of the list, with the peer's presence. *)
Definition listing_json (r : PairListing) (online : bool) : Value :=
  VObj [("pair_id", VStr (hyphenated (pl_pair_id r)));
        ("peer_device_id", VStr (hyphenated (pl_peer_device_id r)));
        ("peer_platform", VStr (pl_peer_platform r));
        ("created_at", VNum (pl_created_at_ms r));
        ("revoked_at", v_opt VNum (pl_revoked_at_ms r));
        ("revoked_by", v_opt (λ id, VStr (hyphenated id)) (pl_revoked_by r));
        ("revoke_sig", v_opt (λ s, VStr (encode s)) (pl_revoke_sig r));
        ("peer_online", VBool online)].

(** [routes/pairs.rs:130-161 list] *)
Definition list_route (device : Uuid) (query : ListQuery) : prog (result ApiError HttpResponse) :=
  let* _ := check_device device GROUP_REST REST_PER_MINUTE in
  let include_revoked := default true (lq_include_revoked query) in
  let* rows := or_internal (perform (CSql (QListPairs device include_revoked))) in
  let* online := or_internal (online (map pl_peer_device_id rows)) in
  pure (Ok (resp_json 200 (VObj [("pairs", VArr (zip_with listing_json rows online))]))).

(** [routes/pairs.rs:207-215 revoke, part]: the row is marked once, and then both
    devices of the pair are told. *)
Definition mark_and_tell (me : Uuid) (st : RevokeStatement) : prog (result ApiError HttpResponse) :=
  let* revoked := or_internal (perform (CSql (QRevoke st))) in
  let! _ := match revoked with
            | Some peer => let! _ := notify peer (PairRevoked st) in notify me PairsChanged
            | None => Ret tt
            end in
  pure (Ok (resp_empty 204)).

(** [routes/pairs.rs:163-216 revoke]; [path] is the pair id's text. *)
Definition revoke_pair (me : Uuid) (path : string) (req : RevokeRequest) :
    prog (result ApiError HttpResponse) :=
  let* _ := check_device me GROUP_REST REST_PER_MINUTE in
  let* pair_id := pure (ok_or (uuid_parse path) BadRequest) in
  let* _ := pure (guard (match rq_reason req with
                         | Some r => negb (bool_decide (r ∈ REVOKE_REASONS))
                         | None => false
                         end) BadRequest) in
  let* members := or_internal (perform (CSql (QMembers pair_id))) in
  let* _ := pure (match members with
                  | None => Err DeviceNotFound
                  | Some (a, b) =>
                    guard (negb (bool_decide (a = me)) && negb (bool_decide (b = me))) NotPaired
                  end) in
  let* key := or_internal (perform (CSql (QFindKey me))) in
  let* key := pure (ok_or key DeviceNotFound) in
  let* ik_sig_pub := pure (ok_or (arr_of 32 (dk_ik_sig_pub key)) Internal) in
  let! now := now_ms in
  let* statement := pure (verify_statement pair_id me ik_sig_pub (rq_revoked_at req)
                            (rq_sig req) now) in
  mark_and_tell me statement.
End Pairs.

(** ** What the routes write *)

Section PairFrames.
Context {C : Crypto} {B64 : Base64} {UO : UuidOps} {P : Postgres}.

Lemma check_device_issues (Q : ∀ X, cmd X → Prop) d g l :
  (∀ k, Q _ (CRedis (RIncrWindow ("rl:" +:+ k) RATE_LIMIT_TTL_SECS))) → Q _ CNow →
  issues Q (check_device d g l).
Proof.
  intros HQ Hn. cbn. split; [done|]. intros t. split; [done|]. intros t'.
  split; [unfold rate_limit_key; apply HQ|].
  by intros [n|].
Qed.

Lemma notify_issues (Q : ∀ X, cmd X → Prop) d m : (∀ c b, Q _ (CPublish c b)) → issues Q (notify d m).
Proof. intros HQ. cbn. by split. Qed.

#[local] Hint Extern 1 (issues _ (check_device _ _ _)) => (apply check_device_issues; done) : relay.
#[local] Hint Extern 1 (issues _ (notify _ _)) => (apply notify_issues; done) : relay.

Lemma claim_attested req f ka kb u :
  verify_pair_claim (claim_of req f) ka kb = Ok u →
  attested (pr_pair_id req) (pr_device_a req) (pr_device_b req) (pr_created_at req)
    (pf_attestation f) (arr_bytes (pf_sig_a f)) (arr_bytes (pf_sig_b f)).
Proof.
  intros (Hok & Ha & Hsa & Hsb)%verify_pair_claim_Ok. unfold claim_of, claimed in *. simpl in *.
  exists ka, kb, (pf_sig_a f), (pf_sig_b f). by split_and!.
Qed.

Lemma register_pair_certified device req : issues sql_cmd_ok (register_pair device req).
Proof.
  unfold register_pair. apply issues_bind_ok; [by apply check_device_issues|]. intros _.
  apply issues_bind_ok; [done|]. intros f. apply issues_bind_ok; [done|]. intros _.
  apply issues_bind_ok; [done|]. intros ms.
  destruct (ms !! pr_device_a req) as [a|]; [|done]. destruct (ms !! pr_device_b req) as [b|]; [|done].
  apply issues_bind_ok; [done|]. intros _. apply issues_bind_ok; [done|]. intros ka.
  apply issues_bind_ok; [done|]. intros kb. unfold pbind_ok at 1. unfold pure at 1. cbn [pbind].
  destruct (verify_pair_claim _ ka kb) as [u|] eqn:E; [|done]. apply claim_attested in E.
  apply issues_bind_ok.
  - unfold insert_or_stored. cbn. split; [done|]. intros [[]|]; done.
  - intros [|st].
    + apply issues_bind; [|done]. apply issues_for_each. intros m _. by apply notify_issues.
    + by destruct (_ && _).
Qed.

Lemma list_route_certified device q : issues sql_cmd_ok (list_route device q).
Proof. unfold list_route, online. issues_auto. Qed.

Lemma revoke_pair_certified me path req : issues sql_cmd_ok (revoke_pair me path req).
Proof.
  unfold revoke_pair. apply issues_bind_ok; [by apply check_device_issues|]. intros _.
  do 5 (apply issues_bind_ok; [done|]; intros ?). apply issues_bind_ok; [done|]. intros key.
  apply issues_bind_ok; [done|]. intros ik. apply issues_bind; [done|]. intros now.
  unfold pbind_ok at 1. unfold pure at 1. cbn [pbind].
  destruct (verify_statement _ _ ik _ _ now) as [st|] eqn:E; [|done].
  apply verify_statement_Ok in E as (t & _ & _ & _ & Hp & Hb & H0 & _ & Hs).
  apply issues_bind_ok.
  - cbn. split; [|done]. split; [done|]. by exists ik.
  - intros revoked. apply issues_bind; [|done]. destruct revoked; [|done]. cbn. done.
Qed.

(** *** Reading the tables *)

Lemma member_devices_lookup a b db x m :
  member_devices a b db !! x = Some m ↔
  ∃ r, devices db !! x = Some r ∧ (x = a ∨ x = b) ∧ device_active r = true ∧
       m = mkMember (d_ik_sig_pub r) (d_platform r).
Proof.
  unfold member_devices. rewrite lookup_fmap_Some. split.
  - intros (r & <- & Hr). apply map_lookup_filter_Some in Hr as [Hr Hx]. simpl in Hx.
    apply andb_true_iff in Hx as [Hx Ha]. apply orb_true_iff in Hx.
    rewrite !bool_decide_eq_true in Hx. eauto.
  - intros (r & Hr & Hx & Ha & ->). exists r. split; [done|]. apply map_lookup_filter_Some.
    split; [done|]. simpl. rewrite Ha, andb_true_r. apply orb_true_iff.
    by rewrite !bool_decide_eq_true.
Qed.
End PairFrames.

#[export] Hint Extern 1 (issues _ (check_device _ _ _)) => (apply check_device_issues; done) : relay.
#[export] Hint Extern 1 (issues _ (notify _ _)) => (apply notify_issues; done) : relay.

(** ** Lemmas *)

Section PairRuns.
Context {UO : UuidOps} {P : Postgres} {R : RedisServer}.

Lemma runs_check_device d g l w u w' : runs (check_device d g l) w u w' → w_db w' = w_db w.
Proof. apply runs_no_sql. by apply check_device_issues. Qed.

(** Publishing changes neither the database nor Redis. *)
Lemma runs_notify d m w u w' :
  runs (notify d m) w u w' → w_db w' = w_db w ∧
  (w_published w' = w_published w ∨
   w_published w' = w_published w ++ [(device_channel d, bus_encode m)]).
Proof.
  intros (o & w1 & Hr & [_ <-])%runs_bind. apply (proj1 (runs_perform _ _ _ _)) in Hr as [i Hr].
  unfold exec in Hr. simpl in Hr. unfold faulty in Hr.
  destruct (i_fault i); simplify_eq; split; try done; (by left) || by right.
Qed.

(** Where no request is lost, exactly one message is published. *)
Lemma runs_in_notify d m w u w' :
  runs_in no_fault (notify d m) w u w' →
  w_published w' = w_published w ++ [(device_channel d, bus_encode m)].
Proof.
  intros (o & w1 & Hr & [_ <-])%runs_in_bind. apply runs_in_perform in Hr as (i & HK & Hr).
  unfold exec in Hr. simpl in Hr. unfold faulty in Hr. rewrite HK in Hr. by simplify_eq.
Qed.

Lemma runs_in_for_each {A} K (l : list A) (f : A → prog unit) (g : A → list (string * bytes)) w u w' :
  (∀ a w u w', runs_in K (f a) w u w' → w_published w' = w_published w ++ g a) →
  runs_in K (for_each l f) w u w' → w_published w' = w_published w ++ flat_map g l.
Proof.
  intros Hf. revert w. induction l as [|a l IH]; intros w; simpl; [by intros [_ ->]; rewrite app_nil_r|].
  intros (u1 & w1 & H1 & H2)%runs_in_bind. apply IH in H2. apply Hf in H1.
  by rewrite H2, H1, app_assoc.
Qed.

Lemma runs_for_each_db {A} (l : list A) (f : A → prog unit) w u w' :
  (∀ a w u w', runs (f a) w u w' → w_db w' = w_db w) →
  runs (for_each l f) w u w' → w_db w' = w_db w.
Proof.
  intros Hf. revert w. induction l as [|a l IH]; intros w; simpl; [by intros [_ ->]|].
  intros (u1 & w1 & H1 & H2)%runs_bind. apply IH in H2. apply Hf in H1. congruence.
Qed.

Lemma runs_insert pair w o w' :
  runs (or_internal (insert_or_stored pair)) w (Ok o) w' →
  match o with
  | PairCreated => ∃ now, exec_sql (QInsertPair pair) now (w_db w) = (Some true, w_db w')
  | Existing st =>
    w_db w' = w_db w ∧ stored_pair (np_pair_id pair) (w_db w) = Some st
  end.
Proof.
  intros (o' & Hr & Ho)%runs_or_internal. destruct o' as [o'|]; [|done]. cbn in Ho. simplify_eq.
  unfold insert_or_stored in Hr. apply runs_bind in Hr as (ins & w1 & H1 & Hr).
  apply (proj1 (runs_perform _ _ _ _)) in H1 as [i H1].
  destruct ins as [b|]; [|by apply runs_Ret in Hr as [? _]].
  apply exec_sql_Some in H1 as (db & H1 & ->). destruct b.
  - apply runs_Ret in Hr as [[= <-] <-]. by exists (w_pgnow (with_db db (elapse i w))).
  - apply runs_bind in Hr as (row & w2 & H2 & [Ho <-]). destruct row as [st|]; [|done].
    cbn in Ho. injection Ho as <-. apply (proj1 (runs_perform _ _ _ _)) in H2 as [i' H2].
    apply exec_sql_Some in H2 as (db' & H2 & ->). cbn [w_db with_db elapse exec_sql] in *.
    assert (db = w_db w) as ->.
    { unfold insert_pair in H1. repeat (case_match; simplify_eq; try done). }
    by injection H2 as H2 <-.
Qed.

Lemma insert_pair_true pair now db db' :
  exec_sql (QInsertPair pair) now db = (Some true, db') →
  pairs db !! np_pair_id pair = None ∧
  ∃ t, ts_of_ms (np_created_at_ms pair) = Some t ∧
    db' = set_pairs <[np_pair_id pair :=
      mkPairRow (np_device_a pair) (np_device_b pair) (np_attestation pair) (np_sig_a pair)
        (np_sig_b pair) t None None None]> db.
Proof.
  cbn [exec_sql]. unfold insert_pair. destruct (ts_of_ms _) as [t|]; [|done].
  case_bool_decide; [done|]. case_bool_decide as He; [done|].
  destruct (_ && _); [|done]. intros [= <-]. split; [by apply eq_None_not_Some|]. eauto.
Qed.

Lemma runs_in_mark_and_tell K st p w resp w' :
  pairs (w_db w) !! rs_pair_id st = Some p → is_member (rs_by st) p = true →
  runs_in K (mark_and_tell (rs_by st) st) w (Ok resp) w' →
  r_status resp = 204 ∧
  (if unrevoked p
   then ∃ t, ts_of_ms (rs_revoked_at st) = Some t ∧
        w_db w' = set_pairs <[rs_pair_id st := mkPairRow (p_device_a p) (p_device_b p)
          (p_attestation p) (p_sig_a p) (p_sig_b p) (p_created_at p) (Some t) (Some (rs_by st))
          (Some (arr_bytes (rs_sig st)))]> (w_db w)
   else w_db w' = w_db w) ∧
  ((∀ i, K i → no_fault i) → w_published w' = w_published w ++
     if unrevoked p
     then [(device_channel (peer_of (rs_by st) p), bus_encode (PairRevoked st));
           (device_channel (rs_by st), bus_encode PairsChanged)]
     else []).
Proof.
  intros Hp Hm Hr. unfold mark_and_tell in Hr.
  apply runs_in_bind_ok in Hr as [(rev & w1 & H1 & Hr)|(? & _ & [=])]. apply runs_in_runs in H1.
  pose proof H1 as Hp1%runs_no_publish; [|done]. apply runs_sql_Ok in H1 as (i & db & H1 & ->).
  apply runs_in_bind in Hr as (u & w2 & H2 & [[= <-] <-]). split; [done|].
  cbn [exec_sql] in H1. unfold revoke in H1. rewrite Hp, Hm in H1. cbn [andb] in H1.
  destruct (unrevoked p).
  - destruct (ts_of_ms (rs_revoked_at st)) as [t|]; [|done]. injection H1 as <- <-.
    apply runs_in_bind in H2 as (u1 & w3 & H3 & H4). split.
    + exists t. split; [done|]. apply runs_in_runs, runs_notify in H3 as [H3 _], H4 as [H4 _].
      by rewrite H4, H3.
    + intros HK. apply (runs_in_mono _ no_fault _ _ _ _ HK) in H3, H4.
      apply runs_in_notify in H3, H4. by rewrite H4, H3, Hp1, <-app_assoc.
  - injection H1 as <- <-. destruct H2 as [_ <-]. split; [done|]. intros _. by rewrite Hp1, app_nil_r.
Qed.
End PairRuns.

(** ** Properties *)

(** C7. A pair is registered only by a member and only with the consent of both
    devices: both are registered and not revoked, the first is the Android phone
    and the second is not, and each signed exactly this attestation with its stored
    key; a new pair id gets the row, a known one is answered from the stored row
    only when devices and attestation are the same. *)
Theorem pair_registered {C : Crypto} {B64 : Base64} {UO : UuidOps} {P : Postgres} {R : RedisServer}
    (device : Uuid) (req : PairRequest) (w w' : World) (resp : HttpResponse) :
  runs (register_pair device req) w (Ok resp) w' →
  let a := pr_device_a req in let b := pr_device_b req in let pid := pr_pair_id req in
  ∃ f ra rb ka kb,
    decode_pair_request req = Ok f ∧ a ≠ b ∧ (device = a ∨ device = b) ∧
    devices (w_db w) !! a = Some ra ∧ device_active ra = true ∧ d_platform ra = "android" ∧
    devices (w_db w) !! b = Some rb ∧ device_active rb = true ∧ d_platform rb ≠ "android" ∧
    d_ik_sig_pub ra = arr_bytes ka ∧ d_ik_sig_pub rb = arr_bytes kb ∧
    pf_attestation f = to_bytes (mkAttestation pid a b ka kb (pr_created_at req)) ∧
    signed_by a ka (pf_attestation f) (pf_sig_a f) ∧
    signed_by b kb (pf_attestation f) (pf_sig_b f) ∧
    ((pairs (w_db w) !! pid = None ∧ r_status resp = 201 ∧ ∃ t,
        ts_of_ms (pr_created_at req) = Some t ∧
        w_db w' = set_pairs <[pid := mkPairRow a b (pf_attestation f) (arr_bytes (pf_sig_a f))
                    (arr_bytes (pf_sig_b f)) t None None None]> (w_db w)) ∨
     (r_status resp = 200 ∧ w_db w' = w_db w ∧ ∃ p, pairs (w_db w) !! pid = Some p ∧
        p_device_a p = a ∧ p_device_b p = b ∧ p_attestation p = pf_attestation f)).
Proof.
  intros Hr a b pid. unfold register_pair in Hr.
  apply runs_bind_ok in Hr as [(u & w1 & H1 & Hr)|(? & _ & [=])]. apply runs_check_device in H1.
  apply runs_bind_ok in Hr as [(f & w2 & [Hf <-] & Hr)|(? & _ & [=])].
  apply runs_bind_ok in Hr as [(u2 & w2 & [Hg <-] & Hr)|(? & _ & [=])].
  apply runs_bind_ok in Hr as [(ms & w2 & H2 & Hr)|(? & _ & [=])].
  apply runs_sql_Ok in H2 as (i & db & H2 & ->). cbn [exec_sql] in H2. injection H2 as <- <-.
  destruct (_ !! pr_device_a req) as [ma|] eqn:Ea; [|by apply runs_Ret in Hr as [? _]].
  destruct (_ !! pr_device_b req) as [mb|] eqn:Eb; [|by apply runs_Ret in Hr as [? _]].
  apply member_devices_lookup in Ea as (ra & Hra & _ & Haa & ->).
  apply member_devices_lookup in Eb as (rb & Hrb & _ & Hab & ->).
  apply runs_bind_ok in Hr as [(u3 & w3 & [Hp <-] & Hr)|(? & _ & [=])].
  apply runs_bind_ok in Hr as [(ka & w3 & [Hka <-] & Hr)|(? & _ & [=])].
  apply runs_bind_ok in Hr as [(kb & w3 & [Hkb <-] & Hr)|(? & _ & [=])].
  apply runs_bind_ok in Hr as [(u4 & w3 & [Hv <-] & Hr)|(? & _ & [=])].
  apply runs_bind_ok in Hr as [(o & w3 & Hins & Hr)|(? & _ & [=])]. apply runs_insert in Hins.
  cbn [md_platform md_ik_sig_pub w_db with_db elapse] in *. rewrite H1 in *.
  apply guard_Ok in Hg, Hp. apply orb_false_iff in Hp as [Hpa Hpb].
  apply negb_false_iff, bool_decide_eq_true in Hpa. apply bool_decide_eq_false in Hpb.
  apply ok_or_Ok, arr_of_Some in Hka, Hkb. apply verify_pair_claim_Ok in Hv as (_ & Hat & Hsa & Hsb).
  assert (a ≠ b) as Hab'.
  { unfold decode_pair_request in Hf. apply rbind_Ok in Hf as (? & Hf & _).
    by apply guard_Ok, bool_decide_eq_false in Hf. }
  exists f, ra, rb, ka, kb. split_and!; try done.
  { apply andb_false_iff in Hg as [Hg|Hg]; apply negb_false_iff, bool_decide_eq_true in Hg; auto. }
  destruct o as [|st].
  - destruct Hins as [now Hins]. apply insert_pair_true in Hins as (Hn & t & Ht & Hdb).
    apply runs_bind in Hr as (u5 & w4 & Hn1 & [[= <-] <-]).
    apply runs_for_each_db in Hn1; [|intros ? ? ? ? []%runs_notify; done].
    left. split_and!; [done|done|]. exists t. split; [done|]. by rewrite Hn1, Hdb.
  - destruct Hins as [Hdb Hst].
    match type of Hr with runs (if ?c then _ else _) _ _ _ => destruct c eqn:Eq end;
      [|by apply runs_Ret in Hr as [? _]].
    apply runs_Ret in Hr as [[= <-] <-]. right. split_and!; [done|done|].
    apply bind_Some in Hst as (p & Hpid & [= <-]). simpl in Eq.
    apply andb_true_iff in Eq as [[E1 E2]%andb_true_iff E3].
    apply bool_decide_eq_true in E1, E2. apply bool_decide_eq_true in E3. eauto.
Qed.

