(* ===== verification/DeviceRoutes.v ===== *)
(** * DeviceRoutes: registering, push tokens and removal
    ([routes/devices.rs])

    Registration authenticates itself by a signature of the key that derives the
    device id; removal takes a signed statement for every pair, or none. *)

From S2P Require Import Prelude Text Errors Externals Signatures Attestation Revocation Challenge.
From S2P Require Import Wire Bus Tables Redis Scripts Usage Hub IO Pool Invariants Net Config.
From S2P Require Import Limits Presence Push Auth PairRoutes.

Local Open Scope Z_scope.

(** [routes/devices.rs:27-28 MAX_TS_SKEW_MS] *)
Definition MAX_TS_SKEW_MS : Z := 5 * 60 * 1000.
(** [routes/devices.rs:29-29 PLATFORMS] *)
Definition PLATFORMS : list string := ["android"; "macos"; "ios"; "ipados"].
(** [routes/devices.rs:30-31 APP_VERSION_MAX_CHARS] *)
Definition APP_VERSION_MAX_CHARS : nat := 32.
(** [routes/devices.rs:114-114 PUSH_PROVIDERS] *)
Definition PUSH_PROVIDERS : list string := ["fcm"; "apns"; "apns_sandbox"].
(** [routes/devices.rs:115-116 PUSH_TOKEN_MAX_CHARS] *)
Definition PUSH_TOKEN_MAX_CHARS : nat := 4096.
(** [routes/devices.rs:117-117 PUSH_TOPIC_MAX_CHARS] *)
Definition PUSH_TOPIC_MAX_CHARS : nat := 255.

(** [routes/devices.rs:33-41 RegisterRequest] *)
Record RegisterRequest : Type := mkRegisterRequest {
  rg_device_id : Uuid;
  rg_platform : string;
  rg_app_version : string;
  rg_ik_sig_pub : string;
  rg_ts : Z;
  rg_sig : string
}.

(** [routes/devices.rs:119-125 PushTokenRequest] *)
Record PushTokenRequest : Type := mkPushTokenRequest {
  ptr_provider : string;
  ptr_token : string;
  ptr_topic : option string
}.

(** [routes/devices.rs:199-202 DeleteQuery] *)
Record DeleteQuery : Type := mkDeleteQuery { dq_revoke_pairs : bool }.

(** [i64::abs] and [-] of a release build. *)
Definition i64_sub (a b : Z) : Z := i64_wrap (a - b).
Definition i64_abs (a : Z) : Z := i64_wrap (Z.abs a).

Definition topic_char (b : byte) : bool :=
  is_ascii_alphanumeric b || bool_decide (byteZ b = 0x2E) || bool_decide (byteZ b = 0x2D)
  || bool_decide (byteZ b = 0x5F).

(** [routes/devices.rs:127-166 validate_push_token] *)
Definition validate_push_token (platform : string) (req : PushTokenRequest) :
    result ApiError (string * string * option string) :=
  let provider := ptr_provider req in
  let fits :=
    if bool_decide (platform = "android") then bool_decide (provider = "fcm")
    else if bool_decide (platform = "ios") || bool_decide (platform = "ipados")
         then bool_decide (provider = "apns") || bool_decide (provider = "apns_sandbox")
         else false in
  let token := ptr_token req in
  let? _ := guard (negb (bool_decide (provider ∈ PUSH_PROVIDERS)) || negb fits
                   || str_is_empty token || Nat.ltb PUSH_TOKEN_MAX_CHARS (char_count token))
              BadRequest in
  if bool_decide (provider = "fcm") then
    let? _ := guard (negb (all_bytes is_ascii_graphic token)) BadRequest in
    Ok (provider, token, None)
  else
    let? topic := ok_or (ptr_topic req) BadRequest in
    let topic_ok := negb (str_is_empty topic)
                    && Nat.leb (char_count topic) PUSH_TOPIC_MAX_CHARS
                    && all_bytes topic_char topic in
    let? _ := guard (negb (all_bytes is_ascii_hexdigit token) || negb topic_ok) BadRequest in
    Ok (provider, token, Some topic).

Section Devices.
Context {C : Crypto} {B64 : Base64} {UO : UuidOps}.

(** [routes/devices.rs:43-58 verify_registration] *)
Definition verify_registration (req : RegisterRequest) (now_ms : Z) :
    result ApiError (arr 32) :=
  let chars := char_count (rg_app_version req) in
  let? _ := guard (negb (bool_decide (rg_platform req ∈ PLATFORMS)) || Nat.eqb chars 0
                   || Nat.ltb APP_VERSION_MAX_CHARS chars) BadRequest in
  let? ik_sig_pub := decode_field 32 (rg_ik_sig_pub req) in
  let? sig := decode_field 64 (rg_sig req) in
  let? _ := guard (i64_abs (i64_sub now_ms (rg_ts req)) >? MAX_TS_SKEW_MS) SignatureInvalid in
  let msg := registration_message (rg_device_id req) ik_sig_pub (rg_platform req) (rg_ts req) in
  let? _ := verify_device_signature (rg_device_id req) ik_sig_pub msg sig in
  Ok ik_sig_pub.

(** [routes/devices.rs:103-112 rejection_reason] *)
Definition rejection_reason (device_id : Uuid) : prog ApiError :=
  let! found := perform (CSql (QFindKey device_id)) in
  Ret (match found with
       | Some (Some key) => if dk_revoked key then DeviceRevoked else SignatureInvalid
       | Some None => SignatureInvalid
       | None => Internal
       end).

Definition register_body (device_id : Uuid) (created_at : Z) : Value :=
  VObj [("device_id", VStr (hyphenated device_id)); ("created_at", VNum created_at)].

(** [routes/devices.rs:60-101 register] *)
Definition register_device (state : AppState) (http : Request) (req : RegisterRequest) :
    prog (result ApiError HttpResponse) :=
  let! now := now_ms in
  let* ik_sig_pub := pure (verify_registration req now) in
  let* known := or_internal (perform (CSql (QFindKey (rg_device_id req)))) in
  let* _ :=
    match known with
    | None =>
      let ip := request_ip http (trusted_proxies (st_settings state)) in
      check_registration ip (registrations_per_ip_per_hour (st_settings state))
        (max_registrations_per_hour (st_settings state))
    | Some _ => pure (Ok tt)
    end in
  let new := mkNewDevice (rg_device_id req) ik_sig_pub (rg_platform req) (rg_app_version req) in
  let* outcome := or_internal (perform (CSql (QUpsert new))) in
  match outcome with
  | Created created_at_ms =>
    pure (Ok (resp_json 201 (register_body (rg_device_id req) created_at_ms)))
  | Updated created_at_ms =>
    pure (Ok (resp_json 200 (register_body (rg_device_id req) created_at_ms)))
  | Rejected => let! e := rejection_reason (rg_device_id req) in pure (Err e)
  end.

(** [routes/devices.rs:168-197 put_push_token] *)
Definition put_push_token (state : AppState) (device : Uuid) (req : PushTokenRequest) :
    prog (result ApiError HttpResponse) :=
  let* _ := check_device device GROUP_REST REST_PER_MINUTE in
  let* found := or_internal (perform (CSql (QFindPlatform device))) in
  let* (platform, _) := pure (ok_or found DeviceNotFound) in
  let* (provider, token, topic) := pure (validate_push_token platform req) in
  let* _ := pure (guard (bool_decide (is_Some topic)
                         && negb (bool_decide (topic = apns_topic (st_push state))))
                    BadRequest) in
  let token := if bool_decide (provider = "fcm") then token else to_ascii_lowercase token in
  let* stored := or_internal (perform (CSql (QSetPushToken device provider token topic))) in
  let* _ := pure (guard (negb stored) DeviceNotFound) in
  pure (Ok (resp_empty 204)).

(** The closure [delete_me] hands to the transaction. *)
Definition delete_check (revocations : option (list Revocation)) (device_id : Uuid)
    (ik_sig_pub : arr 32) (now : Z) (held : list (Uuid * Uuid)) :
    result ApiError (list (Uuid * option RevokeStatement)) :=
  match revocations with
  | Some items =>
    rmap (map (λ sp : RevokeStatement * Uuid, (sp.2, Some sp.1)))
      (verify_revocations held items device_id ik_sig_pub now)
  | None => Ok (map (λ pp : Uuid * Uuid, (pp.2, None)) held)
  end.

Context {JW : JwtLib}.

(** Telling one peer about the removal. *)
Definition tell_peer (gone : Uuid * option RevokeStatement) : prog unit :=
  match gone.2 with
  | Some statement =>
    let! _ := add_revoked_notice gone.1 statement in
    notify gone.1 (PairRevoked statement)
  | None => notify gone.1 PairsChanged
  end.

(** [routes/devices.rs:204-284 delete_me]; [body] is the extracted body, or the
    error its extraction answers. *)
Definition delete_me (state : AppState) (http : Request) (query : DeleteQuery)
    (body : result ApiError DeleteRequest) : prog (result ApiError HttpResponse) :=
  let* token := pure (bearer_token (rq_authorization http)) in
  let* device_id := verify (st_jwt state) token in
  let* found := or_internal (perform (CSql (QFindKey device_id))) in
  match found with
  | None => pure (Ok (resp_empty 204))
  | Some key =>
    if dk_revoked key then pure (Err DeviceRevoked) else
    let* _ := check_device device_id GROUP_REST REST_PER_MINUTE in
    let* revocations := pure (if dq_revoke_pairs query
                              then rmap (λ b, Some (dr_revocations b)) body else Ok None) in
    let* ik_sig_pub := pure (ok_or (arr_of 32 (dk_ik_sig_pub key)) Internal) in
    let! now := now_ms in
    let* deleted := or_internal (perform (CSql (QDeleteWithPeers device_id
                                   (delete_check revocations device_id ik_sig_pub now)))) in
    let* deleted := pure deleted in
    let! _ := for_each deleted tell_peer in
    let! _ := perform (CRedis (RDel (presence_key device_id))) in
    let! _ := notify device_id (Close CLOSE_NORMAL) in
    pure (Ok (resp_empty 204))
  end.
End Devices.

(** ** What the routes write *)

Section DeviceFrames.
Context {C : Crypto} {B64 : Base64} {UO : UuidOps} {JW : JwtLib} {P : Postgres}.

(** The clock check of a registration, with its wrap-around. *)
Definition fresh_ts (now ts : Z) : Prop :=
  Z.abs (now - ts) <= MAX_TS_SKEW_MS ∨ ts = now - 2 ^ 63.

Lemma skew_check now ts :
  0 <= now < 2 ^ 62 → i64_ok ts →
  (i64_abs (i64_sub now ts) >? MAX_TS_SKEW_MS) = false ↔ fresh_ts now ts.
Proof.
  unfold i64_ok, fresh_ts, i64_abs, i64_sub, i64_min, i64_max. intros Hn Ht.
  change MAX_TS_SKEW_MS with 300000.
  rewrite Z.gtb_ltb, Z.ltb_ge. destruct (decide (now - ts < 2 ^ 63)) as [Hlt|Hge].
  - rewrite (i64_wrap_id (now - ts)) by (unfold i64_ok, i64_min, i64_max; lia).
    rewrite i64_wrap_id by (unfold i64_ok, i64_min, i64_max; lia). lia.
  - assert (i64_wrap (now - ts) = now - ts - 2 ^ 64) as ->.
    { unfold i64_wrap. replace (now - ts + 2 ^ 63) with (now - ts - 2 ^ 63 + 1 * 2 ^ 64) by lia.
      rewrite Z.mod_add by lia. rewrite Z.mod_small by lia. lia. }
    destruct (decide (now - ts = 2 ^ 63)) as [He|Hne].
    + rewrite He. change (i64_wrap _) with (- 2 ^ 63). split; intros; [right|]; lia.
    + rewrite i64_wrap_id by (unfold i64_ok, i64_min, i64_max; lia). lia.
Qed.

Lemma verify_registration_Ok req now ik :
  verify_registration req now = Ok ik ↔
  rg_platform req ∈ PLATFORMS ∧
  (1 <= char_count (rg_app_version req) <= APP_VERSION_MAX_CHARS)%nat ∧
  decode_fixed 32 (rg_ik_sig_pub req) = Some ik ∧
  (i64_abs (i64_sub now (rg_ts req)) >? MAX_TS_SKEW_MS) = false ∧
  ∃ sig, decode_fixed 64 (rg_sig req) = Some sig ∧
    signed_by (rg_device_id req) ik
      (registration_message (rg_device_id req) ik (rg_platform req) (rg_ts req)) sig.
Proof.
  unfold verify_registration, decode_field. cbv zeta. split.
  - intros H. result_inv. rewrite !orb_false_iff in *. destruct_and!.
    match goal with E : verify_device_signature _ _ _ _ = _ |- _ =>
      apply verify_device_signature_Ok in E end.
    rewrite negb_false_iff, bool_decide_eq_true in *. rewrite Nat.eqb_neq, Nat.ltb_ge in *.
    split_and!; [done|lia|lia|done|done|]. eauto.
  - intros (Hp & Hc & Hk & Hts & sig & Hs & Hsig).
    rewrite bool_decide_true by done.
    destruct (Nat.eqb_spec (char_count (rg_app_version req)) 0); [lia|].
    destruct (Nat.ltb_spec APP_VERSION_MAX_CHARS (char_count (rg_app_version req))); [lia|].
    rsimpl. rewrite Hk. rsimpl. rewrite Hs. rsimpl. rewrite Hts. rsimpl.
    by rewrite (proj2 (verify_device_signature_Ok _ _ _ _ tt) Hsig).
Qed.

Lemma register_device_certified state http req : issues sql_cmd_ok (register_device state http req).
Proof.
  unfold register_device. apply issues_bind; [done|]. intros now.
  unfold pbind_ok at 1. unfold pure at 1. cbn [pbind].
  destruct (verify_registration req now) as [ik|] eqn:E; [|done].
  apply verify_registration_Ok in E as (_ & _ & _ & _ & sig & _ & Hid & _).
  apply issues_bind_ok; [done|]. intros known. apply issues_bind_ok.
  { destruct known; [done|]. cbn. split; [done|]. intros t. split; [done|].
    intros [n|]; [|done]. cbn. by destruct (n =? 0). }
  intros _. apply issues_bind_ok; [by split|]. by intros [].
Qed.

Lemma put_push_token_certified state d req : issues sql_cmd_ok (put_push_token state d req).
Proof. unfold put_push_token. issues_auto. Qed.

Lemma tell_peer_issues (Q : ∀ X, cmd X → Prop) g :
  (∀ c b, Q _ (CPublish c b)) → (∀ k m ttl, Q _ (CRedis (RAddNotice k m ttl))) →
  issues Q (tell_peer g).
Proof. intros Hp Hr. unfold tell_peer. destruct (g.2); cbn; by repeat split. Qed.

#[local] Hint Extern 1 (issues _ (tell_peer _)) => (apply tell_peer_issues; done) : relay.

Lemma delete_me_certified state http q body : issues sql_cmd_ok (delete_me state http q body).
Proof. unfold delete_me. issues_auto. Qed.
End DeviceFrames.

(** ** Lemmas *)

Lemma topic_ok_spec topic :
  negb (str_is_empty topic) && Nat.leb (char_count topic) PUSH_TOPIC_MAX_CHARS
    && all_bytes topic_char topic = true ↔
  str_is_empty topic = false ∧ (char_count topic <= PUSH_TOPIC_MAX_CHARS)%nat ∧
  all_bytes topic_char topic = true.
Proof. rewrite !andb_true_iff, negb_true_iff, Nat.leb_le. tauto. Qed.

(** What the peer of a held pair is told about the removal of [d]: with statements, the
    one that [d] signed for this pair. *)
Definition removal_notice {C : Crypto} {UO : UuidOps} (signed : bool) (d : Uuid) (ik : arr 32)
    (now : Z) (h : Uuid * Uuid) (g : Uuid * option RevokeStatement) : Prop :=
  g.1 = h.2 ∧
  if signed
  then ∃ st, g.2 = Some st ∧ rs_pair_id st = h.1 ∧ rs_by st = d ∧ genuine ik now st
  else g.2 = None.

Section DeviceRuns.
Context {C : Crypto} {B64 : Base64} {UO : UuidOps} {JW : JwtLib} {P : Postgres} {R : RedisServer}.

Lemma check_registration_no_sql ip n m : issues no_sql (check_registration ip n m).
Proof.
  cbn. split; [done|]. intros t. split; [done|]. intros [k|]; [|done]. cbn. by destruct (k =? 0).
Qed.

Lemma runs_tell_peer g w u w' : runs (tell_peer g) w u w' → w_db w' = w_db w.
Proof. apply runs_no_sql. by apply tell_peer_issues. Qed.

(** A read of the database, whatever fault it met. *)
Lemma runs_read {A} (q : sql A) w r w' :
  (∀ now db, (exec_sql q now db).2 = db) →
  runs (or_internal (perform (CSql q))) w r w' →
  w_db w' = w_db w ∧ match r with
                     | Ok a => ∃ now, (exec_sql q now (w_db w)).1 = Some a
                     | Err e => e = Internal
                     end.
Proof.
  intros Hq Hr. destruct r as [a|e].
  - apply runs_sql_Ok in Hr as (i & db & Hr & ->). cbn [w_db with_db].
    pose proof (Hq (w_pgnow (with_db db (elapse i w))) (w_db w)) as H. rewrite Hr in H.
    split; [done|]. eexists. by rewrite Hr.
  - split; [|by eapply runs_internal_Err]. apply runs_or_internal in Hr as (o & Hr & _).
    apply (proj1 (runs_perform _ _ _ _)) in Hr as [i Hr]. unfold exec in Hr. simpl in Hr.
    unfold faulty in Hr. pose proof (Hq (w_pgnow w + Z.of_N (i_pg_elapsed i)) (w_db w)) as H.
    destruct (i_fault i); [|by simplify_eq|by simplify_eq].
    destruct (exec_sql _ _ _) as [o' db'] eqn:E. by simplify_eq.
Qed.

Lemma check_delete_Ok rv d ik now held l :
  delete_check rv d ik now held = Ok l →
  Forall2 (removal_notice (bool_decide (is_Some rv)) d ik now) held l ∧
  ∀ items, rv = Some items → ∃ out, verify_revocations held items d ik now = Ok out.
Proof.
  unfold delete_check. destruct rv as [items|].
  - intros (out & Hout & ->)%rmap_Ok. split; [|intros items' [= <-]; by exists out].
    apply verify_revocations_covers in Hout as [_ Hf].
    apply Forall2_fmap_r. eapply Forall2_impl; [exact Hf|].
    intros [pid peer] [st peer'] [Hp (item & _ & _ & Hst)]. cbn [fst snd] in *. subst peer'.
    apply verify_statement_Ok in Hst as (t & _ & _ & _ & Hid & Hby & Hg). split; [done|]. by exists st.
  - intros [= <-]. split; [|done]. apply Forall2_fmap_r, Forall_Forall2_diag, Forall_forall. by intros.
Qed.
(** The transaction of a removal, whatever fault it met. *)
Lemma runs_delete {T} d (check : list (Uuid * Uuid) → result ApiError T) w r w' :
  runs (or_internal (perform (CSql (QDeleteWithPeers d check)))) w r w' →
  let found := check (held_pairs d (w_db w)) in
  let gone := delete_devices (λ x, bool_decide (x = d)) (w_db w) in
  (w_db w' = w_db w ∧ (r = Err Internal ∨ ∃ e, r = Ok (Err e))) ∨
  (w_db w' = gone ∧ ∃ l, found = Ok l ∧ (r = Err Internal ∨ r = Ok (Ok l))).
Proof.
  intros (o & Hr & ->)%runs_or_internal. apply (proj1 (runs_perform _ _ _ _)) in Hr as [i Hr].
  unfold exec in Hr. cbn [exec_now elapse w_db w_pgnow] in Hr. unfold faulty in Hr.
  cbn [exec_sql] in Hr. unfold delete_with_peers in Hr.
  destruct (i_fault i); [| |].
  - destruct (check _) as [l|e]; cbn in Hr; simplify_eq; cbn [w_db with_db elapse ok_or].
    + right. split; [done|]. exists l. split; [done|by right].
    + left. split; [done|right; by exists e].
  - simplify_eq. left. split; [done|by left].
  - destruct (check _) as [l|e]; cbn in Hr; simplify_eq; cbn [w_db with_db elapse ok_or].
    + right. split; [done|]. exists l. split; [done|by left].
    + left. split; [done|by left].
Qed.
End DeviceRuns.

(** ** Properties *)

(** C31. The relay accepts a registration exactly when the platform is known, the
    version has 1 to 32 characters, the key derives the device id and signed id,
    key, platform and time, and the time is within five minutes of the relay's
    clock; because the difference wraps around in a release build, the time
    [now - 2^63] passes too. *)
Theorem registration_spec {C : Crypto} {B64 : Base64} {UO : UuidOps}
    (req : RegisterRequest) (now : Z) (ik : arr 32) :
  0 <= now < 2 ^ 62 → i64_ok (rg_ts req) →
  verify_registration req now = Ok ik ↔
  rg_platform req ∈ PLATFORMS ∧
  (1 <= char_count (rg_app_version req) <= APP_VERSION_MAX_CHARS)%nat ∧
  decode_fixed 32 (rg_ik_sig_pub req) = Some ik ∧
  (Z.abs (now - rg_ts req) <= MAX_TS_SKEW_MS ∨ rg_ts req = now - 2 ^ 63) ∧
  ∃ sig, decode_fixed 64 (rg_sig req) = Some sig ∧
    signed_by (rg_device_id req) ik
      (registration_message (rg_device_id req) ik (rg_platform req) (rg_ts req)) sig.
Proof.
  intros Hn Ht. rewrite verify_registration_Ok, skew_check by done. done.
Qed.

(** C32. A registration that succeeds leaves the device's row under the key that
    signed: a new device gets a row with no push token and 201; a known one that is
    not revoked keeps everything but its version and the time it was seen, with
    200; nothing else changes in the database. *)
Theorem device_registered {C : Crypto} {B64 : Base64} {UO : UuidOps} {P : Postgres}
    {R : RedisServer} (state : AppState) (http : Request) (req : RegisterRequest)
    (w w' : World) (resp : HttpResponse) :
  runs (register_device state http req) w (Ok resp) w' →
  ∃ now ik seen,
    verify_registration req now = Ok ik ∧
    match devices (w_db w) !! rg_device_id req with
    | None =>
      r_status resp = 201 ∧
      w_db w' = set_devices <[rg_device_id req :=
        mkDeviceRow (arr_bytes ik) (rg_platform req) (rg_app_version req) None None None seen seen
          None]> (w_db w)
    | Some r =>
      r_status resp = 200 ∧ device_active r = true ∧ d_ik_sig_pub r = arr_bytes ik ∧
      w_db w' = set_devices <[rg_device_id req :=
        mkDeviceRow (d_ik_sig_pub r) (d_platform r) (rg_app_version req) (d_push_provider r)
          (d_push_token r) (d_push_topic r) (d_created_at r) seen None]> (w_db w)
    end.
Proof.
  intros Hr. unfold register_device in Hr. apply runs_bind in Hr as (now & w1 & H1 & Hr).
  apply runs_now in H1 as [i1 ->].
  apply runs_bind_ok in Hr as [(ik & w2 & [Hv <-] & Hr)|(? & _ & [=])].
  apply runs_bind_ok in Hr as [(known & w2 & H2 & Hr)|(? & _ & [=])].
  apply runs_read in H2 as [Hdb2 [n2 Hk]]; [|done]. injection Hk as <-.
  apply runs_bind_ok in Hr as [(u & w3 & H3 & Hr)|(? & _ & [=])].
  assert (w_db w3 = w_db w) as Hdb3.
  { etrans; [|exact Hdb2]. destruct (find_key _ _); [by apply runs_Ret in H3 as [_ ->]|].
    by apply runs_no_sql in H3; [|apply check_registration_no_sql]. }
  apply runs_bind_ok in Hr as [(o & w4 & H4 & Hr)|(? & _ & [=])].
  apply runs_sql_Ok in H4 as (i4 & db & H4 & ->). rewrite Hdb3 in H4. cbn [exec_sql] in H4.
  unfold upsert in H4. cbv zeta in H4. cbn [nd_device_id nd_ik_sig_pub nd_platform nd_app_version] in H4.
  exists now, ik, (w_pgnow (with_db db (elapse i4 w3))). split; [done|].
  match type of H4 with (if ?c then _ else _) = _ => destruct c; [done|] end.
  match type of H4 with (if ?c then _ else _) = _ => destruct c; [done|] end.
  destruct (devices (w_db w) !! rg_device_id req) as [r|] eqn:Er.
  - destruct (device_active r && _) eqn:Ea.
    + injection H4 as <- <-. apply runs_Ret in Hr as [[= <-] <-].
      apply andb_true_iff in Ea as [Ha Hb]. apply bool_decide_eq_true in Hb.
      split_and!; [done..|]. unfold device_active in Ha. apply bool_decide_eq_true in Ha.
      by rewrite Ha.
    + injection H4 as <- <-. apply runs_bind in Hr as (? & ? & _ & Hr). by apply runs_Ret in Hr as [? _].
  - case_bool_decide; [done|]. injection H4 as <- <-. by apply runs_Ret in Hr as [[= <-] <-].
Qed.

(** A push registration is valid exactly for the provider of the platform
    (FCM for Android, APNs for iOS and iPadOS, none for a Mac) and a well-formed
    token: visible ASCII for FCM, hexadecimal with a topic of the safe alphabet for
    APNs. *)
Theorem validate_push_token_spec (platform : string) (req : PushTokenRequest)
    (provider token : string) (topic : option string) :
  validate_push_token platform req = Ok (provider, token, topic) ↔
  provider = ptr_provider req ∧ token = ptr_token req ∧
  str_is_empty token = false ∧ (char_count token <= PUSH_TOKEN_MAX_CHARS)%nat ∧
  (platform = "android" ∧ provider = "fcm" ∧ topic = None ∧
     all_bytes is_ascii_graphic token = true ∨
   (platform = "ios" ∨ platform = "ipados") ∧ (provider = "apns" ∨ provider = "apns_sandbox") ∧
     all_bytes is_ascii_hexdigit token = true ∧
     ∃ t, topic = Some t ∧ ptr_topic req = Some t ∧ str_is_empty t = false ∧
       (char_count t <= PUSH_TOPIC_MAX_CHARS)%nat ∧ all_bytes topic_char t = true).
Proof.
  unfold validate_push_token. cbv zeta. split.
  - intros (u & Hg & H)%rbind_Ok. apply guard_Ok in Hg.
    apply orb_false_iff in Hg as [[[Hpr Hfit]%orb_false_iff He]%orb_false_iff Hlen].
    apply negb_false_iff in Hfit. apply Nat.ltb_ge in Hlen.
    destruct (decide (ptr_provider req = "fcm")) as [Hf|Hf].
    + rewrite bool_decide_true in H by done. apply rbind_Ok in H as (u' & Ht & [= <- <- <-]).
      apply guard_Ok, negb_false_iff in Ht. split_and!; [done..|]. left.
      case_bool_decide; [done|]. rewrite Hf in Hfit. by destruct (_ || _).
    + rewrite bool_decide_false in H by done. apply rbind_Ok in H as (t & Hto & H).
      apply ok_or_Ok in Hto. apply rbind_Ok in H as (u' & Ht & [= <- <- <-]).
      apply guard_Ok, orb_false_iff in Ht as [Ht Htop]. apply negb_false_iff in Ht, Htop.
      apply topic_ok_spec in Htop as (? & ? & ?). split_and!; [done..|]. right.
      case_bool_decide; [by apply bool_decide_eq_true in Hfit|].
      destruct (bool_decide_reflect (platform = "ios")), (bool_decide_reflect (platform = "ipados"));
        try done; cbn [orb] in Hfit; rewrite orb_true_iff, !bool_decide_eq_true in Hfit;
        split_and!; auto; eauto 10.
  - intros (-> & -> & He & Hc & [(-> & Hp & -> & Ht)|(Hpl & Hp & Ht & t & -> & Hto & H1)]).
    + rewrite Hp, He. destruct (Nat.ltb_spec PUSH_TOKEN_MAX_CHARS (char_count (ptr_token req))); [lia|].
      rsimpl. cbn [bool_decide]. by rewrite Ht.
    + assert (ptr_provider req ≠ "fcm") by (by destruct Hp as [->| ->]).
      assert (platform ≠ "android") by (by destruct Hpl as [->| ->]).
      destruct (Nat.ltb_spec PUSH_TOKEN_MAX_CHARS (char_count (ptr_token req))); [lia|].
      rewrite He, Hto, Ht.
      rewrite (bool_decide_false (platform = "android")), (bool_decide_false (ptr_provider req = "fcm")) by done.
      rewrite (proj2 (orb_true_iff (bool_decide (platform = "ios")) _))
        by (rewrite !bool_decide_eq_true; done).
      rewrite (proj2 (orb_true_iff (bool_decide (ptr_provider req = "apns")) _))
        by (rewrite !bool_decide_eq_true; done).
      rewrite bool_decide_true by (unfold PUSH_PROVIDERS; set_solver). rsimpl.
      by rewrite (proj2 (topic_ok_spec t) H1).
Qed.

(** A stored push token belongs to the authenticated device, fits its platform
    and, for APNs, names the relay's own app; APNs tokens are stored in lower case;
    nothing else changes in the database. *)
Theorem push_token_stored {C : Crypto} {B64 : Base64} {UO : UuidOps} {P : Postgres}
    {R : RedisServer} (state : AppState) (device : Uuid) (req : PushTokenRequest)
    (w w' : World) (resp : HttpResponse) :
  runs (put_push_token state device req) w (Ok resp) w' →
  ∃ r provider token topic seen,
    devices (w_db w) !! device = Some r ∧ device_active r = true ∧
    validate_push_token (d_platform r) req = Ok (provider, token, topic) ∧
    (topic = None ∨ topic = apns_topic (st_push state)) ∧ r_status resp = 204 ∧
    w_db w' = set_devices <[device :=
      mkDeviceRow (d_ik_sig_pub r) (d_platform r) (d_app_version r) (Some provider)
        (Some (if bool_decide (provider = "fcm") then token else to_ascii_lowercase token)) topic
        (d_created_at r) seen (d_revoked_at r)]> (w_db w).
Proof.
  intros Hr. unfold put_push_token in Hr.
  apply runs_bind_ok in Hr as [(u & w1 & H1 & Hr)|(? & _ & [=])]. apply runs_check_device in H1.
  apply runs_bind_ok in Hr as [(f & w2 & H2 & Hr)|(? & _ & [=])].
  apply runs_read in H2 as [Hdb2 [n2 Hf]]; [|done]. injection Hf as <-.
  apply runs_bind_ok in Hr as [([p b] & w3 & [Hp <-] & Hr)|(? & _ & [=])]. apply ok_or_Ok in Hp.
  apply bind_Some in Hp as (r & Er & [= <- _]).
  apply runs_bind_ok in Hr as [([[pr t] topic] & w3 & [Hv <-] & Hr)|(? & _ & [=])].
  apply runs_bind_ok in Hr as [(u3 & w3 & [Hg <-] & Hr)|(? & _ & [=])]. apply guard_Ok in Hg.
  apply runs_bind_ok in Hr as [(s & w3 & H3 & Hr)|(? & _ & [=])].
  apply runs_sql_Ok in H3 as (i & db & H3 & ->).
  apply runs_bind_ok in Hr as [(u4 & w4 & [Hs <-] & Hr)|(? & _ & [=])].
  apply guard_Ok, negb_false_iff in Hs. apply runs_Ret in Hr as [[= <-] <-]. subst s.
  rewrite Hdb2, H1 in *. cbn [exec_sql] in H3. unfold set_push_token in H3.
  match type of H3 with (if ?c then _ else _) = _ => destruct c; [done|] end.
  rewrite Er in H3. destruct (device_active r) eqn:Ea; [|done].
  match type of H3 with (if ?c then _ else _) = _ => destruct c; [|done] end.
  injection H3 as H3. exists r, pr, t, topic, (w_pgnow (with_db db (elapse i w2))).
  split_and!; [done..| |done|by symmetry].
  apply andb_false_iff in Hg as [Hg|Hg].
  - apply bool_decide_eq_false in Hg. destruct topic; [by destruct Hg|by left].
  - apply negb_false_iff, bool_decide_eq_true in Hg. by right.
Qed.

(** C13. Removal is all or nothing and certified: [delete_me] either leaves the
    database as it is, or deletes exactly the registered, not revoked device of the
    token, valid when the relay reads its clock, with its pairs; with [revoke_pairs] this takes a well-formed body
    whose statements cover every unrevoked pair, each signed by the device within ten
    minutes of the relay's clock ([at_]). *)
Theorem device_removed {C : Crypto} {B64 : Base64} {UO : UuidOps} {JW : JwtLib} {P : Postgres}
    {R : RedisServer} (K : Input → Prop) (state : AppState) (http : Request) (q : DeleteQuery)
    (body : result ApiError DeleteRequest) (w w' : World) (r : result ApiError HttpResponse) :
  runs_in K (delete_me state http q body) w r w' →
  w_db w' = w_db w ∨
  ∃ token i device ik at_,
    bearer_token (rq_authorization http) = Ok token ∧ K i ∧
    verify_at (st_jwt state) (i_wall i / 1000) token = Ok device ∧ seen K at_ ∧
    find_key device (w_db w) = Some (mkDeviceKey (arr_bytes ik) false) ∧
    w_db w' = delete_devices (λ d, bool_decide (d = device)) (w_db w) ∧
    (r = Ok (resp_empty 204) ∨ r = Err Internal) ∧
    (dq_revoke_pairs q = true → ∃ b out, body = Ok b ∧
       verify_revocations (held_pairs device (w_db w)) (dr_revocations b) device ik at_ = Ok out).
Proof.
  intros Hr. unfold delete_me in Hr.
  apply runs_in_bind_ok in Hr as [(tok & w1 & [Ht <-] & Hr)|(? & [_ <-] & _)]; [|by left].
  apply runs_in_bind_ok in Hr as [(d & w1 & Hv & Hr)|(? & Hv & _)];
    [|apply runs_in_verify_at in Hv as [-> _]; by left].
  apply runs_in_verify_at in Hv as [Hdb1 (i & Hi & Hv)].
  apply runs_in_bind_ok in Hr as [(found & w2 & H2 & Hr)|(? & H2 & _)];
    apply runs_in_runs in H2; [|apply runs_read in H2 as [-> _]; [by left|done]].
  apply runs_read in H2 as [Hdb2 [n2 Hk]]; [|done]. injection Hk as <-. rewrite Hdb1 in *.
  destruct (find_key d (w_db w)) as [key|] eqn:Ek; [|destruct Hr as [_ <-]; by left].
  destruct (dk_revoked key) eqn:Erev; [destruct Hr as [_ <-]; by left|].
  apply runs_in_bind_ok in Hr as [(u & w3 & H3 & Hr)|(? & H3 & _)];
    apply runs_in_runs, runs_check_device in H3; [|left; congruence].
  apply runs_in_bind_ok in Hr as [(rv & w4 & [Hrv <-] & Hr)|(? & [_ <-] & _)]; [|left; congruence].
  apply runs_in_bind_ok in Hr as [(ik & w4 & [Hik <-] & Hr)|(? & [_ <-] & _)]; [|left; congruence].
  apply ok_or_Ok, arr_of_Some in Hik.
  apply runs_in_bind in Hr as (at_ & w4 & [Hat (i4 & _ & ->)]%runs_in_now & Hr).
  assert (w_db (elapse i4 w3) = w_db w) as Hdb4 by (cbn; congruence).
  assert (∀ l, delete_check rv d ik at_ (held_pairs d (w_db w)) = Ok l →
    dq_revoke_pairs q = true → ∃ b out, body = Ok b ∧
      verify_revocations (held_pairs d (w_db w)) (dr_revocations b) d ik at_ = Ok out) as Hall.
  { intros l Hl Hq. rewrite Hq in Hrv. apply rmap_Ok in Hrv as (b & -> & ->).
    apply check_delete_Ok in Hl as [_ Hl]. destruct (Hl _ eq_refl) as [out Hout]. eauto. }
  assert (key = mkDeviceKey (arr_bytes ik) false) as ->
    by (destruct key as [kb kr]; cbn [dk_revoked dk_ik_sig_pub] in *; by subst).
  apply runs_in_bind_ok in Hr as [(res & w5 & H5 & Hr)|(e & H5 & ->)]; apply runs_in_runs, runs_delete in H5;
    rewrite Hdb4 in H5; destruct H5 as [[Hdb5 H5]|(Hdb5 & l & Hl & H5)].
  - destruct H5 as [?|[e [= ->]]]; [done|]. apply runs_in_bind_ok in Hr as [(? & ? & [[=] _] & _)|(? & [_ <-] & _)].
    by left.
  - destruct H5 as [?|[= ->]]; [done|].
    apply runs_in_bind_ok in Hr as [(l' & ? & [[= <-] <-] & Hr)|(? & [[=] _] & _)].
    apply runs_in_bind in Hr as (? & w6 & H6 & Hr).
    apply runs_in_runs, runs_for_each_db in H6; [|intros ? ? ? ? ?%runs_tell_peer; done].
    apply runs_in_bind in Hr as (? & w7 & H7 & Hr). apply runs_in_runs, runs_no_sql in H7; [|done].
    apply runs_in_bind in Hr as (? & w8 & [H8 _]%runs_in_runs%runs_notify & [<- <-]).
    right. exists tok, i, d, ik, at_. split_and!; [done..|congruence|by left|by eapply Hall].
  - by left.
  - destruct H5 as [[= ->]|?]; [|done].
    right. exists tok, i, d, ik, at_. split_and!; [done..|by right|by eapply Hall].
Qed.

(** What a removed device's peer is told. *)
Definition told {UO : UuidOps} (g : Uuid * option RevokeStatement) : string * bytes :=
  (device_channel g.1, bus_encode (match g.2 with
                                   | Some statement => PairRevoked statement
                                   | None => PairsChanged
                                   end)).

Lemma runs_in_tell_peer {B64 : Base64} {UO : UuidOps} {P : Postgres} {R : RedisServer} g w u w' :
  runs_in no_fault (tell_peer g) w u w' → w_published w' = w_published w ++ [told g].
Proof.
  unfold tell_peer, told. destruct (g.2).
  - intros (? & w1 & H1 & H2%runs_in_notify)%runs_in_bind.
    apply runs_in_runs, runs_no_publish in H1; [|done]. congruence.
  - apply runs_in_notify.
Qed.

(** After a removal: every peer is told, the presence goes, the connection is closed. *)
Lemma runs_in_farewell {B64 : Base64} {UO : UuidOps} {P : Postgres} {R : RedisServer} d l w r w' :
  runs_in no_fault (let! _ := for_each l tell_peer in
    let! _ := perform (CRedis (RDel (presence_key d))) in
    let! _ := notify d (Close CLOSE_NORMAL) in
    pure (Ok (resp_empty 204))) w (Ok r : result ApiError HttpResponse) w' →
  w_published w' = w_published w ++ map told l ++ [(device_channel d, bus_encode (Close CLOSE_NORMAL))].
Proof.
  intros Hr. apply runs_in_bind in Hr as (? & w6 & H6 & Hr).
  apply (runs_in_for_each _ _ _ (λ g, [told g])) in H6; [|intros ? ? ? ? ?%runs_in_tell_peer; done].
  apply runs_in_bind in Hr as (? & w7 & H7 & Hr). apply runs_in_runs, runs_no_publish in H7; [|done].
  apply runs_in_bind in Hr as (? & w8 & H8%runs_in_notify & [_ <-]). rewrite H8, H7, H6.
  assert (flat_map (λ g, [told g]) l = map told l) as ->; [|by rewrite <-app_assoc].
  clear. induction l as [|g l IH]; [done|]. cbn. by f_equal.
Qed.

(** C33. Peers are told: when no request is lost, a removal by the device of the request's
    valid token publishes to the peer of every unrevoked pair, in the order of the
    pairs, either (with [revoke_pairs]) the revocation of that very pair, signed by the
    device with its stored key within ten minutes of the relay's clock, or a silent
    change of pairs, and at last closes the device's own connection. *)
Theorem removal_told {C : Crypto} {B64 : Base64} {UO : UuidOps} {JW : JwtLib} {P : Postgres}
    {R : RedisServer} (K : Input → Prop) (state : AppState) (http : Request) (q : DeleteQuery)
    (body : result ApiError DeleteRequest) (w w' : World) (resp : HttpResponse) :
  (∀ i, K i → no_fault i) →
  runs_in K (delete_me state http q body) w (Ok resp) w' →
  w_db w' ≠ w_db w →
  ∃ device ik at_ l,
    presents_device K state http device ∧
    find_key device (w_db w) = Some (mkDeviceKey (arr_bytes ik) false) ∧ seen K at_ ∧
    Forall2 (removal_notice (dq_revoke_pairs q) device ik at_) (held_pairs device (w_db w)) l ∧
    w_published w' = w_published w ++ map told l ++
      [(device_channel device, bus_encode (Close CLOSE_NORMAL))].
Proof.
  intros HK Hr Hne. unfold delete_me in Hr.
  apply runs_in_bind_ok in Hr as [(tok & w1 & [Ht <-] & Hr)|(? & _ & [=])].
  apply runs_in_bind_ok in Hr as [(d & w1 & Hv & Hr)|(? & _ & [=])].
  pose proof Hv as Hp1%runs_in_runs%runs_no_publish; [|done].
  apply (runs_in_verify K state http) in Hv as [Hdb1 Hd]; [|done].
  apply runs_in_bind_ok in Hr as [(found & w2 & H2%runs_in_runs & Hr)|(? & _ & [=])].
  pose proof H2 as Hp2%runs_no_publish; [|done]. apply runs_read in H2 as [Hdb2 [n2 Hk]]; [|done].
  injection Hk as Hk. rewrite Hdb1 in Hk.
  destruct found as [key|]; [|by destruct Hr as [_ <-]; congruence].
  destruct (dk_revoked key) eqn:Erev; [by destruct Hr|].
  apply runs_in_bind_ok in Hr as [(u & w3 & H3%runs_in_runs & Hr)|(? & _ & [=])].
  pose proof H3 as Hp3%runs_no_publish; [|by apply check_device_issues]. apply runs_check_device in H3.
  apply runs_in_bind_ok in Hr as [(rv & w4 & [Hrv <-] & Hr)|(? & _ & [=])].
  apply runs_in_bind_ok in Hr as [(ik & w4 & [Hik <-] & Hr)|(? & _ & [=])].
  apply runs_in_bind in Hr as (at_ & w4 & H4 & Hr). apply runs_in_now in H4 as [Hat (i4 & _ & ->)].
  apply runs_in_bind_ok in Hr as [(res & w5 & H5%runs_in_runs & Hr)|(? & _ & [=])].
  pose proof H5 as Hp5%runs_no_publish; [|done]. apply runs_delete in H5.
  apply runs_in_bind_ok in Hr as [(l & ? & [-> <-] & Hr)|(? & _ & [=])].
  destruct H5 as [[_ [?|[? [=]]]]|(_ & l' & Hl & [?|[= <-]])]; try done.
  apply (runs_in_mono _ no_fault _ _ _ _ HK), runs_in_farewell in Hr.
  assert (w_db (elapse i4 w3) = w_db w) as Hdb4 by (cbn; congruence). rewrite Hdb4 in Hl.
  apply check_delete_Ok in Hl as [Hl _]. apply ok_or_Ok, arr_of_Some in Hik.
  exists d, ik, at_, l. split_and!; [done| |done| |].
  - rewrite Hk. destruct key as [kb kr]. cbn [dk_revoked dk_ik_sig_pub] in *. by subst.
  - replace (dq_revoke_pairs q) with (bool_decide (is_Some rv)); [done|].
    destruct (dq_revoke_pairs q); [by apply rmap_Ok in Hrv as (b & -> & ->)|by injection Hrv as <-].
  - rewrite Hr, Hp5. cbn [w_published elapse]. by rewrite Hp3, Hp2, Hp1.
Qed.
