(* ===== verification/PushRoute.v ===== *)
(** * PushRoute: a push to the other device of a pair ([routes/push.rs])

    The shape of the request, the rights of the sender, the coalescing of wakes
    and what the provider's outcome does. *)

From S2P Require Import Prelude Text Errors Externals Signatures Attestation Revocation Challenge.
From S2P Require Import Wire Bus Tables Redis Scripts Usage Hub IO Pool Invariants Net Config.
From S2P Require Import Limits Presence Push Auth PairRoutes DeviceRoutes.

Local Open Scope Z_scope.

(** [routes/push.rs:21-22 ENV_B64_MAX_BYTES] *)
Definition ENV_B64_MAX_BYTES : nat := 3000.
(** [routes/push.rs:23-24 COLLAPSE_KEY_MAX_CHARS] *)
Definition COLLAPSE_KEY_MAX_CHARS : nat := 64.
(** [routes/push.rs:25-26 TTL_MAX_S] *)
Definition TTL_MAX_S : Z := 86400.
(** [routes/push.rs:27-29 WAKE_COALESCE_SECS] *)
Definition WAKE_COALESCE_SECS : Z := 300.

(** [routes/push.rs:31-43 PushRequest] *)
Record PushRequest : Type := mkPushRequest {
  pq_pair_id : Uuid;
  pq_to : Uuid;
  pq_kind : string;
  pq_reason : string;
  pq_env_b64 : option string;
  pq_collapse_key : option string;
  pq_ttl_s : option Z
}.

(** [routes/push.rs:45-53 ValidPush] *)
Record ValidPush : Type := mkValidPush {
  vp_kind : Kind;
  vp_reason : Reason;
  vp_env_b64 : option string;
  vp_collapse_key : option string;
  vp_ttl_s : Z
}.

Section PushRoute.
Context {B64 : Base64} {UO : UuidOps}.

Definition kind_eqb (a b : Kind) : bool :=
  match a, b with KWake, KWake | KAlert, KAlert => true | _, _ => false end.

(** [routes/push.rs:55-103 validate_push] *)
Definition validate_push (req : PushRequest) : result ApiError ValidPush :=
  let? kind :=
    if bool_decide (pq_kind req = "wake") then Ok KWake
    else if bool_decide (pq_kind req = "alert") then Ok KAlert
    else Err BadRequest in
  let? reason :=
    ok_or (r ← parse_reason (pq_reason req);
           if kind_eqb (reason_kind r) kind then Some r else None) BadRequest in
  let? collapse_key :=
    match pq_collapse_key req with
    | None => Ok None
    | Some c =>
      if negb (str_is_empty c) && Nat.leb (str_len c) COLLAPSE_KEY_MAX_CHARS
         && all_bytes is_ascii_graphic c
      then Ok (Some c) else Err BadRequest
    end in
  let? ttl_s :=
    match pq_ttl_s req with
    | None => Ok (default_ttl_s reason)
    | Some t => if (0 <=? t) && (t <=? TTL_MAX_S) then Ok t else Err BadRequest
    end in
  let? env_b64 :=
    match kind, pq_env_b64 req with
    | KWake, None => Ok None
    | KWake, Some _ | KAlert, None => Err BadRequest
    | KAlert, Some env =>
      if Nat.ltb ENV_B64_MAX_BYTES (str_len env) then Err PayloadTooLarge
      else if str_is_empty env || bool_decide (b64_std_decode env = None)
      then Err BadRequest else Ok (Some env)
    end in
  Ok (mkValidPush kind reason env_b64 collapse_key ttl_s).

(** [routes/push.rs:105-108 wake_key] *)
Definition wake_key (to : Uuid) (reason : Reason) : string :=
  "wake:" +:+ hyphenated to +:+ ":" +:+ reason_str reason.

(** [routes/push.rs:205-207 accepted] *)
Definition accepted : HttpResponse := resp_json 202 (VObj [("accepted", VBool true)]).

(** [routes/push.rs:122-128 send, part] *)
Definition platform_fits (k : Kind) (platform : string) : bool :=
  match k with
  | KWake => bool_decide (platform = "android")
  | KAlert => bool_decide (platform = "ios") || bool_decide (platform = "ipados")
  end.
(** [routes/push.rs:129-132 send, part] *)
Definition provider_fits (k : Kind) (p : string) : bool :=
  match k with
  | KWake => bool_decide (p = "fcm")
  | KAlert => bool_decide (p = "apns") || bool_decide (p = "apns_sandbox")
  end.

Context {J : Json} {L : PushLib}.

(** [routes/push.rs:159-182 send, part]: hand it to the gateway. *)
Definition deliver (g : PushGateway) (req : PushRequest) (push : ValidPush) (target : PushTarget)
    (provider token : string) : prog Outcome :=
  match vp_kind push with
  | KWake =>
    gateway_wake g (mkWake token (pq_pair_id req) (vp_reason push) (vp_ttl_s push))
  | KAlert =>
    gateway_alert g
      (mkAlert token (default EmptyString (pt_topic target))
         (bool_decide (provider = "apns_sandbox")) (pq_pair_id req) (vp_reason push)
         (default EmptyString (vp_env_b64 push)) (vp_collapse_key push) (vp_ttl_s push))
  end.

(** [routes/push.rs:188-202 send, part]: what the outcome does. *)
Definition conclude (device to : Uuid) (outcome : Outcome) : prog (result ApiError HttpResponse) :=
  match outcome with
  | Sent =>
    let! _ := perform (CUsage (λ u, (tt, add_push device u))) in pure (Ok accepted)
  | TokenInvalid =>
    let* _ := or_internal (perform (CSql (QClearPushToken to))) in pure (Err PushTokenMissing)
  | TooLarge => pure (Err PayloadTooLarge)
  | Failed => pure (Err PushProviderError)
  end.

(** [routes/push.rs:110-203 send] *)
Definition send (state : AppState) (device : Uuid) (req : PushRequest) :
    prog (result ApiError HttpResponse) :=
  let* _ := check_device device GROUP_PUSH PUSH_PER_MINUTE in
  let* push := pure (validate_push req) in
  let* target := or_internal (perform (CSql (QPushTarget (pq_pair_id req) device (pq_to req)))) in
  let* target := pure (ok_or target NotPaired) in
  let* _ := pure (guard (negb (platform_fits (vp_kind push) (pt_platform target))) BadRequest) in
  match pt_provider target, pt_token target with
  | Some provider, Some token =>
    let* _ := pure (guard (negb (provider_fits (vp_kind push) provider)) PushTokenMissing) in
    let coalesce := match vp_kind push with
                    | KWake => Some (wake_key (pq_to req) (vp_reason push))
                    | KAlert => None
                    end in
    let* first := match coalesce with
                  | Some key => or_internal (perform (CRedis (RSetNx key "1" WAKE_COALESCE_SECS)))
                  | None => pure (Ok true)
                  end in
    if negb first then pure (Ok accepted) else
    let! outcome := deliver (st_push state) req push target provider token in
    let! _ := match coalesce with
              | Some key =>
                if bool_decide (outcome = Sent) then Ret tt
                else let! _ := perform (CRedis (RDel key)) in Ret tt
              | None => Ret tt
              end in
    conclude device (pq_to req) outcome
  | _, _ => pure (Err PushTokenMissing)
  end.
End PushRoute.

(** ** What a delivery touches *)

(** The commands of the provider clients. *)
Definition provider_cmd (X : Type) (c : cmd X) : Prop :=
  match c with
  | CNow | CInstant | CHttp _ | CTokenGet _ | CTokenPut _ _ _ | CSleep _ => True
  | _ => False
  end.

Section Deliveries.
Context {B64 : Base64} {UO : UuidOps} {J : Json} {L : PushLib} {P : Postgres} {R : RedisServer}.

Lemma apns_token_provider c b : issues provider_cmd (apns_token c b).
Proof.
  assert (issues provider_cmd (let* token := apns_sign c in
      let! now := perform CInstant in
      let! _ := perform (CTokenPut ProvApns token now) in pure (Ok token))) as Hs.
  { apply issues_bind_ok; [done|]. by intros t. }
  unfold apns_token. apply issues_bind; [done|]. intros [[t a]|]; [|exact Hs].
  destruct b; [exact Hs|]. apply issues_bind; [done|]. intros now.
  destruct (_ <? _); [done|exact Hs].
Qed.

Lemma fcm_token_provider c b : issues provider_cmd (fcm_access_token c b).
Proof.
  unfold fcm_access_token. apply issues_bind; [done|]. intros cached.
  assert (issues provider_cmd (fcm_fetch c)) as Hs.
  { apply issues_bind_ok; [done|]. intros a. apply issues_bind; [done|]. intros [[s body]|]; [|done].
    destruct (negb _); [done|]. by destruct (json_token_response body) as [[]|]. }
  destruct cached as [[t a]|]; [|exact Hs]. destruct b; [exact Hs|].
  apply issues_bind; [done|]. intros now. destruct (_ <? _); [done|exact Hs].
Qed.

Lemma deliver_provider g req push target pr tk :
  issues provider_cmd (deliver g req push target pr tk).
Proof.
  unfold deliver, gateway_wake, gateway_alert. destruct (vp_kind push).
  - destruct (gw_fcm g) as [c|]; [|done]. apply issues_bind; [|done]. unfold fcm_send. cbv zeta.
    apply send_loop_issues; [apply fcm_token_provider|done|done].
  - destruct (gw_apns g) as [c|]; [|done]. apply issues_bind; [|done].
    apply (apns_send_cases c _ (issues _)); [done..|]. intros payload _ _.
    apply issues_bind; [done|]. intros now.
    apply send_loop_issues; [apply apns_token_provider|done|done].
Qed.

(** A command that may leave database, Redis and usage counters alone. *)
Lemma runs_provider {A} (p : prog A) w a w' :
  issues provider_cmd p → runs p w a w' →
  w_db w' = w_db w ∧ w_redis w' = w_redis w ∧ w_usage w' = w_usage w.
Proof.
  intros Hp Hr. eapply (runs_invariant (λ w1, w_db w1 = w_db w ∧ w_redis w1 = w_redis w ∧
    w_usage w1 = w_usage w)); [|done|exact Hr|done].
  intros X c i w1 Hc Hw1. destruct c; try (by destruct Hc); exact Hw1.
Qed.

Lemma send_certified {C : Crypto} state device req : issues sql_cmd_ok (send state device req).
Proof.
  unfold send. apply issues_bind_ok; [by apply check_device_issues|]. intros _.
  apply issues_bind_ok; [done|]. intros push. apply issues_bind_ok; [done|]. intros t.
  apply issues_bind_ok; [done|]. intros target. apply issues_bind_ok; [done|]. intros _.
  destruct (pt_provider target) as [pr|], (pt_token target) as [tk|]; try done.
  apply issues_bind_ok; [done|]. intros _. cbv zeta. apply issues_bind_ok.
  { by destruct (vp_kind push). }
  intros first. destruct (negb first); [done|]. apply issues_bind.
  { eapply issues_impl; [|apply deliver_provider]. by intros X []. }
  intros o. apply issues_bind.
  { destruct (vp_kind push); [|done]. by case_bool_decide. }
  intros _. destruct o; try done. by apply issues_bind_ok.
Qed.

Lemma push_target_Some pid from to db t :
  push_target pid from to db = Some t →
  ∃ p d, pairs db !! pid = Some p ∧ devices db !! to = Some d ∧ unrevoked p = true ∧
    (p_device_a p = from ∧ p_device_b p = to ∨ p_device_b p = from ∧ p_device_a p = to) ∧
    device_active d = true ∧
    t = mkPushTarget (d_platform d) (d_push_provider d) (d_push_token d) (d_push_topic d).
Proof.
  unfold push_target. intros (p & Hp & (d & Hd & H)%bind_Some)%bind_Some.
  destruct (_ && _) eqn:E; [|done]. injection H as <-.
  apply andb_true_iff in E as [[Hu Hm]%andb_true_iff Ha].
  apply orb_true_iff in Hm. rewrite !bool_decide_eq_true in Hm. eauto 10.
Qed.
(** After the checks: the wake's key, the delivery, and what it leads to. *)
Definition attempt (g : PushGateway) (device : Uuid) (req : PushRequest) (push : ValidPush)
    (target : PushTarget) (provider token : string) (coalesce : option string) :
    prog (result ApiError HttpResponse) :=
  let* first := match coalesce with
                | Some key => or_internal (perform (CRedis (RSetNx key "1" WAKE_COALESCE_SECS)))
                | None => pure (Ok true)
                end in
  if negb first then pure (Ok accepted) else
  let! outcome := deliver g req push target provider token in
  let! _ := match coalesce with
            | Some key =>
              if bool_decide (outcome = Sent) then Ret tt
              else let! _ := perform (CRedis (RDel key)) in Ret tt
            | None => Ret tt
            end in
  conclude device (pq_to req) outcome.

Lemma runs_conclude device to o w r w' :
  runs (conclude device to o) w r w' →
  (w_db w' = w_db w ∨ r ≠ Ok accepted ∧ w_db w' = clear_push_token to (w_db w)) ∧
  (succeeds r → r = Ok accepted).
Proof.
  destruct o; intros Hr; try (destruct Hr as [<- <-]; split; [by left|by intros []]).
  - apply runs_bind in Hr as (? & w1 & H1 & [<- <-]). apply runs_no_sql in H1; [|done].
    split; [by left|done].
  - apply runs_bind_ok in Hr as [(u & w1 & H1 & [<- <-])|(e & H1 & ->)].
    + apply runs_sql_Ok in H1 as (i & db & H1 & ->). injection H1 as _ <-.
      split; [by right|by intros []].
    + split; [|by intros []]. apply runs_or_internal in H1 as (o & H1 & _).
      apply (proj1 (runs_perform _ _ _ _)) in H1 as [i H1]. unfold exec in H1. simpl in H1.
      unfold faulty in H1. destruct (i_fault i); cbn [exec_sql] in H1;
        simplify_eq; [right|left|right]; done.
Qed.

Lemma attempt_db g device req push target provider token coalesce w r w' :
  runs (attempt g device req push target provider token coalesce) w r w' →
  (w_db w' = w_db w ∨ r ≠ Ok accepted ∧ w_db w' = clear_push_token (pq_to req) (w_db w)) ∧
  (succeeds r → r = Ok accepted).
Proof.
  intros Hr. apply runs_bind_ok in Hr as [(first & w1 & H1 & Hr)|(e & H1 & ->)];
    (apply runs_no_sql in H1; [|by destruct coalesce]); rewrite <-H1; [|split; [by left|by intros []]].
  destruct (negb first); [by apply runs_Ret in Hr as [<- <-]; split; [left|]|].
  apply runs_bind in Hr as (o & w2 & H2 & Hr).
  apply runs_provider in H2 as [H2 _]; [|apply deliver_provider].
  apply runs_bind in Hr as (u & w3 & H3 & Hr).
  apply runs_no_sql in H3; [|destruct coalesce; [by case_bool_decide|done]].
  apply runs_conclude in Hr. by rewrite H3, H2 in Hr.
Qed.
(** *** Wakes *)

(** A command that neither counts nor sends a push. *)
Definition silent (X : Type) (c : cmd X) : Prop :=
  match c with CHttp _ | CUsage _ => False | _ => True end.

Lemma runs_silent {A} (p : prog A) w a w' :
  issues silent p → runs p w a w' → w_http w' = w_http w ∧ w_usage w' = w_usage w.
Proof.
  intros Hp Hr. eapply (runs_invariant (λ w1, w_http w1 = w_http w ∧ w_usage w1 = w_usage w));
    [|done|exact Hr|done].
  intros X c i w1 Hc Hw1. unfold exec. destruct c; try (by destruct Hc); try exact Hw1; simpl;
    unfold faulty; repeat (case_match; simplify_eq; try exact Hw1).
Qed.

(** What happens before a push is attempted. *)
Definition before_attempt (k : string) (w w1 : World) : Prop :=
  w_http w1 = w_http w ∧ w_usage w1 = w_usage w ∧ w_rnow w <= w_rnow w1 ∧
  ∀ t, w_rnow w1 <= t → r_val (w_redis w1) t k = r_val (w_redis w) t k.

Context {RL : RedisLaws}.

Lemma before_run {A} K (p : prog A) k w a w' :
  issues silent p → issues (leaves k) p → runs_in K p w a w' → before_attempt k w w'.
Proof.
  intros Hs Hl Hr%runs_in_runs. pose proof (runs_silent _ _ _ _ Hs Hr) as [? ?].
  by apply (runs_leaves k) in Hr as [? ?].
Qed.

Lemma before_trans k w w1 w2 : before_attempt k w w1 → before_attempt k w1 w2 → before_attempt k w w2.
Proof.
  intros (H1 & H2 & H3 & H4) (H5 & H6 & H7 & H8). split_and!; try congruence; [lia|].
  intros t Ht. rewrite H8, H4 by lia. done.
Qed.

Lemma wake_key_not_rl to reason k : wake_key to reason ≠ "rl:" +:+ k.
Proof. by cbn. Qed.

Lemma send_reaches K state device req k w r w' :
  (∀ s, k ≠ "rl:" +:+ s) →
  runs_in K (send state device req) w r w' →
  (before_attempt k w w' ∧ ¬ succeeds r) ∨
  ∃ v target provider token w1,
    validate_push req = Ok v ∧ before_attempt k w w1 ∧
    runs_in K (attempt (st_push state) device req v target provider token
      match vp_kind v with
      | KWake => Some (wake_key (pq_to req) (vp_reason v))
      | KAlert => None
      end) w1 r w'.
Proof.
  intros Hk Hr. unfold send in Hr.
  apply runs_in_bind_ok in Hr as [(u & w1 & H1 & Hr)|(e & H1 & ->)]; (apply (before_run _ _ k) in H1;
    [|by apply check_device_issues|apply check_device_issues; [|done]; intros s; split; [done|];
      cbn [redis_writes]; rewrite list_elem_of_singleton; apply Hk]); [|left; split; [done|by intros []]].
  apply runs_in_bind_ok in Hr as [(v & w2 & [Hv <-] & Hr)|(e & [_ <-] & ->)];
    [|left; split; [done|by intros []]].
  apply runs_in_bind_ok in Hr as [(tg & w2 & H2 & Hr)|(e & H2 & ->)];
    (apply (before_run _ _ k) in H2; [|done|done]); pose proof (before_trans _ _ _ _ H1 H2) as H3;
    [|left; split; [done|by intros []]].
  apply runs_in_bind_ok in Hr as [(target & w3 & [Ht <-] & Hr)|(e & [_ <-] & ->)];
    [|left; split; [done|by intros []]].
  apply runs_in_bind_ok in Hr as [(u3 & w3 & [Hpl <-] & Hr)|(e & [_ <-] & ->)];
    [|left; split; [done|by intros []]].
  destruct (pt_provider target) as [pr|], (pt_token target) as [tk|];
    try (destruct Hr as [<- <-]; left; split; [done|by intros []]).
  apply runs_in_bind_ok in Hr as [(u4 & w3 & [Hpf <-] & Hr)|(e & [_ <-] & ->)];
    [|left; split; [done|by intros []]].
  right. eauto 10.
Qed.
Lemma deliver_leaves k g req push target pr tk :
  issues (leaves k) (deliver g req push target pr tk).
Proof. eapply issues_impl; [|apply deliver_provider]. by intros X []. Qed.

Lemma conclude_leaves k device to o : issues (leaves k) (conclude device to o).
Proof. destruct o; try done. by apply issues_bind_ok. Qed.

Lemma conclude_http device to o w r w' :
  runs (conclude device to o) w r w' → (succeeds r ↔ o = Sent).
Proof.
  destruct o; intros Hr; try (destruct Hr as [<- <-]; split; [by intros []|done]).
  - apply runs_bind in Hr as (? & w1 & _ & [<- <-]). split; [done|by eexists].
  - apply runs_bind_ok in Hr as [(u & w1 & _ & [<- <-])|(e & _ & ->)]; split; (by intros []) || done.
Qed.

(** Whether the wake is the first of its window. *)
Lemma runs_in_setnx key v ttl w r w' :
  runs_in no_fault (or_internal (perform (CRedis (RSetNx key v ttl)))) w r w' →
  ∃ i s b, r = Ok b ∧ r_setnx key v ttl (w_rnow w') (w_redis w) = (b, s) ∧
    w' = with_redis s (elapse i w).
Proof.
  unfold or_internal. intros (o & w1 & (i & s & H & ->)%runs_in_redis & [<- <-])%runs_in_bind.
  cbn [exec_redis] in H. destruct (r_setnx _ _ _ _ _) as [b s'] eqn:E.
  injection H as <- <-. by exists i, s', b.
Qed.

(** After the delivery of a wake its key is kept or freed. *)
Lemma settle_key device to o key w r w' :
  runs_in no_fault
    (let! _ := if bool_decide (o = Sent) then Ret tt
               else let! _ := perform (CRedis (RDel key)) in Ret tt in
     conclude device to o) w r w' →
  w_rnow w <= w_rnow w' ∧
  ∀ t, w_rnow w' <= t → r_val (w_redis w') t key =
    if decide (o = Sent) then r_val (w_redis w) t key else None.
Proof.
  intros Hr. split; [by eapply runs_rnow, runs_in_runs|]. intros t Ht.
  apply runs_in_bind in Hr as (u & w1 & H1 & Hr).
  apply runs_in_runs in Hr. apply (runs_leaves key) in Hr as [Hn Hf]; [|apply conclude_leaves].
  rewrite Hf by done. case_bool_decide as Ho.
  - destruct H1 as [_ <-]. by rewrite decide_True.
  - rewrite decide_False by done.
    apply runs_in_bind in H1 as (u' & w2 & (i & s & H1 & ->)%runs_in_redis & [_ <-]).
    injection H1 as _ <-. cbn [w_redis w_rnow with_redis elapse] in *. apply r_val_del_same. lia.
Qed.

(** The key of a wake around an attempt in which no request is lost. *)
Lemma attempt_key g device req push target provider token key w r w' :
  runs_in no_fault (attempt g device req push target provider token (Some key)) w r w' →
  w_rnow w <= w_rnow w' ∧
  ((∀ t, w_rnow w <= t <= w_rnow w' → is_Some (r_val (w_redis w) t key)) →
     w_http w' = w_http w ∧ w_usage w' = w_usage w) ∧
  (w_http w' ≠ w_http w →
     (succeeds r → ∃ at_, w_rnow w <= at_ <= w_rnow w' ∧ ∀ t, w_rnow w' <= t →
        r_val (w_redis w') t key =
          if t <? at_ + 1000 * WAKE_COALESCE_SECS then Some (RStr "1") else None) ∧
     (¬ succeeds r → ∀ t, w_rnow w' <= t → r_val (w_redis w') t key = None)).
Proof.
  intros Hr. split; [by eapply runs_rnow, runs_in_runs|].
  apply runs_in_bind_ok in Hr as [(first & w1 & H1 & Hr)|(e & H1 & ->)];
    apply runs_in_setnx in H1 as (i & s & b & [= ->] & H1 & ->).
  unfold r_setnx in H1. cbn [w_rnow with_redis elapse] in H1.
  destruct (r_val (w_redis w) _ key) as [v|] eqn:Ev; injection H1 as <- <-.
  { destruct Hr as [_ <-]. done. }
  cbn [negb] in Hr. apply runs_in_bind in Hr as (o & w2 & H2 & Hr). apply runs_in_runs in H2.
  pose proof (runs_rnow _ _ _ _ H2) as Hn2.
  apply (runs_leaves key) in H2 as [_ Hf2]; [|apply deliver_leaves].
  pose proof (settle_key _ _ _ _ _ _ _ Hr) as [Hn3 Hkey].
  assert (succeeds r ↔ o = Sent) as Ho.
  { apply runs_in_bind in Hr as (? & w3 & _ & Hr%runs_in_runs). by eapply conclude_http. }
  cbn [w_redis w_rnow with_redis elapse] in *. split.
  { intros Hpre. destruct (Hpre (w_rnow w + Z.of_N (i_redis_elapsed i))) as [v Hv]; [lia|].
    rewrite Hv in Ev. discriminate Ev. }
  intros _. split.
  - intros Hs. exists (w_rnow w + Z.of_N (i_redis_elapsed i)). split; [lia|]. intros t Ht.
    rewrite Hkey, decide_True, Hf2 by (tauto || lia).
    by rewrite r_val_setex, bool_decide_true by (lia || done).
  - intros Hs t Ht. by rewrite Hkey, decide_False by tauto.
Qed.
End Deliveries.

(** ** Properties *)

(** The shape of a push: the kind is the one of the reason, only an alert
    carries an envelope (standard base64 of 1 to 3,000 bytes), the collapse key is
    1 to 64 visible ASCII characters and the time to live is the given one up to a
    day, or the reason's own. *)
Theorem validate_push_spec {B64 : Base64} (req : PushRequest) (v : ValidPush) :
  validate_push req = Ok v ↔
  pq_kind req = match vp_kind v with KWake => "wake" | KAlert => "alert" end ∧
  pq_reason req = reason_str (vp_reason v) ∧ reason_kind (vp_reason v) = vp_kind v ∧
  vp_collapse_key v = pq_collapse_key req ∧
  match pq_collapse_key req with
  | Some c => (0 < str_len c <= COLLAPSE_KEY_MAX_CHARS)%nat ∧ all_bytes is_ascii_graphic c = true
  | None => True
  end ∧
  match pq_ttl_s req with
  | Some t => 0 <= t <= TTL_MAX_S ∧ vp_ttl_s v = t
  | None => vp_ttl_s v = default_ttl_s (vp_reason v)
  end ∧
  vp_env_b64 v = pq_env_b64 req ∧
  match vp_kind v with
  | KWake => pq_env_b64 req = None
  | KAlert => ∃ env l, pq_env_b64 req = Some env ∧ (0 < str_len env <= ENV_B64_MAX_BYTES)%nat ∧
      b64_std_decode env = Some l
  end.
Proof.
  unfold validate_push. split.
  - intros (k & Hk & (r & Hr & (c & Hc & (t & Ht & (e & He & [= <-])%rbind_Ok)%rbind_Ok)%rbind_Ok)%rbind_Ok)%rbind_Ok.
    cbn [vp_kind vp_reason vp_env_b64 vp_collapse_key vp_ttl_s].
    apply ok_or_Ok, bind_Some in Hr as (r' & Hr & Hkr). apply parse_reason_str in Hr.
    destruct (kind_eqb (reason_kind r') k) eqn:Ek; [|done]. injection Hkr as ->.
    split_and!; [|done| | | | | |].
    + case_bool_decide; [by simplify_eq|]. case_bool_decide; by simplify_eq.
    + by destruct (reason_kind r), k.
    + destruct (pq_collapse_key req); [|by simplify_eq].
      destruct (_ && _); by simplify_eq.
    + destruct (pq_collapse_key req) as [c'|]; [|done]. destruct (_ && _) eqn:E; [|done].
      apply andb_true_iff in E as [[H1 H2]%andb_true_iff H3].
      apply negb_true_iff, Nat.eqb_neq in H1. apply Nat.leb_le in H2. split; [lia|done].
    + destruct (pq_ttl_s req) as [t'|]; [|by simplify_eq]. destruct (_ && _) eqn:E; [|done].
      injection Ht as <-. lia.
    + destruct k, (pq_env_b64 req); simplify_eq; [done|].
      destruct (Nat.ltb _ _); [done|]. by destruct (_ || _); simplify_eq.
    + destruct k, (pq_env_b64 req) as [env|]; simplify_eq; [done|].
      destruct (Nat.ltb_spec ENV_B64_MAX_BYTES (str_len env)); [done|].
      destruct (_ || _) eqn:E; [done|]. apply orb_false_iff in E as [E1 E2].
      apply Nat.eqb_neq in E1. apply bool_decide_eq_false in E2.
      destruct (b64_std_decode env) as [l|] eqn:El; [|done]. exists env, l. split_and!; [done|lia|lia|done].
  - destruct v as [k r env c ttl]. cbn [vp_kind vp_reason vp_env_b64 vp_collapse_key vp_ttl_s].
    intros (Hk & Hr & Hkr & Hc & Hco & Ht & He & Heo).
    rewrite (proj2 (parse_reason_str _ r) Hr).
    replace (if bool_decide (pq_kind req = "wake") then _ else _)
      with (Ok k : result ApiError Kind) by (rewrite Hk; by destruct k).
    cbn [rbind mbind option_bind]. rewrite Hkr. replace (kind_eqb k k) with true by by destruct k.
    cbn [rbind ok_or]. rewrite <-Hc in *.
    replace (match c with Some _ => _ | None => _ end) with (Ok c : result ApiError (option string)).
    2: { destruct c as [c|]; [|done]. destruct Hco as [[H1 H2] H3]. rewrite H3.
         unfold str_is_empty. rewrite (proj2 (Nat.eqb_neq _ _)), (proj2 (Nat.leb_le _ _)) by lia. done. }
    cbn [rbind].
    replace (match pq_ttl_s req with Some _ => _ | None => _ end) with (Ok ttl : result ApiError Z).
    2: { destruct (pq_ttl_s req) as [t|]; [|by rewrite Ht]. destruct Ht as [Ht ->].
         destruct (Z.leb_spec 0 t), (Z.leb_spec t TTL_MAX_S); done || lia. }
    cbn [rbind]. rewrite <-He in *. destruct k; [by rewrite Heo|]. destruct Heo as (e & l & -> & Hl & Hd).
    rewrite Hd, bool_decide_false, orb_false_r by done. unfold str_is_empty.
    destruct (Nat.ltb_spec ENV_B64_MAX_BYTES (str_len e)); [lia|].
    by rewrite (proj2 (Nat.eqb_neq _ _)) by lia.
Qed.

(** C16. A push goes only where the pair allows: an accepted one has the shape
    above, joins the sender and the target of an unrevoked pair, and the target is
    not revoked, of the kind's platform and registered with the kind's provider;
    whatever the result, at most the target's push token is cleared in the
    database. *)
Theorem push_authorized {B64 : Base64} {UO : UuidOps} {J : Json} {L : PushLib} {P : Postgres}
    {R : RedisServer} (state : AppState) (device : Uuid) (req : PushRequest) (w w' : World)
    (r : result ApiError HttpResponse) :
  runs (send state device req) w r w' →
  (w_db w' = w_db w ∨ r ≠ Ok accepted ∧ w_db w' = clear_push_token (pq_to req) (w_db w)) ∧
  (succeeds r → r = Ok accepted ∧ ∃ v p d provider token,
     validate_push req = Ok v ∧ pairs (w_db w) !! pq_pair_id req = Some p ∧ unrevoked p = true ∧
     (p_device_a p = device ∧ p_device_b p = pq_to req ∨
      p_device_b p = device ∧ p_device_a p = pq_to req) ∧
     devices (w_db w) !! pq_to req = Some d ∧ device_active d = true ∧
     platform_fits (vp_kind v) (d_platform d) = true ∧
     d_push_provider d = Some provider ∧ provider_fits (vp_kind v) provider = true ∧
     d_push_token d = Some token).
Proof.
  intros Hr. unfold send in Hr.
  apply runs_bind_ok in Hr as [(u & w1 & H1 & Hr)|(e & H1 & ->)]; apply runs_check_device in H1;
    [|split; [by left|by intros []]].
  apply runs_bind_ok in Hr as [(v & w2 & [Hv <-] & Hr)|(e & [_ <-] & ->)];
    [|split; [by left|by intros []]].
  apply runs_bind_ok in Hr as [(tg & w2 & H2 & Hr)|(e & H2 & ->)]; (apply runs_read in H2; [|done]);
    destruct H2 as [Hdb2 H2]; rewrite H1 in *; [|split; [by left|by intros []]].
  destruct H2 as [n2 H2]. cbn in H2. injection H2 as <-.
  apply runs_bind_ok in Hr as [(target & w3 & [Ht <-] & Hr)|(e & [_ <-] & ->)];
    [|split; [by left|by intros []]].
  apply ok_or_Ok, push_target_Some in Ht as (p & d & Hp & Hd & Hu & Hm & Ha & ->).
  cbn [pt_platform pt_provider pt_token] in Hr.
  apply runs_bind_ok in Hr as [(u3 & w3 & [Hpl <-] & Hr)|(e & [_ <-] & ->)];
    [|split; [by left|by intros []]].
  apply guard_Ok, negb_false_iff in Hpl.
  destruct (d_push_provider d) as [pr|] eqn:Epr, (d_push_token d) as [tk|] eqn:Etk;
    try (apply runs_Ret in Hr as [<- <-]; split; [by left|by intros []]).
  apply runs_bind_ok in Hr as [(u4 & w3 & [Hpf <-] & Hr)|(e & [_ <-] & ->)];
    [|split; [by left|by intros []]].
  apply guard_Ok, negb_false_iff in Hpf.
  cbv zeta in Hr. apply attempt_db in Hr as [Hdb Hok]. rewrite Hdb2 in Hdb. split; [done|].
  intros Hs. split; [by apply Hok|]. exists v, p, d, pr, tk. by split_and!.
Qed.

(** C17. Wakes are coalesced: while the key of a wake is set, another one with the
    same target and reason reaches no provider and is not counted; when no request
    to a service is lost, a wake that was sent leaves the key set for five minutes,
    and one that failed leaves it free. *)
Theorem wakes_coalesced {B64 : Base64} {UO : UuidOps} {J : Json} {L : PushLib} {P : Postgres}
    {R : RedisServer} {RL : RedisLaws} (state : AppState) (device : Uuid) (req : PushRequest)
    (v : ValidPush) (w w' : World) (r : result ApiError HttpResponse) :
  validate_push req = Ok v → vp_kind v = KWake →
  runs_in no_fault (send state device req) w r w' →
  let key := wake_key (pq_to req) (vp_reason v) in
  ((∀ t, w_rnow w <= t <= w_rnow w' → is_Some (r_val (w_redis w) t key)) →
     w_http w' = w_http w ∧ w_usage w' = w_usage w) ∧
  (w_http w' ≠ w_http w →
     (succeeds r → ∃ at_, w_rnow w <= at_ <= w_rnow w' ∧ ∀ t, w_rnow w' <= t →
        r_val (w_redis w') t key =
          if t <? at_ + 1000 * WAKE_COALESCE_SECS then Some (RStr "1") else None) ∧
     (¬ succeeds r → ∀ t, w_rnow w' <= t → r_val (w_redis w') t key = None)).
Proof.
  intros Hv Hk Hr key.
  apply (send_reaches _ _ _ _ key) in Hr; [|apply wake_key_not_rl].
  destruct Hr as [[(Hh & Hu & _) _]|(v' & tg & pr & tk & w1 & Hv' & Hb & Hr)]; [done|].
  rewrite Hv in Hv'. injection Hv' as <-. rewrite Hk in Hr. fold key in Hr.
  destruct Hb as (Hh & Hu & Hn & Hval).
  apply attempt_key in Hr as (Hn' & Hset & Hfree). split.
  - intros Hpre. rewrite <-Hh, <-Hu. apply Hset. intros t Ht.
    rewrite Hval by lia. apply Hpre. lia.
  - rewrite <-Hh. intros Hne. destruct (Hfree Hne) as [H1 H2]. split; [|done].
    intros Hs. destruct (H1 Hs) as (at_ & ? & ?). exists at_. split; [lia|done].
Qed.
