(* ===== verification/Bandwidth.v ===== *)
(** * Bandwidth: the per-pair token bucket ([relay/bandwidth.rs])

    [f64] is IEEE binary64, computed bit for bit with the Standard Library's
    [SpecFloat]; [Duration] and [Instant] are nanoseconds. *)

From Stdlib Require Import Floats.SpecFloat.
From S2P Require Import Prelude.

Local Open Scope Z_scope.

(** ** [f64] *)

Abbreviation f64 := spec_float.

Definition f64_add : f64 → f64 → f64 := SFadd 53 1024.
Definition f64_sub : f64 → f64 → f64 := SFsub 53 1024.
Definition f64_mul : f64 → f64 → f64 := SFmul 53 1024.
Definition f64_div : f64 → f64 → f64 := SFdiv 53 1024.
Definition f64_neg : f64 → f64 := SFopp.

(** [z as f64], rounded to nearest. *)
Definition f64_of_Z (z : Z) : f64 := binary_normalize 53 1024 z 0 false.

(** [x >= 0.0]; both zeros compare equal. *)
Definition f64_nonneg (x : f64) : bool := SFleb (S754_zero false) x.

(** [x.min(y)]: the other one when one is not a number. *)
Definition f64_min (x y : f64) : f64 :=
  match x, y with
  | S754_nan, _ => y
  | _, S754_nan => x
  | _, _ => if SFltb y x then y else x
  end.

(** [Duration::as_secs_f64] *)
Definition as_secs_f64 (ns : Z) : f64 :=
  f64_add (f64_of_Z (ns / 1000000000)) (f64_div (f64_of_Z (ns mod 1000000000)) (f64_of_Z 1000000000)).

(** [a / b] rounded to nearest, ties to even. *)
Definition round_div (a b : Z) : Z :=
  let q := a / b in let r := a mod b in
  if 2 * r <? b then q else if b <? 2 * r then q + 1 else if Z.even q then q else q + 1.

(** [Duration::from_secs_f64] of a number below [2^64] that is not negative (it
    panics on any other). *)
Definition from_secs_f64 (x : f64) : Z :=
  match x with
  | S754_finite false m e =>
    let n := Zpos m * 1000000000 in
    if 0 <=? e then n * 2 ^ e else round_div n (2 ^ (- e))
  | _ => 0
  end.

(** ** The bucket *)

(** [relay/bandwidth.rs:10-16 TokenBucket] *)
Record TokenBucket : Type := mkBucket {
  tb_rate : f64;
  tb_capacity : f64;
  tb_tokens : f64;
  tb_updated : Z
}.

(** [relay/bandwidth.rs:19-28 TokenBucket::new] *)
Definition bucket_new (rate_bytes_per_sec now : Z) : TokenBucket :=
  let rate := f64_of_Z (Z.max rate_bytes_per_sec 1) in
  mkBucket rate rate rate now.

(** [relay/bandwidth.rs:30-41 TokenBucket::take] *)
Definition bucket_take (b : TokenBucket) (cost now : Z) : Z * TokenBucket :=
  let elapsed := as_secs_f64 (Z.max (now - tb_updated b) 0) in
  let tokens := f64_min (f64_add (tb_tokens b) (f64_mul elapsed (tb_rate b))) (tb_capacity b) in
  let tokens := f64_sub tokens (f64_of_Z cost) in
  let b' := mkBucket (tb_rate b) (tb_capacity b) tokens now in
  if f64_nonneg tokens then (0, b')
  else (from_secs_f64 (f64_div (f64_neg tokens) (tb_rate b)), b').

(** Frames taken one after the other, each with its size and time; the waits. *)
Fixpoint bucket_waits (b : TokenBucket) (frames : list (Z * Z)) : list Z :=
  match frames with
  | [] => []
  | (cost, now) :: frames' =>
    let '(wait, b') := bucket_take b cost now in wait :: bucket_waits b' frames'
  end.

(** 2 MiB/s: two frames of 1 MiB pass at once, a third one waits half a second,
    and after that half second the next one waits as long. *)
Lemma bucket_default_rate :
  let mib := 1048576 in
  bucket_waits (bucket_new (2 * mib) 0)
    [(mib, 0); (mib, 0); (mib, 0); (mib, 500000000); (1, 2000000000)] =
  [0; 0; 500000000; 500000000; 0].
Proof. vm_compute. reflexivity. Qed.
