(* ===== verification/Connection.v ===== *)
(** * Connection: the state of one relay connection and what its handlers share
    ([relay/connection.rs])

    [Conn] is passed along explicitly; the session is the connection's id in
    [CWrite].  The event loop is in [Serve], frames from the device in [Inbound],
    messages for it in [Outbound]. *)

From S2P Require Import Prelude Text Errors Externals Signatures Attestation Revocation Challenge.
From S2P Require Import Wire Bus Tables Redis Scripts Usage Hub IO Pool Invariants Net Config.
From S2P Require Import Limits Presence Push Auth PairRoutes DeviceRoutes Bandwidth.

Local Open Scope Z_scope.

(** [relay/connection.rs:26-27 MISS_RELOAD_GAP] *)
Definition MISS_RELOAD_GAP : Z := secs 1.

(** [relay/connection.rs:35-44 End] *)
Inductive ConnEnd : Type :=
| Gone
| ClientClosed
| EndClose (code : Z).

(** [relay/connection.rs:46-52 Pending] *)
Record Pending : Type := mkPending {
  pn_to : Uuid;
  pn_bus : BusMessage;
  pn_bytes : Z;
  pn_deadline : Z
}.

(** [relay/connection.rs:54-65 Conn] *)
Record Conn : Type := mkConn {
  cn_device : Uuid;
  cn_id : Uuid;
  cn_pairs : list (Uuid * Uuid);
  cn_peers : gset Uuid;
  cn_buckets : gmap Uuid TokenBucket;
  cn_pending : option Pending;
  cn_last_miss : option Z
}.

(** [relay/connection.rs:92-102 run, part]: a connection before it is opened. *)
Definition new_conn (device_id conn_id : Uuid) : Conn :=
  mkConn device_id conn_id [] ∅ ∅ None None.

Definition with_peers (pairs : list (Uuid * Uuid)) (c : Conn) : Conn :=
  let peers := list_to_set pairs.*2 in
  mkConn (cn_device c) (cn_id c) pairs peers
    (filter (λ kv, kv.1 ∈ peers) (cn_buckets c)) (cn_pending c) (cn_last_miss c).
Definition with_bucket (peer : Uuid) (b : TokenBucket) (c : Conn) : Conn :=
  mkConn (cn_device c) (cn_id c) (cn_pairs c) (cn_peers c) (<[peer := b]> (cn_buckets c))
    (cn_pending c) (cn_last_miss c).
Definition with_pending (p : option Pending) (c : Conn) : Conn :=
  mkConn (cn_device c) (cn_id c) (cn_pairs c) (cn_peers c) (cn_buckets c) p (cn_last_miss c).
Definition with_last_miss (t : Z) (c : Conn) : Conn :=
  mkConn (cn_device c) (cn_id c) (cn_pairs c) (cn_peers c) (cn_buckets c) (cn_pending c) (Some t).

(** [relay/connection.rs:347-358 written] *)
Definition written (r : WriteResult) : result ConnEnd unit :=
  match r with
  | Written => Ok tt
  | SessionClosed => Err Gone
  | TimedOut => Err (EndClose CLOSE_INTERNAL)
  end.

(** [r.err()] *)
Definition rerr {E A} (r : result E A) : option E := match r with Ok _ => None | Err e => Some e end.

Section Connection.
Context {B64 : Base64} {UO : UuidOps} {J : Json}.

(** [relay/connection.rs:299-302 Conn::send_text] *)
Definition send_text (c : Conn) (text : string) : prog (result ConnEnd unit) :=
  let! r := perform (CWrite (cn_id c) (WText text)) in Ret (written r).

(** [relay/connection.rs:304-307 Conn::send_binary] *)
Definition send_binary (c : Conn) (frame : bytes) : prog (result ConnEnd unit) :=
  let! r := perform (CWrite (cn_id c) (WBinary frame)) in Ret (written r).

(** [relay/connection.rs:309-316 Conn::send_error] *)
Definition send_error (c : Conn) (err : RelayError) (to : option Uuid) : prog (option ConnEnd) :=
  let! r := send_text c (error_message err to) in Ret (rerr r).

(** [relay/connection.rs:230-241 Conn::refresh_presence] *)
Definition refresh_presence (st : AppState) (c : Conn) : prog (option ConnEnd) :=
  let! r := refresh (cn_device c) (instance_id (st_settings st)) in
  Ret (match r with
       | Some true => None
       | Some false => Some (EndClose CLOSE_REPLACED)
       | None => None
       end).

(** [relay/connection.rs:243-257 Conn::reload_peers] *)
Definition reload_peers (c : Conn) : prog (bool * Conn) :=
  let! pairs := perform (CSql (QActivePeers (cn_device c))) in
  Ret (match pairs with
       | Some pairs => (true, with_peers pairs c)
       | None => (false, c)
       end).

(** [relay/connection.rs:259-274 Conn::is_peer] *)
Definition is_peer (peer : Uuid) (c : Conn) : prog (bool * Conn) :=
  if bool_decide (peer ∈ cn_peers c) then Ret (true, c)
  else
    let! now := perform CInstant in
    if match cn_last_miss c with
       | Some t => Z.max 0 (now - t) <? MISS_RELOAD_GAP
       | None => false
       end
    then Ret (false, c)
    else
      let! (loaded, c) := reload_peers (with_last_miss now c) in
      Ret (loaded && bool_decide (peer ∈ cn_peers c), c).

(** [relay/connection.rs:276-282 Conn::peer_presence] *)
Definition peer_presence (pairs : list (Uuid * Uuid)) : prog (list bool) :=
  let peers := pairs.*2 in
  let! r := online peers in Ret (default (replicate (length peers) false) r).

(** [relay/connection.rs:284-297 Conn::announce] *)
Definition announce (c : Conn) (is_online : bool) : prog unit :=
  for_each (cn_pairs c) (λ pp : Uuid * Uuid,
    let! _ := publish pp.2 (Control (presence_message pp.1 (cn_device c) is_online)) in Ret tt).
End Connection.

(** ** Lemmas *)

(** The peers a connection knows are those of its pairs, and only they have a
    bucket. *)
Definition conn_ok (c : Conn) : Prop :=
  cn_peers c = list_to_set (cn_pairs c).*2 ∧ dom (cn_buckets c) ⊆ cn_peers c.

Lemma conn_ok_new d i : conn_ok (new_conn d i).
Proof. split; [done|]. unfold new_conn. cbn. set_solver. Qed.

Lemma conn_ok_with_peers l c : conn_ok (with_peers l c).
Proof.
  split; [done|]. cbn [with_peers cn_buckets cn_peers]. intros x [b Hb]%elem_of_dom.
  apply map_lookup_filter_Some in Hb as [_ Hx]. exact Hx.
Qed.

Lemma conn_ok_with_bucket p b c : p ∈ cn_peers c → conn_ok c → conn_ok (with_bucket p b c).
Proof. intros Hp [H1 H2]. split; [done|]. cbn. set_solver. Qed.

(** What a change of the peers leaves alone. *)
Definition same_conn (c c' : Conn) : Prop := cn_device c' = cn_device c ∧ cn_id c' = cn_id c.

Section ConnRuns.
Context {B64 : Base64} {UO : UuidOps} {J : Json} {P : Postgres} {R : RedisServer}.

(** Only [CWrite] writes to a device, only [CPublish] publishes. *)
Definition no_write (X : Type) (c : cmd X) : Prop := match c with CWrite _ _ => False | _ => True end.

Lemma runs_no_write {A} (p : prog A) w a w' :
  issues no_write p → runs p w a w' → w_written w' = w_written w.
Proof.
  intros Hp Hr.
  eapply (runs_invariant (λ w1, w_written w1 = w_written w)); [|done|exact Hr|done].
  intros X c i w1 Hc <-. unfold exec. destruct c; simpl in *; try done; unfold faulty;
    repeat (case_match; simplify_eq; try done).
Qed.

(** A write appends its frame to the device's stream, or ends the connection. *)
Lemma runs_write (c : Conn) f w r w' :
  runs (let! r := perform (CWrite (cn_id c) f) in Ret (written r)) w r w' →
  match r with
  | Ok _ => w_written w' = w_written w ++ [(cn_id c, f)]
  | Err e => w_written w' = w_written w ∧ (e = Gone ∨ e = EndClose CLOSE_INTERNAL)
  end.
Proof.
  intros (x & w1 & H & [<- <-])%runs_bind. apply (proj1 (runs_perform _ _ _ _)) in H as [i H].
  unfold exec in H. simpl in H. injection H as <- <-. destruct (i_write i); cbn; auto.
Qed.

Lemma runs_send_text c t w r w' :
  runs (send_text c t) w r w' →
  match r with
  | Ok _ => w_written w' = w_written w ++ [(cn_id c, WText t)]
  | Err e => w_written w' = w_written w ∧ (e = Gone ∨ e = EndClose CLOSE_INTERNAL)
  end.
Proof. apply runs_write. Qed.

Lemma runs_send_binary c t w r w' :
  runs (send_binary c t) w r w' →
  match r with
  | Ok _ => w_written w' = w_written w ++ [(cn_id c, WBinary t)]
  | Err e => w_written w' = w_written w ∧ (e = Gone ∨ e = EndClose CLOSE_INTERNAL)
  end.
Proof. apply runs_write. Qed.

(** A reload that answers installs exactly the active peers of the database. *)
Lemma runs_reload_peers c w b c' w' :
  runs (reload_peers c) w (b, c') w' →
  w_db w' = w_db w ∧
  c' = if b then with_peers (active_peers (cn_device c) (w_db w)) c else c.
Proof.
  intros (o & w1 & H & [Hb <-])%runs_bind.
  apply (proj1 (runs_perform _ _ _ _)) in H as [i H]. destruct o as [l|]; simplify_eq.
  - apply exec_sql_Some in H as (db & H & ->). cbn [exec_sql] in H. by injection H as <- <-.
  - split; [|done]. unfold exec in H. simpl in H. unfold faulty in H.
    destruct (i_fault i); simplify_eq; done.
Qed.
End ConnRuns.

Section PeerRuns.
Context {B64 : Base64} {UO : UuidOps} {J : Json} {P : Postgres} {R : RedisServer}.

(** What deciding about a peer may do to a connection. *)
Definition peers_step (w w' : World) (c c' : Conn) : Prop :=
  c' = c ∨
  ∃ now, w_instant w <= now <= w_instant w' ∧
    (∀ t, cn_last_miss c = Some t → MISS_RELOAD_GAP <= now - t) ∧
    (c' = with_last_miss now c ∨
     c' = with_peers (active_peers (cn_device c) (w_db w)) (with_last_miss now c)).

Lemma exec_instant {X} i (c : cmd X) w :
  w_instant (exec i c w).2 = w_instant w + Z.of_N (i_elapsed i).
Proof.
  unfold exec. destruct c; simpl; try done; unfold faulty; repeat (case_match; simplify_eq; try done).
Qed.

Lemma runs_instant {A} (p : prog A) w a w' : runs p w a w' → w_instant w <= w_instant w'.
Proof.
  intros Hr. eapply (runs_invariant (λ w1, w_instant w <= w_instant w1) (λ _ _, True)); [| |exact Hr|lia].
  - intros X c i w1 _ H. pose proof (exec_instant i c w1). lia.
  - clear. induction p; simpl; [done|]. by split.
Qed.

Lemma is_peer_issues (Q : ∀ X, cmd X → Prop) p c :
  Q _ CInstant → (∀ d, Q _ (CSql (QActivePeers d))) → issues Q (is_peer p c).
Proof.
  intros H1 H2. unfold is_peer. case_bool_decide; [done|]. cbn. split; [done|]. intros now.
  case_match; [done|]. cbn. split; [done|]. by intros [l|].
Qed.

Lemma runs_is_peer p c w b c' w' :
  runs (is_peer p c) w (b, c') w' →
  b = bool_decide (p ∈ cn_peers c') ∧ peers_step w w' c c' ∧ w_db w' = w_db w ∧
  w_published w' = w_published w ∧ w_written w' = w_written w.
Proof.
  intros Hr. pose proof Hr as Hp. apply runs_no_publish in Hp; [|by apply is_peer_issues].
  pose proof Hr as Hw. apply runs_no_write in Hw; [|by apply is_peer_issues].
  unfold is_peer in Hr. case_bool_decide as Hin.
  { apply runs_Ret in Hr as [[= <- <-] <-]. rewrite bool_decide_true by done.
    split_and!; try done. by left. }
  apply runs_bind in Hr as (now & w1 & H1 & Hr). apply (proj1 (runs_perform _ _ _ _)) in H1 as [i H1].
  pose proof (exec_instant i CInstant w) as Hi. rewrite H1 in Hi.
  unfold exec in H1. simpl in H1. injection H1 as <- <-. cbn [snd] in Hi.
  destruct (match cn_last_miss c with Some _ => _ | None => _ end) eqn:Eg.
  { apply runs_Ret in Hr as [[= <- <-] <-]. rewrite bool_decide_false by done.
    split_and!; try done. by left. }
  apply runs_bind in Hr as ([l c1] & w2 & H2 & Hr). apply runs_Ret in Hr as [[= <- <-] <-].
  pose proof (runs_instant _ _ _ _ H2) as Hi2.
  apply runs_reload_peers in H2 as [Hdb ->]. cbn [w_db elapse] in Hdb. split_and!; try done.
  - destruct l; [done|]. cbn [andb with_last_miss cn_peers]. by rewrite bool_decide_false.
  - right. exists (w_instant w + Z.of_N (i_elapsed i)). cbn [w_instant elapse] in *.
    split_and!; [lia|lia| |].
    + intros t Ht. rewrite Ht in Eg. apply Z.ltb_ge in Eg. change MISS_RELOAD_GAP with 1000000000 in *. lia.
    + destruct l; [by right|by left].
Qed.

Lemma peers_step_ok w w' c c' : peers_step w w' c c' → conn_ok c → conn_ok c'.
Proof.
  intros [->|(now & _ & _ & [->| ->])] Hc; [done|exact Hc|apply conn_ok_with_peers].
Qed.

Lemma peers_step_same w w' c c' :
  peers_step w w' c c' → same_conn c c' ∧ cn_pending c' = cn_pending c.
Proof. by intros [->|(now & _ & _ & [->| ->])]. Qed.
End PeerRuns.

(** The other device of an unrevoked pair of [d], itself not revoked. *)
Definition valid_peer (d : Uuid) (db : Db) (p : Uuid) : Prop :=
  ∃ pid row r, pairs db !! pid = Some row ∧ unrevoked row = true ∧ is_member d row = true ∧
    p = peer_of d row ∧ devices db !! p = Some r ∧ device_active r = true.

Lemma elem_of_active_peers {P : Postgres} d db p :
  p ∈ (active_peers d db).*2 ↔ valid_peer d db p.
Proof.
  rewrite list_elem_of_fmap. unfold active_peers. split.
  - intros ([pid p'] & -> & Hin). apply list_elem_of_omap in Hin as ([pid' row] & Hin & He).
    apply elem_of_map_to_list in Hin. apply bind_Some in He as (r & Hr & He).
    destruct (_ && _) eqn:Eb; [|done]. injection He as -> <-.
    apply andb_true_iff in Eb as [[? ?]%andb_true_iff ?]. by exists pid, row, r.
  - intros (pid & row & r & Hp & Hu & Hm & -> & Hr & Ha).
    exists (pid, peer_of d row). split; [done|]. apply list_elem_of_omap. exists (pid, row).
    split; [by apply elem_of_map_to_list|]. cbn. rewrite Hr. cbn. by rewrite Hm, Hu, Ha.
Qed.

(** What deciding about the peer [p] does to the connection: nothing for a known
    one, nor for an unknown one within [MISS_RELOAD_GAP] of the last reload; else the
    time is noted and the peers are the database's, unless the query was lost. *)
Definition peer_checked {P : Postgres} {R : RedisServer} (K : Input → Prop) (p : Uuid) (w w' : World)
    (c c' : Conn) : Prop :=
  p ∈ cn_peers c ∧ c' = c ∨
  (p ∉ cn_peers c) ∧ ∃ now, (w_instant w <= now <= w_instant w') ∧
    ((∃ t, cn_last_miss c = Some t ∧ now - t < MISS_RELOAD_GAP) ∧ c' = c ∨
     (∀ t, cn_last_miss c = Some t → MISS_RELOAD_GAP <= now - t) ∧
     (c' = with_peers (active_peers (cn_device c) (w_db w)) (with_last_miss now c) ∨
      c' = with_last_miss now c ∧ lossy K)).

(** A command that only reads the clocks and the database, or writes to a socket. *)
Definition looks (X : Type) (c : cmd X) : Prop :=
  match c with
  | CNow | CInstant | CWrite _ _ | CSql (QActivePeers _) => True
  | _ => False
  end.

(** What such commands leave alone. *)
Definition untouched {P : Postgres} {R : RedisServer} (w w' : World) : Prop :=
  w_db w' = w_db w ∧ w_redis w' = w_redis w ∧ w_usage w' = w_usage w ∧
  w_published w' = w_published w ∧ w_http w' = w_http w.

Section CheckRuns.
Context {P : Postgres} {R : RedisServer}.

Lemma runs_looks {A} (p : prog A) w a w' : issues looks p → runs p w a w' → untouched w w'.
Proof.
  intros Hp Hr. eapply (runs_invariant (untouched w)); [|exact Hp|exact Hr|done].
  unfold untouched. intros X c i w1 Hc (<- & <- & <- & <- & <-).
  unfold exec. destruct c; try done; cbn in *.
  - destruct q; try done. by destruct (i_fault i).
  - by destruct (i_write i).
Qed.

Lemma runs_in_is_peer K p c w b c' w' :
  runs_in K (is_peer p c) w (b, c') w' →
  b = bool_decide (p ∈ cn_peers c') ∧ peer_checked K p w w' c c' ∧ untouched w w' ∧
  w_written w' = w_written w.
Proof.
  intros Hr. pose proof (runs_in_runs _ _ _ _ _ Hr) as Hr'.
  pose proof (runs_is_peer _ _ _ _ _ _ Hr') as (Hb & _ & _ & _ & Hw).
  split; [done|]. split; [|split; [|done]].
  2: { eapply runs_looks, Hr'. by apply is_peer_issues. }
  clear Hb Hw Hr'. unfold is_peer in Hr. unfold peer_checked. case_bool_decide as Hin.
  { destruct Hr as [[= _ <-] _]. by left. }
  right. split; [done|]. apply runs_in_bind in Hr as (now & w1 & H1 & Hr).
  apply runs_in_perform in H1 as (i & Hi & H1). unfold exec in H1. cbn [exec_now] in H1.
  injection H1 as <- <-. cbn [w_instant elapse] in Hr.
  pose proof (runs_instant _ _ _ _ (runs_in_runs _ _ _ _ _ Hr)) as Ht. cbn [w_instant elapse] in Ht.
  exists (w_instant w + Z.of_N (i_elapsed i)). split; [lia|]. destruct (match cn_last_miss c with Some _ => _ | None => _ end) eqn:Eg.
  - left. destruct Hr as [[= _ <-] _]. split; [|done]. destruct (cn_last_miss c) as [t|]; [|done].
    exists t. split; [done|]. apply Z.ltb_lt in Eg. lia.
  - right. split.
    { intros t Et. rewrite Et in Eg. apply Z.ltb_ge in Eg. change MISS_RELOAD_GAP with 1000000000 in *. lia. }
    apply runs_in_bind in Hr as ([l c1] & w2 & H2 & [[= _ <-] _]).
    apply runs_in_bind in H2 as (o & w3 & H2 & [[= Ho] _]).
    apply runs_in_perform in H2 as (j & Hj & H2). destruct o as [l'|]; simplify_eq.
    + left. apply exec_sql_Some in H2 as (db & H2 & _). cbn [exec_sql] in H2. by injection H2 as <- _.
    + right. split; [done|]. eapply exec_sql_None; [exact Hj| |exact H2]. intros now db. by eexists.
Qed.
End CheckRuns.

(** ** Properties *)

(** C15. A frame is let through only for a known peer, and the peers are the other
    devices of the unrevoked pairs, themselves not revoked.  A known peer costs
    nothing.  An unknown device makes the connection ask the database, at most once a
    second: within a second of the last time it is refused at once; otherwise the
    time is noted, the peers become exactly those of the database, and it is let
    through if it is among them; only when the query is lost do the old ones stay. *)
Theorem is_peer_spec {P : Postgres} {R : RedisServer} (K : Input → Prop) (peer : Uuid) (c c' : Conn)
    (w w' : World) (b : bool) :
  runs_in K (is_peer peer c) w (b, c') w' →
  (b = true ↔ peer ∈ cn_peers c') ∧ w_db w' = w_db w ∧
  (peer ∈ cn_peers c ∧ c' = c ∧ w' = w ∨
   (peer ∉ cn_peers c) ∧ ∃ now, (w_instant w <= now <= w_instant w') ∧
     ((∃ t, cn_last_miss c = Some t ∧ now - t < MISS_RELOAD_GAP) ∧ c' = c ∨
      (∀ t, cn_last_miss c = Some t → MISS_RELOAD_GAP <= now - t) ∧ cn_last_miss c' = Some now ∧
      ((∀ p, p ∈ cn_peers c' ↔ valid_peer (cn_device c) (w_db w) p) ∨
       lossy K ∧ cn_peers c' = cn_peers c))).
Proof.
  intros Hr. pose proof Hr as (-> & Hc & Hu & _)%runs_in_is_peer. rewrite bool_decide_eq_true.
  split; [done|]. split; [by destruct Hu|].
  destruct Hc as [[Hin ->]|(Hn & now & Ht & Hc)]; [left|right].
  { unfold is_peer in Hr. rewrite bool_decide_true in Hr by done. by destruct Hr as [_ <-]. }
  split; [done|]. exists now. split; [done|]. destruct Hc as [Hc|(Hg & Hc)]; [by left|right].
  split; [done|]. destruct Hc as [->|[-> Hl]]; (split; [done|]); [left|by right].
  intros p. cbn [with_peers cn_peers]. rewrite elem_of_list_to_set. apply elem_of_active_peers.
Qed.
