(* ===== verification/Inbound.v ===== *)
(** * Inbound: frames from the device ([relay/inbound.rs])

    Routing wrappers and [HR] frames go to a peer, now or after the bandwidth
    wait; [rv_join] and [rv_msg] serve a rendezvous. *)

From S2P Require Import Prelude Text Errors Externals Signatures Attestation Revocation Challenge.
From S2P Require Import Wire Bus Tables Redis Scripts Usage Hub IO Pool Invariants Net Config.
From S2P Require Import Limits Presence Rendezvous Push Auth PairRoutes DeviceRoutes Bandwidth.
From S2P Require Import Connection.

Local Open Scope Z_scope.

Section Inbound.
Context {B64 : Base64} {UO : UuidOps} {J : Json} {RJ : RvJson}.

Definition fail_with (c : Conn) (err : RelayError) (to : option Uuid) :
    prog (option ConnEnd * Conn) :=
  let! e := send_error c err to in Ret (e, c).

(** [relay/inbound.rs:93-108 Conn::publish_forward] *)
Definition publish_forward (c : Conn) (p : Pending) : prog (option ConnEnd) :=
  let! n := publish (pn_to p) (pn_bus p) in
  match n with
  | Some 0 => send_error c RNotConnected (Some (pn_to p))
  | Some _ =>
    let! _ := perform (CUsage (λ u, (tt, add_envelope (cn_device c) (pn_bytes p) u))) in Ret None
  | None => send_error c RNotConnected (Some (pn_to p))
  end.

(** [relay/inbound.rs:67-91 Conn::forward] *)
Definition forward (st : AppState) (to : Uuid) (bus : BusMessage) (bytes : Z) (c : Conn) :
    prog (option ConnEnd * Conn) :=
  let! (known, c) := is_peer to c in
  if negb known then fail_with c RNotPaired (Some to)
  else
    let! now := perform CInstant in
    let rate := pair_bandwidth_bytes_per_sec (st_settings st) in
    let '(wait, b) := bucket_take (default (bucket_new rate now) (cn_buckets c !! to)) bytes now in
    let c := with_bucket to b c in
    let pending := mkPending to bus bytes (now + wait) in
    if wait =? 0
    then let! e := publish_forward c pending in Ret (e, c)
    else Ret (None, with_pending (Some pending) c).

(** [relay/inbound.rs:110-141 Conn::rv_join] *)
Definition rv_join (rv_id : option string) (c : Conn) : prog (option ConnEnd) :=
  match (r ← rv_id; canonical_rv_id r) with
  | None => send_error c RBadRequest None
  | Some rv_id =>
    let! joined := join rv_id (cn_device c) in
    match joined with
    | None => send_error c RNotConnected None
    | Some Full => send_error c RBadRequest None
    | Some (Joined newly members) =>
      let peer_present := Nat.eqb (length members) 2 in
      let! r := send_text c (rv_joined_message rv_id peer_present) in
      match r with
      | Err e => Ret (Some e)
      | Ok _ =>
        let! _ :=
          if peer_present && newly
          then for_each (filter (λ m, m ≠ cn_device c) members)
                 (λ other, let! _ := publish other (Control (rv_joined_message rv_id true)) in Ret tt)
          else Ret tt in
        Ret None
      end
    end
  end.

(** [relay/inbound.rs:143-175 Conn::rv_msg] *)
Definition rv_msg (rv_id : option string) (env : option RawValue) (c : Conn) :
    prog (option ConnEnd) :=
  match (r ← rv_id; canonical_rv_id r), env with
  | Some rv_id, Some env =>
    if negb (is_object env) || negb (rendezvous_allows env) then send_error c RBadRequest None
    else
      let! members := rv_members_of rv_id in
      match members with
      | None => send_error c RNotConnected None
      | Some members =>
        if negb (bool_decide (cn_device c ∈ members)) then send_error c RBadRequest None
        else
          match list_find (λ m, m ≠ cn_device c) members with
          | None => send_error c RNotConnected None
          | Some (_, other) =>
            let! n := publish other (Control (rv_msg_message rv_id env)) in
            match n with
            | Some 0 => send_error c RNotConnected None
            | Some _ => Ret None
            | None => send_error c RNotConnected None
            end
          end
      end
  | _, _ => send_error c RBadRequest None
  end.

Definition keep (p : prog (option ConnEnd)) (c : Conn) : prog (option ConnEnd * Conn) :=
  let! e := p in Ret (e, c).

(** [relay/inbound.rs:19-49 Conn::handle_text] *)
Definition handle_text (st : AppState) (text : string) (c : Conn) :
    prog (option ConnEnd * Conn) :=
  match parse_inbound text with
  | None => fail_with c RBadRequest None
  | Some inbound =>
    let oversize := Z.of_nat (str_len text) >? MAX_FRAME_BYTES in
    match in_op inbound with
    | Some op =>
      if (bool_decide (op = "rv_join") || bool_decide (op = "rv_msg")) && oversize
      then fail_with c RPayloadTooLarge None
      else if bool_decide (op = "rv_join") then keep (rv_join (in_rv_id inbound) c) c
      else if bool_decide (op = "rv_msg")
           then keep (rv_msg (in_rv_id inbound) (in_env inbound) c) c
      else fail_with c RBadRequest None
    | None =>
      match in_to inbound, in_env inbound with
      | Some to, Some env =>
        if is_device_id to && is_object env then
          if oversize then fail_with c RPayloadTooLarge (Some to)
          else forward st to (ForwardText (cn_device c) (forwarded_text (cn_device c) env))
                 (Z.of_nat (str_len text)) c
        else fail_with c RBadRequest None
      | _, _ => fail_with c RBadRequest None
      end
    end
  end.

(** [relay/inbound.rs:51-65 Conn::handle_binary] *)
Definition handle_binary (st : AppState) (frame : bytes) (c : Conn) :
    prog (option ConnEnd * Conn) :=
  match (to ← parse_hr frame; if is_device_id to then Some to else None) with
  | None => fail_with c RBadRequest None
  | Some to =>
    if Z.of_nat (length frame) >? MAX_FRAME_BYTES then fail_with c RPayloadTooLarge (Some to)
    else forward st to (ForwardBinary (cn_device c) (rewrite_hr frame (cn_device c)))
           (Z.of_nat (length frame)) c
  end.
End Inbound.

(** ** Lemmas *)

(** The messages [w'] published since [w]. *)
Definition published_since {P : Postgres} {R : RedisServer} (w w' : World) (l : list (string * bytes)) : Prop :=
  w_published w' = w_published w ++ l.

Section InboundRuns.
Context {B64 : Base64} {UO : UuidOps} {J : Json} {RJ : RvJson} {P : Postgres} {R : RedisServer}.

Lemma send_error_issues (Q : ∀ X, cmd X → Prop) c err to :
  (∀ f, Q _ (CWrite (cn_id c) f)) → issues Q (send_error c err to).
Proof. intros HQ. cbn. by split. Qed.

Lemma runs_send_error c err to w e w' :
  runs (send_error c err to) w e w' →
  w_published w' = w_published w ∧ w_usage w' = w_usage w ∧
  (w_written w' = w_written w ++ [(cn_id c, WText (error_message err to))] ∧ e = None ∨
   w_written w' = w_written w ∧ e ≠ None).
Proof.
  unfold send_error, send_text. intros (r & w1 & H & [<- <-])%runs_bind.
  apply runs_bind in H as (x & w2 & H & [<- <-]). apply (proj1 (runs_perform _ _ _ _)) in H as [i H].
  unfold exec in H. simpl in H. injection H as <- <-. by destruct (i_write i); cbn; auto.
Qed.

Lemma runs_fail_with c err to w e c' w' :
  runs (fail_with c err to) w (e, c') w' →
  c' = c ∧ w_published w' = w_published w ∧ w_usage w' = w_usage w ∧
  (w_written w' = w_written w ++ [(cn_id c, WText (error_message err to))] ∧ e = None ∨
   w_written w' = w_written w ∧ e ≠ None).
Proof.
  intros (x & w1 & H%runs_send_error & Hr)%runs_bind. by apply runs_Ret in Hr as [[= <- <-] <-].
Qed.

Lemma runs_publish d m w o w' :
  runs (publish d m) w o w' →
  w_usage w' = w_usage w ∧ w_written w' = w_written w ∧ w_db w' = w_db w ∧
  match o with
  | Some n => published_since w w' [(device_channel d, bus_encode m)] ∧ 0 <= n
  | None => published_since w w' [] ∨ published_since w w' [(device_channel d, bus_encode m)]
  end.
Proof.
  intros H. apply (proj1 (runs_perform _ _ _ _)) in H as [i H]. unfold published_since.
  unfold exec in H. simpl in H. unfold faulty in H.
  destruct (i_fault i); simplify_eq; cbn; split_and!; try done; [lia|left|by right].
  by rewrite app_nil_r.
Qed.

(** Publishing a frame, and the count of an envelope only when somebody
    received it. *)
Lemma runs_publish_forward c p w e w' :
  runs (publish_forward c p) w e w' →
  (published_since w w' [] ∨
   published_since w w' [(device_channel (pn_to p), bus_encode (pn_bus p))]) ∧
  w_db w' = w_db w ∧
  (w_usage w' = w_usage w ∨
   published_since w w' [(device_channel (pn_to p), bus_encode (pn_bus p))] ∧ e = None ∧
   w_written w' = w_written w ∧
   w_usage w' = add_envelope (cn_device c) (pn_bytes p) (w_usage w)).
Proof.
  unfold publish_forward. intros (n & w1 & Hp & Hr)%runs_bind.
  apply runs_publish in Hp as (Hu & Hwr & Hdb & Hn). unfold published_since in *.
  assert (∀ e', runs (send_error c RNotConnected (Some (pn_to p))) w1 e' w' →
    w_published w' = w_published w1 ∧ w_usage w' = w_usage w1 ∧ w_db w' = w_db w1) as Herr.
  { intros e' H. pose proof H as Hd. apply runs_no_sql in Hd; [|by apply send_error_issues].
    by apply runs_send_error in H as (? & ? & _). }
  destruct n as [n|].
  2: { apply Herr in Hr as (-> & -> & ->). split_and!; [tauto|done|by left]. }
  destruct Hn as [Hn Hge]. destruct n as [|n|n]; [|clear Herr|lia].
  - apply Herr in Hr as (-> & -> & ->). split_and!; [by right|done|by left].
  - apply runs_bind in Hr as (u & w2 & H2 & [<- <-]).
    apply (proj1 (runs_perform _ _ _ _)) in H2 as [i H2]. unfold exec in H2. simpl in H2.
    injection H2 as <- <-. cbn. rewrite Hu. split_and!; [by right|done|by right].
Qed.

(** What a forwarded frame does: it reaches the channel of a peer now, or waits
    for its deadline, or is refused. *)
Definition forwarded (to : Uuid) (bus : BusMessage) (w w' : World) (c c' : Conn) : Prop :=
  conn_ok c' ∧ same_conn c c' ∧
  (published_since w w' [] ∧
     (cn_pending c' = cn_pending c ∨
      ∃ n dl, to ∈ cn_peers c' ∧ cn_pending c' = Some (mkPending to bus n dl)) ∨
   published_since w w' [(device_channel to, bus_encode bus)] ∧ to ∈ cn_peers c' ∧
     cn_pending c' = cn_pending c).

Lemma runs_forward st to bus n c w e c' w' :
  conn_ok c → runs (forward st to bus n c) w (e, c') w' → forwarded to bus w w' c c'.
Proof.
  intros Hok Hr. unfold forward in Hr. apply runs_bind in Hr as ([b c1] & w1 & H1 & Hr).
  apply runs_is_peer in H1 as (-> & Hstep & Hdb & Hp & _).
  pose proof (peers_step_ok _ _ _ _ Hstep Hok) as Hok1.
  apply peers_step_same in Hstep as [Hsame Hpend]. unfold forwarded, published_since.
  case_bool_decide as Hin; cbn [negb] in Hr.
  2: { apply runs_fail_with in Hr as (-> & Hp' & _). split_and!; [done..|]. left.
       rewrite app_nil_r. split; [congruence|by left]. }
  apply runs_bind in Hr as (now & w2 & H2 & Hr). apply runs_no_publish in H2; [|done].
  destruct (bucket_take _ n now) as [wait bk].
  assert (conn_ok (with_bucket to bk c1)) as Hok2 by by apply conn_ok_with_bucket.
  destruct (wait =? 0).
  - apply runs_bind in Hr as (e' & w3 & H3 & Hr). apply runs_Ret in Hr as [[= <- <-] <-].
    apply runs_publish_forward in H3 as ([H3|H3] & _); cbn [pn_to pn_bus] in H3;
      unfold published_since in H3; rewrite H2, Hp in H3; split_and!; try done.
    + left. split; [done|by left].
    + by right.
  - apply runs_Ret in Hr as [[= <- <-] <-]. split_and!; try done. left. rewrite app_nil_r.
    split; [congruence|]. right. cbn [with_pending cn_pending cn_peers with_bucket]. eauto.
Qed.

Lemma runs_rv_members rv_id w o w' :
  runs (rv_members_of rv_id) w o w' →
  w_published w' = w_published w ∧
  ∀ ms, o = Some ms → ∃ names,
    r_smembers (rv_key rv_id) (w_rnow w') (w_redis w) = Some names ∧ ms = omap uuid_parse names.
Proof.
  intros Hr. split; [by apply runs_no_publish in Hr|]. intros ms ->.
  unfold rv_members_of in Hr. apply runs_bind in Hr as (x & w1 & H & [Hx <-]).
  destruct x as [names|]; [|done]. injection Hx as <-.
  apply (proj1 (runs_perform _ _ _ _)) in H as [i H]. apply exec_redis_Some in H as (s & H & ->).
  cbn [exec_redis] in H. injection H as H <-. by exists names.
Qed.

Lemma runs_publish_each (l : list Uuid) m w u w' :
  runs (for_each l (λ o, let! _ := publish o m in Ret tt)) w u w' →
  ∃ sent, published_since w w' sent ∧
    Forall (λ cm, ∃ o, o ∈ l ∧ cm = (device_channel o, bus_encode m)) sent.
Proof.
  unfold published_since. revert w. induction l as [|o l IH]; intros w; cbn [for_each].
  { intros [_ <-]. exists []. by rewrite app_nil_r. }
  intros (u1 & w1 & (x & w2 & H1 & [_ <-])%runs_bind & H2)%runs_bind.
  apply runs_publish in H1 as (_ & _ & _ & H1). unfold published_since in H1.
  apply IH in H2 as (sent & Hs & Hf).
  assert (∃ one, w_published w2 = w_published w ++ one ∧
    Forall (λ cm, ∃ o', o' ∈ o :: l ∧ cm = (device_channel o', bus_encode m)) one) as (one & H3 & H4).
  { destruct x as [n|]; [destruct H1 as [H1 _]|destruct H1 as [H1|H1]];
      eexists; (split; [exact H1|]); repeat constructor; exists o; split; set_solver. }
  exists (one ++ sent). split; [by rewrite Hs, H3, app_assoc|]. apply Forall_app. split; [done|].
  eapply Forall_impl; [exact Hf|]. intros cm (o' & ? & ->). exists o'. split; [set_solver|done].
Qed.

(** What a device may cause to be published with a text frame. *)
Inductive text_publishes (w : World) (c c' : Conn) (text : string) : string * bytes → Prop :=
| Publishes_forward inbound to env :
    parse_inbound text = Some inbound → in_op inbound = None →
    in_to inbound = Some to → in_env inbound = Some env →
    is_device_id to = true → is_object env = true →
    Z.of_nat (str_len text) <= MAX_FRAME_BYTES → to ∈ cn_peers c' →
    text_publishes w c c' text
      (device_channel to,
       bus_encode (ForwardText (cn_device c) (forwarded_text (cn_device c) env)))
| Publishes_rv_msg inbound rv env t names other :
    parse_inbound text = Some inbound → in_op inbound = Some "rv_msg" →
    (r ← in_rv_id inbound; canonical_rv_id r) = Some rv → in_env inbound = Some env →
    is_object env = true → rendezvous_allows env = true →
    r_smembers (rv_key rv) t (w_redis w) = Some names →
    cn_device c ∈ omap uuid_parse names → other ∈ omap uuid_parse names → other ≠ cn_device c →
    text_publishes w c c' text (device_channel other, bus_encode (Control (rv_msg_message rv env)))
| Publishes_rv_join inbound rv t added names other :
    parse_inbound text = Some inbound → in_op inbound = Some "rv_join" →
    (r ← in_rv_id inbound; canonical_rv_id r) = Some rv →
    (exec_redis (RJoin (rv_key rv) (hyphenated (cn_device c)) RV_TTL_SECS) t (w_redis w)).1 =
      Some (added :: names) →
    other ∈ omap uuid_parse names → other ≠ cn_device c →
    text_publishes w c c' text (device_channel other, bus_encode (Control (rv_joined_message rv true))).

Lemma runs_rv_msg c text inbound w e w' :
  parse_inbound text = Some inbound → in_op inbound = Some "rv_msg" →
  runs (rv_msg (in_rv_id inbound) (in_env inbound) c) w e w' →
  ∃ l, published_since w w' l ∧ Forall (text_publishes w c c text) l.
Proof.
  intros Hin Hop Hr. unfold published_since.
  assert (∀ e' err w0, w_published w0 = w_published w → runs (send_error c err None) w0 e' w' →
    ∃ l, w_published w' = w_published w ++ l ∧ Forall (text_publishes w c c text) l) as Herr.
  { intros e' err w0 <- (-> & _)%runs_send_error. exists []. by rewrite app_nil_r. }
  unfold rv_msg in Hr. destruct (r ← in_rv_id inbound; canonical_rv_id r) as [rv|] eqn:Erv;
    [|by eapply Herr]. destruct (in_env inbound) as [env|] eqn:Eenv; [|by eapply Herr].
  destruct (negb (is_object env) || _) eqn:Eok; [by eapply Herr|].
  apply orb_false_iff in Eok as [Ho%negb_false_iff Ha%negb_false_iff].
  apply runs_bind in Hr as (ms & w1 & H1 & Hr). apply runs_rv_members in H1 as [Hp1 Hms].
  destruct ms as [ms|]; [|by eapply Herr]. destruct (Hms _ eq_refl) as (names & Hn & ->).
  case_bool_decide as Hmem; cbn [negb] in Hr; [|by eapply Herr].
  destruct (list_find _ _) as [[k other]|] eqn:Ef; [|by eapply Herr].
  apply list_find_Some in Ef as (Hk & Hne & _). apply list_elem_of_lookup_2 in Hk.
  apply runs_bind in Hr as (o & w2 & H2 & Hr). apply runs_publish in H2 as (_ & _ & _ & H2).
  assert (w_published w' = w_published w2) as Hw'.
  { destruct o as [[|n|n]|]; by apply runs_send_error in Hr as [? _] || destruct Hr as [_ <-]. }
  unfold published_since in H2. rewrite Hw'. rewrite Hp1 in H2.
  assert (text_publishes w c c text (device_channel other, bus_encode (Control (rv_msg_message rv env))))
    as Hpub by by eapply Publishes_rv_msg.
  destruct o as [n|]; [destruct H2 as [H2 _]|destruct H2 as [H2|H2]]; eexists; (split; [exact H2|]);
    by repeat constructor.
Qed.

Lemma runs_rv_join c text inbound w e w' :
  parse_inbound text = Some inbound → in_op inbound = Some "rv_join" →
  runs (rv_join (in_rv_id inbound) c) w e w' →
  ∃ l, published_since w w' l ∧ Forall (text_publishes w c c text) l.
Proof.
  intros Hin Hop Hr. unfold published_since.
  assert (∀ e' err w0, w_published w0 = w_published w → runs (send_error c err None) w0 e' w' →
    ∃ l, w_published w' = w_published w ++ l ∧ Forall (text_publishes w c c text) l) as Herr.
  { intros e' err w0 <- (-> & _)%runs_send_error. exists []. by rewrite app_nil_r. }
  unfold rv_join in Hr. destruct (r ← in_rv_id inbound; canonical_rv_id r) as [rv|] eqn:Erv;
    [|by eapply Herr]. apply runs_bind in Hr as (j & w1 & H1 & Hr). pose proof H1 as Hp1.
  apply runs_no_publish in Hp1; [|done]. destruct j as [[|newly ms]|]; [by eapply Herr| |by eapply Herr].
  unfold join in H1. apply runs_bind in H1 as (reply & w2 & H1 & [Hj <-]).
  destruct reply as [[|added names]|]; [done| |done]. injection Hj as _ <-.
  apply (proj1 (runs_perform _ _ _ _)) in H1 as [i H1]. apply exec_redis_Some in H1 as (s & H1 & ->).
  apply runs_bind in Hr as (r & w3 & H3 & Hr). apply runs_no_publish in H3; [|done].
  destruct r as [u|e']; [|destruct Hr as [_ <-]; exists []; rewrite app_nil_r; split; [congruence|done]].
  apply runs_bind in Hr as (u' & w4 & H4 & [_ <-]).
  destruct (_ && newly); [|destruct H4 as [_ <-]; exists []; rewrite app_nil_r; split; [congruence|done]].
  apply runs_publish_each in H4 as (l & Hl & Hf). exists l. unfold published_since in Hl.
  split; [congruence|]. eapply Forall_impl; [exact Hf|].
  intros cm (o & [Hne Ho]%list_elem_of_filter & ->). eapply Publishes_rv_join; try done.
  by rewrite H1.
Qed.

Lemma runs_handle_binary (st : AppState) (frame : bytes) (c c' : Conn) (w w' : World)
    (e : option ConnEnd) :
  conn_ok c → runs (handle_binary st frame c) w (e, c') w' →
  conn_ok c' ∧ same_conn c c' ∧
  ((published_since w w' [] ∧ cn_pending c' = cn_pending c) ∨
   ∃ to hl, frame = hr_header ++ arr_bytes to ++ hl ∧ hl ≠ [] ∧
     Z.of_nat (length frame) <= MAX_FRAME_BYTES ∧ is_device_id to = true ∧ to ∈ cn_peers c' ∧
     let m := ForwardBinary (cn_device c) (hr_header ++ arr_bytes (cn_device c) ++ hl) in
     (published_since w w' [(device_channel to, bus_encode m)] ∧ cn_pending c' = cn_pending c ∨
      published_since w w' [] ∧ ∃ n dl, cn_pending c' = Some (mkPending to m n dl))).
Proof.
  intros Hok Hr. unfold handle_binary in Hr.
  assert (∀ err to, runs (fail_with c err to) w (e, c') w' → conn_ok c' ∧ same_conn c c' ∧
    published_since w w' [] ∧ cn_pending c' = cn_pending c) as Herr.
  { intros err to (-> & Hp & _)%runs_fail_with. unfold published_since. by rewrite app_nil_r. }
  destruct (parse_hr frame) as [to|] eqn:Ep; cbn [mbind option_bind] in Hr;
    [|apply Herr in Hr as (? & ? & ?); auto].
  apply parse_hr_Some in Ep as (hl & Hne & Hf).
  destruct (is_device_id to) eqn:Eid; [|apply Herr in Hr as (? & ? & ?); auto].
  destruct (Z.gtb_spec (Z.of_nat (length frame)) MAX_FRAME_BYTES); [apply Herr in Hr as (? & ? & ?); auto|].
  apply runs_forward in Hr as (Hok' & Hs & Hfw); [|done]. split_and!; [done..|].
  rewrite Hf, rewrite_hr_frame in Hfw.
  destruct Hfw as [[Hp [Hpe|(n & dl & Hto & Hpe)]]|(Hp & Hto & Hpe)]; [by left|right..];
    exists to, hl; split_and!; try done.
  - right. eauto.
  - by left.
Qed.
End InboundRuns.

(** ** Properties *)

(** C5. A text frame reaches only devices it may reach: whatever text a device
    sends, the relay publishes at most a forward of its envelope to a valid peer, an
    allowed rendezvous message to the other member of a rendezvous the device is
    in, or the notice of a joined rendezvous to another member; the forward names
    the true sender. *)
Theorem text_confined {B64 : Base64} {UO : UuidOps} {J : Json} {RJ : RvJson} {P : Postgres}
    {R : RedisServer} (st : AppState) (text : string) (c c' : Conn) (w w' : World)
    (e : option ConnEnd) :
  conn_ok c → runs (handle_text st text c) w (e, c') w' →
  conn_ok c' ∧ same_conn c c' ∧
  ∃ l, published_since w w' l ∧ Forall (text_publishes w c c' text) l.
Proof.
  intros Hok Hr. unfold handle_text in Hr.
  assert (∀ err to, runs (fail_with c err to) w (e, c') w' → conn_ok c' ∧ same_conn c c' ∧
    ∃ l, published_since w w' l ∧ Forall (text_publishes w c c' text) l) as Herr.
  { intros err to (-> & Hp & _)%runs_fail_with. split_and!; [done..|]. exists [].
    unfold published_since. by rewrite app_nil_r. }
  assert (∀ p, runs (keep p c) w (e, c') w' →
    (∀ e1 w1, runs p w e1 w1 → ∃ l, published_since w w1 l ∧ Forall (text_publishes w c c text) l) →
    conn_ok c' ∧ same_conn c c' ∧
    ∃ l, published_since w w' l ∧ Forall (text_publishes w c c' text) l) as Hkeep.
  { intros p (e1 & w1 & H1 & [[= <- <-] <-])%runs_bind Hp. split_and!; [done..|]. by eapply Hp. }
  destruct (parse_inbound text) as [inb|] eqn:Ein; [|by eapply Herr].
  destruct (in_op inb) as [op|] eqn:Eop.
  - destruct (_ && _); [by eapply Herr|]. case_bool_decide as H1; [|case_bool_decide as H2]; subst.
    + eapply Hkeep; [exact Hr|]. intros e1 w1. by apply runs_rv_join.
    + eapply Hkeep; [exact Hr|]. intros e1 w1. by apply runs_rv_msg.
    + by eapply Herr.
  - destruct (in_to inb) as [to|] eqn:Eto; [|by eapply Herr].
    destruct (in_env inb) as [env|] eqn:Eenv; [|by eapply Herr].
    destruct (is_device_id to && _) eqn:Eok; [|by eapply Herr].
    apply andb_true_iff in Eok as [Hid Hob].
    destruct (Z.gtb_spec (Z.of_nat (str_len text)) MAX_FRAME_BYTES); [by eapply Herr|].
    apply runs_forward in Hr as (Hok' & Hs & Hf); [|done]. split_and!; [done..|].
    destruct Hf as [[Hp _]|(Hp & Hto & _)]; eexists; (split; [exact Hp|]); [done|].
    repeat constructor. by eapply Publishes_forward.
Qed.

(** A binary frame reaches only a valid peer, with the sender's id in place of
    the destination's: it is published at once or held back until its deadline, and
    then reading stops; a frame that is malformed, too long or for anyone else is
    neither. *)
Theorem binary_confined {B64 : Base64} {UO : UuidOps} {J : Json} {P : Postgres}
    {R : RedisServer} (st : AppState) (frame : bytes) (c c' : Conn) (w w' : World)
    (e : option ConnEnd) :
  conn_ok c → runs (handle_binary st frame c) w (e, c') w' →
  conn_ok c' ∧ same_conn c c' ∧
  ((published_since w w' [] ∧ cn_pending c' = cn_pending c) ∨
   ∃ to hl, frame = hr_header ++ arr_bytes to ++ hl ∧ hl ≠ [] ∧
     Z.of_nat (length frame) <= MAX_FRAME_BYTES ∧ is_device_id to = true ∧ to ∈ cn_peers c' ∧
     let m := ForwardBinary (cn_device c) (hr_header ++ arr_bytes (cn_device c) ++ hl) in
     (published_since w w' [(device_channel to, bus_encode m)] ∧ cn_pending c' = cn_pending c ∨
      published_since w w' [] ∧ ∃ n dl, cn_pending c' = Some (mkPending to m n dl))).
Proof. apply runs_handle_binary. Qed.
