(* ===== verification/Outbound.v ===== *)
(** * Outbound: messages for the device ([relay/outbound.rs])

    What any relay instance published for the device and the hub delivered to this
    connection. *)

From S2P Require Import Prelude Text Errors Externals Signatures Attestation Revocation Challenge.
From S2P Require Import Wire Bus Tables Redis Scripts Usage Hub IO Pool Invariants Net Config.
From S2P Require Import Limits Presence Rendezvous Push Auth PairRoutes DeviceRoutes Bandwidth.
From S2P Require Import Connection Inbound.

Local Open Scope Z_scope.

Section Outbound.
Context {B64 : Base64} {UO : UuidOps} {J : Json}.

(** [presence] for each pair with its peer's state, until a write fails. *)
Definition send_presence (c : Conn) (pairs : list (Uuid * Uuid)) (online : list bool) :
    prog (result ConnEnd unit) :=
  try_each (zip pairs online)
    (λ po : (Uuid * Uuid) * bool, send_text c (presence_message po.1.1 po.1.2 po.2)).

(** [relay/outbound.rs:49-67 Conn::pairs_changed] *)
Definition pairs_changed (c : Conn) : prog (result ConnEnd unit * Conn) :=
  let before := (cn_pairs c).*1 in
  let! (loaded, c) := reload_peers c in
  if negb loaded then Ret (Ok tt, c)
  else
    let added := filter (λ pp : Uuid * Uuid, pp.1 ∉ before) (cn_pairs c) in
    let! online := peer_presence added in
    let! r := send_presence c added online in
    Ret (r, c).

(** [relay/outbound.rs:69-76 Conn::resync] *)
Definition resync (st : AppState) (c : Conn) : prog (option ConnEnd * Conn) :=
  let! e := refresh_presence st c in
  match e with
  | Some e => Ret (Some e, c)
  | None => let! (_, c) := reload_peers c in Ret (None, c)
  end.

(** [relay/outbound.rs:14-47 Conn::on_delivery] *)
Definition on_delivery (st : AppState) (d : Delivery) (c : Conn) : prog (option ConnEnd * Conn) :=
  match d with
  | DResync => resync st c
  | DBus msg =>
    match msg with
    | ForwardText from text =>
      let! (known, c) := is_peer from c in
      if negb known then Ret (None, c)
      else let! r := send_text c text in Ret (rerr r, c)
    | ForwardBinary from frame =>
      let! (known, c) := is_peer from c in
      if negb known then Ret (None, c)
      else let! r := send_binary c frame in Ret (rerr r, c)
    | Control text => let! r := send_text c text in Ret (rerr r, c)
    | PairRevoked statement =>
      let! (_, c) := reload_peers c in
      let! r := send_text c (pair_revoked_message statement) in Ret (rerr r, c)
    | PairsChanged => let! (r, c) := pairs_changed c in Ret (rerr r, c)
    | Replace conn_id =>
      if bool_decide (conn_id ≠ cn_id c) then Ret (Some (EndClose CLOSE_REPLACED), c)
      else Ret (None, c)
    | Close code => Ret (Some (EndClose code), c)
    end
  end.
End Outbound.

(** ** Lemmas *)

Section OutboundRuns.
Context {B64 : Base64} {UO : UuidOps} {J : Json} {P : Postgres} {R : RedisServer}.

(** A forward is written for its sender only when that is a valid peer. *)
Lemma runs_forwarded from (send : Conn → prog (result ConnEnd unit)) f c w e c' w' :
  (∀ c w r w', runs (send c) w r w' →
     match r with
     | Ok _ => w_written w' = w_written w ++ [(cn_id c, f)]
     | Err e => w_written w' = w_written w ∧ (e = Gone ∨ e = EndClose CLOSE_INTERNAL)
     end) →
  runs (let! (known, c) := is_peer from c in
        if negb known then Ret (None, c) else let! r := send c in Ret (rerr r, c)) w (e, c') w' →
  peers_step w w' c c' ∧
  (w_written w' = w_written w ∨
   from ∈ cn_peers c' ∧ e = None ∧ w_written w' = w_written w ++ [(cn_id c, f)]) ∧
  (e = None → from ∈ cn_peers c' → w_written w' = w_written w ++ [(cn_id c, f)]).
Proof.
  intros Hsend Hr. apply runs_bind in Hr as ([b c1] & w1 & H1 & Hr).
  apply runs_is_peer in H1 as (-> & Hstep & _ & _ & Hw1).
  assert (cn_id c1 = cn_id c) as Hid by (by apply peers_step_same in Hstep as [[_ ?] _]).
  assert (∀ w2, w_instant w1 <= w_instant w2 → peers_step w w2 c c1) as Hlater.
  { intros w2 Hw2. destruct Hstep as [->|(now & ? & ? & ?)]; [by left|]. right. exists now.
    split_and!; [lia|lia|done|done]. }
  case_bool_decide as Hin; cbn [negb] in Hr.
  - apply runs_bind in Hr as (r & w2 & H2 & [[= <- <-] <-]).
    pose proof (runs_instant _ _ _ _ H2) as Ht. apply Hsend in H2. rewrite Hw1, Hid in H2.
    split; [by apply Hlater|]. destruct r as [u|e']; cbn [rerr]; [by auto|].
    destruct H2 as [H2 _]. split; [by left|done].
  - apply runs_Ret in Hr as [[= <- <-] <-]. split; [by apply Hlater|]. by split; [left|].
Qed.

(** Both kinds of a forward. *)
Definition carries (from : Uuid) (m : BusMessage) (f : WsFrame) : Prop :=
  (∃ text, m = ForwardText from text ∧ f = WText text) ∨
  (∃ frame, m = ForwardBinary from frame ∧ f = WBinary frame).

Lemma runs_delivery st from m f c w e c' w' :
  carries from m f → runs (on_delivery st (DBus m) c) w (e, c') w' →
  (w_written w' = w_written w ∨
   from ∈ cn_peers c' ∧ e = None ∧ w_written w' = w_written w ++ [(cn_id c, f)]) ∧
  (e = None → from ∈ cn_peers c' → w_written w' = w_written w ++ [(cn_id c, f)]).
Proof.
  intros [(t & -> & ->)|(t & -> & ->)] Hr; cbn [on_delivery] in Hr.
  - apply (runs_forwarded from (λ c, send_text c t) (WText t)) in Hr as (_ & H1 & H2); [done|].
    intros. by eapply runs_send_text.
  - apply (runs_forwarded from (λ c, send_binary c t) (WBinary t)) in Hr as (_ & H1 & H2); [done|].
    intros. by eapply runs_send_binary.
Qed.
End OutboundRuns.

(** A write that failed. *)
Definition write_fails (K : Input → Prop) (e : option ConnEnd) : Prop :=
  (e = Some Gone ∨ e = Some (EndClose CLOSE_INTERNAL)) ∧ ∃ i, K i ∧ i_write i ≠ Written.

Section OutboundRunsIn.
Context {B64 : Base64} {UO : UuidOps} {J : Json} {P : Postgres} {R : RedisServer}.

Lemma runs_in_write K (c : Conn) f w r w' :
  runs_in K (let! r := perform (CWrite (cn_id c) f) in Ret (written r)) w r w' →
  r = Ok tt ∧ w_written w' = w_written w ++ [(cn_id c, f)] ∨
  w_written w' = w_written w ∧ write_fails K (rerr r).
Proof.
  intros (x & w1 & H & [<- <-])%runs_in_bind. apply runs_in_perform in H as (i & Hi & H).
  unfold exec in H. cbn [exec_now] in H. injection H as <- <-. unfold write_fails.
  destruct (i_write i) eqn:E; cbn; [by left|right..]; (split; [done|]);
    (split; [auto|]); exists i; by rewrite E.
Qed.

Lemma runs_in_forwarded K from (send : Conn → prog (result ConnEnd unit)) f c w e c' w' :
  (∀ c, send c = let! r := perform (CWrite (cn_id c) f) in Ret (written r)) →
  runs_in K (let! (known, c) := is_peer from c in
             if negb known then Ret (None, c) else let! r := send c in Ret (rerr r, c)) w (e, c') w' →
  peer_checked K from w w' c c' ∧ untouched w w' ∧
  if bool_decide (from ∈ cn_peers c')
  then e = None ∧ w_written w' = w_written w ++ [(cn_id c, f)] ∨
       w_written w' = w_written w ∧ write_fails K e
  else e = None ∧ w_written w' = w_written w.
Proof.
  intros Hsend Hr. assert (untouched w w') as Hu.
  { eapply runs_looks, runs_in_runs, Hr. apply issues_bind; [by apply is_peer_issues|].
    intros [[] c1]; [|done]. cbn. by rewrite Hsend. }
  apply runs_in_bind in Hr as ([b c1] & w1 & H1 & Hr).
  pose proof (runs_is_peer _ _ _ _ _ _ (runs_in_runs _ _ _ _ _ H1)) as (_ & Hstep & _).
  apply peers_step_same in Hstep as [[_ Hid] _].
  apply runs_in_is_peer in H1 as (-> & Hc & _ & Hw1).
  pose proof (runs_instant _ _ _ _ (runs_in_runs _ _ _ _ _ Hr)) as Ht.
  assert (peer_checked K from w w' c c1) as Hc'.
  { destruct Hc as [Hc|(Hn & now & ? & Hc)]; [by left|]. right. split; [done|].
    exists now. split; [lia|done]. }
  case_bool_decide as Hin; cbn [negb] in Hr.
  - apply runs_in_bind in Hr as (r & w2 & H2 & [[= <- <-] <-]). rewrite bool_decide_true by done.
    split_and!; [done|done|]. rewrite Hsend in H2. apply runs_in_write in H2. rewrite Hid, Hw1 in H2.
    destruct H2 as [[-> H2]|H2]; [by left|by right].
  - destruct Hr as [[= <- <-] <-]. by rewrite bool_decide_false.
Qed.
End OutboundRunsIn.

Lemma pair_of_singleton {A B} (a a' : A) (b b' : B) : [(a, b)] = [(a', b')] → a = a' ∧ b = b'.
Proof. by intros [= -> ->]. Qed.

(** ** Properties *)

(** C14. The pair check holds on both ends: a forwarded frame delivered by the bus is
    written to the device, unchanged, exactly when its sender is a valid peer (and
    the write does not fail, which ends the connection); the frame of any other
    sender is dropped without a trace: nothing is written, published, stored or
    counted, and the connection goes on. *)
Theorem delivery_checks_peer {B64 : Base64} {UO : UuidOps} {J : Json} {P : Postgres}
    {R : RedisServer} (K : Input → Prop) (st : AppState) (from : Uuid) (m : BusMessage) (f : WsFrame)
    (c c' : Conn) (w w' : World) (e : option ConnEnd) :
  carries from m f → runs_in K (on_delivery st (DBus m) c) w (e, c') w' →
  peer_checked K from w w' c c' ∧ untouched w w' ∧
  if bool_decide (from ∈ cn_peers c')
  then e = None ∧ w_written w' = w_written w ++ [(cn_id c, f)] ∨
       w_written w' = w_written w ∧ write_fails K e
  else e = None ∧ w_written w' = w_written w.
Proof.
  intros [(t & -> & ->)|(t & -> & ->)]; cbn [on_delivery].
  - by apply (runs_in_forwarded K from (λ c, send_text c t)).
  - by apply (runs_in_forwarded K from (λ c, send_binary c t)).
Qed.

(** C6. A binary frame crosses the relay intact: what one connection publishes for
    an [HR] frame, decoded by the hub of the receiver's instance and delivered to its
    connection, is either dropped or written as the [HR] frame of the same HL frame
    from the sender, and only if each device is a valid peer of the other. *)
Theorem binary_frame_crosses {B64 : Base64} {UO : UuidOps} {UL : UuidLaws} {J : Json}
    {P : Postgres} {R : RedisServer} (st : AppState) (frame : bytes) (a a' b b' : Conn)
    (w1 w2 w3 w4 : World) (e e' : option ConnEnd) (payload : bytes) (m : BusMessage) :
  conn_ok a → runs (handle_binary st frame a) w1 (e, a') w2 →
  w_published w2 = w_published w1 ++ [(device_channel (cn_device b), payload)] →
  bus_decode payload = Some m →
  runs (on_delivery st (DBus m) b) w3 (e', b') w4 →
  w_written w4 = w_written w3 ∨
  ∃ hl, hl ≠ [] ∧ frame = hr_header ++ arr_bytes (cn_device b) ++ hl ∧
    cn_device b ∈ cn_peers a' ∧ cn_device a ∈ cn_peers b' ∧
    w_written w4 = w_written w3 ++
      [(cn_id b, WBinary (hr_header ++ arr_bytes (cn_device a) ++ hl))].
Proof.
  intros Hok Ha Hpub Hdec Hb.
  assert (∀ l, published_since w1 w2 l → l = [(device_channel (cn_device b), payload)]) as Huniq.
  { intros l Hl. unfold published_since in Hl. rewrite Hpub in Hl. by apply app_inv_head in Hl. }
  apply runs_handle_binary in Ha as (_ & _ & [[Hn _]|(to & hl & Hf & Hne & _ & _ & Hto & Hp)]); [by apply Huniq in Hn| |done].
  destruct Hp as [[Hp _]|[Hp _]]; apply Huniq in Hp; [|done].
  destruct (pair_of_singleton _ _ _ _ Hp) as [Hch <-].
  apply (f_equal str_bytes) in Hch. unfold device_channel in Hch.
  rewrite !str_bytes_app in Hch. apply app_inv_head, str_bytes_inj, hyphenated_inj in Hch as ->.
  rewrite bus_decode_encode in Hdec by done. injection Hdec as <-.
  apply (runs_delivery st (cn_device a) _ (WBinary (hr_header ++ arr_bytes (cn_device a) ++ hl)))
    in Hb as ([Hw|(Hin & _ & Hw)] & _); [by left|right; by eauto 10|right; by eexists].
Qed.
