(* ===== verification/Serve.v ===== *)
(** * Serve: opening a connection, its event loop and its end
    ([relay/connection.rs], [routes/relay_ws.rs])

    One turn of the loop takes the first thing that is ready, in the order of the
    biased [select!]: the hub's kill, the next delivery, the deadline of the held
    frame, the socket, the ping and the refresh timer.  What the socket and the
    timers have ready is the turn's input. *)

From S2P Require Import Prelude Text Errors Externals Signatures Attestation Revocation Challenge.
From S2P Require Import Wire Bus Tables Redis Scripts Usage Hub IO Pool Invariants Net Config.
From S2P Require Import Limits Presence Rendezvous Push Auth PairRoutes DeviceRoutes Bandwidth.
From S2P Require Import Connection Inbound Outbound.

Local Open Scope Z_scope.

(** [actix_ws]: what the device's stream yields. *)
Inductive ClientMessage : Type :=
| MText (text : string)
| MBinary (frame : bytes)
| MPing (payload : bytes)
| MPong
| MClose.

Inductive ClientRead : Type :=
| ReadEnd
| ReadError
| ReadMessage (m : ClientMessage).

(** What is ready besides the hub and the clock. *)
Record Turn : Type := mkTurn {
  t_client : option ClientRead;
  t_ping : bool;
  t_refresh : bool
}.

(** [kill.notified()]: take the permit if there is one. *)
Definition take_kill (conn_id : Uuid) (h : HubState) : bool * HubState :=
  match chans h !! conn_id with
  | Some c =>
    if ch_kill c
    then (true, set_chans <[conn_id := mkChan (ch_queue c) (ch_queued c) false (ch_open c)]> h)
    else (false, h)
  | None => (false, h)
  end.

Section Serve.
Context {B64 : Base64} {UO : UuidOps} {J : Json} {RJ : RvJson}.

(** [relay/hub.rs:110-124 Hub::subscribe] *)
Definition subscribe (device_id : Uuid) : prog bool :=
  let! _ := perform (CHub (λ h, (tt, subscribe_request device_id h))) in
  perform (CSubscribed device_id).

(** [relay/connection.rs:136-157 Conn::open, part]: the opening messages. *)
Definition open_messages (c : Conn) : prog (result Z unit * Conn) :=
  let! online := peer_presence (cn_pairs c) in
  let! r := send_presence c (cn_pairs c) online in
  match r with
  | Err _ => Ret (Err CLOSE_INTERNAL, c)
  | Ok _ =>
    let! revoked := perform (CSql (QRecentlyRevoked (cn_device c))) in
    let! notices := take_revoked_notices (cn_device c) in
    let! r := try_each (default [] revoked ++ default [] notices)
                (λ s, send_text c (pair_revoked_message s)) in
    match r with
    | Err _ => Ret (Err CLOSE_INTERNAL, c)
    | Ok _ => let! _ := announce c true in Ret (Ok tt, c)
    end
  end.

(** [relay/connection.rs:123-157 Conn::open, part]: after the presence is claimed, the
    message that closes the older connections, then the opening messages. *)
Definition open_claimed (c : Conn) : prog (result Z unit * Conn) :=
  let! told := publish (cn_device c) (Replace (cn_id c)) in
  match told with
  | None => Ret (Err CLOSE_INTERNAL, c)
  | Some _ =>
    let! (loaded, c) := reload_peers c in
    if negb loaded then Ret (Err CLOSE_INTERNAL, c) else open_messages c
  end.

(** [relay/connection.rs:108-157 Conn::open] *)
Definition open (st : AppState) (c : Conn) : prog (result Z unit * Conn) :=
  let! subscribed := subscribe (cn_device c) in
  if negb subscribed then Ret (Err CLOSE_INTERNAL, c) else
  let! claimed := claim (cn_device c) (instance_id (st_settings st)) in
  match claimed with
  | None => Ret (Err CLOSE_INTERNAL, c)
  | Some _ => open_claimed c
  end.

(** [relay/connection.rs:217-228 Conn::on_client_message] *)
Definition on_client_message (st : AppState) (m : ClientMessage) (c : Conn) :
    prog (option ConnEnd * Conn) :=
  match m with
  | MText text => handle_text st text c
  | MBinary frame => handle_binary st frame c
  | MPing payload =>
    let! r := perform (CWrite (cn_id c) (WPong payload)) in Ret (rerr (written r), c)
  | MPong => Ret (None, c)
  | MClose => Ret (Some ClientClosed, c)
  end.

(** The connection's task between two turns: its state and [last_rx]. *)
Abbreviation ServeState := (Conn * Z)%type.

(** The two timers, last in the order. *)
Definition timers (st : AppState) (t : Turn) (s : ServeState) : prog (option ConnEnd * ServeState) :=
  if t_ping t then
    let! now := perform CInstant in
    if idle_timeout (st_settings st) <=? Z.max 0 (now - s.2)
    then Ret (Some (EndClose CLOSE_IDLE), s)
    else let! r := perform (CWrite (cn_id s.1) WPing) in Ret (rerr (written r), s)
  else if t_refresh t then let! e := refresh_presence st s.1 in Ret (e, s)
  else Ret (None, s).

(** [relay/connection.rs:174-209 Conn::serve, part]: one turn of the loop. *)
Definition serve_turn (st : AppState) (t : Turn) (s : ServeState) :
    prog (option ConnEnd * ServeState) :=
  let '(c, last_rx) := s in
  let! killed := perform (CHub (take_kill (cn_id c))) in
  if killed then Ret (Some (EndClose CLOSE_INTERNAL), s) else
  let! delivery := perform (CHub (chan_recv (cn_device c) (cn_id c))) in
  match delivery with
  | Closed => Ret (Some (EndClose CLOSE_INTERNAL), s)
  | Got d => let! (e, c) := on_delivery st d c in Ret (e, (c, last_rx))
  | NotReady =>
    match cn_pending c with
    | Some p =>
      let! now := perform CInstant in
      if pn_deadline p <=? now
      then let! e := publish_forward c p in Ret (e, (with_pending None c, last_rx))
      else timers st t s
    | None =>
      match t_client t with
      | Some read =>
        let! now := perform CInstant in
        match read with
        | ReadEnd => Ret (Some Gone, (c, now))
        | ReadError => Ret (Some (EndClose CLOSE_BAD_REQUEST), (c, now))
        | ReadMessage m => let! (e, c) := on_client_message st m c in Ret (e, (c, now))
        end
      | None => timers st t s
      end
    end
  end.

(** The loop over the turns so far; [None] while it goes on. *)
Fixpoint serve_loop (st : AppState) (turns : list Turn) (s : ServeState) :
    prog (option ConnEnd * ServeState) :=
  match turns with
  | [] => Ret (None, s)
  | t :: turns' =>
    let! (e, s) := serve_turn st t s in
    match e with
    | Some e => Ret (Some e, s)
    | None => serve_loop st turns' s
    end
  end.

(** [relay/connection.rs:159-215 Conn::serve] over the turns [turns]. *)
Definition serve (st : AppState) (turns : list Turn) (c : Conn) : prog (option ConnEnd * Conn) :=
  let! now := perform CInstant in
  let! (e, s) := serve_loop st turns (c, now) in Ret (e, s.1).

(** [relay/connection.rs:318-344 Conn::finish] *)
Definition finish (st : AppState) (c : Conn) (end_ : ConnEnd) : prog unit :=
  let! current := perform (CHub (unregister (cn_device c) (cn_id c))) in
  let! _ :=
    if current then
      let! _ := perform (CHub (λ h, (tt, unsubscribe (cn_device c) h))) in
      let! released := release (cn_device c) (instance_id (st_settings st)) in
      match released with Some true => announce c false | _ => Ret tt end
    else Ret tt in
  match end_ with
  | Gone => Ret tt
  | ClientClosed => let! _ := perform (CWrite (cn_id c) (WClose CLOSE_NORMAL)) in Ret tt
  | EndClose code => let! _ := perform (CWrite (cn_id c) (WClose code)) in Ret tt
  end.

(** [relay/connection.rs:74-105 run, part]: the connection [conn_id] over the turns
    [turns]; [false] while it is still open. *)
Definition conn_as (st : AppState) (device_id conn_id : Uuid) (turns : list Turn) : prog bool :=
  let! previous := perform (CHub (register device_id conn_id)) in
  let! _ := match previous with
            | Some previous =>
              perform (CHub (λ h, (tt, send_ignore previous (DBus (Replace conn_id)) h)))
            | None => Ret tt
            end in
  let! (opened, c) := open st (new_conn device_id conn_id) in
  let! (e, c) := match opened with
                 | Ok _ => serve st turns c
                 | Err code => Ret (Some (EndClose code), c)
                 end in
  match e with
  | None => Ret false
  | Some e =>
    let! _ := finish st c e in
    let! _ := perform (CHub (λ h, (tt, chan_close conn_id h))) in Ret true
  end.

(** [relay/connection.rs:67-105 run] under a fresh connection id. *)
Definition run_conn (st : AppState) (device_id : Uuid) (turns : list Turn) : prog bool :=
  let! conn_id := perform CUuidV4 in conn_as st device_id conn_id turns.

(** [routes/relay_ws.rs:13-28 connect]: the checks before the upgrade; [upgrade] is
    the handshake's outcome. *)
Definition connect (device : Uuid) (upgrade : bool) : prog (result ApiError unit) :=
  let* _ := check_device device GROUP_REST REST_PER_MINUTE in
  pure (if upgrade then Ok tt else Err BadRequest).
End Serve.

(** ** Lemmas *)

(** What a delivery may change of a connection: its pairs, peers and buckets. *)
Definition keeps (c c' : Conn) : Prop :=
  same_conn c c' ∧ cn_pending c' = cn_pending c ∧ (conn_ok c → conn_ok c').

Lemma keeps_refl c : keeps c c.
Proof. done. Qed.

Lemma keeps_with_peers l c : keeps c (with_peers l c).
Proof. split_and!; [done|done|]. intros _. apply conn_ok_with_peers. Qed.

Section ServeRuns.
Context {B64 : Base64} {UO : UuidOps} {J : Json} {RJ : RvJson} {P : Postgres} {R : RedisServer}.

Lemma reload_keeps c w b c' w' : runs (reload_peers c) w (b, c') w' → keeps c c'.
Proof. intros [_ ->]%runs_reload_peers. destruct b; [apply keeps_with_peers|apply keeps_refl]. Qed.

Lemma is_peer_keeps p c w b c' w' : runs (is_peer p c) w (b, c') w' → keeps c c'.
Proof.
  intros (_ & Hs & _)%runs_is_peer. pose proof (peers_step_same _ _ _ _ Hs) as [? ?].
  split; [done|]. split; [done|]. by eapply peers_step_ok.
Qed.

Lemma delivery_keeps st d c w e c' w' : runs (on_delivery st d c) w (e, c') w' → keeps c c'.
Proof.
  intros Hr. destruct d as [m|]; cbn [on_delivery] in Hr.
  - destruct m; try (apply runs_bind in Hr as (? & ? & _ & [[= _ <-] _]); apply keeps_refl).
    + apply runs_bind in Hr as ([b c1] & w1 & H1%is_peer_keeps & Hr). destruct b.
      * by apply runs_bind in Hr as (? & ? & _ & [[= _ <-] _]).
      * by destruct Hr as [[= _ <-] _].
    + apply runs_bind in Hr as ([b c1] & w1 & H1%is_peer_keeps & Hr). destruct b.
      * by apply runs_bind in Hr as (? & ? & _ & [[= _ <-] _]).
      * by destruct Hr as [[= _ <-] _].
    + apply runs_bind in Hr as ([b c1] & w1 & H1%reload_keeps & Hr).
      by apply runs_bind in Hr as (? & ? & _ & [[= _ <-] _]).
    + apply runs_bind in Hr as ([r c1] & w1 & H1 & [[= _ <-] _]). unfold pairs_changed in H1.
      apply runs_bind in H1 as ([b c2] & w2 & H2%reload_keeps & Hr). destruct b; cbn [negb] in Hr.
      * apply runs_bind in Hr as (? & ? & _ & Hr).
        by apply runs_bind in Hr as (? & ? & _ & [[= _ <-] _]).
      * by destruct Hr as [[= _ <-] _].
    + case_bool_decide; by destruct Hr as [[= _ <-] _].
    + by destruct Hr as [[= _ <-] _].
  - unfold resync in Hr. apply runs_bind in Hr as (o & w1 & _ & Hr). destruct o as [e1|].
    + by destruct Hr as [[= _ <-] _].
    + by apply runs_bind in Hr as ([b c1] & w2 & H2%reload_keeps & [[= _ <-] _]).
Qed.

Lemma timers_keep st t s w e s' w' :
  runs (timers st t s) w (e, s') w' → s' = s ∧ w_published w' = w_published w.
Proof.
  unfold timers. intros Hr. assert (s' = s) as ->.
  { destruct (t_ping t).
    - apply runs_bind in Hr as (now & w1 & _ & Hr). destruct (_ <=? _); [by destruct Hr as [[= _ <-] _]|].
      by apply runs_bind in Hr as (? & ? & _ & [[= _ <-] _]).
    - destruct (t_refresh t); [|by destruct Hr as [[= _ <-] _]].
      by apply runs_bind in Hr as (? & ? & _ & [[= _ <-] _]). }
  split; [done|]. apply runs_no_publish in Hr; [done|]. destruct (t_ping t).
  - cbn. split; [done|]. intros now. by destruct (_ <=? _).
  - by destruct (t_refresh t).
Qed.

(** What the hub answers to the first two branches. *)
Lemma runs_hub {A} (f : HubState → A * HubState) w a w' :
  runs (perform (CHub f)) w a w' →
  ∃ i, a = (f (w_hub (elapse i w))).1 ∧ w' = with_hub (f (w_hub (elapse i w))).2 (elapse i w).
Proof.
  intros (i & _ & Ha & Hw & _)%runs_runs_in%runs_in_hub. by exists i.
Qed.
End ServeRuns.

(** ** Properties *)

(** C20. Over the bandwidth limit the relay stops reading instead of dropping: while
    a frame is held, a turn is the same whatever the socket has ready, the time of
    the last read stays, and the frame stays held unless the clock reached its
    deadline, when it is handed to the bus. *)
Theorem held_frame_blocks_reading {B64 : Base64} {UO : UuidOps} {J : Json} {RJ : RvJson}
    {P : Postgres} {R : RedisServer} (st : AppState) (t : Turn) (c c' : Conn) (last_rx last_rx' : Z)
    (p : Pending) (w w' : World) (e : option ConnEnd) :
  cn_pending c = Some p →
  runs (serve_turn st t (c, last_rx)) w (e, (c', last_rx')) w' →
  last_rx' = last_rx ∧
  (∀ read, runs (serve_turn st (mkTurn read (t_ping t) (t_refresh t)) (c, last_rx)) w
             (e, (c', last_rx')) w') ∧
  (cn_pending c' = Some p ∨
   cn_pending c' = None ∧ pn_deadline p <= w_instant w' ∧
   ∃ w1, w_published w1 = w_published w ∧ runs (publish_forward c p) w1 e w').
Proof.
  intros Hp Hr. assert (∀ read, timers st (mkTurn read (t_ping t) (t_refresh t)) = timers st t) as Ht by done.
  assert (∀ read, serve_turn st (mkTurn read (t_ping t) (t_refresh t)) (c, last_rx) =
                  serve_turn st t (c, last_rx)) as Hsame.
  { intros read. unfold serve_turn. by rewrite Hp, Ht. }
  assert (∀ A B : Prop, last_rx' = last_rx → (A ∨ B) → last_rx' = last_rx ∧
    (∀ read, runs (serve_turn st (mkTurn read (t_ping t) (t_refresh t)) (c, last_rx)) w
             (e, (c', last_rx')) w') ∧ (A ∨ B)) as Hgoal.
  { intros A B HA HB. split_and!; [done| |done]. intros read. by rewrite Hsame. }
  clear Hsame Ht.
  unfold serve_turn in Hr. apply runs_bind in Hr as (k & w1 & H1 & Hr).
  apply runs_no_publish in H1; [|done].
  destruct k; [destruct Hr as [[= _ <- <-] _]; apply Hgoal; auto|].
  apply runs_bind in Hr as (d & w2 & H2 & Hr). apply runs_no_publish in H2; [|done].
  destruct d as [d| |]; [|destruct Hr as [[= _ <- <-] _]; apply Hgoal; auto|].
  - apply runs_bind in Hr as ([e1 c1] & w3 & (_ & Hk & _)%delivery_keeps & [[= <- <- <-] <-]).
    apply Hgoal; [done|left; congruence].
  - rewrite Hp in Hr. apply runs_bind in Hr as (now & w3 & H3 & Hr).
    pose proof H3 as Hp3. apply runs_no_publish in Hp3; [|done].
    apply (proj1 (runs_perform _ _ _ _)) in H3 as [i H3]. unfold exec in H3. simpl in H3.
    injection H3 as <- <-. cbn [w_instant elapse] in Hr.
    destruct (Z.leb_spec (pn_deadline p) (w_instant w2 + Z.of_N (i_elapsed i))).
    + apply runs_bind in Hr as (e1 & w4 & H4 & [[= <- <- <-] <-]). apply Hgoal; [done|]. right.
      split; [done|]. pose proof (runs_instant _ _ _ _ H4) as Hi. cbn [w_instant elapse] in Hi.
      split; [lia|]. eexists. split; [|exact H4]. cbn. congruence.
    + apply timers_keep in Hr as [[= -> ->] _]. apply Hgoal; auto.
Qed.

Lemma map_zip_map {A B D} (f : A * B → D) (g : A → B) l :
  map f (zip l (map g l)) = map (λ a, f (a, g a)) l.
Proof. induction l as [|a l IH]; cbn; [done|]. by f_equal. Qed.

(** The announcement of a pair's device to its peer. *)
Definition announced {UO : UuidOps} {J : Json} (c : Conn) (online : bool) (pp : Uuid * Uuid) :
    string * bytes :=
  (device_channel pp.2, bus_encode (Control (presence_message pp.1 (cn_device c) online))).

Section FinishRuns.
Context {B64 : Base64} {UO : UuidOps} {J : Json} {P : Postgres} {R : RedisServer}.

Lemma runs_in_publish d m w o w' :
  runs_in no_fault (publish d m) w o w' →
  is_Some o ∧ w_published w' = w_published w ++ [(device_channel d, bus_encode m)].
Proof.
  intros (i & HK & H)%runs_in_perform. unfold exec in H. simpl in H. unfold faulty in H.
  rewrite HK in H. by injection H as <- <-.
Qed.

Lemma announce_issues (Q : ∀ X, cmd X → Prop) c b :
  (∀ ch m, Q _ (CPublish ch m)) → issues Q (announce c b).
Proof. intros HQ. apply issues_for_each. intros pp _. cbn. by split. Qed.

Lemma runs_in_announce c b w u w' :
  runs_in no_fault (announce c b) w u w' →
  w_published w' = w_published w ++ map (announced c b) (cn_pairs c) ∧
  w_redis w' = w_redis w ∧ w_written w' = w_written w.
Proof.
  intros Hr. pose proof (runs_in_runs _ _ _ _ _ Hr) as Hr'. split_and!.
  - unfold announce in Hr. apply (runs_in_for_each _ _ _ (λ pp, [announced c b pp])) in Hr.
    + rewrite Hr. by f_equal.
    + intros pp w0 u0 w1 (o & w2 & [_ H]%runs_in_publish & [_ <-])%runs_in_bind. exact H.
  - apply runs_no_redis in Hr'; [done|]. by apply announce_issues.
  - apply runs_no_write in Hr'; [done|]. by apply announce_issues.
Qed.

(** Leaving the registry and giving up presence. *)
Definition leave (st : AppState) (c : Conn) : prog unit :=
  let! _ := perform (CHub (λ h, (tt, unsubscribe (cn_device c) h))) in
  let! released := release (cn_device c) (instance_id (st_settings st)) in
  match released with Some true => announce c false | _ => Ret tt end.

Lemma runs_leave st c w u w' :
  runs_in no_fault (leave st c) w u w' →
  w_written w' = w_written w ∧
  ∃ t, w_rnow w <= t <= w_rnow w' ∧
    if bool_decide (r_val (w_redis w) t (presence_key (cn_device c)) =
                    Some (RStr (instance_id (st_settings st))))
    then w_redis w' = r_del (presence_key (cn_device c)) t (w_redis w) ∧
         w_published w' = w_published w ++ map (announced c false) (cn_pairs c)
    else w_redis w' = w_redis w ∧ w_published w' = w_published w.
Proof.
  intros Hr. apply runs_in_bind in Hr as (u1 & w1 & H1%runs_in_runs%runs_hub & Hr).
  destruct H1 as (i1 & _ & ->).
  apply runs_in_bind in Hr as (rel & w2 & H2 & Hr). unfold release in H2.
  apply runs_in_bind in H2 as (o & w3 & H2 & [Ho <-]). apply runs_in_redis in H2 as (i2 & s & H2 & ->).
  pose proof (runs_rnow _ _ _ _ (runs_in_runs _ _ _ _ _ Hr)) as Hn.
  cbn [w_rnow w_redis with_redis with_hub elapse exec_redis] in *. set (t := w_rnow w + _ + _) in *.
  assert (w_rnow w <= t) by (unfold t; lia). unfold RELEASE_SCRIPT, r_get in H2.
  destruct (r_val (w_redis w) t (presence_key (cn_device c))) as [[v|ms]|] eqn:Ev.
  - rewrite (bool_decide_ext (Some v = Some _) (v = instance_id (st_settings st))) in H2 by naive_solver.
    destruct (decide (v = instance_id (st_settings st))) as [->|Hne].
    + rewrite bool_decide_true in H2 by done. injection H2 as <- <-. subst rel. cbn in Hr.
      apply runs_in_announce in Hr as (Hp & Hs & Hw). cbn in Hp, Hs, Hw. split; [done|].
      exists t. split; [lia|]. by rewrite Ev, bool_decide_true.
    + rewrite bool_decide_false in H2 by done. injection H2 as <- <-. subst rel.
      destruct Hr as [_ <-]. split; [done|]. exists t. split; [lia|].
      rewrite Ev, bool_decide_false by naive_solver. done.
  - injection H2 as <- <-. subst rel. destruct Hr as [_ <-]. split; [done|]. exists t.
    split; [lia|]. by rewrite Ev, bool_decide_false.
  - rewrite bool_decide_false in H2 by done. injection H2 as <- <-. subst rel.
    destruct Hr as [_ <-]. split; [done|]. exists t. split; [lia|]. by rewrite Ev, bool_decide_false.
Qed.

(** The hub while a connection leaves: its request to the bus task among whatever
    the others do. *)
Lemma runs_in_leave_hub K st c w u w' :
  runs_in K (leave st c) w u w' →
  ∃ h, meanwhile K (w_max_queued w) (w_hub w) h ∧
       meanwhile K (w_max_queued w) (unsubscribe (cn_device c) h) (w_hub w') ∧
       w_max_queued w' = w_max_queued w.
Proof.
  intros (u1 & w1 & (i & _ & _ & -> & Hm)%runs_in_hub & Hr)%runs_in_bind.
  apply runs_in_meanwhile in Hr as [Hr Hmax].
  - eexists. split; [exact Hm|]. split; [exact Hr|exact Hmax].
  - apply issues_bind; [done|]. intros [[]|]; [|done..]. by apply announce_issues.
Qed.

(** A socket that is closed gets the close frame, unless that write fails. *)
Definition closes (K : Input → Prop) (c : Conn) (code : Z)
    (w w' : World) : Prop :=
  w_written w' = w_written w ++ [(cn_id c, WClose code)] ∨
  w_written w' = w_written w ∧ ∃ i, K i ∧ i_write i ≠ Written.

Lemma runs_in_close K c code w u w' :
  runs_in K (let! _ := perform (CWrite (cn_id c) (WClose code)) in Ret tt) w u w' → closes K c code w w'.
Proof.
  intros (x & w1 & (i & Hi & H)%runs_in_perform & [_ <-])%runs_in_bind.
  unfold exec in H. cbn [exec_now] in H. injection H as _ <-. unfold closes.
  destruct (i_write i) eqn:E; [by left|right..]; (split; [done|]); exists i; by rewrite E.
Qed.

(** Texts written one after the other, all of them when none fails. *)
Lemma runs_send_all {A} c (f : A → string) l w u w' :
  runs (try_each l (λ x, send_text c (f x))) w (Ok u) w' →
  w_written w' = w_written w ++ map (λ x, (cn_id c, WText (f x))) l ∧
  w_published w' = w_published w ∧ w_db w' = w_db w.
Proof.
  intros Hr. split_and!.
  - revert w Hr. induction l as [|x l IH]; intros w Hr; cbn [try_each] in Hr.
    { destruct Hr as [_ <-]. by rewrite app_nil_r. }
    apply runs_bind_ok in Hr as [(u1 & w1 & H1%runs_send_text & Hr)|(? & _ & [=])].
    apply IH in Hr. by rewrite Hr, H1, <-app_assoc.
  - apply runs_no_publish in Hr; [done|]. apply issues_try_each. intros x _. by cbn.
  - apply runs_no_sql in Hr; [done|]. apply issues_try_each. intros x _. by cbn.
Qed.

(** [quiet]: neither a write nor a message nor a query. *)
Definition quiet (X : Type) (c : cmd X) : Prop :=
  match c with CWrite _ _ | CPublish _ _ | CSql _ => False | _ => True end.

Lemma runs_quiet {A} (p : prog A) w a w' :
  issues quiet p → runs p w a w' →
  w_written w' = w_written w ∧ w_published w' = w_published w ∧ w_db w' = w_db w.
Proof.
  intros Hp Hr. split_and!.
  - eapply runs_no_write, Hr. eapply issues_impl, Hp. by intros X [].
  - eapply runs_no_publish, Hr. eapply issues_impl, Hp. by intros X [].
  - eapply runs_no_sql, Hr. eapply issues_impl, Hp. by intros X [].
Qed.

Lemma peer_presence_quiet l : issues quiet (peer_presence l).
Proof. unfold peer_presence, online. by case_bool_decide. Qed.

(** A query that keeps the database. *)
Lemma runs_query {A} (q : sql A) w o w' :
  (∀ now db, (exec_sql q now db).2 = db) → runs (perform (CSql q)) w o w' →
  w_db w' = w_db w ∧ w_written w' = w_written w ∧ w_published w' = w_published w ∧
  ∀ a, o = Some a → ∃ now, (exec_sql q now (w_db w)).1 = Some a.
Proof.
  intros Hq Hr. pose proof Hr as Hw. apply runs_no_write in Hw; [|done]. pose proof Hr as Hp.
  apply runs_no_publish in Hp; [|done].
  assert (runs (or_internal (perform (CSql q))) w (ok_or o Internal) w') as H
    by (apply runs_or_internal; eauto).
  apply runs_read in H as [Hdb H]; [|done]. split_and!; [done..|]. by intros a ->.
Qed.

Lemma send_all_no_redis {A} c (f : A → string) l : issues no_redis (try_each l (λ x, send_text c (f x))).
Proof. apply issues_try_each. intros x _. by cbn. Qed.

Lemma send_presence_no_redis c l b : issues no_redis (send_presence c l b).
Proof. apply send_all_no_redis. Qed.

(** The online state of a device at a time: its presence key holds an instance. *)
Definition online_at (s : rstore) (t : Z) (d : Uuid) : bool :=
  match r_val s t (presence_key d) with Some (RStr _) => true | _ => false end.

Lemma mget_online s t (l : list (Uuid * Uuid)) :
  map (λ v : option string, bool_decide (is_Some v)) (r_mget (map presence_key l.*2) t s) =
  map (λ pp, online_at s t pp.2) l.
Proof.
  induction l as [|pp l IH]; [done|]. simpl. f_equal; [|exact IH]. unfold online_at.
  by destruct (r_val s t (presence_key pp.2)) as [[v|ms]|].
Qed.

Lemma runs_in_peer_presence l w bs w' :
  runs_in no_fault (peer_presence l) w bs w' →
  w_redis w' = w_redis w ∧
  ∃ t, w_rnow w <= t <= w_rnow w' ∧ bs = map (λ pp, online_at (w_redis w) t pp.2) l.
Proof.
  unfold peer_presence, online. intros (o & w1 & H & [<- <-])%runs_in_bind. case_bool_decide as Hl.
  { destruct H as [<- <-]. apply fmap_nil_inv in Hl as ->. split; [done|].
    exists (w_rnow w). split; [lia|done]. }
  apply runs_in_bind in H as (vs & w2 & H & [<- <-]).
  apply runs_in_redis in H as (i & s & H & ->). cbn [exec_redis] in H. injection H as <- <-.
  split; [done|]. cbn [w_rnow with_redis elapse]. eexists. split; [split; [|reflexivity]; lia|].
  cbn [option_map default]. apply mget_online.
Qed.

(** The notices queued for a device at a time, those that are well formed. *)
Definition notices_at (s : rstore) (t : Z) (d : Uuid) : list RevokeStatement :=
  default [] (option_map (omap parse_revoked_notice) (r_smembers (revoked_notice_key d) t s)).

Lemma runs_in_notices d w o w' :
  runs_in no_fault (take_revoked_notices d) w o w' →
  ∃ t, w_rnow w <= t <= w_rnow w' ∧
    default [] o = notices_at (w_redis w) t d ∧
    w_redis w' = r_del (revoked_notice_key d) t (w_redis w).
Proof.
  intros (ms & w1 & H & [<- <-])%runs_in_bind. apply runs_in_redis in H as (i & s & H & ->).
  cbn [exec_redis] in H. injection H as <- <-. cbn [w_rnow w_redis with_redis elapse].
  eexists. split; [split; [|reflexivity]; lia|]. done.
Qed.

(** A query of revocations, at the database's time. *)
Lemma runs_in_recently d w o w' :
  runs_in no_fault (perform (CSql (QRecentlyRevoked d))) w o w' →
  w_pgnow w <= w_pgnow w' ∧ o = recently_revoked (w_pgnow w') d (w_db w) ∧ w_db w' = w_db w.
Proof.
  intros (i & HK & H)%runs_in_perform. unfold exec in H. cbn [exec_now] in H. unfold faulty in H.
  rewrite HK in H. injection H as <- <-. cbn [w_pgnow w_db with_db elapse]. split; [lia|done].
Qed.

(** The subscription and the claim change nothing but the hub and the presence. *)
Lemma runs_in_claimed K (st : AppState) (c c' : Conn) w w' :
  (∀ i, K i → no_fault i) → runs_in K (open st c) w (Ok tt, c') w' →
  ∃ w1, runs_in K (open_claimed c) w1 (Ok tt, c') w' ∧
    w_db w1 = w_db w ∧ w_written w1 = w_written w ∧ w_published w1 = w_published w ∧
    w_rnow w <= w_rnow w1 ∧ w_pgnow w <= w_pgnow w1 ∧
    w_redis w1 = r_setex (presence_key (cn_device c)) (instance_id (st_settings st))
                   PRESENCE_TTL_SECS (w_rnow w1) (w_redis w).
Proof.
  intros HK Hr. unfold open in Hr. apply runs_in_bind in Hr as (b & w1 & H1 & Hr).
  apply runs_in_runs in H1. pose proof (runs_rnow _ _ _ _ H1) as Ht1.
  pose proof (runs_pgnow _ _ _ _ H1) as Hg1. pose proof H1 as Hs1%runs_no_redis; [|done].
  apply runs_quiet in H1 as (Hw1 & Hp1 & Hd1); [|done].
  destruct b; cbn [negb] in Hr; [|by destruct Hr].
  apply runs_in_bind in Hr as (cl & w2 & H2 & Hr).
  pose proof H2 as (Hw2 & Hp2 & Hd2)%runs_in_runs%runs_quiet; [|done].
  apply (runs_in_mono _ no_fault _ _ _ _ HK) in H2. apply runs_in_redis in H2 as (i & s & H2 & ->).
  cbn [exec_redis] in H2. injection H2 as <- <-. eexists. split; [exact Hr|].
  cbn [w_db w_written w_published w_rnow w_pgnow w_redis with_redis elapse] in *.
  split_and!; try congruence; lia.
Qed.

(** The opening messages: presence of the peers, revocations, announcement. *)
Lemma runs_in_messages c c' w w' :
  runs_in no_fault (open_messages c) w (Ok tt, c') w' →
  c' = c ∧ w_db w' = w_db w ∧
  ∃ t2 t3 now, (w_rnow w <= t2 <= t3) ∧ (t3 <= w_rnow w') ∧ (w_pgnow w <= now <= w_pgnow w') ∧
    let revoked := default [] (recently_revoked now (cn_device c) (w_db w)) in
    let notices := notices_at (w_redis w) t3 (cn_device c) in
    w_redis w' = r_del (revoked_notice_key (cn_device c)) t3 (w_redis w) ∧
    w_written w' = w_written w
      ++ map (λ pp, (cn_id c, WText (presence_message pp.1 pp.2 (online_at (w_redis w) t2 pp.2))))
           (cn_pairs c)
      ++ map (λ s, (cn_id c, WText (pair_revoked_message s))) (revoked ++ notices) ∧
    w_published w' = w_published w ++ map (announced c true) (cn_pairs c).
Proof.
  intros Hr. unfold open_messages in Hr. apply runs_in_bind in Hr as (online & w1 & H1 & Hr).
  pose proof H1 as (Hw1 & Hp1 & Hd1)%runs_in_runs%runs_quiet; [|apply peer_presence_quiet].
  pose proof (runs_pgnow _ _ _ _ (runs_in_runs _ _ _ _ _ H1)) as Hg1.
  apply runs_in_peer_presence in H1 as (Hs1 & t2 & Ht2 & ->).
  apply runs_in_bind in Hr as (r & w2 & H2%runs_in_runs & Hr). destruct r as [u|]; [|by destruct Hr].
  pose proof (runs_pgnow _ _ _ _ H2) as Hg2. pose proof (runs_rnow _ _ _ _ H2) as Ht2'.
  pose proof (runs_no_redis _ _ _ _ (send_presence_no_redis _ _ _) H2) as Hs2.
  apply runs_send_all in H2 as (Hw2 & Hp2 & Hd2).
  apply runs_in_bind in Hr as (rv & w3 & H3 & Hr).
  pose proof (runs_rnow _ _ _ _ (runs_in_runs _ _ _ _ _ H3)) as Ht3.
  pose proof H3 as (_ & Hw3 & Hp3 & _)%runs_in_runs%runs_query; [|done].
  pose proof H3 as Hs3%runs_in_runs%runs_no_redis; [|done].
  apply runs_in_recently in H3 as (Hg3 & -> & Hd3).
  apply runs_in_bind in Hr as (ns & w4 & H4 & Hr).
  pose proof H4 as (Hw4 & Hp4 & Hd4)%runs_in_runs%runs_quiet; [|done].
  pose proof (runs_pgnow _ _ _ _ (runs_in_runs _ _ _ _ _ H4)) as Hg4.
  apply runs_in_notices in H4 as (t3 & Ht4 & Hns & Hs4).
  apply runs_in_bind in Hr as (r & w5 & H5%runs_in_runs & Hr). destruct r as [u'|]; [|by destruct Hr].
  pose proof (runs_pgnow _ _ _ _ H5) as Hg5. pose proof (runs_rnow _ _ _ _ H5) as Ht5.
  pose proof (runs_no_redis _ _ _ _ (send_all_no_redis _ _ _) H5) as Hs5.
  apply runs_send_all in H5 as (Hw5 & Hp5 & Hd5).
  apply runs_in_bind in Hr as (u2 & w6 & H6 & [[= <-] <-]).
  pose proof (runs_pgnow _ _ _ _ (runs_in_runs _ _ _ _ _ H6)) as Hg6.
  pose proof (runs_rnow _ _ _ _ (runs_in_runs _ _ _ _ _ H6)) as Ht6.
  pose proof H6 as Hd6%runs_in_runs%runs_no_sql; [|by apply announce_issues].
  apply runs_in_announce in H6 as (Hp6 & Hs6 & Hw6).
  split; [done|]. split; [congruence|]. exists t2, t3, (w_pgnow w3).
  do 3 (split; [lia|]). cbv zeta. split_and!.
  - rewrite Hs6, Hs5, Hs4, Hs3, Hs2, Hs1. done.
  - rewrite Hw6, Hw5, Hns, Hw4, Hw3, Hw2, Hw1, Hd2, Hd1, Hs3, Hs2, Hs1, <-app_assoc. do 2 f_equal.
    apply map_zip_map.
  - rewrite Hp6, Hp5, Hp4, Hp3, Hp2, Hp1. done.
Qed.
End FinishRuns.

(** C18. How a connection ends, when no request is lost: if it is still the device's
    current connection it leaves the registry, asks the bus task to unsubscribe and
    gives up presence; presence is removed, and every peer told "offline", exactly if
    it is still this instance's, so a device that moved to another connection or
    instance never appears offline; a connection that is no longer the current one
    leaves the registry, presence and the peers alone.  The socket gets a close frame
    with the end's code, unless the device is gone or that write fails.  [meanwhile] is
    what the other tasks of the instance do to the hub. *)
Theorem finish_spec {B64 : Base64} {UO : UuidOps} {J : Json} {P : Postgres} {R : RedisServer}
    (K : Input → Prop) (st : AppState) (c : Conn) (end_ : ConnEnd) (w w' : World) :
  (∀ i, K i → no_fault i) →
  runs_in K (finish st c end_) w tt w' →
  (∃ h, meanwhile K (w_max_queued w) (w_hub w) h ∧
   if bool_decide (registry h !! cn_device c = Some (cn_id c))
   then
     (∃ h', meanwhile K (w_max_queued w)
              (mkHub (delete (cn_device c) (registry h)) (chans h) (requests h)) h' ∧
            meanwhile K (w_max_queued w) (unsubscribe (cn_device c) h') (w_hub w')) ∧
     ∃ t, w_rnow w <= t <= w_rnow w' ∧
       if bool_decide (r_val (w_redis w) t (presence_key (cn_device c)) =
                       Some (RStr (instance_id (st_settings st))))
       then w_redis w' = r_del (presence_key (cn_device c)) t (w_redis w) ∧
            w_published w' = w_published w ++ map (announced c false) (cn_pairs c)
       else w_redis w' = w_redis w ∧ w_published w' = w_published w
   else meanwhile K (w_max_queued w) h (w_hub w') ∧
        w_redis w' = w_redis w ∧ w_published w' = w_published w) ∧
  match end_ with
  | Gone => w_written w' = w_written w
  | ClientClosed => closes K c CLOSE_NORMAL w w'
  | EndClose code => closes K c code w w'
  end.
Proof.
  intros HK Hr. unfold finish in Hr. apply runs_in_bind in Hr as (cur & w1 & H1 & Hr).
  apply runs_in_hub in H1 as (i1 & _ & Hcur & -> & Hh).
  apply runs_in_bind in Hr as (u & w2 & H2 & Hr).
  assert (w_redis w' = w_redis w2 ∧ w_published w' = w_published w2 ∧ w_rnow w2 <= w_rnow w' ∧
    (∀ m h, meanwhile K m h (w_hub w2) → m = w_max_queued w2 → meanwhile K m h (w_hub w')) ∧
    match end_ with
    | Gone => w_written w' = w_written w2
    | ClientClosed => closes K c CLOSE_NORMAL w2 w'
    | EndClose code => closes K c code w2 w'
    end) as (Hr1 & Hp1 & Hn1 & Hm1 & Hw1).
  { pose proof (runs_in_runs _ _ _ _ _ Hr) as Hr'. split_and!.
    - eapply runs_no_redis, Hr'. by destruct end_.
    - eapply runs_no_publish, Hr'. by destruct end_.
    - by eapply runs_rnow.
    - intros m h Hm ->. apply runs_in_meanwhile in Hr as [Hr _]; [|by destruct end_].
      by etrans.
    - destruct end_; [by destruct Hr as [_ <-]|by apply runs_in_close in Hr..]. }
  rewrite Hr1, Hp1. unfold unregister in *.
  assert (∀ w1, w_written w2 = w_written w1 → w_written w1 = w_written w →
    match end_ with
    | Gone => w_written w' = w_written w
    | ClientClosed => closes K c CLOSE_NORMAL w w'
    | EndClose code => closes K c code w w'
    end) as Hw.
  { intros w1 E1 E2. unfold closes in *. by rewrite E1, E2 in Hw1. }
  case_bool_decide as Hreg; cbn [fst snd] in *; subst cur.
  - pose proof H2 as (h' & Hm & Hm' & Hmax)%runs_in_leave_hub. cbn [w_hub w_max_queued with_hub elapse] in Hm, Hm', Hmax.
    apply (runs_in_mono _ no_fault _ _ _ _ HK) in H2.
    apply (runs_leave st c) in H2 as (Hww & t & Ht & H2). cbn [w_rnow w_redis w_published with_hub elapse] in *.
    split; [|by eapply Hw]. eexists. split; [exact Hh|]. rewrite bool_decide_true by done. split.
    + exists h'. split; [exact Hm|]. by apply Hm1.
    + exists t. split; [lia|exact H2].
  - destruct H2 as [_ <-]. split; [|by eapply Hw]. eexists. split; [exact Hh|].
    rewrite bool_decide_false by done. split_and!; [|done..]. apply Hm1; [apply rtc_refl|done].
Qed.

(** C19. What a device sees when it connects: if [open] succeeds and nothing is lost,
    the presence key was first set to this instance for [PRESENCE_TTL_SECS], and only
    then ([open_claimed], from [wc] on) were older connections told to close; the
    device got, and nothing else, the state of each of its valid pairs - online
    exactly if the peer's presence key held an instance at one time [t2] - and then
    every revocation it may have missed: those the database still shows at [now] and
    the queued notices, which are taken from Redis at [t3]; and each peer was told it
    is online. *)
Theorem open_spec {B64 : Base64} {UO : UuidOps} {J : Json} {P : Postgres} {R : RedisServer}
    (K : Input → Prop) (st : AppState) (c c' : Conn) (w w' : World) :
  (∀ i, K i → no_fault i) →
  runs_in K (open st c) w (Ok tt, c') w' →
  ∃ wc t2 t3 now,
    runs_in K (open_claimed c) wc (Ok tt, c') w' ∧
    (w_rnow w <= w_rnow wc <= t2) ∧ (t2 <= t3 <= w_rnow w') ∧ (w_pgnow w <= now <= w_pgnow w') ∧
    w_published wc = w_published w ∧ w_written wc = w_written w ∧
    w_redis wc = r_setex (presence_key (cn_device c)) (instance_id (st_settings st))
                   PRESENCE_TTL_SECS (w_rnow wc) (w_redis w) ∧
    let revoked := default [] (recently_revoked now (cn_device c) (w_db w)) in
    let notices := notices_at (w_redis wc) t3 (cn_device c) in
    c' = with_peers (active_peers (cn_device c) (w_db w)) c ∧ w_db w' = w_db w ∧
    w_redis w' = r_del (revoked_notice_key (cn_device c)) t3 (w_redis wc) ∧
    w_written w' = w_written w
      ++ map (λ pp, (cn_id c, WText (presence_message pp.1 pp.2 (online_at (w_redis wc) t2 pp.2))))
           (cn_pairs c')
      ++ map (λ s, (cn_id c, WText (pair_revoked_message s))) (revoked ++ notices) ∧
    w_published w' = w_published w ++
      (device_channel (cn_device c), bus_encode (Replace (cn_id c)))
      :: map (announced c true) (cn_pairs c').
Proof.
  intros HK Hr. apply runs_in_claimed in Hr as (wc & Hr & Hd1 & Hw1 & Hp1 & Ht1 & Hg1 & Hs1); [|done].
  exists wc. pose proof Hr as Hr'. apply (runs_in_mono _ no_fault _ _ _ _ HK) in Hr.
  unfold open_claimed in Hr. apply runs_in_bind in Hr as (told & w2 & H2 & Hr).
  pose proof H2 as H2'%runs_in_runs. pose proof (runs_rnow _ _ _ _ H2') as Ht2.
  pose proof (runs_pgnow _ _ _ _ H2') as Hg2. pose proof H2' as Hs2%runs_no_redis; [|done].
  apply runs_publish in H2' as (_ & Hw2 & Hd2 & _). apply runs_in_publish in H2 as [[n ->] Hp2].
  apply runs_in_bind in Hr as ([b c1] & w3 & H3%runs_in_runs & Hr).
  pose proof (runs_rnow _ _ _ _ H3) as Ht3. pose proof (runs_pgnow _ _ _ _ H3) as Hg3.
  pose proof H3 as Hw3%runs_no_write; [|done]. pose proof H3 as Hp3%runs_no_publish; [|done].
  pose proof H3 as Hs3%runs_no_redis; [|done].
  apply runs_reload_peers in H3 as [Hd3 ->]. destruct b; cbn [negb] in Hr; [|by destruct Hr].
  apply runs_in_messages in Hr as (-> & Hd & t2 & t3 & now & Ht & Ht' & Hg & H).
  rewrite Hs3, Hs2, Hd3, Hd2, Hw3, Hw2, Hp3, Hp2, Hd1, Hw1, Hp1, <-app_assoc in H.
  exists t2, t3, now. split; [done|]. do 3 (split; [lia|]). split; [done|]. split; [done|].
  split; [by rewrite <-Hs1|]. cbv zeta in *. rewrite Hd2, Hd1. split; [done|].
  split; [congruence|]. exact H.
Qed.
