(* ===== verification/Crossing.v ===== *)
(** * Crossing: a frame from one device to the other, end to end

    A frame of one connection is published (at once, or after the bandwidth wait),
    the bus task of the peer's instance queues it behind what came before, and the
    peer's connection takes it from the queue and writes it. *)

From S2P Require Import Prelude Text Errors Externals Signatures Attestation Revocation Challenge.
From S2P Require Import Wire Bus Tables Redis Scripts Usage Hub IO Pool Invariants Net Config.
From S2P Require Import Limits Presence Rendezvous Push Auth PairRoutes DeviceRoutes Bandwidth.
From S2P Require Import Connection Inbound Outbound Serve.

Local Open Scope Z_scope.

(** ** The wait of a bucket *)

Lemma round_div_nonneg a b : 0 <= a → 0 < b → 0 <= round_div a b.
Proof.
  intros Ha Hb. unfold round_div. pose proof (Z.div_pos a b Ha Hb).
  destruct (_ <? _); [lia|]. destruct (_ <? _); [lia|]. destruct (Z.even _); lia.
Qed.

Lemma from_secs_f64_nonneg x : 0 <= from_secs_f64 x.
Proof.
  destruct x as [s|s| |[] m e]; cbn [from_secs_f64]; try done.
  destruct (Z.leb_spec 0 e).
  - pose proof (Z.pow_nonneg 2 e). lia.
  - apply round_div_nonneg; [lia|]. apply Z.pow_pos_nonneg; lia.
Qed.

Lemma bucket_take_nonneg b cost now : 0 <= (bucket_take b cost now).1.
Proof. unfold bucket_take. cbv zeta. destruct (f64_nonneg _); [done|apply from_secs_f64_nonneg]. Qed.

(** ** Taking deliveries from the queue *)

(** The next [n] times a connection looks for a delivery. *)
Fixpoint receive (n : nat) (device_id conn_id : Uuid) (h : HubState) : list Received * HubState :=
  match n with
  | O => ([], h)
  | S n' =>
    let '(r, h) := chan_recv device_id conn_id h in
    let '(rs, h) := receive n' device_id conn_id h in (r :: rs, h)
  end.

(** The deliveries come in the order they were queued. *)
Lemma receive_queue d conn_id ds rest h c :
  chans h !! conn_id = Some c → ch_queue c = ds ++ rest →
  (receive (length ds) d conn_id h).1 = map Got ds.
Proof.
  revert h c. induction ds as [|x ds IH]; intros h [q n k o] Hc Hq; [done|].
  cbn [ch_queue] in Hq. subst q. cbn [receive length app]. unfold chan_recv. rewrite Hc.
  cbn [map app]. match goal with |- context [set_chans (insert _ ?c1) h] =>
    pose proof (IH (set_chans (insert conn_id c1) h) c1) as H end.
  set (h1 := set_chans _ h) in *.
  destruct (receive (length ds) d conn_id h1) as [rs h2]. cbn [fst] in *. f_equal. apply H; [|done].
  unfold h1. cbn [chans set_chans]. by rewrite lookup_insert_eq.
Qed.

Section Crossing.
Context {B64 : Base64} {UO : UuidOps} {J : Json} {RJ : RvJson} {P : Postgres} {R : RedisServer}.

(** What a device may send to the peer [to]: the message that carries it, and the
    frame the peer gets. *)
Inductive addressed (me to : Uuid) : ClientMessage → BusMessage → WsFrame → Prop :=
| Addressed_text text inbound env :
    parse_inbound text = Some inbound → in_op inbound = None →
    in_to inbound = Some to → in_env inbound = Some env → is_object env = true →
    Z.of_nat (str_len text) <= MAX_FRAME_BYTES →
    addressed me to (MText text) (ForwardText me (forwarded_text me env))
      (WText (forwarded_text me env))
| Addressed_binary hl :
    hl ≠ [] → Z.of_nat (length (hr_header ++ arr_bytes to ++ hl)) <= MAX_FRAME_BYTES →
    addressed me to (MBinary (hr_header ++ arr_bytes to ++ hl))
      (ForwardBinary me (hr_header ++ arr_bytes me ++ hl))
      (WBinary (hr_header ++ arr_bytes me ++ hl)).

Lemma addressed_carries me to msg m f : addressed me to msg m f → carries me m f.
Proof. intros []; [left|right]; by eexists. Qed.

(** The size of a frame, as the bucket counts it. *)
Definition frame_size (msg : ClientMessage) : Z :=
  match msg with
  | MText text => Z.of_nat (str_len text)
  | MBinary frame => Z.of_nat (length frame)
  | _ => 0
  end.

(** Such a frame is forwarded, with the sender's id in place. *)
Lemma addressed_forward st me to msg m f c :
  cn_device c = me → is_device_id to = true → addressed me to msg m f →
  on_client_message st msg c = forward st to m (frame_size msg) c.
Proof.
  intros <- Hto [text inbound env Hin Hop Ht He Ho Hlen|hl Hne Hlen];
    cbn [on_client_message frame_size].
  - unfold handle_text. rewrite Hin, Hop, Ht, He, Hto, Ho. cbn [andb].
    destruct (Z.gtb_spec (Z.of_nat (str_len text)) MAX_FRAME_BYTES); [lia|done].
  - unfold handle_binary. rewrite (proj2 (parse_hr_Some _ to)) by by exists hl.
    cbn [mbind option_bind]. rewrite Hto, rewrite_hr_frame.
    destruct (Z.gtb_spec (Z.of_nat (length (hr_header ++ arr_bytes to ++ hl))) MAX_FRAME_BYTES);
      [lia|done].
Qed.

(** Without lost requests a frame for a peer is published, or kept until its
    deadline. *)
Lemma runs_in_forward st to m n c w e c' w' :
  to ∈ cn_peers c → runs_in no_fault (forward st to m n c) w (e, c') w' →
  published_since w w' [(device_channel to, bus_encode m)] ∧ cn_pending c' = cn_pending c ∨
  published_since w w' [] ∧ e = None ∧
    ∃ deadline, w_instant w' < deadline ∧ cn_pending c' = Some (mkPending to m n deadline).
Proof.
  intros Hto Hr. unfold forward, is_peer in Hr. rewrite bool_decide_true in Hr by done.
  cbn [pbind negb] in Hr. apply runs_in_bind in Hr as (now & w1 & H1 & Hr).
  apply runs_in_perform in H1 as (i & _ & H1). unfold exec in H1. cbn [exec_now] in H1.
  injection H1 as <- <-.
  match type of Hr with context [bucket_take ?b n ?t] =>
    pose proof (bucket_take_nonneg b n t) as Hw; destruct (bucket_take b n t) as [wait bk] end.
  cbn [fst] in Hw. destruct (Z.eqb_spec wait 0) as [->|Hne].
  - apply runs_in_bind in Hr as (e1 & w2 & H2 & [[= <- <-] <-]). left. split; [|done].
    unfold publish_forward in H2. cbn [pn_to pn_bus] in H2.
    apply runs_in_bind in H2 as (o & w3 & H3 & H2). apply runs_in_publish in H3 as [_ H3].
    apply runs_in_runs in H2. unfold published_since in *.
    assert (w_published w2 = w_published w3) as ->; [|done].
    destruct o as [[|k|k]|]; by apply runs_no_publish in H2.
  - destruct Hr as [[= <- <-] <-]. right. split; [unfold published_since; by rewrite app_nil_r|].
    split; [done|]. eexists. split; [|done]. cbn [w_instant elapse]. lia.
Qed.

Context {UL : UuidLaws}.

(** The bus task of the peer's instance queues the published message last. *)
Lemma bus_step_queues max to conn_id m bt c :
  registry (bt_hub bt) !! to = Some conn_id → chans (bt_hub bt) !! conn_id = Some c →
  ch_open c = true → 0 <= ch_queued c → ch_queued c + queued_len m <= max → max < 2 ^ 64 →
  bus_ok m →
  let bt' := (bus_step max (EvMessage (device_channel to) (bus_encode m)) bt).2 in
  (receive (S (length (ch_queue c))) to conn_id (bt_hub bt')).1 =
    map Got (ch_queue c ++ [DBus m]).
Proof.
  intros Hreg Hc Ho H0 Hm Hmax Hok. cbn [bus_step]. rewrite channel_device_channel.
  rewrite bus_decode_encode by done. cbn [snd bt_hub].
  replace (S (length (ch_queue c))) with (length (ch_queue c ++ [DBus m]))
    by (rewrite length_app; simpl; lia).
  eapply (receive_queue _ _ _ []).
  - rewrite (dispatch_queued max to conn_id m c); [|done..|lia].
    by rewrite (proj2 (Z.leb_le _ _) Hm).
  - by rewrite app_nil_r.
Qed.
End Crossing.

(** ** Properties *)

(** C4. A frame arrives: what a device sends to a valid peer - a routing wrapper or an
    [HR] frame within the size limit - is, when no request is lost, published with the
    sender's id in it, at once or, above the bandwidth limit, from the held frame whose deadline lies
    ahead; the bus task of an instance serving the peer puts that message behind the
    deliveries already queued, in order, when the queue has room; and the peer's
    connection writes exactly the frame, unless the write itself fails. *)
Theorem frame_arrives {B64 : Base64} {UO : UuidOps} {UL : UuidLaws} {J : Json} {RJ : RvJson}
    {P : Postgres} {R : RedisServer} (st : AppState) (a a' : Conn) (to : Uuid)
    (msg : ClientMessage) (m : BusMessage) (f : WsFrame) (w w' : World) (e : option ConnEnd) :
  addressed (cn_device a) to msg m f → bus_ok m → is_device_id to = true → to ∈ cn_peers a →
  runs_in no_fault (on_client_message st msg a) w (e, a') w' →
  (published_since w w' [(device_channel to, bus_encode m)] ∨
   published_since w w' [] ∧ e = None ∧
     ∃ deadline, w_instant w' < deadline ∧
       cn_pending a' = Some (mkPending to m (frame_size msg) deadline)) ∧
  (∀ max bt conn_id c,
     registry (bt_hub bt) !! to = Some conn_id → chans (bt_hub bt) !! conn_id = Some c →
     ch_open c = true → 0 <= ch_queued c → ch_queued c + queued_len m <= max → max < 2 ^ 64 →
     let bt' := (bus_step max (EvMessage (device_channel to) (bus_encode m)) bt).2 in
     (receive (S (length (ch_queue c))) to conn_id (bt_hub bt')).1 =
       map Got (ch_queue c ++ [DBus m])) ∧
  (∀ st' b b' w3 w4, cn_device a ∈ cn_peers b →
     runs (on_delivery st' (DBus m) b) w3 (None, b') w4 →
     b' = b ∧ w_written w4 = w_written w3 ++ [(cn_id b, f)]).
Proof.
  intros Hmsg Hok Hid Hto Hr. split_and!.
  - rewrite (addressed_forward st _ to msg m f) in Hr by done.
    apply runs_in_forward in Hr as [[H _]|H]; [by left|by right|done].
  - intros. by apply bus_step_queues.
  - intros st' b b' w3 w4 Hb Hd. assert (b' = b) as ->.
    { destruct Hmsg; cbn [on_delivery] in Hd; unfold is_peer in Hd;
        rewrite bool_decide_true in Hd by done; cbn [pbind negb] in Hd; by runs_inv. }
    split; [done|]. eapply runs_delivery in Hd as [_ H]; [by apply H|by eapply addressed_carries].
Qed.
