(* ===== verification/Session.v ===== *)
(** * Session: what one relay connection does over its whole life

    The handlers of [Inbound], [Outbound] and [Serve] composed: whatever the
    device sends, the bus delivers and the clock says, a connection stays well
    formed, writes to its own socket and speaks on the bus for its own device;
    and a held frame is sent. *)

From stdpp Require Import relations.
From S2P Require Import Prelude Text Errors Externals Signatures Attestation Revocation Challenge.
From S2P Require Import Wire Bus Tables Redis Scripts Usage Hub IO Pool Invariants Net Config.
From S2P Require Import Limits Presence Rendezvous Push Auth PairRoutes DeviceRoutes Bandwidth.
From S2P Require Import Connection Inbound Outbound Serve.

Local Open Scope Z_scope.

(** A frame forwarded for the device [d]. *)
Definition forward_of (d : Uuid) (m : BusMessage) : Prop :=
  (∃ text, m = ForwardText d text) ∨ (∃ frame, m = ForwardBinary d frame).

(** What the connection [id] of the device [d] may put on a channel: forwards in
    the device's name, control messages, and the notice that it replaces the
    device's other connections. *)
Definition speaks_for {UO : UuidOps} (d id : Uuid) (ch : string) (payload : bytes) : Prop :=
  ∃ m, payload = bus_encode m ∧
    (forward_of d m ∨ (∃ text, m = Control text) ∨ m = Replace id ∧ ch = device_channel d).

(** The commands of that connection. *)
Definition own_cmd {UO : UuidOps} (d id : Uuid) (X : Type) (c : cmd X) : Prop :=
  match c with
  | CPublish ch payload => speaks_for d id ch payload
  | CWrite i _ => i = id
  | CSql (QActivePeers d') | CSql (QRecentlyRevoked d') => d' = d
  | CSql _ => False
  | _ => True
  end.

(** A well-formed connection of [d]: its peers are those of its pairs, only they
    have a bucket, and a held frame is one of the device's own. *)
Definition session_ok (d id : Uuid) (c : Conn) : Prop :=
  cn_device c = d ∧ cn_id c = id ∧ conn_ok c ∧
  ∀ p, cn_pending c = Some p → forward_of d (pn_bus p).

Section Session.
Context {B64 : Base64} {UO : UuidOps} {J : Json} {RJ : RvJson} (d id : Uuid).

Abbreviation own := (own_cmd d id).
Abbreviation well := (session_ok d id).

Lemma session_with_peers l c : well c → well (with_peers l c).
Proof. intros (? & ? & _ & ?). split_and!; try done. apply conn_ok_with_peers. Qed.

Lemma session_with_bucket p b c : p ∈ cn_peers c → well c → well (with_bucket p b c).
Proof. intros Hp (? & ? & ? & ?). split_and!; try done. by apply conn_ok_with_bucket. Qed.

Lemma session_with_pending p c :
  (∀ q, p = Some q → forward_of d (pn_bus q)) → well c → well (with_pending p c).
Proof. intros Hp (? & ? & ? & ?). by split_and!. Qed.

Lemma session_new : well (new_conn d id).
Proof. split_and!; [done|done|apply conn_ok_new|done]. Qed.

(** *** Commands *)

Lemma own_send_text c t : well c → issues own (send_text c t).
Proof. intros (_ & <- & _). by split. Qed.

Lemma own_send_error c err to : well c → issues own (send_error c err to).
Proof. intros (_ & <- & _). apply send_error_issues. done. Qed.

Lemma own_control ch text : speaks_for d id ch (bus_encode (Control text)).
Proof. exists (Control text). split; [done|]. right; left. by exists text. Qed.

Lemma own_announce c b : issues own (announce c b).
Proof.
  apply issues_for_each. intros pp _. apply issues_bind; [|done]. split; [apply own_control|done].
Qed.

Lemma own_publish_forward c p : well c → forward_of d (pn_bus p) → issues own (publish_forward c p).
Proof.
  intros Hc Hp. unfold publish_forward. apply issues_bind.
  - split; [|done]. exists (pn_bus p). split; [done|by left].
  - intros [[|n|n]|]; try done; by apply own_send_error.
Qed.

Lemma own_reload c : well c → yields own (λ r, well r.2) (reload_peers c).
Proof.
  intros Hc. split; [by destruct Hc as (-> & _)|].
  intros [l|]; [by apply session_with_peers|done].
Qed.

Lemma own_is_peer p c :
  well c → yields own (λ r, well r.2 ∧ (r.1 = true → p ∈ cn_peers r.2)) (is_peer p c).
Proof.
  intros Hc. unfold is_peer. case_bool_decide as Hp; [by cbn; auto|].
  apply yields_after; [done|]. intros now.
  match goal with |- yields _ _ (if ?b then _ else _) => destruct b end; [by cbn|].
  eapply yields_bind; [by apply own_reload|].
  intros [b c1] Hc1. split; [done|]. cbn. intros [_ Hb]%andb_true_iff.
  by apply bool_decide_eq_true in Hb.
Qed.

(** *** Frames from the device *)

Lemma own_fail_with c err to : well c → yields own (λ r, well r.2) (fail_with c err to).
Proof. intros Hc. apply yields_after; [by apply own_send_error|done]. Qed.

Lemma own_keep p c : well c → issues own p → yields own (λ r, well r.2) (keep p c).
Proof. intros Hc Hp. by apply yields_after. Qed.

Lemma own_forward st to bus n c :
  well c → forward_of d bus → yields own (λ r, well r.2) (forward st to bus n c).
Proof.
  intros Hc Hb. unfold forward. eapply yields_bind; [by apply own_is_peer|].
  intros [known c1] [Hc1 Hin]. cbn [fst snd] in *.
  destruct known; cbn [negb]; [|by apply own_fail_with].
  apply yields_after; [done|]. intros now. destruct (bucket_take _ n now) as [wait bk].
  assert (well (with_bucket to bk c1)) as Hc2 by (apply session_with_bucket; auto).
  case_match.
  - apply yields_after; [by apply own_publish_forward|done].
  - apply session_with_pending; [|done]. by intros q [= <-].
Qed.

Lemma own_rv_join rv c : well c → issues own (rv_join rv c).
Proof.
  intros Hc. unfold rv_join. case_match; [|by apply own_send_error].
  apply issues_bind; [done|]. intros [[|newly ms]|]; try by apply own_send_error.
  apply issues_bind; [by apply own_send_text|]. intros [u|e]; [|done].
  apply issues_bind; [|done]. case_match; [|done]. apply issues_for_each. intros o _.
  apply issues_bind; [|done]. split; [apply own_control|done].
Qed.

Lemma own_rv_msg rv env c : well c → issues own (rv_msg rv env c).
Proof.
  intros Hc. unfold rv_msg. repeat (case_match; try by apply own_send_error).
  apply issues_bind; [done|]. intros [ms|]; [|by apply own_send_error].
  case_match; [by apply own_send_error|].
  destruct (list_find _ _) as [[k other]|]; [|by apply own_send_error]. apply issues_bind; [split; [apply own_control|done]|].
  intros [[|n|n]|]; try done; by apply own_send_error.
Qed.

Lemma own_handle_text st text c : well c → yields own (λ r, well r.2) (handle_text st text c).
Proof.
  intros Hc. pose proof Hc as (Hd & _). unfold handle_text.
  repeat (case_match; try by apply own_fail_with).
  - apply own_keep; [done|by apply own_rv_join].
  - apply own_keep; [done|by apply own_rv_msg].
  - apply own_forward; [done|]. rewrite Hd. left. by eexists.
Qed.

Lemma own_handle_binary st frame c : well c → yields own (λ r, well r.2) (handle_binary st frame c).
Proof.
  intros Hc. pose proof Hc as (Hd & _). unfold handle_binary.
  repeat (case_match; try by apply own_fail_with).
  apply own_forward; [done|]. rewrite Hd. right. by eexists.
Qed.

Lemma own_client_message st m c : well c → yields own (λ r, well r.2) (on_client_message st m c).
Proof.
  intros Hc. pose proof Hc as (_ & Hi & _). destruct m; cbn [on_client_message].
  - by apply own_handle_text.
  - by apply own_handle_binary.
  - by apply yields_after.
  - done.
  - done.
Qed.

(** *** Messages for the device *)

Lemma own_write c f : well c → issues own (perform (CWrite (cn_id c) f)).
Proof. intros (_ & <- & _). by split. Qed.

Lemma own_send_presence c l b : well c → issues own (send_presence c l b).
Proof. intros Hc. apply issues_try_each. intros x _. by apply own_send_text. Qed.

Lemma own_peer_presence l : issues own (peer_presence l).
Proof. unfold peer_presence, online. apply issues_bind; [|done]. by case_bool_decide. Qed.

Lemma own_delivery st dl c : well c → yields own (λ r, well r.2) (on_delivery st dl c).
Proof.
  intros Hc. destruct dl as [m|]; cbn [on_delivery].
  - destruct m.
    + eapply yields_bind; [by apply own_is_peer|]. intros [b c1] [Hc1 _]. cbn [fst snd] in *.
      destruct b; [|done]. apply yields_after; [by apply own_send_text|done].
    + eapply yields_bind; [by apply own_is_peer|]. intros [b c1] [Hc1 _]. cbn [fst snd] in *.
      destruct b; [|done]. apply yields_after; [|done].
      apply issues_bind; [by apply own_write|done].
    + apply yields_after; [by apply own_send_text|done].
    + eapply yields_bind; [by apply own_reload|]. intros [b c1] Hc1.
      apply yields_after; [by apply own_send_text|done].
    + eapply yields_bind with (G := λ r, well r.2); [|by intros [r c1]].
      unfold pairs_changed. eapply yields_bind; [by apply own_reload|]. intros [b c1] Hc1.
      destruct b; [|done]. apply yields_after; [apply own_peer_presence|]. intros on.
      apply yields_after; [by apply own_send_presence|done].
    + by case_bool_decide.
    + done.
  - unfold resync. apply yields_after; [done|]. intros [e|]; [done|].
    eapply yields_bind; [by apply own_reload|]. by intros [b c1].
Qed.

(** *** The event loop *)

Lemma own_timers st t s : well s.1 → yields own (λ r, well r.2.1) (timers st t s).
Proof.
  intros Hc. unfold timers. case_match.
  - apply yields_after; [done|]. intros now. case_match; [done|].
    apply yields_after; [by apply own_write|done].
  - case_match; [|done]. by apply yields_after.
Qed.

Lemma own_serve_turn st t s : well s.1 → yields own (λ r, well r.2.1) (serve_turn st t s).
Proof.
  destruct s as [c last]. intros Hc. unfold serve_turn. apply yields_after; [done|].
  intros [|]; [done|]. apply yields_after; [done|]. intros [dl| |]; [|done|].
  - eapply yields_bind; [by apply own_delivery|]. by intros [e c1].
  - destruct (cn_pending c) as [p|] eqn:Ep.
    + apply yields_after; [done|]. intros now. case_match; [|by apply own_timers].
      apply yields_after.
      * apply own_publish_forward; [done|]. by apply Hc.
      * intros e. by apply session_with_pending.
    + case_match; [|by apply own_timers]. apply yields_after; [done|]. intros now.
      case_match; [done|done|]. eapply yields_bind; [by apply own_client_message|]. by intros [e c1].
Qed.

Lemma own_serve_loop st turns s : well s.1 → yields own (λ r, well r.2.1) (serve_loop st turns s).
Proof.
  revert s. induction turns as [|t turns IH]; intros s Hc; cbn [serve_loop]; [done|].
  eapply yields_bind; [by apply own_serve_turn|]. intros [[e|] s1] Hs; [done|by apply IH].
Qed.

Lemma own_serve st turns c : well c → yields own (λ r, well r.2) (serve st turns c).
Proof.
  intros Hc. unfold serve. apply yields_after; [done|]. intros now.
  eapply yields_bind; [by apply own_serve_loop|]. by intros [e s].
Qed.

Lemma own_open st c : well c → yields own (λ r, well r.2) (open st c).
Proof.
  intros Hc. unfold open. apply yields_after; [done|]. intros [|]; [|done].
  apply yields_after; [done|]. intros [u|]; [|done].
  apply yields_after.
  { split; [|done]. destruct Hc as (-> & -> & _). exists (Replace id). split; [done|]. auto. }
  intros [n|]; [|done]. eapply yields_bind; [by apply own_reload|]. intros [b c1] Hc1.
  cbn [snd] in Hc1. destruct b; [|done]. apply yields_after; [apply own_peer_presence|]. intros on.
  apply yields_after; [by apply own_send_presence|]. intros [u1|e]; [|done].
  apply yields_after; [split; [by destruct Hc1 as (-> & _)|done]|]. intros rev.
  apply yields_after; [done|]. intros notices. apply yields_after.
  { apply issues_try_each. intros x _. by apply own_send_text. }
  intros [u2|e]; [|done]. by apply yields_after; [apply own_announce|].
Qed.

Lemma own_finish st c e : well c → issues own (finish st c e).
Proof.
  intros Hc. unfold finish. apply issues_bind; [done|]. intros cur. apply issues_bind.
  - destruct cur; [|done]. apply issues_bind; [done|]. intros _. apply issues_bind; [done|].
    intros [[|]|]; [|done..]. apply own_announce.
  - intros _. destruct e; [done|..]; (apply issues_bind; [by apply own_write|done]).
Qed.

(** The whole life of the connection [id]. *)
Lemma own_conn st turns : issues own (conn_as st d id turns).
Proof.
  unfold conn_as. apply issues_bind; [done|]. intros prev.
  apply issues_bind; [by destruct prev|]. intros _. eapply yields_issues with (G := λ _, True).
  eapply yields_bind; [by apply own_open, session_new|]. intros [r c] Hc. cbn [snd] in Hc.
  eapply yields_bind with (G := λ r, well r.2).
  { destruct r as [u|code]; [by apply own_serve|done]. }
  intros [e c1] Hc1. apply issues_yields. destruct e as [e|]; [|done].
  apply issues_bind; [by apply own_finish|done].
Qed.
End Session.

(** ** Runs *)

Section SessionRuns.
Context {B64 : Base64} {UO : UuidOps} {J : Json} {RJ : RvJson} {P : Postgres} {R : RedisServer}.

(** What one connection adds to the world. *)
Definition adds_own (d id : Uuid) (w w' : World) : Prop :=
  ∃ sent frames, w_published w' = w_published w ++ sent ∧
    Forall (λ m : string * bytes, speaks_for d id m.1 m.2) sent ∧
    w_written w' = w_written w ++ map (λ f, (id, f)) frames ∧ w_db w' = w_db w.

Lemma adds_own_refl d id w : adds_own d id w w.
Proof. exists [], []. cbn. by rewrite !app_nil_r. Qed.

Lemma adds_own_trans d id w1 w2 w3 : adds_own d id w1 w2 → adds_own d id w2 w3 → adds_own d id w1 w3.
Proof.
  intros (s1 & f1 & Hp1 & Hs1 & Hf1 & Hd1) (s2 & f2 & Hp2 & Hs2 & Hf2 & Hd2).
  exists (s1 ++ s2), (f1 ++ f2). rewrite Hp2, Hp1, Hf2, Hf1, map_app, !app_assoc.
  split_and!; [done|by apply Forall_app|done|congruence].
Qed.

Lemma exec_own d id {X} i (c : cmd X) w : own_cmd d id X c → adds_own d id w (exec i c w).2.
Proof.
  intros Hc.
  assert (∀ w', w_published w' = w_published w → w_written w' = w_written w → w_db w' = w_db w →
    adds_own d id w w') as Hsame.
  { intros w' Hp Hw Hd. exists [], []. cbn. by rewrite !app_nil_r. }
  unfold exec. destruct c; cbn [exec_now own_cmd] in *; try by apply Hsame.
  - assert (∀ w0, (exec_sql q w0 (w_db w)).2 = w_db w) as Hq by (destruct q; try done; by intros w0).
    unfold faulty. destruct (i_fault i); cbn.
    + specialize (Hq (w_pgnow w + Z.of_N (i_pg_elapsed i))).
      destruct (exec_sql q _ _) as [o db]. by apply Hsame.
    + by apply Hsame.
    + apply Hsame; [done|done|apply Hq].
  - unfold faulty. destruct (i_fault i); cbn; [|by apply Hsame..].
    by destruct (exec_redis q _ _); apply Hsame.
  - assert (adds_own d id w (with_published channel payload (elapse i w))) as Hpub.
    { exists [(channel, payload)], []. cbn. rewrite app_nil_r. split_and!; try done. by constructor. }
    unfold faulty. destruct (i_fault i); [exact Hpub|by apply Hsame|exact Hpub].
  - by destruct (f _); apply Hsame.
  - by destruct (f _); apply Hsame.
  - subst. destruct (i_write i); [|by apply Hsame..]. exists [], [frame]. cbn. by rewrite app_nil_r.
Qed.

Lemma runs_own d id {A} (p : prog A) w a w' :
  issues (own_cmd d id) p → runs p w a w' → adds_own d id w w'.
Proof.
  intros Hp Hr.
  eapply (runs_invariant (adds_own d id w)); [|exact Hp|exact Hr|apply adds_own_refl].
  intros X c i w1 Hc Hw. eapply adds_own_trans; [exact Hw|by apply exec_own].
Qed.
(** *** The bus and the hub *)

(** What is published stays published. *)
Lemma runs_published {A} (p : prog A) w a w' : runs p w a w' → ∃ l, published_since w w' l.
Proof.
  intros Hr. eapply (runs_invariant (λ w1, ∃ l, published_since w w1 l) (λ _ _, True)).
  4: { exists []. unfold published_since. by rewrite app_nil_r. }
  3: exact Hr.
  2: { clear. induction p; simpl; [done|]. by split. }
  unfold published_since. intros X c i w1 _ [l Hl]. unfold exec.
  destruct c; cbn [exec_now]; unfold faulty; repeat case_match; simplify_eq/=; try by exists l.
  - eexists. by rewrite Hl, <-app_assoc.
  - eexists. by rewrite Hl, <-app_assoc.
Qed.

Lemma delivery_no_hub st dl c : issues no_hub (on_delivery st dl c).
Proof.
  assert (∀ p c, issues no_hub (is_peer p c)) as Hpeer by (intros; by apply is_peer_issues).
  destruct dl as [m|]; cbn [on_delivery].
  - destruct m; try (by case_bool_decide); try done.
    + apply issues_bind; [done|]. by intros [[] c1].
    + apply issues_bind; [done|]. by intros [[] c1].
    + apply issues_bind; [by split; [|intros []]|]. by intros [b c1].
    + apply issues_bind; [|by intros []]. unfold pairs_changed.
      apply issues_bind; [by split; [|intros []]|]. intros [[] c1]; [|done].
      apply issues_bind; [unfold peer_presence, online; apply issues_bind; [by case_bool_decide|done]|].
      intros on. apply issues_bind; [|done]. by apply issues_try_each.
  - unfold resync. apply issues_bind; [done|]. intros [e|]; [done|].
    apply issues_bind; [by split; [|intros []]|]. by intros [].
Qed.

(** *** What waits for a connection *)

(** The deliveries that wait for the connection [id]. *)
Definition backlog (id : Uuid) (h : HubState) : nat :=
  match chans h !! id with Some c => length (ch_queue c) | None => O end.

(** An operation that may queue one more for the connection [id] of the device [d]. *)
Definition enqueues (d id : Uuid) (op : HubOp) : bool :=
  match op with
  | OpDispatch d' _ => bool_decide (d' = d)
  | OpReplace id' _ => bool_decide (id' = id)
  | OpResync => true
  | _ => false
  end.

(** How many arrive in the course of some inputs. *)
Definition arrivals_op (d id : Uuid) (ops : list HubOp) : nat :=
  length (filter (λ op, enqueues d id op = true) ops).
Definition arrivals (d id : Uuid) (ins : list Input) : nat :=
  arrivals_op d id (concat (map i_hub ins)).

(** A connection id belongs to one device. *)
Definition sole (d id : Uuid) (h : HubState) : Prop := ∀ d', registry h !! d' = Some id → d' = d.
Definition no_register (id : Uuid) (op : HubOp) : Prop := ∀ d', op ≠ OpRegister d' id.

(** Nothing is lost and no other connection takes the id. *)
Definition fair (id : Uuid) (i : Input) : Prop := no_fault i ∧ Forall (no_register id) (i_hub i).

Lemma backlog_alter id id' f h :
  (∀ c, (length (ch_queue (f c)) <= S (length (ch_queue c)))%nat) →
  (backlog id (set_chans (alter f id') h) <= backlog id h + if bool_decide (id' = id) then 1 else 0)%nat.
Proof.
  intros Hf. unfold backlog. cbn [chans set_chans]. case_bool_decide as E.
  - subst. rewrite lookup_alter_eq. destruct (chans h !! id) as [c|]; cbn; [|lia].
    specialize (Hf c). lia.
  - rewrite lookup_alter_ne by done. lia.
Qed.

Lemma chan_send_length dl c : (length (ch_queue (default c (chan_send dl c))) <= S (length (ch_queue c)))%nat.
Proof. unfold chan_send. destruct (ch_open c); cbn; [rewrite length_app; cbn|]; lia. Qed.

Lemma backlog_resync d id h :
  sole d id h → (backlog id (broadcast_resync h) <= S (backlog id h))%nat.
Proof.
  intros Hs. unfold broadcast_resync.
  enough (∀ m : gmap Uuid Uuid, (∀ d', m !! d' = Some id → d' = d) →
    let n := backlog id (map_fold (λ _ c h', send_ignore c DResync h') h m) in
    (m !! d ≠ Some id → (n <= backlog id h)%nat) ∧ (n <= S (backlog id h))%nat) as H by by apply H.
  intros m. cbv zeta. apply (map_fold_weak_ind (λ h' m, (∀ d', m !! d' = Some id → d' = d) →
    (m !! d ≠ Some id → (backlog id h' <= backlog id h)%nat) ∧
    (backlog id h' <= S (backlog id h))%nat)); [lia|].
  intros d1 c m' h' Hn IH Hm. destruct IH as [IH1 IH2].
  { intros d' Hd'. apply Hm. rewrite lookup_insert_ne; [done|congruence]. }
  pose proof (backlog_alter id c (λ c, default c (chan_send DResync c)) h' (chan_send_length _)) as Hb.
  unfold send_ignore. case_bool_decide as Hc; [subst c|].
  - assert (d1 = d) as -> by (apply Hm; by rewrite lookup_insert_eq). rewrite lookup_insert_eq.
    split; [done|]. assert (m' !! d ≠ Some id) as Hne by congruence. specialize (IH1 Hne). lia.
  - split; [|lia]. destruct (decide (d1 = d)) as [->|Hd].
    + intros _. assert (m' !! d ≠ Some id) as Hne by congruence. specialize (IH1 Hne). lia.
    + rewrite lookup_insert_ne by done. intros Hne. specialize (IH1 Hne). lia.
Qed.

Lemma backlog_apply max d id h op :
  sole d id h → no_register id op →
  sole d id (hub_apply max h op) ∧
  (backlog id (hub_apply max h op) <= backlog id h + if enqueues d id op then 1 else 0)%nat.
Proof.
  intros Hs Hn. destruct op as [d' c|c c'|d' c|d' m| |d' c|c|r|]; cbn [hub_apply enqueues].
  - assert (c ≠ id) by (intros ->; by apply (Hn d')). split.
    + intros d1. cbn. rewrite lookup_insert_Some. intros [[_ ?]|[_ ?]]; [done|by apply Hs].
    + unfold backlog. cbn. rewrite lookup_insert_ne by done. lia.
  - split; [exact Hs|]. apply backlog_alter, chan_send_length.
  - unfold unregister. case_bool_decide; cbn [snd]; (split; [|unfold backlog; cbn; lia]); [|done].
    intros d1. cbn. rewrite lookup_delete_Some. intros [_ ?]. by apply Hs.
  - unfold dispatch. destruct (registry h !! d') as [c|] eqn:E; [|split; [done|lia]].
    split; [exact Hs|]. etrans; [apply backlog_alter|].
    + intros ch. cbv zeta. destruct (_ >? max); [cbn; lia|].
      pose proof (chan_send_length (DBus m) (mkChan (ch_queue ch)
        (usize_wrap (ch_queued ch + queued_len m)) (ch_kill ch) (ch_open ch))) as H.
      unfold chan_send in *. cbn [ch_open] in *. destruct (ch_open ch); cbn in *; lia.
    + case_bool_decide as Hc; [subst c|lia]. apply Hs in E as ->. rewrite bool_decide_true by done. lia.
  - split; [by unfold sole; rewrite registry_resync|]. pose proof (backlog_resync d id h Hs). lia.
  - unfold chan_recv. destruct (chans h !! c) as [[[|x q] n k o]|] eqn:E; cbn [snd];
      (split; [exact Hs|]); try lia. unfold backlog. cbn [chans set_chans].
    destruct (decide (c = id)) as [->|]; [rewrite lookup_insert_eq, E; cbn; lia|].
    rewrite lookup_insert_ne by done. lia.
  - split; [exact Hs|]. unfold chan_close, backlog. cbn [chans set_chans].
    destruct (decide (c = id)) as [->|]; [rewrite lookup_alter_eq|rewrite lookup_alter_ne by done; lia].
    destruct (chans h !! id); cbn; lia.
  - split; [exact Hs|]. unfold backlog. cbn. lia.
  - split; [exact Hs|]. unfold backlog. cbn. lia.
Qed.

Lemma backlog_run max d id h ops :
  sole d id h → Forall (no_register id) ops →
  sole d id (hub_run max ops h) ∧
  (backlog id (hub_run max ops h) <= backlog id h + arrivals_op d id ops)%nat.
Proof.
  intros Hs Hn. unfold hub_run, arrivals_op. revert h Hs. induction Hn as [|op ops Hop _ IH]; intros h Hs.
  { cbn. split; [done|lia]. }
  destruct (backlog_apply max d id h op Hs Hop) as [Hs' Hb]. destruct (IH _ Hs') as [Hs'' Hb'].
  cbn [foldl]. split; [done|]. rewrite filter_cons. case_decide; destruct (enqueues d id op); cbn [length]; done || lia.
Qed.

Lemma arrivals_app d id a b : arrivals d id (a ++ b) = (arrivals d id a + arrivals d id b)%nat.
Proof.
  unfold arrivals, arrivals_op. by rewrite map_app, concat_app, filter_app, length_app.
Qed.

Lemma arrivals_cons d id i ins :
  arrivals d id (i :: ins) = (arrivals_op d id (i_hub i) + arrivals d id ins)%nat.
Proof. unfold arrivals, arrivals_op. cbn. by rewrite filter_app, length_app. Qed.

(** A program that leaves the hub alone: only what arrives meanwhile is added. *)
Lemma backlog_runs d id {A} (p : prog A) ins w a w' :
  issues no_hub p → runs_with p ins w a w' → Forall (fair id) ins → sole d id (w_hub w) →
  sole d id (w_hub w') ∧ (backlog id (w_hub w') <= backlog id (w_hub w) + arrivals d id ins)%nat.
Proof.
  revert ins w. induction p as [b|X c k IH]; intros ins w; cbn [issues runs_with].
  - intros _ (-> & _ & <-) _ Hs. split; [done|lia].
  - intros [Hc Hk] (i & ins' & x & w1 & -> & E & Hr) [[_ Hi] Hins]%Forall_cons Hs.
    pose proof (exec_hub i c w Hc) as [Hh _]. rewrite E in Hh. cbn [snd] in Hh.
    destruct (backlog_run (w_max_queued w) d id (w_hub w) (i_hub i) Hs Hi) as [Hs' Hb].
    change (hub_run _ _ _) with (w_hub (elapse i w)) in Hs', Hb. rewrite <-Hh in Hs', Hb.
    destruct (IH _ _ _ (Hk x) Hr Hins Hs') as [Hs'' Hb'].
    split; [done|]. rewrite arrivals_cons. lia.
Qed.

(** An operation of the connection itself, after what arrived before it. *)
Lemma backlog_hub d id {A} (f : HubState → A * HubState) ins w a w' :
  runs_with (perform (CHub f)) ins w a w' → Forall (fair id) ins → sole d id (w_hub w) →
  ∃ h, sole d id h ∧ (backlog id h <= backlog id (w_hub w) + arrivals d id ins)%nat ∧
    a = (f h).1 ∧ w_hub w' = (f h).2 ∧ w_instant w <= w_instant w' ∧ w_published w' = w_published w.
Proof.
  intros (i & ins' & x & w1 & -> & E & -> & -> & ->) [[_ Hi] _]%Forall_cons Hs.
  exists (w_hub (elapse i w)). destruct (backlog_run (w_max_queued w) d id (w_hub w) (i_hub i) Hs Hi).
  unfold exec in E. cbn [exec_now] in E. rewrite arrivals_cons.
  destruct (f (w_hub (elapse i w))) as [y h]. injection E as <- <-.
  split_and!; cbn; try done; lia.
Qed.

(** The frame is on its channel. *)
Definition sends (p : Pending) (w w' : World) : Prop :=
  ∃ l, published_since w w' l ∧ (device_channel (pn_to p), bus_encode (pn_bus p)) ∈ l.

(** No delivery is ready: the overdue frame is next. *)
Lemma sends_overdue {A} c p (k : option ConnEnd → prog A) (other : prog A) ins w w0 r w' :
  pn_deadline p <= w_instant w → w_published w = w_published w0 → Forall no_fault ins →
  runs_with (let! now := perform CInstant in
             if pn_deadline p <=? now then let! e := publish_forward c p in k e else other)
    ins w r w' → sends p w0 w'.
Proof.
  intros Hdl Hpub Hf Hr.
  apply runs_with_in, (runs_in_mono _ no_fault) in Hr; [|by rewrite Forall_forall in Hf].
  apply runs_in_bind in Hr as (now & w1 & H1%runs_in_runs & Hr).
  apply runs_no_publish in H1 as Hp1; [|done].
  apply (proj1 (runs_perform _ _ _ _)) in H1 as [i H1]. unfold exec in H1. cbn [exec_now] in H1.
  injection H1 as <- <-. cbn [w_instant elapse] in Hr.
  destruct (Z.leb_spec (pn_deadline p) (w_instant w + Z.of_N (i_elapsed i))); [|lia].
  apply runs_in_bind in Hr as (e1 & w2 & H2 & Hr). unfold publish_forward in H2.
  apply runs_in_runs, runs_published in Hr as [l' Hl'].
  apply runs_in_bind in H2 as (m & w3 & H3 & H2). apply runs_in_publish in H3 as [_ Hpub3].
  apply runs_in_runs, runs_published in H2 as [l Hl]. unfold sends, published_since in *.
  eexists (_ :: l ++ l'). split; [|by left]. by rewrite Hl', Hl, Hpub3, Hp1, Hpub, <-!app_assoc.
Qed.

(** One turn of a connection that goes on hands the overdue frame to the bus, or takes
    one of the deliveries that wait. *)
Lemma runs_with_turn st t c last p ins w e c' last' w' :
  cn_pending c = Some p → pn_deadline p <= w_instant w →
  Forall (fair (cn_id c)) ins → sole (cn_device c) (cn_id c) (w_hub w) →
  runs_with (serve_turn st t (c, last)) ins w (e, (c', last')) w' →
  e ≠ None ∨ sends p w w' ∨
  cn_pending c' = Some p ∧ same_conn c c' ∧ sole (cn_device c) (cn_id c) (w_hub w') ∧
    (S (backlog (cn_id c) (w_hub w')) <=
     backlog (cn_id c) (w_hub w) + arrivals (cn_device c) (cn_id c) ins)%nat.
Proof.
  intros Hp Hdl Hf Hs Hr. unfold serve_turn in Hr.
  apply runs_with_bind in Hr as (ins1 & ins2 & k & w1 & -> & H1 & Hr).
  apply Forall_app in Hf as [Hf1 Hf2].
  apply (backlog_hub (cn_device c) (cn_id c)) in H1 as (h1 & Hs1 & Hb1 & -> & Hh1 & Ht1 & Hp1); [|done..].
  destruct (take_kill (cn_id c) h1).1 eqn:Ek; [left; by destruct Hr as (_ & [= <- _ _] & _)|].
  assert (w_hub w1 = h1) as Hh1'.
  { rewrite Hh1. unfold take_kill in *. destruct (chans h1 !! cn_id c) as [[q n [] o]|]; done. }
  rewrite <-Hh1' in Hs1, Hb1. clear Hh1 Hh1' Ek h1.
  apply runs_with_bind in Hr as (ins3 & ins4 & r & w2 & -> & H2 & Hr).
  apply Forall_app in Hf2 as [Hf3 Hf4].
  apply (backlog_hub (cn_device c) (cn_id c)) in H2 as (h2 & Hs2 & Hb2 & -> & Hh2 & Ht2 & Hp2); [|done..].
  rewrite !arrivals_app. unfold chan_recv in *.
  destruct (chans h2 !! cn_id c) as [[[|d q] n k o]|] eqn:Ec; cbn [fst snd] in *.
  2: { apply runs_with_bind in Hr as (ins5 & ins6 & [e1 c1] & w3 & -> & H3 & (-> & [= _ <- _] & <-)).
    apply Forall_app in Hf4 as [Hf5 _]. right; right.
    pose proof (delivery_keeps _ _ _ _ _ _ _ (runs_in_runs _ _ _ _ _ (runs_with_in _ _ _ _ _ H3))) as (Hsame & Hk & _).
    split; [by rewrite Hk|]. split; [done|].
    apply (backlog_runs (cn_device c) (cn_id c)) in H3 as [Hs3 Hb3]; [|apply delivery_no_hub|done|].
    - split; [done|]. rewrite app_nil_r. rewrite Hh2 in Hb3. unfold backlog in Hb2, Hb3 |- *.
      cbn [chans set_chans] in Hb3. rewrite lookup_insert_eq in Hb3. rewrite Ec in Hb2.
      unfold backlog in Hb1. cbn [length ch_queue] in *. lia.
    - by rewrite Hh2. }
  all: case_bool_decide; [|left; by destruct Hr as (_ & [= <- _ _] & _)].
  all: right; left; rewrite Hp in Hr; eapply (sends_overdue c p); [| | |exact Hr];
    [lia|congruence|].
  all: eapply Forall_impl; [exact Hf4|by intros i []].
Qed.
End SessionRuns.

(** ** Properties *)

(** C12. One connection speaks for its own device only: [run] draws the connection's id
    and serves that connection ([conn_as]), and over its whole life, from the handshake
    to the end, for any frames and clocks and whatever the other tasks queue for it
    meanwhile, everything it puts on the bus is a forward in its device's name, a
    control message or the notice that this very connection replaces the older ones;
    it writes only to its own socket and leaves the database alone. *)
Theorem connection_speaks_for_itself {B64 : Base64} {UO : UuidOps} {J : Json} {RJ : RvJson}
    {P : Postgres} {R : RedisServer} (K : Input → Prop) (st : AppState) (device : Uuid)
    (turns : list Turn) (w w' : World) (ended : bool) :
  runs_in K (run_conn st device turns) w ended w' →
  ∃ i, K i ∧ runs_in K (conn_as st device (i_uuid i) turns) (elapse i w) ended w' ∧
       adds_own device (i_uuid i) w w'.
Proof.
  unfold run_conn. intros Hr. apply runs_in_bind in Hr as (id & w1 & H1 & Hr).
  apply runs_in_perform in H1 as (i & Hi & H1). exists i. split; [done|].
  unfold exec in H1. cbn [exec_now] in H1. injection H1 as <- <-. split; [done|].
  apply runs_in_runs in Hr. apply (runs_own device (i_uuid i)) in Hr; [exact Hr|].
  apply own_conn.
Qed.

(** C22. A connection stays well formed through the event loop: it keeps its device
    and its id, its peers are those of its pairs, only they have a bandwidth
    bucket, and a frame it holds back is one of its own device. *)
Theorem session_well_formed {B64 : Base64} {UO : UuidOps} {J : Json} {RJ : RvJson}
    {P : Postgres} {R : RedisServer} (st : AppState) (d id : Uuid) (turns : list Turn) (c c' : Conn)
    (w w' : World) (e : option ConnEnd) :
  session_ok d id c → runs (serve st turns c) w (e, c') w' → session_ok d id c'.
Proof.
  intros Hc Hr. eapply (yields_runs (own_cmd d id) (λ r, session_ok d id r.2)) in Hr; [done|].
  by apply own_serve.
Qed.

(** C21. A held frame is sent: once the bandwidth limit's wait is over, and as long as no
    request is lost and no other connection takes its id (ids are random), a connection
    that goes on hands the frame to the bus in the end.
    Deliveries for the device come first, so the bound counts them: the turns it takes
    are at most one more than the deliveries already queued for the connection and
    those that arrive in the course of these turns ([arrivals], from what the bus task
    and the other tasks do to the hub before each command). *)
Theorem held_frame_sent {B64 : Base64} {UO : UuidOps} {J : Json} {RJ : RvJson}
    {P : Postgres} {R : RedisServer} (st : AppState) (turns : list Turn) (c c' : Conn)
    (last last' : Z) (p : Pending) (ins : list Input) (w w' : World) (e : option ConnEnd) :
  cn_pending c = Some p → pn_deadline p <= w_instant w →
  Forall (fair (cn_id c)) ins → sole (cn_device c) (cn_id c) (w_hub w) →
  (backlog (cn_id c) (w_hub w) + arrivals (cn_device c) (cn_id c) ins < length turns)%nat →
  runs_with (serve_loop st turns (c, last)) ins w (e, (c', last')) w' →
  e ≠ None ∨
  ∃ l, published_since w w' l ∧ (device_channel (pn_to p), bus_encode (pn_bus p)) ∈ l.
Proof.
  revert c last ins w. induction turns as [|t turns IH]; intros c last ins w Hp Hdl Hf Hs Hlen Hr;
    cbn [length] in Hlen; [lia|]. cbn [serve_loop] in Hr.
  apply runs_with_bind in Hr as (ins1 & ins2 & [e1 [c1 last1]] & w1 & -> & H1 & Hr).
  apply Forall_app in Hf as [Hf1 Hf2]. rewrite arrivals_app in Hlen.
  pose proof (runs_in_runs _ _ _ _ _ (runs_with_in _ _ _ _ _ H1)) as H1'.
  pose proof (runs_in_runs _ _ _ _ _ (runs_with_in _ _ _ _ _ Hr)) as Hr'.
  pose proof (runs_instant _ _ _ _ H1') as Hi.
  destruct (runs_published _ _ _ _ H1') as [l1 Hl1], (runs_published _ _ _ _ Hr') as [l2 Hl2].
  unfold published_since in *.
  destruct (runs_with_turn _ _ _ _ _ _ _ _ _ _ _ Hp Hdl Hf1 Hs H1)
    as [He|[(l & Hl & Hin)|(Hp1 & [Hd Hi1] & Hs1 & Hb)]].
  - left. destruct e1 as [e1|]; [|done]. by destruct Hr as (_ & [= <- _ _] & _).
  - right. unfold published_since in Hl. exists (l ++ l2).
    rewrite Hl2, Hl, app_assoc. split; [done|]. set_solver.
  - destruct e1 as [e1|]; [left; by destruct Hr as (_ & [= <- _ _] & _)|].
    rewrite <-Hi1 in Hf2, Hs1, Hb, Hlen. rewrite <-Hd in Hs1, Hb, Hlen.
    apply IH in Hr as [He|(l & Hl & Hin)]; [by left| |done|lia|done|done|lia].
    right. exists (l1 ++ l). rewrite Hl, Hl1, app_assoc. split; [done|]. set_solver.
Qed.
