(* ===== verification/Maintenance.v ===== *)
(** * Maintenance: the background jobs ([maintenance.rs], [usage.rs],
    [store/usage.rs])

    Every minute an instance writes its counters under the month's salt; once a
    day one instance deletes expired statistics and inactive devices. *)

From stdpp Require Import relations.
From S2P Require Import Prelude Text Errors Externals Signatures Attestation Revocation Challenge.
From S2P Require Import Wire Bus Tables Redis Scripts Usage Hub IO Pool Invariants Net Config.
From S2P Require Import Limits Presence Push Auth PairRoutes DeviceRoutes.

Local Open Scope Z_scope.

(** [usage.rs:22-22 SALT_TTL_SECS] *)
Definition SALT_TTL_SECS : Z := 40 * 24 * 3600.
(** [maintenance.rs:15-16 CLEANUP_CHECK] *)
Definition CLEANUP_CHECK : Z := secs 3600.
(** [maintenance.rs:17-18 CLEANUP_LOCK_TTL_SECS] *)
Definition CLEANUP_LOCK_TTL_SECS : Z := 25 * 3600.

(** [maintenance.rs:20-24 cleanup_lock_key] *)
Definition cleanup_lock_key (now_ms : Z) : string := "maintenance:" +:+ display_Z (now_ms / 86400000).

(** [store/usage.rs:36-50 delete_expired] *)
Definition delete_expired : prog (option (Z * Z)) :=
  let! usage := perform (CSql QDeleteUsage) in
  match usage with
  | None => Ret None
  | Some usage =>
    let! devices := perform (CSql QDeleteInactive) in
    Ret (option_map (λ d, (usage, d)) devices)
  end.

(** [maintenance.rs:26-31 run_cleanup] *)
Definition run_cleanup : prog (option (Z * Z)) := delete_expired.

(** [maintenance.rs:51-73 spawn, part]: one turn of the cleanup job; the key of the
    lock when this instance took it. *)
Definition cleanup_turn (st : AppState) : prog (option string) :=
  let! now := now_ms in
  let key := cleanup_lock_key now in
  let! lock := perform (CRedis (RSetNx key (instance_id (st_settings st)) CLEANUP_LOCK_TTL_SECS)) in
  match lock with
  | Some true => let! _ := run_cleanup in Ret (Some key)
  | Some false => Ret None
  | None => Ret None
  end.

(** [maintenance.rs:51-73 spawn, part]: the cleanup task, a turn at every tick of
    its interval. *)
Fixpoint cleaner (st : AppState) (ticks : nat) : prog unit :=
  match ticks with
  | O => Ret tt
  | S ticks' => let! _ := cleanup_turn st in cleaner st ticks'
  end.

Section Flush.
Context {C : Crypto}.

(** [usage.rs:101-125 monthly_salt]: one round trip for both commands. *)
Definition monthly_salt : prog (option bytes) :=
  let! now := now_ms in
  let key := salt_key now in
  let! fresh := perform (CRandom 32) in
  match fresh with
  | None => Ret None
  | Some fresh =>
    let! set := perform (CRedis (RSetNx key (str_of (arr_bytes fresh)) SALT_TTL_SECS)) in
    match set with
    | None => Ret None
    | Some _ =>
      let! salt := perform (CRedis (RGet key)) in
      Ret (s ← salt; option_map str_bytes s)
    end
  end.

(** [usage.rs:127-155 flush]: the number of devices written, [None] on a failure. *)
Definition flush : prog (option Z) :=
  let! tallies := perform (CUsage take_usage) in
  if bool_decide (tallies = ∅) then Ret (Some 0)
  else
    let! salt := monthly_salt in
    match salt with
    | None => let! _ := perform (CUsage (λ u, (tt, restore tallies u))) in Ret None
    | Some salt =>
      let rows := usage_rows tallies salt in
      let! added := perform (CSql (QAddBatch rows)) in
      match added with
      | None => let! _ := perform (CUsage (λ u, (tt, restore tallies u))) in Ret None
      | Some _ => Ret (Some (Z.of_nat (length rows)))
      end
    end.

(** [maintenance.rs:34-50 spawn, part]: the flush task, a flush at every tick of
    its interval but the first; a failed flush is logged only. *)
Fixpoint flusher (ticks : nat) : prog unit :=
  match ticks with
  | O => Ret tt
  | S ticks' => let! _ := flush in flusher ticks'
  end.
End Flush.

(** ** Lemmas *)

Section FlushRuns.
Context {C : Crypto} {P : Postgres} {R : RedisServer}.

(** A command that touches neither the counters nor the database. *)
Definition no_count (X : Type) (c : cmd X) : Prop :=
  match c with CUsage _ | CSql _ => False | _ => True end.

Lemma runs_no_count {A} (p : prog A) w a w' :
  issues no_count p → runs p w a w' → w_usage w' = w_usage w ∧ w_db w' = w_db w.
Proof.
  intros Hp Hr.
  eapply (runs_invariant (λ w1, w_usage w1 = w_usage w ∧ w_db w1 = w_db w)); [|done|exact Hr|done].
  intros X c i w1 Hc Hw1. unfold exec. destruct c; simpl in *; try done; unfold faulty;
    repeat (case_match; simplify_eq; try done).
Qed.

Lemma monthly_salt_no_count : issues no_count monthly_salt.
Proof.
  unfold monthly_salt. apply issues_bind; [done|]. intros now. apply issues_bind; [done|].
  intros [f|]; [|done]. apply issues_bind; [done|]. by intros [b|].
Qed.

Lemma runs_usage {A} (f : Usage → A * Usage) w a w' :
  runs (perform (CUsage f)) w a w' →
  a = (f (w_usage w)).1 ∧ w_usage w' = (f (w_usage w)).2 ∧ w_db w' = w_db w.
Proof.
  intros H. apply (proj1 (runs_perform _ _ _ _)) in H as [i H]. unfold exec in H. simpl in H.
  destruct (f (w_usage w)) as [x u]. by injection H as <- <-.
Qed.

(** A batch that is written, or not, whatever the relay learns of it. *)
Lemma runs_in_add_batch K rows w o w' :
  runs_in K (perform (CSql (QAddBatch rows))) w o w' →
  w_usage w' = w_usage w ∧ w_redis w' = w_redis w ∧ w_rnow w <= w_rnow w' ∧ w_pgnow w <= w_pgnow w' ∧
  let done := add_batch (w_pgnow w') rows (w_db w) = (Some tt, w_db w') in
  match o with
  | Some _ => done
  | None => w_db w' = w_db w ∨ done ∧ ∃ i, K i ∧ i_fault i = LostReply
  end.
Proof.
  intros (i & Hi & H)%runs_in_perform. unfold exec in H. cbn [exec_now] in H. unfold faulty in H.
  cbn [exec_sql w_pgnow w_db elapse] in H. set (t := w_pgnow w + _) in H.
  assert (∀ x db, add_batch t rows (w_db w) = (x, db) → x = None ∧ db = w_db w ∨ x = Some tt) as Hcases.
  { intros x db. unfold add_batch. destruct rows; [intros [= <- <-]; by right|].
    destruct (_ && _); intros [= <- <-]; auto. }
  destruct (add_batch t rows (w_db w)) as [x db] eqn:E.
  destruct (i_fault i) eqn:Ef; cbn [snd] in H; injection H as <- <-;
    cbn [w_usage w_redis w_rnow w_pgnow w_db with_db elapse]; fold t;
    (do 2 (split; [done|])); (split; [lia|]); (split; [unfold t; lia|]); cbv zeta.
  - destruct (Hcases _ _ eq_refl) as [[-> ->]| ->]; [by left|exact E].
  - by left.
  - destruct (Hcases _ _ eq_refl) as [[-> ->]| ->]; [by left|]. right. split; [exact E|by exists i].
Qed.

Lemma tally_add_zero t : tally_ok t → tally_add zero_tally t = t.
Proof.
  intros (He & Hb & Hp). destruct t as [e b p]. unfold tally_add, zero_tally in *. cbn in *.
  rewrite !i64_wrap_id by done. f_equal. unfold i32_wrap. rewrite Z.mod_small by lia. lia.
Qed.

Lemma restore_empty u : map_Forall (λ _, tally_ok) u → restore u ∅ = u.
Proof.
  intros Hu. apply map_eq. intros id. rewrite lookup_restore, lookup_empty.
  destruct (u !! id) as [t|] eqn:E; [|done]. cbn. f_equal. apply tally_add_zero. by apply (Hu id).
Qed.

(** The counters are put back. *)
Lemma runs_in_put_back K u0 w r w' :
  map_Forall (λ _, tally_ok) u0 → w_usage w = ∅ →
  runs_in K (let! _ := perform (CUsage (λ u, (tt, restore u0 u))) in Ret None) w r w' →
  r = (None : option Z) ∧ w_usage w' = u0 ∧ w_db w' = w_db w ∧ w_redis w' = w_redis w ∧
  w_rnow w <= w_rnow w' ∧ w_pgnow w <= w_pgnow w'.
Proof.
  intros Hok Hu Hr%runs_in_runs. pose proof Hr as Hs%runs_no_redis; [|done].
  pose proof (runs_rnow _ _ _ _ Hr). pose proof (runs_pgnow _ _ _ _ Hr).
  apply runs_bind in Hr as (u & w4 & H4 & [<- <-]).
  apply runs_usage in H4 as (_ & Hu4 & Hd4). cbn [snd] in Hu4. by rewrite Hu, restore_empty in Hu4.
Qed.

(** *** The month's salt *)

(** The salt of a month: what its key in Redis held before, or, where it held nothing,
    32 fresh random bytes that the key holds now. *)
Definition month_salt (K : Input → Prop) (w w' : World) (salt : bytes) : Prop :=
  ∃ now t s, seen K now ∧ (w_rnow w <= t <= w_rnow w') ∧ salt = str_bytes s ∧
    r_val (w_redis w') t (salt_key now) = Some (RStr s) ∧
    match r_val (w_redis w) t (salt_key now) with
    | Some v => v = RStr s
    | None => ∃ i (fresh : arr 32), K i ∧ i_random i = Some (arr_bytes fresh) ∧ s = str_of (arr_bytes fresh)
    end.

Lemma month_salt_within K w0 w w' w1 salt :
  w_redis w = w_redis w0 → w_rnow w0 <= w_rnow w → w_redis w1 = w_redis w' → w_rnow w' <= w_rnow w1 →
  month_salt K w w' salt → month_salt K w0 w1 salt.
Proof.
  intros H0 T0 H1 T1 (now & t & s & Hn & Ht & Hs & Hv & Hw). exists now, t, s.
  rewrite H1, <-H0. split_and!; done || lia.
Qed.

Context {RL : RedisLaws}.

Lemma runs_in_monthly_salt K w salt w' :
  runs_in K monthly_salt w (Some salt) w' → month_salt K w w' salt.
Proof.
  intros Hr. unfold monthly_salt in Hr.
  apply runs_in_bind in Hr as (now & w1 & [Hn (i1 & _ & ->)]%runs_in_now & Hr).
  apply runs_in_bind in Hr as (fresh & w2 & (i2 & Hi2 & H2)%runs_in_perform & Hr).
  unfold exec in H2. cbn [exec_now] in H2. injection H2 as Hfresh <-.
  destruct fresh as [fresh|]; [|by destruct Hr].
  apply runs_in_bind in Hr as (b & w3 & (i3 & _ & H3)%runs_in_perform & Hr).
  destruct b as [b|]; [|by destruct Hr]. apply exec_redis_Some in H3 as (s3 & H3 & ->).
  apply runs_in_bind in Hr as (o & w4 & (i4 & _ & H4)%runs_in_perform & [Ho <-]).
  destruct o as [[v|]|]; [|done|done]. injection Ho as <-.
  apply exec_redis_Some in H4 as (s4 & H4 & ->). cbn [exec_redis w_rnow w_redis with_redis elapse] in *.
  set (t1 := w_rnow w + _ + _ + _) in *. set (t := t1 + _) in *.
  assert (w_rnow w <= t1 ∧ t1 <= t) as [Ht1 Ht] by (unfold t, t1; lia).
  injection H4 as Hget <-. unfold r_get in Hget.
  destruct (r_val s3 t (salt_key now)) as [[v'|ms]|] eqn:Ev; try done.
  assert (v' = v) as -> by congruence.
  exists now, t, v. cbn [w_rnow w_redis with_redis elapse]. fold t1. fold t.
  split_and!; [done|lia|lia|done|done|]. unfold r_setnx in H3.
  destruct (r_val (w_redis w) t1 (salt_key now)) as [v1|] eqn:E1; injection H3 as _ <-.
  - by rewrite Ev.
  - rewrite (r_val_gone _ t1 t) by done. rewrite r_val_setex, bool_decide_true in Ev by done.
    destruct (t <? _); [|done]. injection Ev as <-. apply bind_Some in Hfresh as (l & Hl & Hf).
    apply arr_of_Some in Hf. exists i2, fresh. by rewrite Hl, Hf.
Qed.
End FlushRuns.

(** ** The cleanup lock *)

Section Lock.
Context {P : Postgres} {R : RedisServer}.

(** The lock [key] was taken by this command. *)
Definition locks (key : string) (X : Type) (c : cmd X) : X → Prop :=
  match c in cmd X return X → Prop with
  | CRedis q =>
    match q in redis A return option A → Prop with
    | RSetNx k _ _ => λ o, k = key ∧ o = Some true
    | _ => λ _, False
    end
  | _ => λ _, False
  end.

(** A command that takes it or leaves it alone. *)
Definition lock_cmd (key : string) (X : Type) (c : cmd X) : Prop :=
  leaves key X c ∨
  match c with CRedis (RSetNx k _ ttl) => k = key ∧ ttl = CLEANUP_LOCK_TTL_SECS | _ => False end.

Lemma cleanup_turn_needs st key :
  needs (λ r, r = Some key) (locks key) (cleanup_turn st).
Proof.
  unfold cleanup_turn. apply needs_bind. intros now. cbn zeta.
  destruct (decide (cleanup_lock_key now = key)) as [<-|Hne].
  - cbn. intros [[]|]; [by left|right|right]; done.
  - apply needs_bind. intros [[]|]; [|done..]. apply needs_bind. by intros _ [= H].
Qed.

Lemma cleanup_turn_issues st key : issues (lock_cmd key) (cleanup_turn st).
Proof.
  unfold cleanup_turn. apply issues_bind; [by split; [left|]|]. intros now. cbn zeta.
  apply issues_bind.
  - split; [|done]. destruct (decide (cleanup_lock_key now = key)); [by right|left].
    split; [done|]. cbn [redis_writes]. by rewrite list_elem_of_singleton.
  - intros [[]|]; [|done..]. apply issues_bind; [|done]. unfold run_cleanup, delete_expired.
    cbn. split; [by left|]. intros [u|]; [|done]. cbn. by split; [left|].
Qed.

Context {RL : RedisLaws}.

(** Until [stop], at most one lock was handed out, and then it is still held. *)
Definition held_once (key : string) (start stop : Z) (w : World) (n : nat) : Prop :=
  start <= w_rnow w ∧
  (w_rnow w < stop → (n <= 1)%nat ∧
     (n = 1%nat → ∀ t, w_rnow w <= t < stop → is_Some (r_val (w_redis w) t key))).

Lemma held_step key start X (c : cmd X) i w n :
  let stop := start + 1000 * CLEANUP_LOCK_TTL_SECS in
  lock_cmd key X c → held_once key start stop w n →
  let '(x, w') := exec i c w in
  ∃ m, held_once key start stop w' m ∧ (n <= m)%nat ∧ (locks key X c x → (S n <= m)%nat).
Proof.
  intros stop Hc [Hs Hn]. destruct (exec i c w) as [x w'] eqn:E.
  pose proof (exec_rnow i c w) as Hnow. rewrite E in Hnow. cbn [snd] in Hnow.
  assert ((∀ t, w_rnow w' <= t → r_val (w_redis w') t key = r_val (w_redis w) t key) →
    held_once key start stop w' n) as Hsame.
  { intros Hf. split; [lia|]. intros Hu. destruct Hn as [H1 H2]; [lia|]. split; [done|].
    intros He t Ht. rewrite Hf by lia. apply H2; [done|lia]. }
  destruct Hc as [Hl|Hc].
  { exists n. split; [|split; [lia|]].
    - apply Hsame. intros t Ht. pose proof (leaves_frame key i c w t Hl) as H.
      rewrite E in H. by apply H.
    - intros Hx. destruct c as [| | | | |A q| | | | | | | | |]; try done. destruct q; try done.
      destruct Hx as [-> _]. destruct Hl as [_ Hl]. cbn [redis_writes] in Hl. set_solver. }
  destruct c as [| | | | |A q| | | | | | | | |]; try done. destruct q as [| | |k v ttl| | | | | | | | | |]; try done.
  destruct Hc as [-> ->]. cbn [locks].
  pose proof (exec_redis_cases i (RSetNx key v CLEANUP_LOCK_TTL_SECS) w) as Hcase. cbv zeta in Hcase.
  rewrite E in Hcase. destruct Hcase as [[-> Hr]|[Hr Hx]].
  { exists n. split; [|split; [lia|by intros [_ [=]]]]. apply Hsame. by rewrite Hr. }
  cbn [exec_redis] in Hr, Hx. unfold r_setnx in Hr, Hx.
  destruct (r_val (w_redis w) _ key) as [v0|] eqn:Ev; cbn [fst snd] in Hr, Hx.
  { exists n. split; [|split; [lia|]]; [apply Hsame; by rewrite Hr|].
    intros [_ ->]. by destruct Hx as [[=]|[= <-]]. }
  assert (w_rnow w' < stop → n = O) as Hz.
  { intros Hu. destruct Hn as [H1 H2]; [lia|]. destruct n as [|n]; [done|].
    destruct n as [|n]; [|lia]. destruct (H2 eq_refl (w_rnow w')) as [v1 Hv1]; [lia|].
    rewrite Hnow, Ev in Hv1. discriminate Hv1. }
  exists (S n). split; [|split; [lia|lia]]. split; [lia|]. intros Hu. rewrite (Hz Hu). split; [lia|].
  intros _ t Ht. rewrite Hr, r_val_setex, bool_decide_true by done || lia.
  unfold stop in *. destruct (Z.ltb_spec t (w_rnow w + Z.of_N (i_redis_elapsed i) + 1000 * CLEANUP_LOCK_TTL_SECS)); [done|lia].
Qed.
End Lock.

(** ** Properties *)

(** C36. No counter is lost by a flush: it either writes every counter taken and leaves
    the tally empty, or leaves the tally as it was; the rows are hashed under the salt of
    the month the relay's clock shows, which is what Redis holds for that month or,
    where it holds nothing, 32 fresh random bytes that it holds from then on; and a
    flush that fails has its rows in the database only if the reply to the write was
    lost. *)
Theorem flush_keeps_counters {C : Crypto} {P : Postgres} {R : RedisServer} {RL : RedisLaws}
    (K : Input → Prop) (w w' : World) (r : option Z) :
  map_Forall (λ _, tally_ok) (w_usage w) → runs_in K flush w r w' →
  let written := ∃ now salt, (w_pgnow w <= now <= w_pgnow w') ∧ month_salt K w w' salt ∧
    add_batch now (usage_rows (w_usage w) salt) (w_db w) = (Some tt, w_db w') in
  match r with
  | Some n => n = Z.of_nat (size (w_usage w)) ∧ w_usage w' = ∅ ∧
      (w_usage w = ∅ ∧ w_db w' = w_db w ∨ written)
  | None => w_usage w' = w_usage w ∧
      (w_db w' = w_db w ∨ written ∧ ∃ i, K i ∧ i_fault i = LostReply)
  end.
Proof.
  intros Hok Hr. cbv zeta. unfold flush in Hr. apply runs_in_bind in Hr as (tl & w1 & H1 & Hr).
  apply runs_in_runs in H1. pose proof H1 as Hs1%runs_no_redis; [|done]. pose proof (runs_rnow _ _ _ _ H1) as Ht1.
  pose proof (runs_pgnow _ _ _ _ H1) as Hg1.
  apply runs_usage in H1 as (-> & Hu1 & Hd1). cbn [take_usage fst snd] in *.
  case_bool_decide as He.
  { destruct Hr as [<- <-]. rewrite He, map_size_empty. split_and!; [done|done|]. by left. }
  apply runs_in_bind in Hr as (salt & w2 & H2 & Hr). pose proof H2 as H2'%runs_in_runs.
  pose proof (runs_pgnow _ _ _ _ H2') as Hg2.
  apply runs_no_count in H2' as [Hu2 Hd2]; [|apply monthly_salt_no_count].
  destruct salt as [salt|].
  2: { apply runs_in_put_back in Hr as (-> & Hu & Hd & _); [|done|congruence].
       split; [done|]. left. congruence. }
  apply runs_in_monthly_salt in H2.
  apply runs_in_bind in Hr as (o & w3 & H3 & Hr).
  apply runs_in_add_batch in H3 as (Hu3 & Hs3 & Ht3 & Hg3 & Hd3). cbv zeta in Hd3.
  rewrite Hd2, Hd1 in Hd3. destruct o as [u|].
  - destruct Hr as [<- <-]. split; [unfold usage_rows; by rewrite length_fmap, length_map_to_list|].
    split; [congruence|]. right. exists (w_pgnow w3), salt. split; [lia|]. split; [|done].
    by eapply month_salt_within.
  - apply runs_in_put_back in Hr as (-> & Hu & Hd & Hs & Ht & Hg); [|done|congruence].
    split; [done|]. rewrite Hd. destruct Hd3 as [Hd3|[Hd3 Hl]]; [by left|right]. split; [|done].
    exists (w_pgnow w3), salt. split; [lia|]. split; [|done].
    eapply month_salt_within, H2; [done|done|congruence|lia].
Qed.

(** C37. The daily cleanup runs once: however many instances check at the same time,
    in whatever interleaving and with whatever lost replies, within the 25 hours
    after the start at most one of them gets the lock of a day. *)
Theorem cleanup_runs_once {P : Postgres} {R : RedisServer} {RL : RedisLaws} (key : string)
    (ps ps' : list (prog (option string))) (w w' : World) (winners : list nat) :
  Forall (λ p, ∃ st, p = cleanup_turn st) ps →
  rtc pool_step (w, ps) (w', ps') →
  w_rnow w' < w_rnow w + 1000 * CLEANUP_LOCK_TTL_SECS →
  NoDup winners → Forall (λ j, ps' !! j = Some (Ret (Some key))) winners →
  (length winners <= 1)%nat.
Proof.
  intros Hps Hr Ht Hnd Hw.
  destruct (pool_tickets (λ r, r = Some key) (locks key)
    (held_once key (w_rnow w) (w_rnow w + 1000 * CLEANUP_LOCK_TTL_SECS)) (lock_cmd key)
    (λ _ _ _ H, H) (λ X c i w1 n, held_step key (w_rnow w) X c i w1 n) winners w ps w' ps') as (n & [_ Hn] & Hle).
  - exact Hr.
  - eapply Forall_impl; [exact Hps|]. intros p [st ->]. apply cleanup_turn_issues.
  - intros j p Hj _. apply (Forall_lookup_1 _ _ _ _ Hps) in Hj as [st ->]. apply cleanup_turn_needs.
  - split; [lia|]. intros _. split; [lia|done].
  - done.
  - eapply Forall_impl; [exact Hw|]. intros j Hj. by exists (Some key).
  - destruct (Hn Ht). lia.
Qed.
