(* ===== verification/Relay.v ===== *)
(** * Relay: the whole relay ([routes/mod.rs], [maintenance.rs], [relay/])

    Every task an instance runs - a request to any route, a connection, a turn of a
    background job - and what holds of all of them together. *)

From stdpp Require Import relations.
From S2P Require Import Prelude Text Errors Externals Signatures Attestation Revocation Challenge.
From S2P Require Import Wire Bus Tables Redis Scripts Usage Hub IO Pool Invariants Net Config.
From S2P Require Import Limits Presence Rendezvous Push Auth PairRoutes DeviceRoutes PushRoute.
From S2P Require Import Bandwidth Connection Inbound Outbound Serve Maintenance.

Local Open Scope Z_scope.

(** A JSON body as the extractor leaves it. *)
Abbreviation Json_ A := (result JsonPayloadError A).

(** [routes/mod.rs:16-38 configure, part]: the routes with what their extractors
    read. *)
Inductive Route : Type :=
| PostDevices (body : Json_ RegisterRequest)
| DeleteDevicesMe (query : DeleteQuery) (body : Json_ DeleteRequest)
| PutPushToken (body : Json_ PushTokenRequest)
| PostAuthChallenge (body : Json_ ChallengeRequest)
| PostAuthToken (body : Json_ TokenRequest)
| PostPairs (body : Json_ PairRequest)
| GetPairs (query : ListQuery)
| PostPairsRevoke (path : string) (body : Json_ RevokeRequest)
| PostPush (body : Json_ PushRequest)
| GetRelay (upgrade : bool).

Section Relay.
Context {C : Crypto} {B64 : Base64} {UO : UuidOps} {J : Json} {RJ : RvJson} {JW : JwtLib}
        {L : PushLib}.

(** A JSON body, or the error its extraction answers. *)
Definition extract {A} (body : Json_ A) : result ApiError A := map_err json_error_handler body.

Definition with_body {A} (body : Json_ A) (k : A → prog (result ApiError HttpResponse)) :
    prog (result ApiError HttpResponse) :=
  let* b := pure (extract body) in k b.

(** [routes/mod.rs:16-38 configure] *)
Definition handle (st : AppState) (http : Request) (route : Route) :
    prog (result ApiError HttpResponse) :=
  let authenticated k := (let* device := from_request st http in k device) in
  match route with
  | PostDevices body => with_body body (register_device st http)
  | DeleteDevicesMe query body => delete_me st http query (extract body)
  | PutPushToken body => authenticated (λ d, with_body body (put_push_token st d))
  | PostAuthChallenge body => with_body body (challenge st http)
  | PostAuthToken body => with_body body (token st http)
  | PostPairs body => authenticated (λ d, with_body body (register_pair d))
  | GetPairs query => authenticated (λ d, list_route d query)
  | PostPairsRevoke path body => authenticated (λ d, with_body body (revoke_pair d path))
  | PostPush body => authenticated (λ d, with_body body (send st d))
  | GetRelay upgrade =>
    authenticated (λ d, let* _ := connect d upgrade in pure (Ok (resp_empty 101)))
  end.

(** A task of one instance.  The bus task of each instance is not listed: what it does
    to a hub between two commands of the tasks is part of the commands' inputs
    ([IO.i_hub]). *)
Inductive Task : Type :=
| TRequest (http : Request) (route : Route)
| TConnection (device : Uuid) (turns : list Turn)
| TFlusher (ticks : nat)
| TCleaner (ticks : nat).

Definition task (t : AppState * Task) : prog unit :=
  match t.2 with
  | TRequest http route => let! _ := handle t.1 http route in Ret tt
  | TConnection device turns => let! _ := run_conn t.1 device turns in Ret tt
  | TFlusher ticks => flusher ticks
  | TCleaner ticks => cleaner t.1 ticks
  end.
End Relay.

(** ** Every task writes only what is certified *)

Section Certified.
Context {C : Crypto} {B64 : Base64} {UO : UuidOps} {J : Json} {RJ : RvJson} {JW : JwtLib}
        {L : PushLib} {P : Postgres}.

#[local] Hint Extern 1 (issues _ (is_peer _ _)) => (apply is_peer_issues; done) : relay.
#[local] Hint Extern 1 (issues _ (check_auth_ip _)) => (apply check_auth_ip_issues; done) : relay.
#[local] Hint Extern 1 (issues _ (check_challenge_quota _ _)) =>
  (eapply issues_impl; [|apply check_challenge_quota_no_sql]; by intros X []) : relay.

Lemma publish_forward_certified c p : issues sql_cmd_ok (publish_forward c p).
Proof. unfold publish_forward. issues_auto. Qed.

#[local] Hint Resolve publish_forward_certified : relay.

Lemma forward_certified st to bus n c : issues sql_cmd_ok (forward st to bus n c).
Proof. 
  unfold forward. issues_auto.
 Qed.

#[local] Hint Resolve forward_certified : relay.

Lemma client_message_certified st m c : issues sql_cmd_ok (on_client_message st m c).
Proof.
  destruct m as [text|frame|pl| |]; cbn [on_client_message]; try by issues_auto.
  - unfold handle_text, keep, fail_with, rv_join, rv_msg. issues_auto.
  - unfold handle_binary, fail_with. issues_auto.
Qed.

Lemma delivery_certified st d c : issues sql_cmd_ok (on_delivery st d c).
Proof.
  unfold on_delivery, resync, pairs_changed, peer_presence, online, send_presence, reload_peers.
  issues_auto.
Qed.

#[local] Hint Resolve client_message_certified delivery_certified : relay.

Lemma serve_loop_certified st turns s : issues sql_cmd_ok (serve_loop st turns s).
Proof.
  revert s. induction turns as [|t turns IH]; intros s; cbn [serve_loop]; [done|].
  apply issues_bind; [|intros [[e|] s']; [done|apply IH]].
  unfold serve_turn, timers. destruct s as [c last]. apply issues_bind; [done|]. intros k.
  destruct k; [done|]. apply issues_bind; [done|]. intros [d| |]; [|done|].
  - apply issues_bind; [apply delivery_certified|]. by intros [e c'].
  - issues_auto.
Qed.

#[local] Hint Resolve serve_loop_certified : relay.

Lemma connection_certified st d turns : issues sql_cmd_ok (run_conn st d turns).
Proof. 
  unfold run_conn, conn_as, open, open_claimed, open_messages, subscribe,
    claim, peer_presence, online, send_presence, announce,
    reload_peers, serve, finish. issues_auto.
 Qed.

Lemma from_request_certified st http : issues sql_cmd_ok (from_request st http).
Proof. unfold from_request. issues_auto. Qed.

Lemma challenge_certified st http b : issues sql_cmd_ok (challenge st http b).
Proof. unfold challenge. issues_auto. Qed.

Lemma token_certified st http b : issues sql_cmd_ok (token st http b).
Proof. unfold token, issue. issues_auto. Qed.

#[local] Hint Resolve from_request_certified register_device_certified delete_me_certified
  put_push_token_certified challenge_certified token_certified register_pair_certified
  list_route_certified revoke_pair_certified send_certified : relay.

Lemma handle_certified st http route : issues sql_cmd_ok (handle st http route).
Proof. unfold handle, with_body, connect. destruct route; issues_auto. Qed.

Lemma flusher_certified ticks : issues sql_cmd_ok (flusher ticks).
Proof.
  induction ticks as [|ticks IH]; cbn [flusher]; [done|]. apply issues_bind; [|done].
  unfold flush, monthly_salt. issues_auto.
Qed.

Lemma cleaner_certified st ticks : issues sql_cmd_ok (cleaner st ticks).
Proof.
  induction ticks as [|ticks IH]; cbn [cleaner]; [done|]. apply issues_bind; [|done].
  unfold cleanup_turn, run_cleanup, delete_expired. issues_auto.
Qed.

#[local] Hint Resolve handle_certified connection_certified flusher_certified cleaner_certified : relay.

Lemma task_certified t : issues sql_cmd_ok (task t).
Proof. unfold task. issues_auto. Qed.
End Certified.

(** ** Properties *)

(** C1. The database stays certified: however many tasks run on however many
    instances - requests to any route, connections, background jobs - in whatever
    interleaving and with whatever lost requests and replies, every device id
    derives from its stored key, every pair joins two registered devices that both
    signed its attestation, and every revocation was signed by a member. *)
Theorem relay_stays_certified {C : Crypto} {B64 : Base64} {UO : UuidOps} {J : Json} {RJ : RvJson}
    {JW : JwtLib} {L : PushLib} {P : Postgres} {R : RedisServer}
    (tasks : list (AppState * Task)) (w w' : World) (ps' : list (prog unit)) :
  db_ok (w_db w) → rtc pool_step (w, map task tasks) (w', ps') → db_ok (w_db w').
Proof.
  intros Hw Hr. eapply pool_db_ok; [|exact Hw|exact Hr].
  apply Forall_forall. intros p (t & -> & _)%list_elem_of_fmap. apply task_certified.
Qed.
