(* ===== verification/Routing.v ===== *)
(** * Routing: from a request to its handler ([lib.rs], [routes/mod.rs])

    Which handler serves a method and a path, how large its JSON body may be, and
    what is answered without a handler.  Reading a body and parsing JSON and query
    strings are actix-web's and serde's. *)

From S2P Require Import Prelude Text Errors Externals Signatures Attestation Revocation Challenge.
From S2P Require Import Wire Bus Tables Redis Scripts Usage Hub IO Pool Invariants Net Config.
From S2P Require Import Limits Presence Rendezvous Push Auth PairRoutes DeviceRoutes PushRoute.
From S2P Require Import Bandwidth Connection Inbound Outbound Serve Maintenance Relay.

Local Open Scope Z_scope.

(** [lib.rs:28-29 MAX_JSON_BODY_BYTES] *)
Definition MAX_JSON_BODY_BYTES : Z := 4 * 1024.
(** [routes/mod.rs:12-12 DELETE_ME_BODY_BYTES] *)
Definition DELETE_ME_BODY_BYTES : Z := 64 * 1024.
(** [routes/mod.rs:14-14 PUSH_TOKEN_BODY_BYTES] *)
Definition PUSH_TOKEN_BODY_BYTES : Z := 8 * 1024.

Inductive Method : Type := GET | POST | PUT | DELETE.

Inductive Endpoint : Type :=
| EDevices
| EDevicesMe
| EPushToken
| EChallenge
| EToken
| EPairs
| EPairsList
| EPairsRevoke (pair_id : string)
| EPush
| ERelay.

(** [routes/mod.rs:16-38 configure]: the handler of a method and the segments of a
    path; the router itself answers anything else. *)
Definition configure (m : Method) (path : list string) : option Endpoint :=
  match path with
  | "v1" :: path =>
    match m, path with
    | POST, ["devices"] => Some EDevices
    | DELETE, ["devices"; "me"] => Some EDevicesMe
    | PUT, ["devices"; "me"; "push-token"] => Some EPushToken
    | POST, ["auth"; "challenge"] => Some EChallenge
    | POST, ["auth"; "token"] => Some EToken
    | POST, ["pairs"] => Some EPairs
    | GET, ["pairs"] => Some EPairsList
    | POST, ["pairs"; pair_id; "revoke"] =>
      if str_is_empty pair_id then None else Some (EPairsRevoke pair_id)
    | POST, ["push"] => Some EPush
    | GET, ["relay"] => Some ERelay
    | _, _ => None
    end
  | _ => None
  end.

(** [lib.rs:34-44 configure]: the limit of every JSON body, with the two resources
    that set their own. *)
Definition json_limit (e : Endpoint) : Z :=
  match e with
  | EDevicesMe => DELETE_ME_BODY_BYTES
  | EPushToken => PUSH_TOKEN_BODY_BYTES
  | _ => MAX_JSON_BODY_BYTES
  end.

(** What arrives: a [Body] and a [Query] are what is left to read of them. *)
Class Extractors : Type := {
  Body : Type;
  Query : Type;
  (** The bytes of the body, read up to a limit. *)
  read : Z → Body → result JsonPayloadError bytes;
  (** What the head alone refuses: another content type, a declared length above the
      limit. *)
  refused_head : Z → Body → option JsonPayloadError;
  parse_register : bytes → option RegisterRequest;
  parse_delete : bytes → option DeleteRequest;
  parse_push_token : bytes → option PushTokenRequest;
  parse_challenge : bytes → option ChallengeRequest;
  parse_token : bytes → option TokenRequest;
  parse_pair : bytes → option PairRequest;
  parse_revoke : bytes → option RevokeRequest;
  parse_push : bytes → option PushRequest;
  parse_delete_query : Query → option DeleteQuery;
  parse_list_query : Query → option ListQuery
}.

(** [JsonConfig::limit]: no body above the limit is read, and a refused head ends the
    extraction. *)
Class ExtractorLaws {X : Extractors} : Type := {
  payload : Body → bytes;
  read_payload limit b l : read limit b = Ok l → l = payload b ∧ Z.of_nat (length l) <= limit;
  refused_read limit b e : refused_head limit b = Some e → read limit b = Err e
}.

Record Message {X : Extractors} : Type := mkMessage {
  ms_method : Method;
  ms_path : list string;
  ms_http : Request;
  ms_query : Query;
  ms_body : Body;
  ms_upgrade : bool
}.

Section Routing.
Context {C : Crypto} {B64 : Base64} {UO : UuidOps} {J : Json} {RJ : RvJson} {JW : JwtLib}
        {L : PushLib} {X : Extractors}.

(** [routes/mod.rs:41-45 json_config]: a JSON body within the limit. *)
Definition json_body {A} (limit : Z) (parse : bytes → option A) (b : Body) : Json_ A :=
  let? l := read limit b in ok_or (parse l) OtherJsonError.

(** The extractors of a handler are polled side by side: what is wrong with a
    request's head is answered once the token is verified, while the device is
    still looked up. *)
Definition refuse (st : AppState) (http : Request) (e : ApiError) :
    prog (result ApiError HttpResponse) :=
  let* token := pure (bearer_token (rq_authorization http)) in
  let* _ := verify (st_jwt st) token in
  pure (Err e).

(** A handler of an authenticated device with a JSON body. *)
Definition with_head (st : AppState) (m : Message) (limit : Z)
    (p : prog (result ApiError HttpResponse)) : prog (result ApiError HttpResponse) :=
  match refused_head limit (ms_body m) with
  | Some e => refuse st (ms_http m) (json_error_handler e)
  | None => p
  end.

(** The handler of an endpoint, with what its extractors read. *)
Definition dispatch_to (st : AppState) (m : Message) (e : Endpoint) :
    prog (result ApiError HttpResponse) :=
  let limit := json_limit e in
  let run := handle st (ms_http m) in
  match e with
  | EDevices => run (PostDevices (json_body limit parse_register (ms_body m)))
  | EDevicesMe =>
    match parse_delete_query (ms_query m) with
    | Some q => run (DeleteDevicesMe q (json_body limit parse_delete (ms_body m)))
    | None => pure (Err BadRequest)
    end
  | EPushToken =>
    with_head st m limit (run (PutPushToken (json_body limit parse_push_token (ms_body m))))
  | EChallenge => run (PostAuthChallenge (json_body limit parse_challenge (ms_body m)))
  | EToken => run (PostAuthToken (json_body limit parse_token (ms_body m)))
  | EPairs => with_head st m limit (run (PostPairs (json_body limit parse_pair (ms_body m))))
  | EPairsList =>
    match parse_list_query (ms_query m) with
    | Some q => run (GetPairs q)
    | None => refuse st (ms_http m) BadRequest
    end
  | EPairsRevoke pair_id =>
    with_head st m limit
      (run (PostPairsRevoke pair_id (json_body limit parse_revoke (ms_body m))))
  | EPush => with_head st m limit (run (PostPush (json_body limit parse_push (ms_body m))))
  | ERelay => run (GetRelay (ms_upgrade m))
  end.

(** A request from the first byte to the response, [None] when the router answers. *)
Definition serve_http (st : AppState) (m : Message) : prog (option HttpResponse) :=
  match configure (ms_method m) (ms_path m) with
  | Some e => let! r := dispatch_to st m e in Ret (Some (respond r))
  | None => Ret None
  end.
End Routing.

(** ** Lemmas *)

(** The endpoints whose handler needs its body. *)
Definition needs_body (e : Endpoint) : bool :=
  match e with EDevicesMe | EPairsList | ERelay => false | _ => true end.

(** A command that reads the clock or a device's key. *)
Definition looks (A : Type) (c : cmd A) : Prop :=
  match c with CNow | CSql (QFindKey _) => True | _ => False end.

(** A refusal: an error answer. *)
Definition refusal {A} (r : result ApiError A) : Prop := ∃ e, r = Err e.

Section Refusals.
Context {C : Crypto} {B64 : Base64} {UO : UuidOps} {J : Json} {RJ : RvJson} {JW : JwtLib}
        {L : PushLib} {X : Extractors} {XL : ExtractorLaws}.

Lemma read_oversize limit b :
  limit < Z.of_nat (length (payload b)) → ∃ e, read limit b = Err e.
Proof.
  intros H. destruct (read limit b) as [l|e] eqn:E; [|by eexists].
  apply read_payload in E as [-> ?]. lia.
Qed.

Lemma json_body_oversize {A} limit (parse : bytes → option A) b :
  limit < Z.of_nat (length (payload b)) → ∃ e, json_body limit parse b = Err e.
Proof. intros [e He]%read_oversize. exists e. unfold json_body. by rewrite He. Qed.

Lemma yields_refuse st http e : yields looks refusal (refuse st http e).
Proof.
  unfold refuse, verify. destruct (bearer_token _) as [t|e1]; cbn; [|by eexists].
  split; [done|]. intros n. destruct (verify_at _ _ _); cbn; by eexists.
Qed.

Lemma yields_from_request st http k :
  (∀ d, yields looks refusal (k d)) →
  yields looks refusal (let* d := from_request st http in (k d : prog (result ApiError HttpResponse))).
Proof.
  intros Hk. unfold from_request, verify. destruct (bearer_token _) as [t|e1]; cbn; [|by eexists].
  split; [done|]. intros n. destruct (verify_at _ _ _) as [d|e1]; cbn; [|by eexists].
  split; [done|]. intros [f|]; cbn; [|by eexists].
  destruct (usable_key f); cbn; [apply Hk|by eexists].
Qed.

(** An oversize body never reaches the handler that needs it. *)
Lemma yields_oversize st m e :
  needs_body e = true → json_limit e < Z.of_nat (length (payload (ms_body m))) →
  yields looks refusal (dispatch_to st m e).
Proof.
  intros Hn Hlen.
  assert (∀ A (parse : bytes → option A) k,
    yields looks refusal (with_body (json_body (json_limit e) parse (ms_body m)) k)) as Hbody.
  { intros A parse k. destruct (json_body_oversize _ parse _ Hlen) as [e' ->]. cbn. by eexists. }
  assert (∀ p, yields looks refusal p → yields looks refusal (with_head st m (json_limit e) p)) as Hh.
  { intros p Hp. unfold with_head. destruct (refused_head _ _); [apply yields_refuse|done]. }
  destruct e; try discriminate Hn; cbn [dispatch_to]; try apply Hbody;
    apply Hh, yields_from_request; intros d; apply Hbody.
Qed.

Lemma looks_leaves {P : Postgres} {R : RedisServer} {A} i (c : cmd A) w :
  looks A c →
  w_db (exec i c w).2 = w_db w ∧ w_redis (exec i c w).2 = w_redis w ∧
  w_usage (exec i c w).2 = w_usage w ∧ w_published (exec i c w).2 = w_published w.
Proof.
  intros Hc. unfold exec. destruct c; try (by destruct Hc).
  destruct q; try (by destruct Hc). cbn. unfold faulty. by destruct (i_fault i).
Qed.

(** Whatever arrives, only certified writes are issued. *)
Lemma serve_http_certified {P : Postgres} st m : issues sql_cmd_ok (serve_http st m).
Proof.
  unfold serve_http. destruct (configure _ _) as [e|]; [|done]. apply issues_bind; [|done].
  assert (∀ e, issues sql_cmd_ok (refuse st (ms_http m) e)) as Hr.
  { intros e'. eapply issues_impl, yields_issues, yields_refuse.
    intros Y c. destruct c; cbn; try done. by destruct q. }
  assert (∀ limit p, issues sql_cmd_ok p → issues sql_cmd_ok (with_head st m limit p)) as Hh.
  { intros limit p Hp. unfold with_head. by destruct (refused_head _ _). }
  destruct e; cbn [dispatch_to]; try (destruct (parse_delete_query _) || destruct (parse_list_query _));
    try apply Hh; done || apply handle_certified || apply Hr.
Qed.
End Refusals.

(** ** Properties *)

(** C35. A body above its route's limit - 4 KiB, 8 KiB for a push token - never reaches a
    handler that needs it: whatever the request is, whoever sends it, the relay
    answers an error after at most looking up the sender's key, and changes
    neither the database nor Redis nor a counter and publishes nothing. *)
Theorem oversize_refused {C : Crypto} {B64 : Base64} {UO : UuidOps} {J : Json} {RJ : RvJson}
    {JW : JwtLib} {L : PushLib} {X : Extractors} {XL : ExtractorLaws} {P : Postgres}
    {R : RedisServer} (st : AppState) (m : Message) (e : Endpoint) (w w' : World)
    (r : option HttpResponse) :
  configure (ms_method m) (ms_path m) = Some e → needs_body e = true →
  json_limit e < Z.of_nat (length (payload (ms_body m))) →
  runs (serve_http st m) w r w' →
  (∃ err, r = Some (error_response err)) ∧
  w_db w' = w_db w ∧ w_redis w' = w_redis w ∧ w_usage w' = w_usage w ∧
  w_published w' = w_published w.
Proof.
  intros He Hn Hlen Hr. pose proof (yields_oversize st m e Hn Hlen) as Hy.
  unfold serve_http in Hr. rewrite He in Hr. apply runs_bind in Hr as (x & w1 & Hr & [<- <-]).
  split.
  - destruct (yields_runs _ _ _ _ _ _ Hy Hr) as [err ->]. by exists err.
  - eapply (runs_invariant (λ v, w_db v = w_db w ∧ w_redis v = w_redis w ∧ w_usage v = w_usage w ∧
      w_published v = w_published w)); [|exact (yields_issues _ _ _ Hy)|exact Hr|done].
    intros Y c i v Hc (<- & <- & <- & <-). by apply looks_leaves.
Qed.
