(* ===== verification/Keyspace.v ===== *)
(** * Keyspace: what each key of Redis holds

    The relay's keys fall into families by their prefix: counters of the limits,
    rooms of rendezvous, queued revocation notices, and plain texts (presence,
    challenges, coalesced wakes, locks, salts).  Whatever runs in whatever
    interleaving, every key holds a value of its family, so that no command of the
    relay ever meets a value of another type. *)

From stdpp Require Import relations.
From S2P Require Import Prelude Text Errors Externals Signatures Attestation Revocation Challenge.
From S2P Require Import Wire Bus Tables Redis Scripts Usage Hub IO Pool Invariants Net Config.
From S2P Require Import Limits Presence Rendezvous Push Auth PairRoutes DeviceRoutes PushRoute.
From S2P Require Import Bandwidth Connection Inbound Outbound Serve Maintenance Relay.

Local Open Scope Z_scope.

Inductive Family : Type := KText | KCount | KRoom | KNotices.

(** Whether [s] begins with [p]. *)
Fixpoint begins (p s : string) : bool :=
  match p, s with
  | EmptyString, _ => true
  | String a p', String b s' => Ascii.eqb a b && begins p' s'
  | String _ _, EmptyString => false
  end.

Definition family (k : string) : Family :=
  if begins "rl:" k then KCount
  else if begins "rv:" k then KRoom
  else if begins "revoked_notice:" k then KNotices
  else KText.

Section Keyspace.
Context {UO : UuidOps} {R : RedisServer}.

(** A counter is a number [INCR] reads, a room at most two device ids. *)
Definition value_ok (f : Family) (v : rval) : Prop :=
  match f, v with
  | KText, RStr _ => True
  | KCount, RStr s => ∃ n, parse_i64 s = Some n ∧ 0 <= n
  | KRoom, RSet m => (size m <= 2)%nat ∧ ∀ x, x ∈ m → is_Some (uuid_parse x)
  | KNotices, RSet _ => True
  | _, _ => False
  end.

(** From the time [t] on, every key shows a value of its family or none. *)
Definition typed (t : Z) (s : rstore) : Prop :=
  ∀ t' k v, t <= t' → r_val s t' k = Some v → value_ok (family k) v.

(** A command on keys of the families it is for. *)
Definition redis_typed {A} (q : redis A) : Prop :=
  match q with
  | RSetEx k _ ttl | RSetNx k _ ttl | RRefresh k _ ttl => family k = KText ∧ 0 < ttl
  | RRelease k _ | RGetDel k | RGet k => family k = KText
  | RIncrWindow k ttl => family k = KCount ∧ 0 < ttl
  | RRegistration keys ttl =>
    (length keys <= 2)%nat ∧ Forall (λ kl, family kl.1 = KCount ∧ kl.2 <= 2 ^ 53) keys ∧ 0 < ttl
  | RJoin k m ttl => family k = KRoom ∧ is_Some (uuid_parse m) ∧ 0 < ttl
  | RAddNotice k _ ttl => family k = KNotices ∧ 0 < ttl
  | RTakeNotices k => family k = KNotices
  | RSMembers k => family k = KRoom
  | RDel _ | RMGet _ => True
  end.

Context {RL : RedisLaws}.

Lemma typed_later t t' s : t <= t' → typed t s → typed t' s.
Proof. intros Ht Hs t1 k v H1. apply Hs. lia. Qed.

(** A write to one key; later its value stays or is gone. *)
Lemma typed_write k t s s' :
  typed t s → (∀ t' k', t <= t' → k' ≠ k → r_val s' t' k' = r_val s t' k') →
  (∀ v, r_val s' t k = Some v → value_ok (family k) v) → typed t s'.
Proof.
  intros Hs Hf Hk t' k' v Ht Hv. destruct (decide (k' = k)) as [->|Hne].
  - destruct (r_val_fade s' t t' k Ht) as [H|H]; [|congruence]. apply Hk. congruence.
  - rewrite Hf in Hv by done. by eapply Hs.
Qed.

Lemma typed_setex k v ttl t s :
  family k = KText → 0 < ttl → typed t s → typed t (r_setex k v ttl t s).
Proof.
  intros Hk Ht Hs. eapply (typed_write k); [exact Hs|intros; by apply frame_setex|].
  intros v'. rewrite r_val_setex, bool_decide_true by done || lia.
  case_match; [|done]. intros [= <-]. by rewrite Hk.
Qed.

Lemma typed_del k t s : typed t s → typed t (r_del k t s).
Proof.
  intros Hs. eapply (typed_write k); [exact Hs|intros; by apply frame_del|].
  intros v. by rewrite r_val_del, bool_decide_true by done || lia.
Qed.

Lemma typed_expire k ttl t s : 0 < ttl → typed t s → typed t (r_expire k ttl t s).
Proof.
  intros Ht Hs. eapply (typed_write k); [exact Hs|intros; by apply r_val_other_expire|].
  intros v. rewrite r_val_expire_same by done. apply Hs. lia.
Qed.

Lemma counter_ok v n : counter_of v = Some n → i64_ok n.
Proof.
  destruct v as [[s|m]|]; cbn [counter_of]; [|done|by intros [= <-]].
  unfold parse_i64. cbv zeta. intros (z & _ & H)%bind_Some. case_bool_decide; by simplify_eq.
Qed.

Lemma counter_typed k t s :
  typed t s → family k = KCount → ∃ n, counter_of (r_val s t k) = Some n ∧ 0 <= n.
Proof.
  intros Hs Hk. destruct (r_val s t k) as [v|] eqn:E; [|by exists 0].
  apply Hs in E; [|lia]. rewrite Hk in E. destruct v as [v|m]; [|done].
  destruct E as (n & Hn & ?). by exists n.
Qed.

Lemma typed_incr k t s : family k = KCount → typed t s → typed t (r_incr k t s).2.
Proof.
  intros Hk Hs. eapply (typed_write k); [exact Hs|intros; by apply frame_incr|].
  unfold r_incr. destruct (counter_typed k t s Hs Hk) as (n & -> & Hn).
  case_bool_decide as Hok; cbn [snd]; [|intros v; apply Hs; lia].
  intros v. rewrite r_val_write_same. intros [= <-]. rewrite Hk. exists (n + 1).
  split; [by apply parse_display_i64|lia].
Qed.

Lemma incr_Some k t s n :
  counter_of (r_val s t k) = Some n → n < i64_max → 0 <= n → is_Some (r_incr k t s).1.
Proof.
  intros Hn Hm H0. unfold r_incr. rewrite Hn, bool_decide_true; [by eexists|].
  unfold i64_ok, i64_min in *. lia.
Qed.

Lemma typed_incr_all keys ttl t s :
  Forall (λ kl : string * Z, family kl.1 = KCount ∧ kl.2 <= 2 ^ 53) keys → 0 < ttl → typed t s →
  typed t (incr_all keys ttl t s).2.
Proof.
  intros Hk Ht. revert s. induction Hk as [|[k l] keys [Hk _] _ IH]; intros s Hs; simpl; [done|].
  pose proof (typed_incr k t s Hk Hs) as H1. destruct (r_incr k t s) as [[n|] s1]; [|done].
  apply IH. by apply typed_expire.
Qed.

(** *** Rooms *)

Lemma room_members k t s :
  typed t s → family k = KRoom →
  ∃ ms, rv_members s t k = Some ms ∧ (size ms <= 2)%nat ∧ ∀ x, x ∈ ms → is_Some (uuid_parse x).
Proof.
  intros Hs Hk. unfold rv_members. destruct (r_val s t k) as [v|] eqn:E.
  - apply Hs in E; [|lia]. rewrite Hk in E. destruct v as [v|m]; [done|]. by exists m.
  - exists ∅. split; [done|]. rewrite size_empty. split; [lia|]. set_solver.
Qed.

Lemma join_typed k m ttl t s :
  family k = KRoom → is_Some (uuid_parse m) → 0 < ttl → typed t s →
  typed t (JOIN_SCRIPT k m ttl t s).2 ∧ is_Some (JOIN_SCRIPT k m ttl t s).1.
Proof.
  intros Hk Hm Ht Hs. destruct (room_members k t s Hs Hk) as (ms & Hms & Hsz & Hp).
  destruct (JOIN_SCRIPT k m ttl t s) as [r s'] eqn:E. cbn [fst snd].
  pose proof (join_script_joined _ _ _ _ _ _ _ _ Ht Hms Hsz E) as Hj.
  case_bool_decide.
  - destruct Hj as (-> & Hms' & Hsz' & Hf). split; [|by eexists].
    eapply (typed_write k); [exact Hs|intros; by apply Hf|]. intros v Hv.
    unfold rv_members in Hms'. rewrite Hv in Hms'. rewrite Hk. destruct v as [v|m']; [done|].
    injection Hms' as ->. split; [done|]. set_solver.
  - destruct Hj as [-> Hf]. split; [|by eexists].
    eapply (typed_write k); [exact Hs|intros; by apply Hf|]. intros v. rewrite Hf by lia.
    apply Hs. lia.
Qed.

(** *** Every command *)

(** Preservation: a command on its own families leaves the keyspace typed. *)
Lemma exec_redis_typed {A} (q : redis A) t s :
  redis_typed q → typed t s → typed t (exec_redis q t s).2.
Proof.
  intros Hq Hs. destruct q; cbn [redis_typed exec_redis snd] in *; try done.
  - destruct Hq. by apply typed_setex.
  - unfold r_getdel. destruct (r_get k t s) as [[v|]|]; cbn [snd]; try done. by apply typed_del.
  - destruct Hq as [Hk Ht]. pose proof (typed_incr k t s Hk Hs) as H1.
    destruct (r_incr k t s) as [o s1]. by apply typed_expire.
  - destruct Hq. unfold r_setnx. destruct (r_val s t k); cbn [snd]; [done|]. by apply typed_setex.
  - by apply typed_del.
  - destruct Hq as (_ & Hk & Ht). unfold REGISTRATION_SCRIPT.
    destruct (any_used_up keys t s) as [[]|]; try done.
    pose proof (typed_incr_all keys ttl t s Hk Ht Hs) as H.
    by destruct (incr_all keys ttl t s) as [[u|] s1].
  - destruct Hq. unfold REFRESH_SCRIPT. destruct (r_get k t s); [|done].
    destruct (_ || _); [by apply typed_setex|done].
  - unfold RELEASE_SCRIPT. destruct (r_get k t s); [|done].
    case_bool_decide; [by apply typed_del|done].
  - destruct Hq as (Hk & Hm & Ht). by apply join_typed.
  - destruct Hq as [Hk Ht].
    assert (typed t (r_sadd k member t s).2) as H1.
    { eapply (typed_write k); [exact Hs|intros; by apply frame_sadd|]. rewrite Hk.
      unfold r_sadd. destruct (set_of (r_val s t k)) as [m|] eqn:E; cbn [snd].
      - case_bool_decide; cbn [snd]; intros v Hv.
        + apply Hs in Hv; [|lia]. by rewrite Hk in Hv.
        + rewrite r_val_write_same in Hv. by injection Hv as <-.
      - intros v Hv. apply Hs in Hv; [|lia]. by rewrite Hk in Hv. }
    destruct (r_sadd k member t s) as [o s1]. by apply typed_expire.
  - by apply typed_del.
Qed.

(** *** Every command is answered *)

Lemma r_get_typed k t s : typed t s → family k = KText → is_Some (r_get k t s).
Proof.
  intros Hs Hk. unfold r_get. destruct (r_val s t k) as [v|] eqn:E; [|by eexists].
  apply Hs in E; [|lia]. rewrite Hk in E. destruct v; [by eexists|done].
Qed.

Lemma r_smembers_typed k t s :
  typed t s → family k = KRoom ∨ family k = KNotices → is_Some (r_smembers k t s).
Proof.
  intros Hs Hk. unfold r_smembers. destruct (r_val s t k) as [v|] eqn:E; [|by eexists].
  apply Hs in E; [|lia]. destruct Hk as [Hk|Hk]; rewrite Hk in E; destruct v; [done|by eexists|done|by eexists].
Qed.

Lemma r_sadd_typed k m t s : typed t s → family k = KNotices → is_Some (r_sadd k m t s).1.
Proof.
  intros Hs Hk. unfold r_sadd. destruct (r_val s t k) as [v|] eqn:E.
  - apply Hs in E; [|lia]. rewrite Hk in E. destruct v as [v|ms]; [done|]. cbn [set_of].
    case_bool_decide; by eexists.
  - cbn [set_of]. case_bool_decide; by eexists.
Qed.

(** The first loop of a registration reads every counter. *)
Lemma any_used_up_typed keys t s :
  Forall (λ kl : string * Z, family kl.1 = KCount ∧ kl.2 <= 2 ^ 53) keys → typed t s →
  is_Some (any_used_up keys t s).
Proof.
  intros Hk Hs. induction Hk as [|[k l] keys [Hk _] _ IH]; simpl; [by eexists|].
  destruct (counter_typed k t s Hs Hk) as (n & Hn & _).
  apply counter_number_Some in Hn. rewrite Hn. cbn [mbind option_bind].
  destruct (l <=? n); [by eexists|done].
Qed.

(** The second counts without overflow what is far below the largest number. *)
Lemma incr_all_typed keys ttl b t s :
  Forall (λ kl : string * Z, family kl.1 = KCount ∧ kl.2 <= 2 ^ 53) keys → 0 < ttl → typed t s →
  (∀ k n, k ∈ keys.*1 → counter_of (r_val s t k) = Some n → n <= b) →
  b + Z.of_nat (length keys) <= i64_max →
  (incr_all keys ttl t s).1 = Some tt.
Proof.
  intros Hk Ht. revert b s.
  induction Hk as [|[k l] keys [Hk _] _ IH]; intros b s Hs Hb Hm; simpl; [done|].
  destruct (counter_typed k t s Hs Hk) as (n & Hn & H0). cbn [length] in Hm.
  pose proof (Hb k n ltac:(rewrite fmap_cons; by left) Hn).
  destruct (incr_Some k t s n Hn ltac:(lia) H0) as [n' Hi].
  pose proof (typed_incr k t s Hk Hs) as H1.
  destruct (r_incr k t s) as [o s1] eqn:E. cbn [fst snd] in Hi, H1. subst o.
  destruct (incr_expire_counted _ _ _ _ _ ttl Ht E) as (Hc & Hok & Hs1).
  apply (IH (b + 1)); [by apply typed_expire| |lia].
  intros k' m Hk' Hm'. rewrite Hs1 in Hm' by lia. case_bool_decide.
  - subst k'. destruct (t <? _); cbn [counter_of] in Hm'; [|injection Hm'; lia].
    rewrite parse_display_i64 in Hm' by done. injection Hm'. assert (n = n' - 1) by congruence. lia.
  - pose proof (Hb k' m ltac:(rewrite fmap_cons; by right) Hm'). lia.
Qed.
(** The counter of a command is not at its largest number. *)
Definition can_count {A} (q : redis A) (t : Z) (s : rstore) : Prop :=
  match q with RIncrWindow k _ => counter_of (r_val s t k) ≠ Some i64_max | _ => True end.

(** Progress: on a typed keyspace a command on its own families is answered. *)
Lemma exec_redis_answers {A} (q : redis A) t s :
  redis_typed q → typed t s → can_count q t s → is_Some (exec_redis q t s).1.
Proof.
  intros Hq Hs Hc. destruct q; cbn [redis_typed exec_redis fst can_count] in *; try by eexists.
  - unfold r_getdel. destruct (r_get_typed k t s Hs Hq) as [v ->]. destruct v; by eexists.
  - destruct Hq as [Hk Ht]. destruct (counter_typed k t s Hs Hk) as (n & Hn & H0).
    rewrite Hn in Hc. unfold r_incr. rewrite Hn. case_bool_decide as Hok.
    + cbn. destruct (Z.ltb_spec (n + 1) 0); [lia|by eexists].
    + destruct Hok. pose proof (counter_ok _ _ Hn).
      assert (n ≠ i64_max) by congruence. unfold i64_ok, i64_min, i64_max in *. lia.
  - destruct (r_setnx k v ttl t s); by eexists.
  - by apply r_get_typed.
  - destruct Hq as (Hl & Hk & Ht). unfold REGISTRATION_SCRIPT.
    destruct (any_used_up_typed keys t s Hk Hs) as [b Hb]. rewrite Hb. destruct b; [by eexists|].
    pose proof (incr_all_typed keys ttl (2 ^ 53) t s Hk Ht Hs) as Hi.
    destruct (incr_all keys ttl t s) as [o s1]. cbn [fst] in Hi. rewrite Hi; [by eexists| |].
    + intros k n (kl & -> & Hin)%list_elem_of_fmap Hn. destruct kl as [k l].
      destruct (any_used_up_false _ _ _ Hb _ _ Hin) as (u & Hu & Hlt).
      rewrite Forall_forall in Hk. destruct (Hk _ Hin) as [_ Hle]. cbn [snd fst] in *.
      assert (u = n) by congruence. lia.
    + unfold i64_max. lia.
  - unfold REFRESH_SCRIPT. destruct Hq as [Hk _]. destruct (r_get_typed k t s Hs Hk) as [v ->].
    destruct (_ || _); by eexists.
  - unfold RELEASE_SCRIPT. destruct (r_get_typed k t s Hs Hq) as [v ->].
    case_bool_decide; by eexists.
  - destruct Hq as (Hk & Hm & Ht). by apply join_typed.
  - destruct Hq as [Hk Ht]. destruct (r_sadd_typed k member t s Hs Hk) as [n Hn].
    destruct (r_sadd k member t s) as [o s1]. cbn [fst] in *. subst o. by eexists.
  - apply r_smembers_typed; auto.
  - apply r_smembers_typed; auto.
Qed.
End Keyspace.

(** ** Every command of the relay is on its own families *)

Definition cmd_typed {UO : UuidOps} (X : Type) (c : cmd X) : Prop :=
  match c with CRedis q => redis_typed q | _ => True end.

Section Commands.
Context {C : Crypto} {B64 : Base64} {UO : UuidOps} {UL : UuidLaws} {J : Json} {RJ : RvJson}
        {JW : JwtLib} {L : PushLib} {P : Postgres}.

#[local] Hint Extern 1 (issues cmd_typed (perform (CRedis _))) =>
  (split; [by cbn; repeat split|done]) : relay.
#[local] Hint Extern 1 (issues cmd_typed (is_peer _ _)) => (apply is_peer_issues; done) : relay.
#[local] Hint Extern 1 (issues cmd_typed (check_auth_ip _)) =>
  (apply check_auth_ip_issues; done) : relay.

Lemma check_challenge_quota_typed d ip : issues cmd_typed (check_challenge_quota d ip).
Proof.
  unfold check_challenge_quota, count_minute, incr_window, now_ms. issues_auto.
Qed.

Lemma check_registration_typed ip n m : issues cmd_typed (check_registration ip n m).
Proof.
  unfold check_registration, now_ms. apply issues_bind; [done|]. intros now. cbv zeta.
  apply issues_bind_ok; [|intros k; by case_match]. apply issues_bind; [|done]. split; [|done].
  assert (∀ n, clamp n <= 2 ^ 53) as Hc by (unfold clamp; lia).
  destruct ip as [ip|]; split_and!; simpl; [lia| |done|lia| |done]; repeat constructor; apply Hc.
Qed.

Lemma tell_peer_typed g : issues cmd_typed (tell_peer g).
Proof. unfold tell_peer, add_revoked_notice. issues_auto. Qed.

Lemma join_issues_typed rv d : issues cmd_typed (join rv d).
Proof.
  unfold join. apply issues_bind; [|done]. split; [|done]. split_and!; [done| |done].
  rewrite uuid_parse_hyphenated. by eexists.
Qed.

Lemma monthly_salt_typed : issues cmd_typed monthly_salt.
Proof. unfold monthly_salt, salt_key, now_ms. issues_auto. Qed.

Lemma online_typed ds : issues cmd_typed (online ds).
Proof. unfold online. issues_auto. Qed.

#[local] Hint Resolve online_typed check_challenge_quota_typed check_registration_typed
  tell_peer_typed join_issues_typed monthly_salt_typed : relay.

Lemma send_typed st d req : issues cmd_typed (send st d req).
Proof.
  unfold send. apply issues_bind_ok; [by apply check_device_issues|]. intros _.
  apply issues_bind_ok; [done|]. intros push. apply issues_bind_ok; [done|]. intros t.
  apply issues_bind_ok; [done|]. intros target. apply issues_bind_ok; [done|]. intros _.
  destruct (pt_provider target) as [pr|], (pt_token target) as [tk|]; try done.
  apply issues_bind_ok; [done|]. intros _. cbv zeta. apply issues_bind_ok.
  { by destruct (vp_kind push). }
  intros first. destruct (negb first); [done|]. apply issues_bind.
  { eapply issues_impl; [|apply deliver_provider]. by intros X []. }
  intros o. apply issues_bind.
  { destruct (vp_kind push); [|done]. by case_bool_decide. }
  intros _. unfold conclude. issues_auto.
Qed.

#[local] Hint Resolve send_typed : relay.

Lemma handle_typed st http route : issues cmd_typed (handle st http route).
Proof.
  unfold handle, with_body, connect, from_request. destruct route.
  all: unfold register_device, delete_me, put_push_token, challenge, token, issue,
    register_pair, list_route, revoke_pair, put, take_challenge, verify, now_ms, pure.
  all: issues_auto.
Qed.

(** *** Connections and background jobs *)

Lemma publish_forward_typed c p : issues cmd_typed (publish_forward c p).
Proof. unfold publish_forward. issues_auto. Qed.

#[local] Hint Resolve publish_forward_typed : relay.

Lemma forward_typed st to bus n c : issues cmd_typed (forward st to bus n c).
Proof. unfold forward. issues_auto. Qed.

#[local] Hint Resolve forward_typed : relay.

Lemma client_message_typed st m c : issues cmd_typed (on_client_message st m c).
Proof.
  destruct m as [text|frame|pl| |]; cbn [on_client_message]; try by issues_auto.
  - unfold handle_text, keep, fail_with, rv_join, rv_msg, rv_members_of, now_ms. issues_auto.
  - unfold handle_binary, fail_with. issues_auto.
Qed.

Lemma delivery_typed st d c : issues cmd_typed (on_delivery st d c).
Proof.
  unfold on_delivery, resync, pairs_changed, peer_presence, send_presence, reload_peers,
    take_revoked_notices.
  issues_auto.
Qed.

#[local] Hint Resolve client_message_typed delivery_typed : relay.

Lemma serve_loop_typed st turns s : issues cmd_typed (serve_loop st turns s).
Proof.
  revert s. induction turns as [|t turns IH]; intros s; cbn [serve_loop]; [done|].
  apply issues_bind; [|intros [[e|] s']; [done|apply IH]].
  unfold serve_turn, timers. destruct s as [c last]. apply issues_bind; [done|]. intros k.
  destruct k; [done|]. apply issues_bind; [done|]. intros [d| |]; [|done|].
  - apply issues_bind; [apply delivery_typed|]. by intros [e c'].
  - unfold refresh_presence, refresh. issues_auto.
Qed.

#[local] Hint Resolve serve_loop_typed : relay.

Lemma connection_typed st d turns : issues cmd_typed (run_conn st d turns).
Proof.
  unfold run_conn, conn_as, open, open_claimed, open_messages, subscribe,
    claim, peer_presence, send_presence, announce, reload_peers,
    take_revoked_notices, serve, finish, release.
  issues_auto.
Qed.

Lemma flusher_typed ticks : issues cmd_typed (flusher ticks).
Proof.
  induction ticks as [|ticks IH]; cbn [flusher]; [done|]. apply issues_bind; [|done].
  unfold flush. issues_auto.
Qed.

Lemma cleaner_typed st ticks : issues cmd_typed (cleaner st ticks).
Proof.
  induction ticks as [|ticks IH]; cbn [cleaner]; [done|]. apply issues_bind; [|done].
  unfold cleanup_turn, run_cleanup, delete_expired, now_ms. issues_auto.
Qed.

#[local] Hint Resolve handle_typed connection_typed flusher_typed cleaner_typed : relay.

Lemma tasks_typed ts : Forall (issues cmd_typed) (map task ts).
Proof.
  apply Forall_forall. intros p (t & -> & _)%list_elem_of_fmap. unfold task. issues_auto.
Qed.
End Commands.

(** ** Interleaved programs *)

(** The keyspace of a world is typed at its server's time. *)
Definition keyspace_ok {UO : UuidOps} {P : Postgres} {R : RedisServer} (w : World) : Prop :=
  typed (w_rnow w) (w_redis w).

Section Pools.
Context {UO : UuidOps} {P : Postgres} {R : RedisServer} {RL : RedisLaws}.

Lemma exec_keyspace_ok {X} i (c : cmd X) w :
  cmd_typed X c → keyspace_ok w → keyspace_ok (exec i c w).2.
Proof.
  unfold keyspace_ok. rewrite exec_rnow. intros Hc Hw.
  apply (typed_later _ (w_rnow w + Z.of_N (i_redis_elapsed i))) in Hw; [|lia].
  destruct c; try by rewrite exec_other_redis.
  pose proof (exec_redis_cases i q w) as H. cbv zeta in H.
  destruct (exec i (CRedis q) w) as [x w']. cbn [snd].
  destruct H as [[_ ->]|[-> _]]; [done|]. by apply exec_redis_typed.
Qed.

Lemma pool_keyspace_ok {A} (ps ps' : list (prog A)) (w w' : World) :
  Forall (issues cmd_typed) ps → keyspace_ok w → rtc pool_step (w, ps) (w', ps') →
  Forall (issues cmd_typed) ps' ∧ keyspace_ok w'.
Proof.
  intros Hq Hw Hr.
  refine (pool_invariant (λ w1 ps1, Forall (issues cmd_typed) ps1 ∧ keyspace_ok w1)
            _ _ _ _ Hr (conj Hq Hw)); [done|].
  clear -RL. intros w ps n X c k i x w1 (Hq & Hw) Hn He.
  pose proof (proj1 (Forall_lookup _ _) Hq _ _ Hn) as [Hc Hk].
  split; [by apply Forall_insert|].
  pose proof (exec_keyspace_ok i c w Hc Hw) as H. by rewrite He in H.
Qed.

(** A command the service receives and answers, at the time it takes effect. *)
Lemma exec_redis_fine {A} i (q : redis A) w :
  i_fault i = Fine → keyspace_ok w → redis_typed q →
  can_count q (w_rnow w + Z.of_N (i_redis_elapsed i)) (w_redis w) →
  is_Some (exec i (CRedis q) w).1.
Proof.
  unfold keyspace_ok. intros Hi Hw Hq Hc.
  apply (typed_later _ (w_rnow w + Z.of_N (i_redis_elapsed i))) in Hw; [|lia].
  pose proof (exec_redis_answers q _ _ Hq Hw Hc) as Ha.
  unfold exec. cbn [exec_now elapse w_redis w_rnow]. unfold faulty. rewrite Hi.
  by destruct (exec_redis q _ _).
Qed.
End Pools.

(** ** Properties *)

(** C3. No Redis command of the relay ever meets a value of another type.  From a
    keyspace where every counter is a number, every room a set of at most two
    device ids, and so on, whatever the tasks of all instances do in whatever
    interleaving, with whatever lost requests and replies and whatever keys
    expire, the keyspace stays so; and the next Redis command of any task, when
    it is not lost, is answered - also when it is a script - unless it counts
    past the largest 64-bit number. *)
Theorem keyspace_typed {C : Crypto} {B64 : Base64} {UO : UuidOps} {UL : UuidLaws} {J : Json}
    {RJ : RvJson} {JW : JwtLib} {L : PushLib} {P : Postgres} {R : RedisServer} {RL : RedisLaws}
    (tasks : list (AppState * Task)) (w w' : World) (ps' : list (prog unit)) :
  keyspace_ok w → rtc pool_step (w, map task tasks) (w', ps') →
  keyspace_ok w' ∧
  ∀ n A (q : redis A) k i, ps' !! n = Some (Do (CRedis q) k) → i_fault i = Fine →
    can_count q (w_rnow w' + Z.of_N (i_redis_elapsed i)) (w_redis w') →
    is_Some (exec i (CRedis q) w').1.
Proof.
  intros Hw Hr.
  destruct (pool_keyspace_ok _ _ _ _ (tasks_typed tasks) Hw Hr) as [Hps Hw'].
  split; [done|]. intros n A q k i Hn Hi Hc.
  pose proof (proj1 (Forall_lookup _ _) Hps _ _ Hn) as [Hq _]. by apply exec_redis_fine.
Qed.
