(* ===== verification/Directory.v ===== *)
(** * Directory: what the relay promises about devices and pairs

    An abstract machine without tables, requests or faults: devices join the
    directory under an identity that never changes, pairs of devices are bound
    by an attestation, revoked once by a member, and removed only together with
    a device.  The relay - any number of instances, any interleaving of their
    tasks, any lost request or reply - refines it. *)

From stdpp Require Import relations.
From S2P Require Import Prelude Text Errors Externals Signatures Attestation Revocation Challenge.
From S2P Require Import Wire Bus Tables Redis Scripts Usage Hub IO Pool Invariants Net Config.
From S2P Require Import Limits Presence Rendezvous Push Auth PairRoutes DeviceRoutes PushRoute.
From S2P Require Import Bandwidth Connection Inbound Outbound Serve Maintenance Relay.

Local Open Scope Z_scope.

(** ** The abstract machine *)

Record Identity : Type := mkIdentity { id_key : bytes; id_platform : string }.

(** A pair; its status is the time, the signer and the signature of the
    revocation, if there is one. *)
Record Bond : Type := mkBond {
  bd_a : Uuid;
  bd_b : Uuid;
  bd_attestation : bytes;
  bd_status : option (Z * Uuid * bytes)
}.

Record Directory : Type := mkDirectory {
  dir_devices : gmap Uuid Identity;
  dir_pairs : gmap Uuid Bond
}.

Section Machine.
Context {C : Crypto} {P : Postgres}.

(** Who may join under the id [d]: the holder of a key [d] derives from that no
    other device has. *)
Definition may_join (d : Uuid) (i : Identity) (D : Directory) : Prop :=
  dir_devices D !! d = None ∧
  (∃ k, id_key i = arr_bytes k ∧ device_id_from_public_key k = d) ∧
  id_platform i ∈ PLATFORMS_CHECK ∧
  map_Forall (λ _ j, id_key j ≠ id_key i) (dir_devices D).

Definition may_bind (pid : Uuid) (b : Bond) (D : Directory) : Prop :=
  dir_pairs D !! pid = None ∧ bd_a b ≠ bd_b b ∧ bd_status b = None ∧
  is_Some (dir_devices D !! bd_a b) ∧ is_Some (dir_devices D !! bd_b b) ∧
  ∃ ms sig_a sig_b, attested pid (bd_a b) (bd_b b) ms (bd_attestation b) sig_a sig_b.

(** The revocation [s] of the unrevoked pair [b] by one of its members. *)
Definition may_revoke (pid : Uuid) (b : Bond) (t : Z) (by_ : Uuid) (sig : bytes) (D : Directory) :
    Prop :=
  dir_pairs D !! pid = Some b ∧ bd_status b = None ∧ (by_ = bd_a b ∨ by_ = bd_b b) ∧
  ∃ ik s ms, sig = arr_bytes s ∧ ts_of_ms ms = Some t ∧
    signed_by by_ ik (revoke_message pid by_ ms) s.

(** Devices leave, and their pairs with them. *)
Definition leave_devices (gone : Uuid → bool) (D : Directory) : Directory :=
  mkDirectory (filter (λ kv, gone kv.1 = false) (dir_devices D))
    (filter (λ kv, gone (bd_a kv.2) || gone (bd_b kv.2) = false) (dir_pairs D)).

Inductive dir_step (D : Directory) : Directory → Prop :=
| DJoin d i : may_join d i D → dir_step D (mkDirectory (<[d := i]> (dir_devices D)) (dir_pairs D))
| DBind pid b : may_bind pid b D →
    dir_step D (mkDirectory (dir_devices D) (<[pid := b]> (dir_pairs D)))
| DRevoke pid b t by_ sig : may_revoke pid b t by_ sig D →
    dir_step D (mkDirectory (dir_devices D)
      (<[pid := mkBond (bd_a b) (bd_b b) (bd_attestation b) (Some (t, by_, sig))]> (dir_pairs D)))
| DLeave gone : dir_step D (leave_devices gone D).

(** *** What the machine keeps *)

(** A revoked pair stays as it is until it is removed. *)
Lemma revoked_until_removed D D' pid b :
  rtc dir_step D D' → dir_pairs D !! pid = Some b → bd_status b ≠ None →
  dir_pairs D' !! pid = Some b ∨
  ∃ D1, rtc dir_step D D1 ∧ dir_pairs D1 !! pid = None ∧ rtc dir_step D1 D'.
Proof.
  intros Hr. induction Hr as [|D D1 D' Hs Hr IH]; intros Hb Hst; [by left|].
  assert (dir_pairs D1 !! pid = Some b ∨ dir_pairs D1 !! pid = None) as [H1|H1].
  { destruct Hs as [d i _|pid' b' [Hn _]|pid' b' t by_ sig (Hp & Hn & _)|gone]; cbn [dir_pairs leave_devices].
    - by left.
    - left. rewrite lookup_insert_ne; [done|congruence].
    - left. rewrite lookup_insert_ne; [done|]. intros ->. congruence.
    - rewrite map_lookup_filter, Hb. cbn [mbind option_bind]. case_guard; [by left|by right]. }
  - destruct (IH H1 Hst) as [H|(D2 & H2 & Hn & H3)]; [by left|].
    right. exists D2. split; [by eapply rtc_l|done].
  - right. exists D1. split; [by apply rtc_once|done].
Qed.
End Machine.

(** ** The directory of a database *)

Definition identity (r : DeviceRow) : Identity := mkIdentity (d_ik_sig_pub r) (d_platform r).
Definition bond (p : PairRow) : Bond :=
  mkBond (p_device_a p) (p_device_b p) (p_attestation p)
    (t ← p_revoked_at p; by_ ← p_revoked_by p; sig ← p_revoke_sig p; Some (t, by_, sig)).
Definition directory (db : Db) : Directory := mkDirectory (identity <$> devices db) (bond <$> pairs db).

Section Refinement.
Context {C : Crypto} {P : Postgres}.

(** One query does nothing to the directory or one step of the machine. *)
Definition refines (db db' : Db) : Prop :=
  directory db' = directory db ∨ dir_step (directory db) (directory db').

Lemma refines_usage db f : refines db (set_usage f db).
Proof. by left. Qed.

(** A device row rewritten under the same identity. *)
Lemma refines_insert_device db d r r' :
  devices db !! d = Some r → identity r' = identity r → refines db (set_devices <[d := r']> db).
Proof.
  intros Hd Hi. left. unfold directory. cbn [devices pairs set_devices].
  rewrite fmap_insert, Hi, insert_id; [done|]. by rewrite lookup_fmap, Hd.
Qed.

Lemma refines_alter db f d :
  (∀ r, identity (f r) = identity r) → refines db (set_devices (alter f d) db).
Proof.
  intros Hf. left. unfold directory. cbn [devices pairs set_devices]. f_equal.
  apply map_eq. intros i. rewrite !lookup_fmap. destruct (decide (i = d)) as [->|Hne].
  - rewrite lookup_alter_eq. destruct (devices db !! d); cbn; [by rewrite Hf|done].
  - by rewrite lookup_alter_ne.
Qed.

Lemma refines_delete db gone : refines db (delete_devices gone db).
Proof.
  right. unfold directory, delete_devices. cbn [devices pairs].
  pose proof (DLeave (directory db) gone) as H. unfold leave_devices, directory in H.
  cbn [dir_devices dir_pairs] in H. by rewrite !map_filter_fmap in H.
Qed.

Lemma refines_upsert now d db :
  device_id_from_public_key (nd_ik_sig_pub d) = nd_device_id d → refines db (upsert now d db).2.
Proof.
  intros Hid. unfold upsert. cbv zeta. case_match; [by left|].
  case_bool_decide as Hp; cbn [negb]; [|by left].
  destruct (devices db !! nd_device_id d) as [r|] eqn:E.
  - case_match; [|by left]. by eapply refines_insert_device.
  - case_bool_decide as Hk; [by left|].
    right. unfold directory. cbn [snd devices pairs set_devices]. rewrite fmap_insert.
    apply (DJoin (directory db)). split_and!; cbn.
    + by rewrite lookup_fmap, E.
    + by exists (nd_ik_sig_pub d).
    + done.
    + intros d' i Hi. rewrite lookup_fmap in Hi. apply fmap_Some in Hi as (r & Hr & ->).
      intros He. apply Hk. exists d', r. by split.
Qed.

Lemma refines_set_push_token now d p t topic db : refines db (set_push_token now d p t topic db).2.
Proof.
  unfold set_push_token. case_match; [by left|]. destruct (devices db !! d) as [r|] eqn:E; [|by left].
  case_match; [|by left]. case_bool_decide; [|by left]. by eapply refines_insert_device.
Qed.

Lemma refines_insert_pair np db :
  attested (np_pair_id np) (np_device_a np) (np_device_b np) (np_created_at_ms np)
    (np_attestation np) (np_sig_a np) (np_sig_b np) →
  refines db (insert_pair np db).2.
Proof.
  intros Hat. unfold insert_pair. destruct (ts_of_ms _) as [t|]; [|by left].
  case_bool_decide as Hne; [by left|]. case_bool_decide as He; [by left|].
  destruct (bool_decide_reflect (is_Some (devices db !! np_device_a np))) as [Ha|]; [|by left].
  destruct (bool_decide_reflect (is_Some (devices db !! np_device_b np))) as [Hb|]; [|by left].
  right. unfold directory. cbn [snd devices pairs set_pairs andb]. rewrite fmap_insert.
  apply (DBind (directory db)). split_and!; cbn; try done.
  - apply eq_None_not_Some. by rewrite lookup_fmap, fmap_is_Some.
  - by rewrite lookup_fmap, fmap_is_Some.
  - by rewrite lookup_fmap, fmap_is_Some.
  - by eexists _, _, _.
Qed.

(** Where the database is certified, a pair without a revocation time has no
    revocation at all. *)
Lemma refines_revoke st db :
  db_ok db → 0 <= rs_revoked_at st →
  (∃ ik, signed_by (rs_by st) ik
     (revoke_message (rs_pair_id st) (rs_by st) (rs_revoked_at st)) (rs_sig st)) →
  refines db (revoke st db).2.
Proof.
  intros Hdb H0 [ik Hs]. unfold revoke.
  destruct (pairs db !! rs_pair_id st) as [p|] eqn:E; [|by left].
  destruct (is_member (rs_by st) p) eqn:Em; [|by left]. cbn [andb].
  destruct (unrevoked p) eqn:Eu; [|by left]. apply bool_decide_eq_true in Eu.
  destruct (ts_of_ms (rs_revoked_at st)) as [t|] eqn:Et; [|by left].
  right. unfold directory. cbn [snd devices pairs set_pairs]. rewrite fmap_insert.
  apply (DRevoke (directory db) (rs_pair_id st) (bond p)). split_and!; cbn.
  - by rewrite lookup_fmap, E.
  - by rewrite Eu.
  - apply orb_true_iff in Em as [Hm|Hm]; apply bool_decide_eq_true in Hm; [by left|by right].
  - by exists ik, (rs_sig st), (rs_revoked_at st).
Qed.

(** Every certified query refines the machine. *)
Lemma exec_sql_refines {A} (q : sql A) now db :
  sql_ok q → db_ok db → refines db (exec_sql q now db).2.
Proof.
  intros Hq Hdb. destruct q; cbn [exec_sql snd sql_ok] in *; try by left.
  - by apply refines_upsert.
  - by apply refines_alter.
  - apply refines_set_push_token.
  - by apply refines_alter.
  - unfold delete_with_peers. destruct (check _); [apply refines_delete|by left].
  - by apply refines_insert_pair.
  - destruct Hq. by apply refines_revoke.
  - unfold add_batch. destruct rows; [by left|]. case_match; [apply refines_usage|by left].
  - apply refines_delete.
Qed.

Context {R : RedisServer}.

Lemma exec_refines {X} i (c : cmd X) w :
  sql_cmd_ok X c → db_ok (w_db w) → refines (w_db w) (w_db (exec i c w).2).
Proof.
  intros Hc Hw. destruct c; try (rewrite exec_no_sql by done; by left).
  unfold exec. simpl. unfold faulty. destruct (i_fault i); simpl; [|by left|].
  - pose proof (exec_sql_refines q (w_pgnow w + Z.of_N (i_pg_elapsed i)) (w_db w) Hc Hw) as H.
    by destruct (exec_sql q _ _).
  - by apply exec_sql_refines.
Qed.

(** Interleaved programs that write only what is certified. *)
Lemma pool_refines {A} (ps ps' : list (prog A)) (w w' : World) :
  Forall (issues sql_cmd_ok) ps → db_ok (w_db w) → rtc pool_step (w, ps) (w', ps') →
  rtc dir_step (directory (w_db w)) (directory (w_db w')).
Proof.
  intros Hq Hw Hr.
  refine (proj2 (proj2 (pool_invariant
    (λ w1 ps1, Forall (issues sql_cmd_ok) ps1 ∧ db_ok (w_db w1) ∧
       rtc dir_step (directory (w_db w)) (directory (w_db w1)))
    _ _ _ _ Hr (conj Hq (conj Hw (rtc_refl _ _)))))); [done|].
  clear -Hw. intros w1 ps n X c k i x w2 (Hq & Hw1 & Hd) Hn He.
  pose proof (proj1 (Forall_lookup _ _) Hq _ _ Hn) as [Hc Hk]. split_and!.
  - by apply Forall_insert.
  - pose proof (exec_db_ok i c w1 Hc Hw1) as H. by rewrite He in H.
  - pose proof (exec_refines i c w1 Hc Hw1) as H. rewrite He in H. cbn [snd] in H.
    destruct H as [->|H]; [done|].
    by eapply rtc_r.
Qed.
End Refinement.

(** ** Properties *)

Section Relay.
Context {C : Crypto} {B64 : Base64} {UO : UuidOps} {J : Json} {RJ : RvJson} {JW : JwtLib}
        {L : PushLib} {P : Postgres} {R : RedisServer}.

Lemma tasks_certified (tasks : list (AppState * Task)) : Forall (issues sql_cmd_ok) (map task tasks).
Proof. apply Forall_forall. intros p (t & -> & _)%list_elem_of_fmap. apply task_certified. Qed.
End Relay.

(** C2. The relay refines the directory: whatever runs on whatever instances, in
    whatever interleaving and with whatever lost requests and replies, the
    database moves from one directory to another by steps of the abstract
    machine - joins under a derived, fresh key, bindings both devices signed, one
    revocation a member signed, and removals of devices with their pairs. *)
Theorem relay_refines_directory {C : Crypto} {B64 : Base64} {UO : UuidOps} {J : Json}
    {RJ : RvJson} {JW : JwtLib} {L : PushLib} {P : Postgres} {R : RedisServer}
    (tasks : list (AppState * Task)) (w w' : World) (ps' : list (prog unit)) :
  db_ok (w_db w) → rtc pool_step (w, map task tasks) (w', ps') →
  rtc dir_step (directory (w_db w)) (directory (w_db w')).
Proof. intros Hw Hr. eapply pool_refines; [apply tasks_certified|exact Hw|exact Hr]. Qed.

(** C11. Revocation is final: once a pair is revoked, no interleaving of tasks changes
    its members, its attestation or its statement; it can only be removed, and
    then only a new pair can carry its id. *)
Theorem revocation_final {C : Crypto} {B64 : Base64} {UO : UuidOps} {J : Json}
    {RJ : RvJson} {JW : JwtLib} {L : PushLib} {P : Postgres} {R : RedisServer}
    (tasks : list (AppState * Task)) (w w' : World) (ps' : list (prog unit))
    (pid : Uuid) (p : PairRow) :
  db_ok (w_db w) → rtc pool_step (w, map task tasks) (w', ps') →
  pairs (w_db w) !! pid = Some p → p_revoked_at p ≠ None →
  (∃ p', pairs (w_db w') !! pid = Some p' ∧ bond p' = bond p) ∨
  ∃ D, rtc dir_step (directory (w_db w)) D ∧ dir_pairs D !! pid = None ∧
    rtc dir_step D (directory (w_db w')).
Proof.
  intros Hw Hr Hp Hrev.
  assert (bd_status (bond p) ≠ None) as Hst.
  { destruct (proj2 Hw _ _ Hp) as (_ & _ & _ & _ & Hm). unfold revoked_by_member in Hm. cbn.
    destruct (p_revoked_at p), (p_revoked_by p), (p_revoke_sig p); cbn; naive_solver. }
  assert (rtc dir_step (directory (w_db w)) (directory (w_db w'))) as Hd
    by (eapply pool_refines; [apply tasks_certified|exact Hw|exact Hr]).
  destruct (revoked_until_removed _ _ pid (bond p) Hd) as [H|H]; [|done| |by right].
  - cbn. by rewrite lookup_fmap, Hp.
  - left. cbn in H. rewrite lookup_fmap in H. apply fmap_Some in H as (p' & Hp' & He).
    by exists p'.
Qed.
