(* ===== verification/Examples.v ===== *)
(** * Examples: the theorems at concrete inputs

    Two devices, Alice (an Android phone) and Bob (an iPhone), a pair of them, and
    concrete stand-ins for the external code; every hypothesis of a theorem is
    evaluated on runs of the model. *)

From stdpp Require Import relations pretty countable.
From S2P Require Import Prelude Text Errors Externals Signatures Attestation Revocation Challenge.
From S2P Require Import Wire Bus Tables Redis Scripts Usage Hub IO Pool Invariants Net Config.
From S2P Require Import Limits Presence Rendezvous Push Auth PairRoutes DeviceRoutes PushRoute.
From S2P Require Import Bandwidth Connection Inbound Outbound Serve Maintenance Relay.

Import Demo DemoIO.

Local Open Scope Z_scope.

(** ** Stand-ins for libraries *)

(** A token is the claims and the secret, separated by dots. *)
Definition render (secret : bytes) (c : Claims) : string :=
  sub c +:+ "." +:+ display_Z (iat c) +:+ "." +:+ display_Z (exp c) +:+ "." +:+ jti c +:+ "." +:+
  str_of (hex_encode secret).
Definition unrender (t : string) : option (bytes * Claims) :=
  match split_on (byte_of_Z 0x2E) t with
  | [s; i; e; j; k] =>
    i ← parse_i64 i; e ← parse_i64 e; k ← hex_decode (str_bytes k); Some (k, mkClaims s i e j)
  | _ => None
  end.

#[local] Instance Claims_eq_dec : EqDecision Claims.
Proof. solve_decision. Defined.

(** Claims the text cannot carry are not signed. *)
#[export] Instance example_jwt : JwtLib := {|
  jwt_encode secret c :=
    if bool_decide (unrender (render secret c) = Some (secret, c)) then Some (render secret c) else None;
  jwt_decode secret now t :=
    match unrender t with
    | Some (secret', c) =>
      if bytes_eqb secret secret' then if exp c <? now then Err ExpiredSignature else Ok c
      else Err OtherJwtError
    | None => Err OtherJwtError
    end
|}.

#[export] Instance example_jwt_laws : JwtLaws.
Proof.
  split. intros secret c now t _. cbn [jwt_encode jwt_decode example_jwt].
  case_bool_decide as H; [|done]. intros [= <-]. rewrite H.
  unfold bytes_eqb. by rewrite bool_decide_true.
Qed.

#[export] Instance example_rv : RvJson := {|
  json_env_head _ := Some (mkEnvHead "pair" None);
  json_pair_head _ := None
|}.

#[export] Instance example_push : PushLib := DemoPush.demo_push.

(** ** The devices *)

Definition pub (n : Z) : arr 32 := arr_fill 32 (replicate 32 (byte_of_Z n)).
Definition alice : Uuid := device_id_from_public_key (pub 1).
Definition bob : Uuid := device_id_from_public_key (pub 2).
Definition pid : Uuid := arr_fill 16 (replicate 16 (byte_of_Z 9)).
Definition conn_a : Uuid := arr_fill 16 (replicate 16 (byte_of_Z 10)).
Definition conn_b : Uuid := arr_fill 16 (replicate 16 (byte_of_Z 11)).

(** A text frame of a device is a wrapper for Bob. *)
#[export] Instance example_json : Json := {|
  json_text := DemoPush.show_value;
  json_inbound _ := Some (mkInbound None (Some bob) (Some "{}") None)
|}.

Definition clock : Z := 1000000.
Definition random : bytes := replicate 32 (byte_of_Z 7).
Definition env0 : nat → Input := λ _, calm_at clock random.

(** All of these inputs are this one: nothing is lost and the clock stands still. *)
Definition steady (i : Input) : Prop := i = calm_at clock random.

Lemma env0_steady n : steady (env0 n).
Proof. reflexivity. Qed.
Lemma steady_fine i : steady i → no_fault i.
Proof. by intros ->. Qed.
Lemma seen_steady now : seen steady now → now = clock.
Proof. by intros (i & -> & ->). Qed.

(** The same with push providers that answer every request with 200. *)
Definition env_push : nat → Input := λ _,
  {| i_wall := clock; i_pg_elapsed := 0; i_redis_elapsed := 0; i_elapsed := 0; i_hub := []; i_fault := Fine;
     i_random := Some random; i_uuid := arr_zero 16; i_receivers := 1; i_subscribed := true;
     i_write := Written; i_http := Some (200, "ok") |}.

Definition settings0 : RelaySettings := default_settings "relay-1".
Definition st0 : AppState :=
  mkAppState (mkJwtKeys random) settings0 (mkGateway (Some DemoPush.demo_apns)
    (Some (mkFcmClient "https://f" "https://t" "e" []))).

Definition alice_row : DeviceRow :=
  mkDeviceRow (arr_bytes (pub 1)) "android" "1.0" (Some "fcm") (Some "token") None 0 0 None.
Definition bob_row : DeviceRow :=
  mkDeviceRow (arr_bytes (pub 2)) "ios" "1.0" (Some "apns") (Some "aa") (Some "app") 0 0 None.

Definition attestation0 : bytes := to_bytes (mkAttestation pid alice bob (pub 1) (pub 2) 500).
Definition sig_a : arr 64 := demo_sign (pub 1) attestation0.
Definition sig_b : arr 64 := demo_sign (pub 2) attestation0.
Definition pair_row : PairRow :=
  mkPairRow alice bob attestation0 (arr_bytes sig_a) (arr_bytes sig_b) 500 None None None.

Definition db_devices : Db := mkDb {[alice := alice_row; bob := bob_row]} ∅ ∅.
Definition db_pair : Db := mkDb {[alice := alice_row; bob := bob_row]} {[pid := pair_row]} ∅.
Definition with_devices : World := with_db db_devices world0.
Definition with_pair : World := with_db db_pair world0.

(** A request with the access token of a device. *)
Definition token_of (d : Uuid) : string :=
  default EmptyString (jwt_encode random (mkClaims (hyphenated d) 0 100000 "id")).
Definition http_of (d : Uuid) : Request :=
  mkRequest (Some LOCALHOST4) None (Some ("Bearer " +:+ token_of d)).
Definition http0 : Request := mkRequest (Some LOCALHOST4) None None.

(** ** Runs whose result is a success *)

Definition is_ok {E A} (r : result E A) : bool := match r with Ok _ => true | Err _ => false end.

Lemma run_list_such {A} (f : A → World → bool) (p : prog A) ins w :
  match run_list p ins w with Some (a, w') => f a w' | None => false end = true →
  ∃ a w', runs_with p ins w a w' ∧ f a w' = true.
Proof.
  destruct (run_list p ins w) as [[a w']|] eqn:E; [|done]. intros H. exists a, w'.
  split; [by apply run_list_runs|exact H].
Qed.

Lemma run_such {A} (f : A → World → bool) (p : prog A) env w :
  f (run p env w).1 (run p env w).2 = true → ∃ a w', runs p w a w' ∧ f a w' = true.
Proof. intros H. eexists _, _. split; [apply (run_runs p env w)|exact H]. Qed.

Lemma run_such_in K {A} (f : A → World → bool) (p : prog A) env w :
  (∀ n, K (env n)) → f (run p env w).1 (run p env w).2 = true →
  ∃ a w', runs_in K p w a w' ∧ f a w' = true.
Proof. intros HK H. eexists _, _. split; [by apply (run_runs_in K p env w)|exact H]. Qed.

Lemma run_ok {E A} (p : prog (result E A)) env w :
  is_ok (run p env w).1 = true → ∃ a w', runs p w (Ok a) w'.
Proof.
  intros H. destruct (run_such (λ r _, is_ok r) p env w H) as ([a|e] & w' & Hr & [=]). eauto.
Qed.

Lemma env0_fine n : no_fault (env0 n).
Proof. done. Qed.

Lemma env_push_fine n : no_fault (env_push n).
Proof. done. Qed.

(** A program of a pool that ended with a success. *)
Definition finished {A} (o : option (prog (result ApiError A))) : bool :=
  match o with Some (Ret (Ok _)) => true | _ => false end.
Lemma finished_Some {A} (o : option (prog (result ApiError A))) :
  finished o = true → ∃ a, o = Some (Ret (Ok a)).
Proof. destruct o as [[[a|e]|]|]; try done. by exists a. Qed.

(** A list of commands run one program at a time, [n] commands each. *)
Definition steps (j n : nat) : list (nat * Input) := replicate n (j, calm_at clock random).

(** ** Registration *)

Definition register_alice : RegisterRequest :=
  mkRegisterRequest alice "android" "1.0" (Signatures.encode (arr_bytes (pub 1))) clock
    (Signatures.encode (arr_bytes (demo_sign (pub 1) (registration_message alice (pub 1) "android" clock)))).

Lemma registration_spec_witness :
  verify_registration register_alice clock = Ok (pub 1) ∧
  Z.abs (clock - rg_ts register_alice) <= MAX_TS_SKEW_MS.
Proof.
  assert (verify_registration register_alice clock = Ok (pub 1)) as H by (vm_compute; reflexivity).
  assert (0 <= clock < 2 ^ 62) as Hc by (vm_compute; split; [intros [=]|reflexivity]).
  assert (i64_ok (rg_ts register_alice)) as Ho by (vm_compute; split; intros [=]).
  split; [exact H|].
  pose proof (registration_spec register_alice clock (pub 1) Hc Ho) as [Hr _].
  specialize (Hr H). destruct Hr as (_ & _ & _ & Ht & _).
  destruct Ht as [Ht|Ht]; [exact Ht|]. exfalso. vm_compute in Ht. discriminate Ht.
Defined.

Lemma device_registered_witness :
  ∃ resp w', runs (register_device st0 http0 register_alice) world0 (Ok resp) w' ∧
    is_Some (devices (w_db w') !! rg_device_id register_alice).
Proof.
  destruct (run_ok (register_device st0 http0 register_alice) env0 world0) as (resp & w' & Hr);
    [vm_compute; reflexivity|].
  exists resp, w'. split; [exact Hr|].
  pose proof (device_registered st0 http0 register_alice world0 w' resp Hr)
    as (now & ik & seen & _ & Hd).
  change (devices (w_db world0)) with (∅ : gmap Uuid DeviceRow) in Hd.
  rewrite lookup_empty in Hd. destruct Hd as [_ ->].
  cbn [devices set_devices]. rewrite lookup_insert_eq. by eexists.
Defined.

(** ** Pairs *)

Definition pair_request : PairRequest :=
  mkPairRequest pid alice bob 500 (encode attestation0) (encode (arr_bytes sig_a))
    (encode (arr_bytes sig_b)).

Lemma pair_registered_witness :
  ∃ resp w', runs (register_pair alice pair_request) with_devices (Ok resp) w' ∧
    pr_device_a pair_request ≠ pr_device_b pair_request.
Proof.
  destruct (run_ok (register_pair alice pair_request) env0 with_devices) as (resp & w' & Hr);
    [vm_compute; reflexivity|].
  exists resp, w'. split; [exact Hr|].
  pose proof (pair_registered alice pair_request with_devices w' resp Hr)
    as (f & ra & rb & ka & kb & _ & Hne & _).
  exact Hne.
Defined.

(** Alice's statement that revokes the pair. *)
Definition revoke_sig : arr 64 := demo_sign (pub 1) (revoke_message pid alice clock).
Definition revoke_request : RevokeRequest :=
  mkRevokeRequest (Some clock) (Some (encode (arr_bytes revoke_sig))) None.


(** ** Sign-in *)

Definition chal : arr 32 := pub 7.
Definition token_request : TokenRequest :=
  mkTokenRequest alice (encode (arr_bytes chal))
    (encode (arr_bytes (demo_sign (pub 1) (auth_message chal alice)))).
Definition with_chal : World :=
  with_redis {[challenge_key alice chal := (RStr (encode (arr_bytes chal)), None)]} with_devices.

Lemma token_requires_proof_witness :
  ∃ resp w', runs (token st0 http0 token_request) with_chal (Ok resp) w' ∧
    ∃ tok, resp =
      resp_json 200 (VObj [("access_token", VStr tok); ("expires_in", VNum JWT_TTL_SECS)]).
Proof.
  destruct (run_ok (token st0 http0 token_request) env0 with_chal) as (resp & w' & Hr);
    [vm_compute; reflexivity|].
  exists resp, w'. split; [exact Hr|].
  pose proof (token_requires_proof st0 http0 token_request with_chal w' resp Hr)
    as (sig & c & ik & s & t & _ & _ & _ & _ & _ & _ & _ & now & id & tok & _ & H).
  exists tok. exact H.
Defined.

Lemma issued_token_verifies_witness :
  ∃ tok n w', runs (issue (st_jwt st0) alice clock) world0 (Ok (tok, n)) w' ∧
    verify_at (st_jwt st0) (clock + 1) tok = Ok alice.
Proof.
  destruct (run_ok (issue (st_jwt st0) alice clock) env0 world0) as ([tok n] & w' & Hr);
    [vm_compute; reflexivity|].
  exists tok, n, w'. split; [exact Hr|].
  assert (0 <= clock) as H0 by (vm_compute; intros [=]).
  assert (clock + JWT_TTL_SECS <= i64_max) as H1 by (vm_compute; intros [=]).
  pose proof (issued_token_verifies (st_jwt st0) alice clock world0 w' tok n H0 H1 Hr) as [_ H].
  specialize (H (clock + 1)). rewrite H.
  assert ((clock + JWT_TTL_SECS <? clock + 1) = false) as -> by (vm_compute; reflexivity).
  reflexivity.
Defined.

Lemma from_request_outcome_witness :
  ∃ d w', runs_in steady (from_request st0 (http_of alice)) with_devices (Ok d) w' ∧
    presents_device steady st0 (http_of alice) d ∧ is_Some (devices (w_db with_devices) !! d).
Proof.
  destruct (run_such_in steady (λ r _, is_ok r) (from_request st0 (http_of alice)) env0 with_devices
    env0_steady) as ([d|e] & w' & Hr & Hok); [vm_compute; reflexivity| |discriminate Hok].
  exists d, w'. split; [exact Hr|].
  pose proof (from_request_outcome steady st0 (http_of alice) with_devices w' (Ok d) Hr) as [_ [H1 H2]].
  split; [exact H1|]. destruct H2 as (row & ik & H2 & _). exists row. exact H2.
Defined.

(** The same proof sent twice: one of the requests gets a token. *)
Lemma challenge_single_use_witness : (length [0%nat] <= 1)%nat.
Proof.
  pose (ps := [token st0 http0 token_request; token st0 http0 token_request]).
  pose (s := pool_run (steps 0 8 ++ steps 1 8) (with_chal, ps)).
  assert (Forall (issues (take_cmd (challenge_key alice chal))) ps) as Hi
    by (constructor; [|constructor; [|constructor]]; apply token_issues).
  assert (∀ j p, ps !! j = Some p → j ∈ [0%nat] → ∃ state http req,
     p = token state http req ∧ tr_device_id req = alice ∧
     decode_fixed 32 (tr_challenge req) = Some chal) as Hp.
  { intros j p Hj Hin. apply list_elem_of_singleton in Hin as ->. injection Hj as <-.
    exists st0, http0, token_request. split; [done|]. split; [done|]. vm_compute. reflexivity. }
  assert (rtc pool_step (with_chal, ps) (s.1, s.2)) as Hr
    by (rewrite <-surjective_pairing; apply pool_run_steps).
  assert (Forall (λ j, ∃ resp, s.2 !! j = Some (Ret (Ok resp))) [0%nat]) as Hj.
  { constructor; [|constructor]. apply finished_Some. vm_compute. reflexivity. }
  exact (challenge_single_use alice chal ps s.2 with_chal s.1 [0%nat] Hi Hp Hr (NoDup_singleton _) Hj).
Defined.

(** ** Removing a device *)

Definition removal : result ApiError DeleteRequest :=
  Ok (mkDeleteRequest [mkRevocation pid (Some clock) (Some (encode (arr_bytes revoke_sig)))]).
Definition q_revoke : DeleteQuery := mkDeleteQuery true.
Definition gone (w : World) : bool := bool_decide (devices (w_db w) !! alice = None).

Lemma device_removed_witness :
  ∃ r w', runs_in steady (delete_me st0 (http_of alice) q_revoke removal) with_pair r w' ∧
    ∃ device, w_db w' = delete_devices (λ d, bool_decide (d = device)) (w_db with_pair).
Proof.
  destruct (run_such_in steady (λ _, gone) (delete_me st0 (http_of alice) q_revoke removal) env0
    with_pair env0_steady) as (r & w' & Hr & Hg); [vm_compute; reflexivity|].
  exists r, w'. split; [exact Hr|].
  pose proof (device_removed steady st0 (http_of alice) q_revoke removal with_pair w' r Hr) as [Hd|Hd].
  - unfold gone in Hg. rewrite Hd in Hg. exfalso. vm_compute in Hg. discriminate Hg.
  - destruct Hd as (token & i & device & ik & at_ & _ & _ & _ & _ & _ & Hd & _). exists device. exact Hd.
Defined.

Lemma removal_told_witness :
  ∃ resp w', runs_in steady (delete_me st0 (http_of alice) q_revoke removal) with_pair (Ok resp) w' ∧
    ∃ device ik l,
      Forall2 (removal_notice true device ik clock) (held_pairs device (w_db with_pair)) l ∧
      w_published w' = w_published with_pair ++ map told l ++
        [(device_channel device, bus_encode (Close CLOSE_NORMAL))].
Proof.
  destruct (run_such_in steady (λ r w, is_ok r && gone w)
    (delete_me st0 (http_of alice) q_revoke removal) env0 with_pair env0_steady)
    as (r & w' & Hr & Hg); [vm_compute; reflexivity|].
  apply andb_true_iff in Hg as [Hok Hg]. destruct r as [resp|e]; [|discriminate Hok].
  exists resp, w'. split; [exact Hr|].
  assert (w_db w' ≠ w_db with_pair) as Hne.
  { intros Hd. unfold gone in Hg. rewrite Hd in Hg. vm_compute in Hg. discriminate Hg. }
  pose proof (removal_told steady st0 (http_of alice) q_revoke removal with_pair w' resp steady_fine Hr Hne)
    as (device & ik & at_ & l & _ & _ & Hat & Hl & Hp).
  apply seen_steady in Hat as ->. exists device, ik, l. split; [exact Hl|exact Hp].
Defined.

(** ** Push *)

Definition put_token : PushTokenRequest := mkPushTokenRequest "fcm" "t0ken" None.

Lemma push_token_stored_witness :
  ∃ resp w', runs (put_push_token st0 alice put_token) with_devices (Ok resp) w' ∧
    r_status resp = 204.
Proof.
  destruct (run_ok (put_push_token st0 alice put_token) env0 with_devices) as (resp & w' & Hr);
    [vm_compute; reflexivity|].
  exists resp, w'. split; [exact Hr|].
  pose proof (push_token_stored st0 alice put_token with_devices w' resp Hr)
    as (r & provider & token & topic & seen & _ & _ & _ & _ & H & _).
  exact H.
Defined.

(** Bob wakes Alice's phone. *)
Definition wake_request : PushRequest :=
  mkPushRequest pid alice "wake" "user_open" None None None.

Lemma push_authorized_witness :
  ∃ r w', runs (send st0 bob wake_request) with_pair r w' ∧ r = Ok accepted.
Proof.
  destruct (run_such (λ r _, is_ok r) (send st0 bob wake_request) env_push with_pair)
    as (r & w' & Hr & Hok); [vm_compute; reflexivity|].
  exists r, w'. split; [exact Hr|].
  pose proof (push_authorized st0 bob wake_request with_pair w' r Hr) as [_ H].
  destruct H as [H _]; [|exact H]. destruct r as [a|e]; [by exists a|discriminate Hok].
Defined.

Definition wake_valid : ValidPush := mkValidPush KWake UserOpen None None (default_ttl_s UserOpen).

Lemma wakes_coalesced_witness :
  ∃ r w', runs_in no_fault (send st0 bob wake_request) with_pair r w' ∧
    ∃ at_, w_rnow with_pair <= at_ <= w_rnow w' ∧ ∀ t, w_rnow w' <= t →
      r_val (w_redis w') t (wake_key alice UserOpen) =
        if t <? at_ + 1000 * WAKE_COALESCE_SECS then Some (RStr "1") else None.
Proof.
  destruct (run_such_in no_fault (λ r w, is_ok r && negb (Nat.eqb (length (w_http w)) 0))
    (send st0 bob wake_request) env_push with_pair env_push_fine)
    as (r & w' & Hr & Hok); [vm_compute; reflexivity|].
  apply andb_true_iff in Hok as [Hok Hh].
  exists r, w'. split; [exact Hr|].
  assert (validate_push wake_request = Ok wake_valid) as Hv by (vm_compute; reflexivity).
  pose proof (wakes_coalesced st0 bob wake_request wake_valid with_pair w' r Hv eq_refl Hr) as [_ H].
  destruct H as [H _].
  - intros E. rewrite E in Hh. discriminate Hh.
  - apply H. destruct r as [a|e]; [by exists a|discriminate Hok].
Defined.
