(* ===== verification/ExampleRuns.v ===== *)
(** * ExampleRuns: the theorems on the relay at concrete inputs

    The devices and the stand-ins of [Examples], connected to the relay: frames
    between them, the hub's queues, and the jobs of an instance. *)

From stdpp Require Import relations.
From S2P Require Import Prelude Text Errors Externals Signatures Attestation Revocation Challenge.
From S2P Require Import Wire Bus Tables Redis Scripts Usage Hub IO Pool Invariants Net Config.
From S2P Require Import Limits Presence Rendezvous Push Auth PairRoutes DeviceRoutes PushRoute.
From S2P Require Import Bandwidth Connection Inbound Outbound Serve Session Maintenance Relay.
From S2P Require Import Crossing Routing Keyspace Directory Examples.

Import Demo DemoIO.

Local Open Scope Z_scope.

(** ** The bus and the hub *)

Lemma bus_roundtrip_witness : bus_decode (bus_encode (Close CLOSE_IDLE)) = Some (Close CLOSE_IDLE).
Proof. apply (bus_roundtrip (Close CLOSE_IDLE)). vm_compute. by split. Defined.

Definition hub_ops : list HubOp := [OpRegister alice conn_a; OpDispatch alice (Control "hi")].

Lemma hub_queue_bounded_witness :
  ∃ c, chans (hub_run 100 hub_ops empty_hub) !! conn_a = Some c ∧ ch_queued c <= 100.
Proof.
  assert (is_Some (chans (hub_run 100 hub_ops empty_hub) !! conn_a)) as [c Hc].
  { apply (bool_decide_unpack _). vm_compute. exact I. }
  exists c. split; [exact Hc|].
  assert (0 <= 100 < 2 ^ 63) as Hm by (vm_compute; split; [intros [=]|reflexivity]).
  assert (Forall op_ok hub_ops) as Ho.
  { constructor; [exact I|]. constructor; [vm_compute; reflexivity|constructor]. }
  assert (ch_kill c = false) as Hk.
  { assert (option_map ch_kill (chans (hub_run 100 hub_ops empty_hub) !! conn_a) = Some false) as H
      by (vm_compute; reflexivity). rewrite Hc in H. injection H as H. exact H. }
  pose proof (hub_queue_bounded 100 hub_ops conn_a c Hm Ho Hc Hk) as [_ H]. exact H.
Defined.

Lemma newest_connection_serves_witness :
  registry (hub_run 100 [OpDispatch alice (Control "hi")] (register alice conn_a empty_hub).2)
    !! alice = Some conn_a.
Proof.
  assert (Forall (λ op, (∀ c', op ≠ OpRegister alice c') ∧ op ≠ OpUnregister alice conn_a)
    [OpDispatch alice (Control "hi")]) as Ho.
  { constructor; [|constructor]. split; [intros c'|]; intros [=]. }
  pose proof (newest_connection_serves 100 alice conn_a _ empty_hub Ho) as [H _]. exact H.
Defined.

(** ** Two connections *)

Definition conn_of_alice : Conn := with_peers [(pid, bob)] (new_conn alice conn_a).
Definition conn_of_bob : Conn := with_peers [(pid, alice)] (new_conn bob conn_b).

(** The pair's devices, one connection of Alice. *)
Definition connected : World :=
  with_redis {[presence_key alice := (RStr "relay-1", None)]}
    (with_hub (register alice conn_a empty_hub).2 with_pair).

Definition published_one (w : World) : bool := Nat.eqb (length (w_published w)) 1.

Lemma text_confined_witness :
  ∃ e c' w', runs (handle_text st0 "x" conn_of_alice) connected (e, c') w' ∧
    ∃ m, published_since connected w' [m] ∧ text_publishes connected conn_of_alice c' "x" m.
Proof.
  destruct (run_such (λ _, published_one) (handle_text st0 "x" conn_of_alice) env0 connected)
    as ([e c'] & w' & Hr & Hp); [vm_compute; reflexivity|].
  exists e, c', w'. split; [exact Hr|].
  pose proof (text_confined st0 "x" conn_of_alice c' connected w' e
    (conn_ok_with_peers _ _) Hr) as (_ & _ & l & Hl & Hf).
  unfold published_one in Hp. rewrite Hl in Hp. change (w_published connected) with (@nil (string * bytes)) in Hp.
  destruct l as [|m [|m2 l]]; [discriminate Hp| |discriminate Hp].
  exists m. split; [exact Hl|]. apply Forall_cons in Hf as [Hf _]. exact Hf.
Defined.

Definition data_frame : bytes := hr_header ++ arr_bytes bob ++ [byte_of_Z 1; byte_of_Z 2].

Lemma binary_confined_witness :
  ∃ e c' w', runs (handle_binary st0 data_frame conn_of_alice) connected (e, c') w' ∧
    conn_ok c' ∧ same_conn conn_of_alice c'.
Proof.
  destruct (run_such (λ _, published_one) (handle_binary st0 data_frame conn_of_alice) env0 connected)
    as ([e c'] & w' & Hr & Hp); [vm_compute; reflexivity|].
  exists e, c', w'. split; [exact Hr|].
  pose proof (binary_confined st0 data_frame conn_of_alice c' connected w' e
    (conn_ok_with_peers _ _) Hr) as (Hok & Hs & _).
  split; [exact Hok|exact Hs].
Defined.

(** What Alice's frame puts on the bus for Bob. *)
Definition crossing : BusMessage :=
  ForwardBinary alice (hr_header ++ arr_bytes alice ++ [byte_of_Z 1; byte_of_Z 2]).
Definition to_bob (w : World) : bool :=
  bool_decide (w_published w = [(device_channel bob, bus_encode crossing)]).
Definition wrote_one (w : World) : bool := Nat.eqb (length (w_written w)) 1.

Lemma binary_frame_crosses_witness :
  ∃ e a' w2 e' b' w4,
    runs (handle_binary st0 data_frame conn_of_alice) connected (e, a') w2 ∧
    runs (on_delivery st0 (DBus crossing) conn_of_bob) connected (e', b') w4 ∧
    ∃ hl, data_frame = hr_header ++ arr_bytes bob ++ hl ∧
      w_written w4 = [(conn_b, WBinary (hr_header ++ arr_bytes alice ++ hl))].
Proof.
  destruct (run_such (λ _, to_bob) (handle_binary st0 data_frame conn_of_alice) env0 connected)
    as ([e a'] & w2 & Hr & Hp); [vm_compute; reflexivity|].
  destruct (run_such (λ _, wrote_one) (on_delivery st0 (DBus crossing) conn_of_bob) env0 connected)
    as ([e' b'] & w4 & Hd & Hw); [vm_compute; reflexivity|].
  exists e, a', w2, e', b', w4. split; [exact Hr|]. split; [exact Hd|].
  apply bool_decide_eq_true in Hp.
  assert (bus_decode (bus_encode crossing) = Some crossing) as Hm by (vm_compute; reflexivity).
  pose proof (binary_frame_crosses st0 data_frame conn_of_alice a' conn_of_bob b' connected w2
    connected w4 e e' (bus_encode crossing) crossing (conn_ok_with_peers _ _) Hr Hp Hm Hd) as H.
  destruct H as [H|(hl & _ & Hf & _ & _ & H)].
  - unfold wrote_one in Hw. rewrite H in Hw. discriminate Hw.
  - exists hl. split; [exact Hf|exact H].
Defined.

(** The frame of the device's own instance, queued for Bob behind a resync. *)
Definition bobs_bus : BusTask :=
  mkBusTask (mkHub {[bob := conn_b]} {[conn_b := mkChan [DResync] 0 false true]} []) {[bob]}.

Lemma frame_arrives_witness :
  ∃ e a' w2 b' w4,
    runs_in no_fault (on_client_message st0 (MBinary data_frame) conn_of_alice) connected (e, a') w2 ∧
    published_since connected w2 [(device_channel bob, bus_encode crossing)] ∧
    (receive 2 bob conn_b (bt_hub (bus_step 1000 (EvMessage (device_channel bob)
       (bus_encode crossing)) bobs_bus).2)).1 = [Got DResync; Got (DBus crossing)] ∧
    runs (on_delivery st0 (DBus crossing) conn_of_bob) connected (None, b') w4 ∧ b' = conn_of_bob ∧
    w_written w4 = w_written connected ++
      [(conn_b, WBinary (hr_header ++ arr_bytes alice ++ [byte_of_Z 1; byte_of_Z 2]))].
Proof.
  destruct (run_such_in no_fault (λ r _, bool_decide (cn_pending r.2 = None))
    (on_client_message st0 (MBinary data_frame) conn_of_alice) env0 connected env0_fine)
    as ([e a'] & w2 & Hr & Hp); [vm_compute; reflexivity|].
  destruct (run_such (λ r _, bool_decide (r.1 = None)) (on_delivery st0 (DBus crossing) conn_of_bob)
    env0 connected) as ([e' b'] & w4 & Hd & He); [vm_compute; reflexivity|].
  apply bool_decide_eq_true in Hp, He. cbn [fst snd] in Hp, He. subst e'.
  assert (cn_device conn_of_alice = alice) as Hme by reflexivity.
  assert (addressed (cn_device conn_of_alice) bob (MBinary data_frame) crossing
    (WBinary (hr_header ++ arr_bytes alice ++ [byte_of_Z 1; byte_of_Z 2]))) as Ha
    by (rewrite Hme; apply Addressed_binary; [discriminate|vm_compute; discriminate]).
  assert (bus_ok crossing) as Hok by exact I.
  assert (is_device_id bob = true) as Hid by (vm_compute; reflexivity).
  assert (bob ∈ cn_peers conn_of_alice) as Hb by (apply elem_of_list_to_set; left).
  assert (cn_device conn_of_alice ∈ cn_peers conn_of_bob) as Hal
    by (rewrite Hme; apply elem_of_list_to_set; left).
  pose proof (frame_arrives st0 conn_of_alice a' bob (MBinary data_frame) crossing _ connected w2 e
    Ha) as H.
  specialize (H Hok).
  specialize (H Hid). specialize (H Hb).
  specialize (H Hr).
  destruct H as (H1 & H2 & H3).
  destruct (H3 st0 conn_of_bob b' connected w4 Hal Hd) as [Heq Hw].
  exists e, a', w2, b', w4. split; [exact Hr|]. split.
  { destruct H1 as [H1|(_ & _ & dl & _ & H1)]; [exact H1|]. rewrite H1 in Hp. discriminate Hp. }
  split; [|split; [exact Hd|split; [exact Heq|exact Hw]]].
  apply (H2 1000 bobs_bus conn_b (mkChan [DResync] 0 false true)); vm_compute; (reflexivity || discriminate).
Defined.

Definition hello : BusMessage := ForwardText alice "hello".

Lemma delivery_checks_peer_witness :
  ∃ e c' w', runs_in steady (on_delivery st0 (DBus hello) conn_of_bob) connected (e, c') w' ∧
    peer_checked steady alice connected w' conn_of_bob c' ∧
    w_written w' = w_written connected ++ [(conn_b, WText "hello")].
Proof.
  destruct (run_such_in steady (λ _, wrote_one) (on_delivery st0 (DBus hello) conn_of_bob) env0 connected
    env0_steady) as ([e c'] & w' & Hd & Hw); [vm_compute; reflexivity|].
  exists e, c', w'. split; [exact Hd|].
  assert (carries alice hello (WText "hello")) as Hc by (left; exists "hello"; split; reflexivity).
  pose proof (delivery_checks_peer steady st0 alice hello (WText "hello") conn_of_bob c' connected w' e
    Hc Hd) as (Hp & _ & H).
  split; [exact Hp|]. assert (w_written w' ≠ w_written connected) as Hne.
  { intros E. unfold wrote_one in Hw. rewrite E in Hw. discriminate Hw. }
  destruct (bool_decide (alice ∈ cn_peers c')).
  - destruct H as [[_ H]|[H _]]; [exact H|by destruct Hne].
  - destruct H as [_ H]. by destruct Hne.
Defined.

(** A connection that knows no peer yet loads them. *)
Lemma is_peer_spec_witness :
  ∃ c' w', runs_in steady (is_peer bob (new_conn alice conn_a)) connected (true, c') w' ∧
    ∀ p, p ∈ cn_peers c' ↔ valid_peer alice (w_db connected) p.
Proof.
  destruct (run_such_in steady (λ r _, r.1) (is_peer bob (new_conn alice conn_a)) env0 connected
    env0_steady) as ([b c'] & w' & Hr & Hb); [vm_compute; reflexivity|]. cbn [fst] in Hb. subst b.
  exists c', w'. split; [exact Hr|].
  pose proof (is_peer_spec steady bob (new_conn alice conn_a) c' connected w' true Hr) as ([Hin _] & _ & H).
  specialize (Hin eq_refl).
  destruct H as [[H _]|(_ & now & _ & [[(t & H & _) _]|(_ & _ & [H|[(i & Hi & Hl) _]])])].
  - by apply not_elem_of_empty in H.
  - discriminate H.
  - exact H.
  - exfalso. apply Hl. by apply steady_fine.
Defined.

(** ** The life of a connection *)

Lemma open_spec_witness :
  ∃ c' w', runs_in steady (open st0 (new_conn alice conn_a)) connected (Ok tt, c') w' ∧
    ∃ wc, w_redis wc = r_setex (presence_key alice) (instance_id (st_settings st0)) PRESENCE_TTL_SECS
                         (w_rnow wc) (w_redis connected) ∧
      w_published wc = w_published connected ∧
      w_published w' = w_published connected ++
        (device_channel alice, bus_encode (Replace conn_a))
        :: map (announced (new_conn alice conn_a) true) (cn_pairs c').
Proof.
  destruct (run_such_in steady (λ r _, is_ok r.1) (open st0 (new_conn alice conn_a)) env0
    connected env0_steady) as ([[[]|e] c'] & w' & Hr & Hb); [vm_compute; reflexivity| |discriminate Hb].
  exists c', w'. split; [exact Hr|].
  pose proof (open_spec steady st0 (new_conn alice conn_a) c' connected w' steady_fine Hr)
    as (wc & t2 & t3 & now & _ & _ & _ & _ & Hp & _ & Hs & _ & _ & _ & _ & H).
  exists wc. split; [exact Hs|]. split; [exact Hp|exact H].
Defined.

Lemma finish_spec_witness :
  ∃ w', runs_in steady (finish st0 conn_of_alice ClientClosed) connected tt w' ∧
    (∃ h, meanwhile steady (w_max_queued connected) (w_hub connected) h) ∧
    w_written w' = w_written connected ++ [(conn_a, WClose CLOSE_NORMAL)].
Proof.
  destruct (run_such_in steady (λ _ _, true) (finish st0 conn_of_alice ClientClosed) env0
    connected env0_steady) as ([] & w' & Hr & _); [reflexivity|].
  exists w'. split; [exact Hr|].
  pose proof (finish_spec steady st0 conn_of_alice ClientClosed connected w' steady_fine Hr) as [H1 H2].
  destruct H1 as (h & Hh & _). split; [exists h; exact Hh|].
  destruct H2 as [H2|(_ & i & -> & H2)]; [exact H2|]. by destruct H2.
Defined.

Definition held : Pending := mkPending bob hello 5 0.
Definition close_turn : Turn := mkTurn (Some (ReadMessage MClose)) false false.

Lemma held_frame_blocks_reading_witness :
  ∃ e s w', runs (serve_turn st0 close_turn (with_pending (Some held) conn_of_alice, 7)) connected
      (e, s) w' ∧ s.2 = 7.
Proof.
  destruct (run_such (λ _, published_one)
    (serve_turn st0 close_turn (with_pending (Some held) conn_of_alice, 7)) env0 connected)
    as ([e [c' last]] & w' & Hr & _); [vm_compute; reflexivity|].
  exists e, (c', last), w'. split; [exact Hr|].
  pose proof (held_frame_blocks_reading st0 close_turn (with_pending (Some held) conn_of_alice) c' 7
    last held connected w' e eq_refl Hr) as [H _]. exact H.
Defined.

Definition idle_turn : Turn := mkTurn None false false.

(** The bus task dispatches a message for Alice while her connection serves. *)
Definition arriving : Input :=
  {| i_wall := clock; i_pg_elapsed := 0; i_redis_elapsed := 0; i_elapsed := 0;
     i_hub := [OpDispatch alice (Control "hi")]; i_fault := Fine; i_random := Some random;
     i_uuid := arr_zero 16; i_receivers := 1; i_subscribed := true; i_write := Written; i_http := None |}.
Definition env_hub (n : nat) : Input := if Nat.eqb n 13 then arriving else env0 n.
Lemma env_hub_fine n : no_fault (env_hub n).
Proof. unfold env_hub. by destruct (Nat.eqb n 13). Qed.
Definition wrote_hi (w : World) : bool :=
  existsb (λ m : Uuid * WsFrame, match m.2 with WText t => String.eqb t "hi" | _ => false end) (w_written w).

Lemma connection_speaks_for_itself_witness :
  ∃ ended w', runs_in no_fault (run_conn st0 alice [idle_turn; close_turn]) with_pair ended w' ∧
    wrote_hi w' = true ∧ ∃ i, adds_own alice (i_uuid i) with_pair w'.
Proof.
  destruct (run_such_in no_fault (λ r w, r && wrote_hi w) (run_conn st0 alice [idle_turn; close_turn])
    env_hub with_pair env_hub_fine) as (ended & w' & Hr & Hb); [vm_compute; reflexivity|].
  exists ended, w'. split; [exact Hr|]. split; [by apply andb_true_iff in Hb as [_ Hb]|].
  pose proof (connection_speaks_for_itself no_fault st0 alice [idle_turn; close_turn] with_pair w' ended Hr)
    as (i & _ & _ & H).
  exists i. exact H.
Defined.

Lemma session_well_formed_witness :
  ∃ e c' w', runs (serve st0 [close_turn] (new_conn alice conn_a)) connected (e, c') w' ∧
    session_ok alice conn_a c'.
Proof.
  destruct (run_such (λ _ _, true) (serve st0 [close_turn] (new_conn alice conn_a)) env0 connected)
    as ([e c'] & w' & Hr & _); [reflexivity|].
  exists e, c', w'. split; [exact Hr|].
  exact (session_well_formed st0 alice conn_a [close_turn] (new_conn alice conn_a) c' connected w' e
    (session_new alice conn_a) Hr).
Defined.

(** One delivery waits in front of the held frame, and another arrives. *)
Definition busy : World :=
  with_hub (dispatch 1000 alice (Control "hi") (register alice conn_a empty_hub).2) connected.
Definition three_turns : list Turn := [idle_turn; idle_turn; idle_turn].
Definition eleven_inputs : list Input :=
  replicate 3 (env0 O) ++ [arriving] ++ replicate 7 (env0 O).

Lemma held_frame_sent_witness :
  ∃ s w', runs_with (serve_loop st0 three_turns (with_pending (Some held) conn_of_alice, 7))
            eleven_inputs busy (None, s) w' ∧
    ∃ l, published_since busy w' l ∧ (device_channel bob, bus_encode hello) ∈ l.
Proof.
  destruct (run_list_such (λ r _, bool_decide (r.1 = None))
    (serve_loop st0 three_turns (with_pending (Some held) conn_of_alice, 7)) eleven_inputs busy)
    as ([e [c' last]] & w' & E & He); [vm_compute; reflexivity|].
  apply bool_decide_eq_true in He. cbn [fst] in He. subst e.
  exists (c', last), w'. split; [exact E|].
  assert (pn_deadline held <= w_instant busy) as Hd by (vm_compute; intros [=]).
  assert (Forall (fair conn_a) eleven_inputs) as Hf.
  { repeat constructor; intros d' [=]. }
  assert (sole alice conn_a (w_hub busy)) as Hs.
  { intros d' H. unfold busy in H. cbn [w_hub with_hub] in H. rewrite registry_dispatch in H.
    cbn [registry register snd] in H.
    by apply lookup_insert_Some in H as [[-> _]|[_ H]]. }
  assert ((backlog conn_a (w_hub busy) + arrivals alice conn_a eleven_inputs < length three_turns)%nat) as Hl
    by (apply Nat.ltb_lt; vm_compute; reflexivity).
  pose proof (held_frame_sent st0 three_turns (with_pending (Some held) conn_of_alice) c' 7 last
    held eleven_inputs busy w' None eq_refl Hd Hf Hs Hl E) as [H|H]; [by destruct H|exact H].
Defined.

(** ** Rendezvous and notices *)

Definition room : World :=
  with_redis {[rv_key "r" := (RSet {[hyphenated bob]}, None)]} world0.

Lemma join_outcome_witness :
  ∃ j w', runs (join "r" alice) room (Some j) w' ∧ j ≠ Full.
Proof.
  destruct (run_such (λ r _, bool_decide (is_Some r)) (join "r" alice) env0 room)
    as ([j|] & w' & Hr & Hb); [vm_compute; reflexivity| |discriminate Hb].
  exists j, w'. split; [exact Hr|].
  pose proof (join_outcome "r" alice room w' j Hr) as (t & _ & H).
  specialize (H {[bob]}).
  assert (set_of (r_val (w_redis room) t (rv_key "r")) = Some (set_map hyphenated ({[bob]} : gset Uuid)))
    as Hs.
  { change (r_val (w_redis room) t (rv_key "r"))
      with (DemoRedis.val {[rv_key "r" := (RSet {[hyphenated bob]}, None)]} t (rv_key "r")).
    unfold DemoRedis.val. rewrite lookup_singleton_eq, set_map_singleton_L. reflexivity. }
  specialize (H Hs). rewrite size_singleton in H. specialize (H ltac:(lia)).
  rewrite bool_decide_true in H by (right; lia). destruct H as (members & -> & _). intros [=].
Defined.

Definition notice : RevokeStatement := mkStatement pid alice clock revoke_sig.
Definition noticed : prog (option unit * option (list RevokeStatement)) :=
  let! a := add_revoked_notice bob notice in
  let! r := take_revoked_notices bob in Ret (a, r).

Lemma notice_delivered_witness :
  ∃ w1 w2 sts, runs (add_revoked_notice bob notice) world0 (Some tt) w1 ∧
    runs (take_revoked_notices bob) w1 (Some sts) w2 ∧ notice ∈ sts.
Proof.
  destruct (run_such (λ r w, match r with (Some _, Some _) => w_rnow w <? 1000 | _ => false end)
    noticed env0 world0) as ([a r] & w2 & Hr & Hb); [vm_compute; reflexivity|].
  apply runs_bind in Hr as (x & w1 & H1 & Hr). apply runs_bind in Hr as (y & w2' & H2 & [[= -> ->] ->]).
  destruct a as [[]|]; [|discriminate Hb]. destruct r as [sts|]; [|discriminate Hb].
  exists w1, w2, sts. split; [exact H1|]. split; [exact H2|].
  assert (i64_ok (rs_revoked_at notice)) as Hi by (vm_compute; split; intros [=]).
  assert (∀ t, is_Some (set_of (r_val (w_redis world0) t (revoked_notice_key bob)))) as Hs
    by (intros t; eexists; reflexivity).
  assert (w_rnow w2 < w_rnow w1 + 1000 * REVOKED_NOTICE_TTL_SECS) as Ht.
  { pose proof (runs_rnow _ _ _ _ H1) as Hw. apply Z.ltb_lt in Hb.
    change (w_rnow world0) with 0 in Hw. unfold REVOKED_NOTICE_TTL_SECS. lia. }
  pose proof (notice_delivered bob notice world0 w1 w2 sts Hi Hs H1 Ht H2) as [H _]. exact H.
Defined.

(** ** The jobs of an instance *)

Definition counted : World := with_usage {[alice := mkTally 1 20 0]} world0.

Lemma flush_keeps_counters_witness :
  ∃ w', runs_in steady flush counted (Some 1) w' ∧ w_usage w' = ∅ ∧
    ∃ salt, month_salt steady counted w' salt.
Proof.
  destruct (run_such_in steady (λ r _, bool_decide (r = Some 1)) flush env0 counted env0_steady)
    as (r & w' & Hr & Hb); [vm_compute; reflexivity|].
  apply bool_decide_eq_true in Hb. subst r. exists w'. split; [exact Hr|].
  assert (w_usage counted = {[alice := mkTally 1 20 0]}) as Hc by reflexivity.
  assert (map_Forall (λ _, tally_ok) (w_usage counted)) as Hu.
  { rewrite Hc. intros d t Hd. apply lookup_singleton_Some in Hd as [_ <-].
    vm_compute. repeat split; intros [=]. }
  pose proof (flush_keeps_counters steady counted w' (Some 1) Hu Hr) as (_ & H & H').
  split; [exact H|]. destruct H' as [[H' _]|(now & salt & _ & Hs & _)]; [|exists salt; exact Hs].
  rewrite Hc in H'. apply (f_equal (lookup alice)) in H'. by rewrite lookup_singleton_eq in H'.
Defined.

(** ** Routing *)

(** A body that is read as it is; one registration and no other request parses. *)
#[export] Instance example_extractors : Extractors := {|
  Body := bytes;
  Query := unit;
  read limit b := if Z.of_nat (length b) <=? limit then Ok b else Err Overflow;
  refused_head _ _ := None;
  parse_register b := if bytes_eqb b [byte_of_Z 0x61] then Some register_alice else None;
  parse_delete _ := None;
  parse_push_token _ := None;
  parse_challenge _ := None;
  parse_token _ := None;
  parse_pair _ := None;
  parse_revoke _ := None;
  parse_push _ := None;
  parse_delete_query _ := Some (mkDeleteQuery false);
  parse_list_query _ := Some (mkListQuery None)
|}.

#[export] Instance example_extractor_laws : ExtractorLaws.
Proof.
  refine {| payload := λ b : @Body example_extractors, b |}.
  - cbn. intros limit b l. destruct (Z.leb_spec (Z.of_nat (length b)) limit); [|done].
    by intros [= <-].
  - done.
Defined.

(** The registration of Alice, and one with five thousand bytes. *)
Definition post_devices (body : bytes) : Message :=
  mkMessage _ POST ["v1"; "devices"] http0 tt body false.

Example small_registration_served :
  r_status <$> (run (serve_http st0 (post_devices [byte_of_Z 0x61])) env0 world0).1 = Some 201.
Proof. vm_compute. reflexivity. Qed.

Definition big_post : Message := post_devices (replicate 5000 (byte_of_Z 0x61)).

Lemma oversize_refused_witness :
  ∃ r w', runs (serve_http st0 big_post) world0 r w' ∧
    (∃ err, r = Some (error_response err)) ∧ w_db w' = w_db world0.
Proof.
  destruct (run_such (λ _ _, true) (serve_http st0 big_post) env0 world0) as (r & w' & Hr & _);
    [reflexivity|].
  assert (configure (ms_method big_post) (ms_path big_post) = Some EDevices) as He by reflexivity.
  assert (needs_body EDevices = true) as Hn by reflexivity.
  assert (json_limit EDevices < Z.of_nat (length (payload (ms_body big_post)))) as Hlen
    by (vm_compute; reflexivity).
  pose proof (oversize_refused st0 big_post EDevices world0 w' r He Hn Hlen) as H. specialize (H Hr).
  destruct H as (Herr & Hdb & _). exists r, w'. split; [exact Hr|]. split; [exact Herr|exact Hdb].
Defined.

(** Two instances clean up on the same day: the first took the lock. *)
Definition won (p : option (prog (option string))) : bool :=
  match p with Some (Ret (Some k)) => bool_decide (k = cleanup_lock_key clock) | _ => false end.

Lemma cleanup_runs_once_witness : (length [0%nat] <= 1)%nat.
Proof.
  pose (ps := [cleanup_turn st0; cleanup_turn st0]).
  pose (s := pool_run (steps 0 8 ++ steps 1 8) (world0, ps)).
  assert (Forall (λ p, ∃ st, p = cleanup_turn st) ps) as Hp
    by (constructor; [|constructor; [|constructor]]; exists st0; reflexivity).
  assert (rtc pool_step (world0, ps) (s.1, s.2)) as Hr
    by (rewrite <-surjective_pairing; apply pool_run_steps).
  assert (w_rnow s.1 < w_rnow world0 + 1000 * CLEANUP_LOCK_TTL_SECS) as Ht by (vm_compute; reflexivity).
  assert (Forall (λ j, s.2 !! j = Some (Ret (Some (cleanup_lock_key clock)))) [0%nat]) as Hj.
  { constructor; [|constructor]. assert (won (s.2 !! 0%nat) = true) as H by (vm_compute; reflexivity).
    clearbody s. destruct (s.2 !! 0%nat) as [[[k|]|]|]; try discriminate H.
    apply bool_decide_eq_true in H. subst k. reflexivity. }
  exact (cleanup_runs_once (cleanup_lock_key clock) ps s.2 world0 s.1 [0%nat] Hp Hr Ht
    (NoDup_singleton _) Hj).
Defined.

(** ** The database *)

Definition revoked_row : PairRow :=
  mkPairRow alice bob attestation0 (arr_bytes sig_a) (arr_bytes sig_b) 500 (Some clock) (Some alice)
    (Some (arr_bytes revoke_sig)).
Definition db_revoked : Db := mkDb {[alice := alice_row; bob := bob_row]} {[pid := revoked_row]} ∅.

Lemma first_statement_stays_witness :
  let db' := (exec_sql (QRevoke notice) 900 db_revoked).2 in
  pairs db' !! pid = Some revoked_row ∨
  pairs db' !! pid = None ∧ (devices db' !! alice = None ∨ devices db' !! bob = None).
Proof.
  assert (pairs db_revoked !! pid = Some revoked_row) as Hp by apply lookup_singleton_eq.
  assert (p_revoked_at revoked_row ≠ None) as Hr by (intros [=]).
  exact (first_statement_stays (QRevoke notice) 900 db_revoked pid revoked_row Hp Hr).
Defined.

(** A registration and a connection, interleaved. *)
Definition all_tasks : list (AppState * Task) :=
  [(st0, TRequest http0 (PostDevices (Ok register_alice))); (st0, TConnection bob [close_turn])].
Definition interleaved := pool_run (steps 0 3 ++ steps 1 2 ++ steps 0 9 ++ steps 1 9)
  (world0, map task all_tasks).

Lemma relay_stays_certified_witness : db_ok (w_db interleaved.1).
Proof.
  assert (db_ok (w_db world0)) as H0 by (split; apply map_Forall_empty).
  assert (rtc pool_step (world0, map task all_tasks) (interleaved.1, interleaved.2)) as Hr
    by (rewrite <-surjective_pairing; apply pool_run_steps).
  exact (relay_stays_certified all_tasks world0 interleaved.1 interleaved.2 H0 Hr).
Defined.

Lemma relay_refines_directory_witness :
  rtc dir_step (directory (w_db world0)) (directory (w_db interleaved.1)).
Proof.
  assert (db_ok (w_db world0)) as H0 by (split; apply map_Forall_empty).
  assert (rtc pool_step (world0, map task all_tasks) (interleaved.1, interleaved.2)) as Hr
    by (rewrite <-surjective_pairing; apply pool_run_steps).
  exact (relay_refines_directory all_tasks world0 interleaved.1 interleaved.2 H0 Hr).
Defined.

(** The connection of the interleaving on its way to its next Redis command. *)
Definition halfway := pool_run (steps 0 3 ++ steps 1 4) (world0, map task all_tasks).
Definition claims (p : option (prog unit)) : bool :=
  match p with
  | Some (Do (CRedis (RSetEx k v _)) _) =>
    bool_decide (k = presence_key bob ∧ v = instance_id (st_settings st0))
  | _ => false
  end.

Lemma keyspace_typed_witness :
  keyspace_ok halfway.1 ∧
  ∃ A (q : redis A) k, halfway.2 !! 1%nat = Some (Do (CRedis q) k) ∧
    is_Some (exec calm (CRedis q) halfway.1).1.
Proof.
  assert (keyspace_ok world0) as H0 by (intros t k v _ [=]).
  assert (rtc pool_step (world0, map task all_tasks) (halfway.1, halfway.2)) as Hr
    by (rewrite <-surjective_pairing; apply pool_run_steps).
  destruct (keyspace_typed all_tasks world0 halfway.1 halfway.2 H0 Hr) as [Hw Hq].
  split; [exact Hw|].
  assert (claims (halfway.2 !! 1%nat) = true) as Hn by (vm_compute; reflexivity).
  specialize (Hq 1%nat). revert Hq Hn. generalize (halfway.2 !! 1%nat). intros o Hq Hn.
  destruct o as [[u|X c k]|]; [discriminate|destruct c; try discriminate|discriminate].
  destruct q; try discriminate. eexists _, _, k. split; [reflexivity|].
  exact (Hq _ _ k calm eq_refl eq_refl I).
Defined.

(** The revoked pair of the two devices is certified. *)
Lemma demo_signed d k msg :
  matches_public_key d k = true → verify_strict (k : VerifyingKey) msg (demo_sign k msg) = true →
  signed_by d k msg (demo_sign k msg).
Proof. intros Hd Hs. split; [by apply bool_decide_eq_true in Hd|]. by exists k. Qed.

Lemma attested0 : attested pid alice bob 500 attestation0 (arr_bytes sig_a) (arr_bytes sig_b).
Proof.
  exists (pub 1), (pub 2), sig_a, sig_b. split; [reflexivity|].
  split; [vm_compute; split; intros [=]|]. split; [reflexivity|]. split; [reflexivity|].
  split; apply demo_signed; vm_compute; reflexivity.
Qed.

Lemma revoked_db_ok : db_ok db_revoked.
Proof.
  assert (alice ≠ bob) as Hne by (intros H; vm_compute in H; discriminate H).
  assert (is_Some (devices db_revoked !! alice) ∧ is_Some (devices db_revoked !! bob)) as [Ha Hb].
  { split; cbn [devices db_revoked]; rewrite ?lookup_insert_eq, ?lookup_insert_ne by done;
      by rewrite ?lookup_insert_eq; eexists. }
  split.
  - cbn [devices db_revoked]. apply map_Forall_insert_2; [|apply map_Forall_insert_2, map_Forall_empty].
    + split; [by exists (pub 1)|]. split; [left|]. by left.
    + split; [by exists (pub 2)|]. split; [do 2 right; left|]. right; left.
  - apply map_Forall_singleton. split; [exact Hne|]. split; [exact Ha|]. split; [exact Hb|]. split.
    + exists 500. split; [reflexivity|exact attested0].
    + split; [by apply orb_true_iff; left; apply bool_decide_eq_true|].
      exists (pub 1), revoke_sig, clock. split; [reflexivity|]. split; [reflexivity|].
      split; [intros [=]|]. apply demo_signed; vm_compute; reflexivity.
Qed.

Lemma revocation_final_witness :
  ∃ w', (∃ p', pairs (w_db w') !! pid = Some p' ∧ bond p' = bond revoked_row) ∨
    ∃ D, rtc dir_step (directory db_revoked) D ∧ dir_pairs D !! pid = None ∧
      rtc dir_step D (directory (w_db w')).
Proof.
  pose (w := with_db db_revoked world0).
  pose (s := pool_run (steps 0 3 ++ steps 1 2 ++ steps 0 9) (w, map task all_tasks)).
  exists s.1.
  assert (rtc pool_step (w, map task all_tasks) (s.1, s.2)) as Hr
    by (rewrite <-surjective_pairing; apply pool_run_steps).
  assert (pairs (w_db w) !! pid = Some revoked_row) as Hp by apply lookup_singleton_eq.
  assert (p_revoked_at revoked_row ≠ None) as Hv by (intros [=]).
  exact (revocation_final all_tasks w s.1 s.2 pid revoked_row revoked_db_ok Hr Hp Hv).
Defined.
